(* ===== verification/_CoqProject ===== *)
-Q . S2P
Prelude.v
Text.v
Bytes.v
F64.v
HealthCodec.v
Contract.v
HealthMethod.v
Metadata.v
Interceptors.v
Intercepted.v
InterceptedSpec.v
Identity.v
Bearer.v
Frames.v
Peer.v
Polling.v
Proxy.v
Accepting.v
Cancellation.v
Channel.v
Pki.v
Endpoint.v
EgressBuilder.v
AsyncClient.v
EndpointRace.v
Futures.v
RetryConfig.v
RetryClassifier.v
Retry.v
RetrySpec.v
RetrySteady.v
RetryClient.v
RetryFuture.v
BreakerConfig.v
Breaker.v
BreakerSpec.v
BreakerRace.v
BreakerFuture.v
Stack.v
StackFuture.v
Resilience.v
Providers.v
Fixtures.v
Flaky.v
Suite.v
Host.v
Wire.v
Runtime.v
Network.v
NetRuntime.v
Scenarios.v
Examples.v
ScenarioSpec.v
CancelScenario.v
Outage.v
Balanced.v
AllOptions.v
Generic.v
Root.v
