(* ===== verification/Prelude.v ===== *)
(** * The gRPC egress client of edge-transport-grpc-egress, verified

    The repository is a client library: a caller builds a client of a gRPC peer, wraps it in
    decorators (retry, circuit breaker) and views (caller identity, cancellation), and makes typed
    or raw calls of the four shapes (unary, server-, client-streaming, bidirectional).  Every crate
    is written against traits; the values the traits exchange are those of a contract crate,
    [proto_pattern], whose code is not in the repository.  Paths below are under [src/scm/main/].

    ** How a call travels

    [EgressBuilder.build] puts the interceptor chain ([Intercepted]) around one endpoint or several
    balanced ones ([Endpoint]), whose clients an engine outside the repository makes.  The retry
    decorator ([Retry]) attempts unary calls of such a client again; the breaker ([Breaker]) refuses
    calls while the peer is failing; [Resilience] puts the first inside the second.  The views
    ([Identity], [Cancellation]) add headers to each call, or end calls when a signal fires.

    The tests and examples of the repository run such clients against peers in the same process:
    [Peer] answers and records, [Proxy] stands in between and can be frozen, and the scenarios
    ([Scenarios], [Examples], [Flaky]) are programs over a client and such a peer.  What a client
    and a peer have in common is the wire ([Wire]): one HTTP/2 request for a call, its headers and
    one frame, and an answer that is read by the protocol.  What runs a program's futures is
    [Runtime].  The program of the composition root, all scenarios in order, is [Root].

    ** Conventions

    Fallible code returns a [Result]; code that awaits or mutates is an [eff W], a function of a
    world [W] (the peer, the clock, the file system, a pool) that returns the next world; code that
    may panic returns an [option] of its result as well ([may_panic]).  A state shared behind a
    lock is a component of the world, and where tasks interleave on it ([BreakerRace]) each access
    under the lock is a step of its own.  Unsigned integers are [N] with their bounds written out,
    floating-point numbers the binary64 numbers of [SpecFloat], strings the UTF-8 bytes of a
    [string].  A [&mut dyn] argument is threaded state, so interceptors are polymorphic in the
    implementation of [OutboundCall].  Fluent builders are a [setter] type with one constructor per
    method and a [set] function.  Log lines and metrics are left out.

    ** Files

    Shared: [Prelude] (results, effects, tactics), [Text] (UTF-8, trimming, searching, decimal
    numbers), [Bytes] (bytes and words), [F64] (floating point), [Contract] (the contract crate: its
    data, and as the class [Contract] its opaque types; [list_contract] is the instance the witnesses
    run on).

    Health messages: [HealthCodec] ([transport-api/src/client/dto/health_proto_codec.rs] and the two
    messages), [HealthMethod] (the method that carries them).

    Metadata and interceptors: [Metadata] ([std_metadata_extender.rs]; the class [MetadataLaws] says
    what is relied on of the contract's metadata, and is instantiated), [Interceptors]
    ([transport-api/src/interceptor/], [transport-std/src/std/interceptor/], [pending_call.rs]; the
    class [OutboundCallLaws] is the interface, [pending_laws] its implementation), [Intercepted]
    ([intercepted_transport.rs], [pattern_egress_interceptor.rs]) and [InterceptedSpec] (its
    theorems).

    Views: [Identity] ([transport-spi/src/spi/context/]), [Cancellation]
    ([transport-spi/src/spi/cancellation/signal/]), where calls and reads are futures polled by an
    executor.

    Futures: a call that is dropped may have done half of what it does, so every layer is modelled
    once more as futures: the eight calls of a built client and the streams it observes
    ([AsyncClient]), the retry decorator ([RetryFuture]), the breaker ([BreakerFuture]), the identity
    view and the whole stack ([StackFuture]); [Futures] has the rules by which each is shown to do,
    polled to its end without a break, what the operations of its file do.

    Credentials: [Bearer] (the three [auth-bearer] crates).

    Tests: [Frames] ([test-support/src/frame/]), [Peer] ([peer/]), [Polling] and [Proxy]
    ([proxy/]), [Accepting] (the accept loops of both, which the drop of a handle ends), [Pki]
    ([tls/]), [Fixtures] ([setup/]), [Suite] (the reports, the suite and the composition root of
    [examples/composition-root/src/]).

    Building a client: [Channel] ([transport-api/src/channel/], [loadbalancer/] and
    [transport-std/src/std/channel/]), [Endpoint] ([endpoint_transport.rs]), [EndpointRace]
    (the futures of calls through one pool, at the same time), [EgressBuilder] ([grpc_egress_builder.rs]).

    Retry: [RetryConfig] (policy, builder, provider), [RetryClassifier] (the interface as a class
    with laws and the standard classifier), [Retry] ([retry_transport.rs]), [RetrySpec] (the abstract
    [policy] of a run and the refinement), [RetrySteady] (runs on a
    steady clock, exactly), [RetryClient] (typed calls over the loop).

    Breaker: [BreakerConfig], [Breaker] ([breaker_egress.rs], [grpc_breaker_client.rs], the failure
    classifier), [BreakerSpec] (one call and sequences of calls), [BreakerRace] (interleavings).

    Both: [Resilience] (the [resilient] crates), [Providers] (the traits configurations are read
    through, as records, and the factories that hand out their implementations), [Stack] (the whole
    composition, down to what the engine is given).

    What programs run on: [Host] (classes [Host] of listeners, request logs, tasks and ports,
    [TlsHost], [Logs]; how a peer starts and stops and a port is reserved: [peer_server.rs],
    [running_peer.rs], [echo_server.rs], [closed_port.rs]), [Wire] (classes [Wire] and [WireLaws]:
    what is relied on of the engine and the operating system; [TypedLaws], [PoolLaws] and [TlsLaws]
    for typed calls, pools and TLS), [Runtime] (timers, tokens and a peer that is slow on request: [RuntimeLaws],
    [EchoLaws]), [Network] and [NetRuntime] (an instance of all of these, in memory, on which the
    witnesses run).

    Programs: [Flaky] ([retry-spi/examples/], [resilient-spi/examples/]), [Examples]
    ([breaker-spi/examples/], [auth-bearer-spi/examples/]), [Scenarios] and [CancelScenario]
    ([examples/composition-root/src/*_scenario.rs]); what the scenarios see is in [ScenarioSpec],
    [Outage] (the decorators), [Balanced] (the load balancer), [AllOptions], [Generic] and
    [CancelScenario]; [Root] is the program that runs them ([scenario_suite.rs], [main.rs]).

    ** What the theorems show

    Retry: the loop refines a policy given as an inductive relation on runs; its result is that of
    the last attempt; attempts are bounded on both tracks; a timeout is one budget for the whole
    call; persistent failures make an exact number of attempts; the classifier is its documented
    table and reads back a retry-after hint; builders and parsers give exactly the well-formed
    policies.  Interrupted, a call has begun as many attempts as its locals say, and its drop begins
    none.

    Breaker: failures trip the circuit at the threshold, probes after the cool-down close it or open
    it again, and while it is open nothing is sent; raw and typed calls are guarded alike; in every
    interleaving the circuit opens for failures only, and for no fewer than its threshold; and the
    state read before the lock is taken again can undo a trip.  The futures of
    guarded calls take no steps but those of [BreakerRace], and calls that are dropped before they end
    trip nothing.

    Interceptors and streams: the order of the callbacks and events around a call; the lifecycle of
    an observed stream from its start to its drop; headers are added once and only when absent.

    Views and credentials: a race with a signal ends in one of three ways and never polls what lost;
    streams opened through a view end with it; identity headers and bearer tokens are added exactly
    where the caller set none.

    Policies: one that is read from a text builds its client.

    Building: a client that is built has one engine client per URL with TLS exactly where the URL is
    not plaintext, plaintext only where it was allowed, and never a panic unless a URL has a
    character across its seventh byte; an endpoint reports each balanced call once, to the backend
    that took it, and in every interleaving of the futures of calls each pick of the pool is
    reported once, as its call ended, or its call is out or was dropped.

    Dropped calls: a call whose future is dropped half-way has run the chain and picked a client, and
    nothing of what comes after the answer: no event ends it and no report is made.  A stream whose
    signal has fired fails every read, and its interceptors see it cancelled once, when it is dropped.

    Codec: health messages and frames read back what was written; decoding any bytes terminates;
    the estimated length is exact.

    Tests: however its requests interleave, a peer records each once and answers it as its behaviour
    says, and after the drop of its handle only the connections that are open are served; a proxy
    forwards every byte in order until it is frozen and none it reads afterwards; a wait ends within
    its limit; a fixture call does what the library's own does; the exit code of
    the suite is success exactly when every effect of every scenario was seen.

    Composition: a call through all layers, as one future, ends with what their operations do
    together.  Through the view, the breaker, the retry decorator and the trace context together,
    every call the engine gets carries the same headers, each added once.  The examples and the nine
    scenarios run to their end and see every effect they look for, on every engine, host, pool, clock
    and runtime that keeps the laws, so the program of the composition root exits with success.

    ** Bounds and fuel

    A loop of the code that is not structural has fuel that is provably enough: ten turns for a
    varint of 64 bits, the length of the input for fields, characters and frames (each turn takes at
    least a byte), the attempt limit for the retry loop (the code's own [for]).  The executor of
    [Cancellation] polls a given number of times, and its theorems speak of every number; the
    cancellation scenario takes a number of polls in which two seconds pass, which is enough for each
    of its calls.  The loops that wait for a condition poll as often as the limit has pauses, and one
    more time.  What is relied on of the wire speaks of calls whose message and answer are at most
    65535 bytes, within the limits the client was made with, and whose headers are at most 8192; the
    scenarios' are, when the default metadata is empty, which they take as a hypothesis.

    ** What is not modelled

    The crates outside the repository are parameters: the contract's opaque values, the engine that
    connects, the load balancer's pool, the breaker's state machine, the back-off and jitter
    computations, the signer, the TOML reader (which of several errors in a text it reports is its
    own), the HTTP/2 server, the makers of certificates and TLS configurations, the sockets, the disk
    and the runtime.  A task that is spawned is polled after each move of the rest of the world.  The
    drop of a peer at the end of a scenario is left out there, and so is the TLS provider that a
    fixture installs once in the process.  A trait without code of its own is a class or a record of
    operations, a request object the tuple of its fields, a getter the projection of its field.  Time
    taken by a comparison of secrets is not modelled.  A poll of a call through the breaker runs
    without other threads; an access of another to the node in the middle of it is one between two
    polls, the lock being found busy.

    ** What comes next

    The layers as futures have the breaker's interleavings only; those of several calls through one
    retrying client share nothing but the pool, whose interleavings are in [EndpointRace]. *)

From Stdlib Require Import NArith ZArith Lia.
From stdpp Require Import base list strings option.

(** ** Notations *)

Declare Scope egress_scope.
Delimit Scope egress_scope with egress.

(** ** Rust's [Result] *)

Inductive Result (A E : Type) : Type :=
| Ok (a : A)
| Err (e : E).
Arguments Ok {A E} a.
Arguments Err {A E} e.

Section result.
Context {A B E F : Type}.

Definition rbind (r : Result A E) (k : A -> Result B E) : Result B E :=
  match r with Ok a => k a | Err e => Err e end.

Definition rmap (f : A -> B) (r : Result A E) : Result B E :=
  match r with Ok a => Ok (f a) | Err e => Err e end.

Definition map_err (f : E -> F) (r : Result A E) : Result A F :=
  match r with Ok a => Ok a | Err e => Err (f e) end.

Definition ok_or (o : option A) (e : E) : Result A E :=
  match o with Some a => Ok a | None => Err e end.

Definition is_ok (r : Result A E) : bool :=
  match r with Ok _ => true | Err _ => false end.

Definition ok_option (r : Result A E) : option A :=
  match r with Ok a => Some a | Err _ => None end.
End result.

#[export] Instance result_eq_dec {A E} `{EqDecision A} `{EqDecision E} :
  EqDecision (Result A E).
Proof. solve_decision. Defined.

Notation "'let?' x ':=' r 'in' k" := (rbind r (fun x => k))
  (at level 10, x pattern, r at level 100, k at level 200,
   format "'[v' 'let?'  x  ':='  r  'in' '/' k ']'") : egress_scope.

Definition is_nil {A} (l : list A) : bool := match l with [] => true | _ => false end.

(** ** Effects: explicit state passing *)

(** An operation that may change a state [W] and returns an [A]. *)
Definition eff (W A : Type) : Type := W -> A * W.

Definition ret {W A} (a : A) : eff W A := fun w => (a, w).

Definition bind {W A B} (m : eff W A) (k : A -> eff W B) : eff W B :=
  fun w => let '(a, w') := m w in k a w'.

(** Rust's [?] on an awaited fallible call. *)
Definition bindr {W A B E} (m : eff W (Result A E)) (k : A -> eff W (Result B E)) :
    eff W (Result B E) :=
  bind m (fun r => match r with Ok a => k a | Err e => ret (Err e) end).

(** An operation that only changes the state. *)
Definition act {W} (f : W -> W) : eff W unit := fun w => (tt, f w).

(** The same operation when the state has one more component. *)
Definition lift {F V A} (m : eff V A) : eff (F * V) A :=
  fun '(f, v) => let '(a, v') := m v in (a, (f, v')).

Notation "'let!' x ':=' m 'in' k" := (bind m (fun x => k))
  (at level 10, x pattern, m at level 100, k at level 200,
   format "'[v' 'let!'  x  ':='  m  'in' '/' k ']'") : egress_scope.
Notation "'let!?' x ':=' m 'in' k" := (bindr m (fun x => k))
  (at level 10, x pattern, m at level 100, k at level 200,
   format "'[v' 'let!?'  x  ':='  m  'in' '/' k ']'") : egress_scope.
Notation "m ';;;' k" := (bind m (fun _ => k))
  (at level 199, right associativity) : egress_scope.

(** An operation that may panic too; [None] is the panic. *)
Definition may_panic (W A E : Type) : Type := eff W (option (Result A E)).

Definition bindp {W A B E} (m : may_panic W A E) (k : A -> may_panic W B E) : may_panic W B E :=
  bind m (fun r => match r with
                   | Some (Ok a) => k a
                   | Some (Err e) => ret (Some (Err e))
                   | None => ret None
                   end).

(** An operation that does not panic, and a pure one. *)
Definition no_panic {W A E} (m : eff W (Result A E)) : may_panic W A E := bind m (fun r => ret (Some r)).
Definition pure_result {W A E} (r : Result A E) : may_panic W A E := ret (Some r).

Notation "'let*' x ':=' m 'in' k" := (bindp m (fun x => k))
  (at level 10, x pattern, m at level 100, k at level 200,
   format "'[v' 'let*'  x  ':='  m  'in' '/' k ']'") : egress_scope.

Open Scope egress_scope.

(** ** Automation *)

Lemma bindp_inv {W A B E} (m : may_panic W A E) (k : A -> may_panic W B E) w b w' :
  bindp m k w = (Some (Ok b), w') ->
  exists a w1, m w = (Some (Ok a), w1) /\ k a w1 = (Some (Ok b), w').
Proof. unfold bindp, bind, ret. destruct (m w) as [[[a|e]|] w1]; naive_solver. Qed.

Create HintDb egress discriminated.
Create Rewrite HintDb eff.

Lemma bind_ret_l {W A B} (a : A) (k : A -> eff W B) w : bind (ret a) k w = k a w.
Proof. reflexivity. Qed.

Lemma bindr_ok {W A B E} (a : A) (k : A -> eff W (Result B E)) w :
  bindr (ret (Ok a)) k w = k a w.
Proof. reflexivity. Qed.

Lemma bindr_err {W A B E} (e : E) (k : A -> eff W (Result B E)) w :
  bindr (ret (Err e)) k w = (Err e, w).
Proof. reflexivity. Qed.

Lemma bind_run {W A B} (m : eff W A) (k : A -> eff W B) w a w' :
  m w = (a, w') -> bind m k w = k a w'.
Proof. intros H. unfold bind. by rewrite H. Qed.

Lemma bindr_run_ok {W A B E} (m : eff W (Result A E)) (k : A -> eff W (Result B E)) w a w' :
  m w = (Ok a, w') -> bindr m k w = k a w'.
Proof. intros H. unfold bindr, bind. by rewrite H. Qed.

Lemma bindr_run_err {W A B E} (m : eff W (Result A E)) (k : A -> eff W (Result B E)) w e w' :
  m w = (Err e, w') -> bindr m k w = (Err e, w').
Proof. intros H. unfold bindr, bind. by rewrite H. Qed.

#[export] Hint Rewrite @bind_ret_l @bindr_ok @bindr_err : eff.

Lemma rbind_ok {A B E} (r : Result A E) (k : A -> Result B E) b :
  rbind r k = Ok b <-> exists a, r = Ok a /\ k a = Ok b.
Proof. destruct r; naive_solver. Qed.

Lemma rbind_err {A B E} (r : Result A E) (k : A -> Result B E) e :
  rbind r k = Err e <-> r = Err e \/ exists a, r = Ok a /\ k a = Err e.
Proof. destruct r; naive_solver. Qed.

(** Split on every [match] and [if] of the goal or of a hypothesis, and clean up. *)
Ltac case_all :=
  repeat first [ progress simplify_eq | case_match ].

(** Run an effectful definition one destructed call at a time. *)
Ltac step_eff :=
  repeat (unfold bindr, bind, ret, act in *; simpl in *; case_match; simplify_eq).

(** Destruct a conjunction of boolean guards into propositions. *)
Ltac bool_prop :=
  repeat match goal with
  | H : andb _ _ = true |- _ => apply andb_prop in H as [? ?]
  | H : orb _ _ = false |- _ => apply orb_false_elim in H as [? ?]
  | H : negb _ = true |- _ => apply negb_true_iff in H
  | H : negb _ = false |- _ => apply negb_false_iff in H
  | H : N.eqb _ _ = true |- _ => apply N.eqb_eq in H
  | H : N.eqb _ _ = false |- _ => apply N.eqb_neq in H
  | H : N.ltb _ _ = true |- _ => apply N.ltb_lt in H
  | H : N.ltb _ _ = false |- _ => apply N.ltb_ge in H
  | H : N.leb _ _ = true |- _ => apply N.leb_le in H
  | H : N.leb _ _ = false |- _ => apply N.leb_gt in H
  end.
