(* ===== verification/Text.v ===== *)
(** * Rust strings

    The source handles text as Rust [str]: a sequence of UTF-8 bytes.  Here it is a Rocq [string],
    byte for byte.  This file models the operations of the standard library that the source calls
    ([char] boundaries and slicing, [find], [contains], [trim], [parse::<u64>],
    [to_ascii_lowercase], [eq_ignore_ascii_case], [from_utf8]) and the decimal printing that
    [format!] uses for an integer. *)

From S2P Require Import Prelude.
From Stdlib Require Import NArith Lia Ascii.
From stdpp Require Import base list strings option.

Open Scope string_scope.

(** ** Bytes and character boundaries *)

Definition code (c : ascii) : N := N_of_ascii c.

(** A UTF-8 continuation byte, [10xxxxxx]. *)
Definition is_continuation (c : ascii) : bool := ((128 <=? code c) && (code c <? 192))%N.

Definition str_len (s : string) : nat := String.length s.

Definition is_empty (s : string) : bool :=
  match s with EmptyString => true | _ => false end.

(** [str::is_char_boundary]. *)
Fixpoint is_char_boundary (s : string) (i : nat) : bool :=
  match i, s with
  | O, _ => true
  | S _, EmptyString => false
  | S i', String c s' =>
      match i', s' with
      | O, EmptyString => true
      | O, String c' _ => negb (is_continuation c')
      | _, _ => is_char_boundary s' i'
      end
  end.

(** [&s[..i]]: [None] is the panic of an index that is out of range or inside a character. *)
Definition slice_to (s : string) (i : nat) : option string :=
  if is_char_boundary s i then Some (String.substring 0 i s) else None.

(** ** ASCII case *)

Definition ascii_lower (c : ascii) : ascii :=
  if ((65 <=? code c) && (code c <=? 90))%N then ascii_of_N (code c + 32) else c.

Fixpoint to_ascii_lowercase (s : string) : string :=
  match s with
  | EmptyString => EmptyString
  | String c s' => String (ascii_lower c) (to_ascii_lowercase s')
  end.

Definition eq_ignore_ascii_case (s t : string) : bool :=
  String.eqb (to_ascii_lowercase s) (to_ascii_lowercase t).

(** ** Searching *)

(** [str::find]: the byte index of the first occurrence. *)
Fixpoint find (needle s : string) : option nat :=
  if String.prefix needle s then Some O
  else match s with
       | EmptyString => None
       | String _ s' => S <$> find needle s'
       end.

Definition contains (s needle : string) : bool :=
  match find needle s with Some _ => true | None => false end.

(** [&s[i..]] at an index known to be a boundary. *)
Fixpoint drop_bytes (i : nat) (s : string) : string :=
  match i, s with
  | S i', String _ s' => drop_bytes i' s'
  | _, _ => s
  end.

(** [&s[..i]] at an index known to be a boundary. *)
Fixpoint take_bytes (i : nat) (s : string) : string :=
  match i, s with
  | S i', String c s' => String c (take_bytes i' s')
  | _, _ => EmptyString
  end.

(** ** UTF-8 *)

Definition in_range (lo hi : N) (c : ascii) : bool := ((lo <=? code c) && (code c <=? hi))%N.

Definition payload (c : ascii) : N := N.land (code c) 63.

(** The first character of the text and the rest, by the table of well-formed UTF-8 that
    [core::str::from_utf8] checks; [None] when the bytes do not start with a character. *)
Definition utf8_next (s : string) : option (N * string * string) :=
  match s with
  | EmptyString => None
  | String a s1 =>
      if (code a <? 128)%N then Some (code a, String a "", s1)
      else if in_range 194 223 a then
        match s1 with
        | String b s2 =>
            if is_continuation b
            then Some (N.land (code a) 31 * 64 + payload b, String a (String b ""), s2)%N
            else None
        | _ => None
        end
      else if in_range 224 239 a then
        match s1 with
        | String b (String c s3) =>
            let lo := if (code a =? 224)%N then 160%N else 128%N in
            let hi := if (code a =? 237)%N then 159%N else 191%N in
            if in_range lo hi b && is_continuation c
            then Some ((N.land (code a) 15 * 64 + payload b) * 64 + payload c,
                       String a (String b (String c "")), s3)%N
            else None
        | _ => None
        end
      else if in_range 240 244 a then
        match s1 with
        | String b (String c (String d s4)) =>
            let lo := if (code a =? 240)%N then 144%N else 128%N in
            let hi := if (code a =? 244)%N then 143%N else 191%N in
            if in_range lo hi b && is_continuation c && is_continuation d
            then Some (((N.land (code a) 7 * 64 + payload b) * 64 + payload c) * 64 + payload d,
                       String a (String b (String c (String d ""))), s4)%N
            else None
        | _ => None
        end
      else None
  end.

(** The characters of the text with their bytes; a byte that starts no character stands for itself,
    which no valid text has. *)
Fixpoint pieces (fuel : nat) (s : string) : list (N * string) :=
  match fuel with
  | O => []
  | S fuel' =>
      match s with
      | EmptyString => []
      | String c s' =>
          match utf8_next s with
          | Some (cp, bytes, rest) => (cp, bytes) :: pieces fuel' rest
          | None => (65533%N, String c "") :: pieces fuel' s'
          end
      end
  end.

Definition chars (s : string) : list (N * string) := pieces (str_len s) s.

Fixpoint utf8_check (fuel : nat) (s : string) : bool :=
  match fuel, s with
  | _, EmptyString => true
  | O, _ => false
  | S fuel', _ =>
      match utf8_next s with
      | Some (_, _, rest) => utf8_check fuel' rest
      | None => false
      end
  end.

(** [core::str::from_utf8(..).is_ok()]. *)
Definition utf8_valid (s : string) : bool := utf8_check (str_len s) s.

(** How many bytes of [s], which does not start with a character, one replacement character stands
    for: the longest prefix that could still begin one, and at least a byte. *)
Definition invalid_len (s : string) : nat :=
  match s with
  | String a (String b s2) =>
      let third := match s2 with String c _ => is_continuation c | EmptyString => false end in
      if in_range 224 239 a then
        let lo := if (code a =? 224)%N then 160%N else 128%N in
        let hi := if (code a =? 237)%N then 159%N else 191%N in
        if in_range lo hi b then 2 else 1
      else if in_range 240 244 a then
        let lo := if (code a =? 240)%N then 144%N else 128%N in
        let hi := if (code a =? 244)%N then 143%N else 191%N in
        if in_range lo hi b then if third then 3 else 2 else 1
      else 1
  | _ => 1
  end%nat.

Definition REPLACEMENT : string :=
  String (ascii_of_N 239) (String (ascii_of_N 191) (String (ascii_of_N 189) "")).

Fixpoint lossy_loop (fuel : nat) (s : string) : string :=
  match fuel, s with
  | S fuel', String _ _ =>
      match utf8_next s with
      | Some (_, bytes, rest) => bytes +:+ lossy_loop fuel' rest
      | None => REPLACEMENT +:+ lossy_loop fuel' (drop_bytes (invalid_len s) s)
      end
  | _, _ => ""
  end.

(** [String::from_utf8_lossy]. *)
Definition from_utf8_lossy (s : string) : string := lossy_loop (str_len s) s.

(** ** [trim] *)

(** The Unicode property [White_Space], which [char::is_whitespace] tests. *)
Definition is_whitespace (cp : N) : bool :=
  ((9 <=? cp) && (cp <=? 13) || (cp =? 32) || (cp =? 133) || (cp =? 160) || (cp =? 5760)
   || (8192 <=? cp) && (cp <=? 8202) || (cp =? 8232) || (cp =? 8233) || (cp =? 8239)
   || (cp =? 8287) || (cp =? 12288))%N.

Fixpoint drop_white (cs : list (N * string)) : list (N * string) :=
  match cs with
  | (cp, bytes) :: cs' => if is_whitespace cp then drop_white cs' else cs
  | [] => []
  end.

Definition concat_pieces (cs : list (N * string)) : string :=
  foldr (fun p s => String.append p.2 s) "" cs.

(** [str::trim]. *)
Definition trim (s : string) : string :=
  concat_pieces (rev (drop_white (rev (drop_white (chars s))))).

(** ** Decimal integers *)

Definition U64_MAX : N := 18446744073709551615.

Definition digit_of (c : ascii) : option N :=
  if in_range 48 57 c then Some (code c - 48)%N else None.

(** One step of [u64::from_str]: [None] once a character is no digit or the value overflows. *)
Definition push_digit (acc : option N) (c : ascii) : option N :=
  v ← acc; d ← digit_of c;
  let v' := (v * 10 + d)%N in
  if (v' <=? U64_MAX)%N then Some v' else None.

Definition parse_digits (s : string) : option N :=
  fold_left push_digit (String.list_ascii_of_string s) (Some 0%N).

(** [str::parse::<u64>().ok()]: an optional [+], then at least one digit, no overflow. *)
Definition parse_u64 (s : string) : option N :=
  match s with
  | EmptyString => None
  | String c s' =>
      if (code c =? 43)%N
      then match s' with EmptyString => None | _ => parse_digits s' end
      else parse_digits s
  end.

Definition digit_char (d : N) : ascii := ascii_of_N (48 + d).

Fixpoint decimal_fuel (fuel : nat) (n : N) : list ascii :=
  match fuel with
  | O => []
  | S fuel' =>
      if (n <? 10)%N then [digit_char n]
      else decimal_fuel fuel' (n / 10) ++ [digit_char (n mod 10)]
  end.

(** [u64::to_string]: twenty digits are enough for a value of 64 bits. *)
Definition decimal (n : N) : string := String.string_of_list_ascii (decimal_fuel 20 n).

(** ** Lemmas *)

Lemma string_app_assoc s t u : (s +:+ t) +:+ u = s +:+ (t +:+ u).
Proof. induction s as [|c s IH]; [done|]. exact (f_equal (String c) IH). Qed.

Lemma str_len_app s t : str_len (s +:+ t) = (str_len s + str_len t)%nat.
Proof. induction s as [|c s IH]; simpl; [done|]. unfold str_len in *. simpl. lia. Qed.

Lemma drop_bytes_app s t : drop_bytes (str_len s) (s +:+ t) = t.
Proof. induction s as [|c s IH]; simpl; [by destruct t|done]. Qed.

Lemma take_bytes_app s t : take_bytes (str_len s) (s +:+ t) = s.
Proof. induction s as [|c s IH]; simpl; [by destruct t|by f_equal]. Qed.

Lemma drop_bytes_add i j s : drop_bytes (i + j) s = drop_bytes j (drop_bytes i s).
Proof.
  revert s. induction i as [|i IH]; intros s; simpl; [done|].
  destruct s; [by destruct j|done].
Qed.

Lemma prefix_app needle s : String.prefix needle (needle +:+ s) = true.
Proof.
  induction needle as [|c n IH]; simpl; [by destruct s|].
  destruct (ascii_dec c c); [done|congruence].
Qed.

(** The text does not contain the byte [c]. *)
Definition lacks (c : ascii) (s : string) : Prop :=
  Forall (fun b => b <> c) (String.list_ascii_of_string s).

Lemma find_after_lacking c needle pre post :
  lacks c pre ->
  find (String c needle) (pre +:+ String c needle +:+ post) = Some (str_len pre).
Proof.
  unfold lacks. induction pre as [|b pre IH]; simpl; intros H.
  - destruct (ascii_dec c c); [|done]. by rewrite prefix_app.
  - apply Forall_cons_1 in H as [Hb Hpre].
    destruct (ascii_dec c b) as [->|]; [done|]. by rewrite (IH Hpre).
Qed.

Lemma prefix_spec needle s :
  String.prefix needle s = true <-> exists post, s = needle +:+ post.
Proof.
  split; [|intros [post ->]; apply prefix_app].
  revert s. induction needle as [|c n IH]; intros s; simpl; [eauto|].
  destruct s as [|b s]; simpl; [done|].
  destruct (ascii_dec c b) as [->|]; [|done].
  intros [post ->]%IH. by exists post.
Qed.

Lemma find_nil needle : find needle "" = if String.prefix needle "" then Some O else None.
Proof. reflexivity. Qed.

Lemma find_cons needle b s :
  find needle (String b s) =
    if String.prefix needle (String b s) then Some O else S <$> find needle s.
Proof. reflexivity. Qed.

(** [find] returns an occurrence, and [contains] is its existence. *)
Lemma find_sound needle s i :
  find needle s = Some i ->
  exists pre post, s = pre +:+ needle +:+ post /\ str_len pre = i.
Proof.
  revert i. induction s as [|b s IH]; intros i.
  - rewrite find_nil. destruct (String.prefix needle "") eqn:E; [|done]. intros [= <-].
    apply prefix_spec in E as [post E]. by exists "", post.
  - rewrite find_cons. destruct (String.prefix needle (String b s)) eqn:E.
    + intros [= <-]. apply prefix_spec in E as [post E]. by exists "", post.
    + intros (j & Hj & ->)%fmap_Some.
      destruct (IH j Hj) as (pre & post & -> & <-). by exists (String b pre), post.
Qed.

Lemma find_prefix needle s : String.prefix needle s = true -> find needle s = Some O.
Proof. intros H. destruct s; [rewrite find_nil|rewrite find_cons]; by rewrite H. Qed.

Lemma find_complete needle pre post : is_Some (find needle (pre +:+ needle +:+ post)).
Proof.
  induction pre as [|b pre IH].
  - exists O. apply find_prefix, (prefix_app needle post).
  - change (String b pre +:+ needle +:+ post) with (String b (pre +:+ needle +:+ post)).
    rewrite find_cons. destruct (String.prefix needle _); [eauto|]. by rewrite fmap_is_Some.
Qed.

Lemma contains_spec s needle :
  contains s needle = true <-> exists pre post, s = pre +:+ needle +:+ post.
Proof.
  unfold contains. split.
  - destruct (find needle s) eqn:E; [|done]. intros _.
    destruct (find_sound _ _ _ E) as (pre & post & H & _). eauto.
  - intros (pre & post & ->). by destruct (find_complete needle pre post) as [? ->].
Qed.

(** *** Characters *)

Lemma code_ascii_of_N n : (n < 256)%N -> code (ascii_of_N n) = n.
Proof. apply N_ascii_embedding. Qed.

Lemma code_bound c : (code c < 256)%N.
Proof. apply N_ascii_bounded. Qed.

Lemma ascii_lower_idem c : ascii_lower (ascii_lower c) = ascii_lower c.
Proof. destruct c as [[] [] [] [] [] [] [] []]; reflexivity. Qed.

Lemma to_ascii_lowercase_idem s :
  to_ascii_lowercase (to_ascii_lowercase s) = to_ascii_lowercase s.
Proof. induction s as [|c s IH]; simpl; [done|]. by rewrite ascii_lower_idem, IH. Qed.

Lemma to_ascii_lowercase_app s t :
  to_ascii_lowercase (s +:+ t) = to_ascii_lowercase s +:+ to_ascii_lowercase t.
Proof. induction s as [|c s IH]; simpl; [done|]. by rewrite IH. Qed.

(** A text of ASCII bytes has a character boundary at every index up to its length. *)
Definition is_ascii (s : string) : bool :=
  forallb (fun c => (code c <? 128)%N) (String.list_ascii_of_string s).

Lemma ascii_not_continuation c : (code c <? 128)%N = true -> is_continuation c = false.
Proof.
  intros Hc%N.ltb_lt. unfold is_continuation. apply andb_false_iff. left. apply N.leb_gt. lia.
Qed.

Lemma is_char_boundary_S c s i :
  is_char_boundary (String c s) (S i) =
    match i, s with
    | O, EmptyString => true
    | O, String c' _ => negb (is_continuation c')
    | S _, _ => is_char_boundary s i
    end.
Proof. by destruct i, s. Qed.

Lemma ascii_boundary s i :
  is_ascii s = true -> (i <= str_len s)%nat -> is_char_boundary s i = true.
Proof.
  unfold is_ascii, str_len. revert s. induction i as [|i IH]; intros s Hs Hi; [by destruct s|].
  destruct s as [|c s]; simpl in Hs, Hi; [lia|]. apply andb_prop in Hs as [_ Hs].
  rewrite is_char_boundary_S. destruct i as [|i]; [|apply IH; [done|lia]].
  destruct s as [|c' s]; [done|]. simpl in Hs. apply andb_prop in Hs as [Hc' _].
  by rewrite ascii_not_continuation.
Qed.

(** *** Decimal round trip *)

Lemma push_digit_char v d :
  (d < 10)%N -> (v * 10 + d <= U64_MAX)%N -> push_digit (Some v) (digit_char d) = Some (v * 10 + d)%N.
Proof.
  intros Hd Hv. unfold push_digit, digit_char, digit_of, in_range. simpl.
  rewrite code_ascii_of_N by lia.
  replace (48 <=? 48 + d)%N with true by (symmetry; apply N.leb_le; lia).
  replace (48 + d <=? 57)%N with true by (symmetry; apply N.leb_le; lia). simpl.
  replace (48 + d - 48)%N with d by lia.
  by replace (v * 10 + d <=? U64_MAX)%N with true by (symmetry; apply N.leb_le; lia).
Qed.

Lemma parse_decimal_fuel fuel n :
  (n < 10 ^ N.of_nat fuel)%N -> (n <= U64_MAX)%N ->
  fold_left push_digit (decimal_fuel fuel n) (Some 0%N) = Some n.
Proof.
  revert n. induction fuel as [|fuel IH]; intros n Hn Hmax; [simpl in *; f_equal; lia|].
  cbn [decimal_fuel]. destruct (n <? 10)%N eqn:E.
  - apply N.ltb_lt in E. cbn [fold_left].
    rewrite (push_digit_char 0 n) by (unfold U64_MAX in *; lia). f_equal; lia.
  - apply N.ltb_ge in E. rewrite fold_left_app.
    rewrite Nat2N.inj_succ, N.pow_succ_r' in Hn.
    pose proof (N.div_mod n 10 ltac:(lia)). pose proof (N.mod_lt n 10 ltac:(lia)).
    assert (n / 10 < 10 ^ N.of_nat fuel)%N by (apply N.Div0.div_lt_upper_bound; lia).
    assert (n / 10 <= U64_MAX)%N by (transitivity n; [apply N.Div0.div_le_upper_bound; lia|done]).
    rewrite IH by assumption. cbn [fold_left].
    rewrite push_digit_char by lia. f_equal; lia.
Qed.

Lemma decimal_chars n : String.list_ascii_of_string (decimal n) = decimal_fuel 20 n.
Proof. apply String.list_ascii_of_string_of_list_ascii. Qed.

Lemma decimal_fuel_digits fuel n :
  Forall (fun c => (48 <= code c <= 57)%N) (decimal_fuel fuel n).
Proof.
  revert n. induction fuel as [|fuel IH]; intros n; simpl; [constructor|].
  assert (forall d, (d < 10)%N -> (48 <= code (digit_char d) <= 57)%N) as Hd.
  { intros d Hd. unfold digit_char. rewrite code_ascii_of_N by lia. lia. }
  destruct (n <? 10)%N eqn:E.
  - apply N.ltb_lt in E. by repeat constructor; apply Hd.
  - apply Forall_app; split; [apply IH|]. repeat constructor; apply Hd, N.mod_lt; lia.
Qed.

Lemma decimal_lacks c n : ~ (48 <= code c <= 57)%N -> lacks c (decimal n).
Proof.
  intros Hc. unfold lacks. rewrite decimal_chars.
  pose proof (decimal_fuel_digits 20 n) as Hd. induction Hd; constructor; [|done].
  by intros ->.
Qed.

Lemma decimal_fuel_nonempty fuel n : decimal_fuel (S fuel) n <> [].
Proof.
  cbn [decimal_fuel]. destruct (n <? 10)%N; [done|]. intros E. by destruct (app_eq_nil _ _ E).
Qed.

Lemma decimal_nonempty n : decimal n <> "".
Proof.
  intros E. apply (decimal_fuel_nonempty 19 n). rewrite <-decimal_chars, E. reflexivity.
Qed.

(** Printing an integer of 64 bits and parsing it back gives the integer. *)
Lemma parse_u64_decimal n : (n <= U64_MAX)%N -> parse_u64 (decimal n) = Some n.
Proof.
  intros Hn. pose proof (decimal_nonempty n) as Hne. pose proof (decimal_fuel_digits 20 n) as Hd.
  rewrite <-decimal_chars in Hd.
  assert (parse_digits (decimal n) = Some n) as Hp.
  { unfold parse_digits. rewrite decimal_chars. apply parse_decimal_fuel; [|done].
    eapply N.le_lt_trans; [exact Hn|]. reflexivity. }
  destruct (decimal n) as [|c s]; [done|]. cbn [String.list_ascii_of_string] in Hd.
  apply Forall_cons_1 in Hd as [Hc _]. cbn [parse_u64].
  destruct (code c =? 43)%N eqn:Ec; [apply N.eqb_eq in Ec; lia|done].
Qed.

(** A parsed value fits in 64 bits. *)
Lemma parse_u64_bound s n : parse_u64 s = Some n -> (n <= U64_MAX)%N.
Proof.
  assert (forall l acc m, (forall v, acc = Some v -> (v <= U64_MAX)%N) ->
            fold_left push_digit l acc = Some m -> (m <= U64_MAX)%N) as H.
  { induction l as [|c l IH]; intros acc m Hacc; simpl; [by apply Hacc|].
    apply IH. intros v. unfold push_digit.
    destruct acc as [a|]; [|done]. simpl. destruct (digit_of c); [|done]. simpl.
    destruct (_ <=? U64_MAX)%N eqn:E; [|done]. intros [= <-]. by apply N.leb_le. }
  unfold parse_u64, parse_digits. destruct s as [|c s]; [done|].
  repeat case_match; try done; apply H; intros v [= <-]; unfold U64_MAX; lia.
Qed.

(** A text whose first character is not white space is not blank. *)
Lemma drop_white_snoc l (x : N * string) :
  is_whitespace x.1 = false -> exists l', drop_white (l ++ [x])%list = (l' ++ [x])%list.
Proof.
  intros Hx. induction l as [|[cp bytes] l [l' IH]]; cbn.
  - destruct x as [cp bytes]. cbn in *. rewrite Hx. by exists [].
  - destruct (is_whitespace cp); [by exists l'|]. by exists ((cp, bytes) :: l).
Qed.

Lemma trim_not_empty s cp c bytes rest :
  chars s = (cp, String c bytes) :: rest -> is_whitespace cp = false -> is_empty (trim s) = false.
Proof.
  intros E Hw. unfold trim. rewrite E. cbn [drop_white]. rewrite Hw. cbn [rev].
  destruct (drop_white_snoc (rev rest) (cp, String c bytes) Hw) as [l' ->].
  by rewrite rev_app_distr.
Qed.

Lemma decimal_ascii n : is_ascii (decimal n) = true.
Proof.
  unfold is_ascii. rewrite decimal_chars. apply forallb_forall. intros c Hc.
  pose proof (decimal_fuel_digits 20 n) as Hd. rewrite Forall_forall in Hd. specialize (Hd c Hc).
  apply N.ltb_lt. lia.
Qed.
