(* ===== verification/Bytes.v ===== *)
(** * Bytes and machine integers

    Byte slices as [list byte], the fixed-width integers the source casts between ([u8], [u32],
    [u64], [i32]) as [N] and [Z] with the wrap-around written out, and the indexing operations of a
    Rust slice.  [usize] has 64 bits. *)

From S2P Require Import Prelude Text.
From Stdlib Require Import NArith ZArith Lia Ascii Strings.Byte.
From stdpp Require Import base list strings option.

Open Scope N_scope.

#[export] Instance byte_eq_dec : EqDecision byte := Byte.byte_eq_dec.

(** ** Widths *)

Definition U8 : N := 256.
Definition U32 : N := 4294967296.
Definition U64 : N := 18446744073709551616.

Definition wrap (width n : N) : N := n mod width.

(** [usize::checked_add]. *)
Definition checked_add (a b : N) : option N :=
  if a + b <? U64 then Some (a + b) else None.

(** [value as u8], as a byte. *)
Definition as_u8 (n : N) : byte :=
  match Byte.of_N (wrap U8 n) with Some b => b | None => x00 end.

(** [value as i64 as u64] of an [i32]: sign extension. *)
Definition i32_as_u64 (z : Z) : N := Z.to_N (z mod 18446744073709551616).

(** [value as i32] of a [u64]: the low 32 bits in two's complement. *)
Definition u64_as_i32 (n : N) : Z :=
  let low := Z.of_N (wrap U32 n) in
  (if low <? 2147483648 then low else low - 4294967296)%Z.

Definition is_i32 (z : Z) : Prop := (-2147483648 <= z < 2147483648)%Z.

(** ** Slices *)

Definition blen (bs : list byte) : N := N.of_nat (length bs).

(** [bytes.get(i)]. *)
Definition get_byte (bs : list byte) (i : N) : option byte := bs !! N.to_nat i.

(** [bytes.get(a..b)]. *)
Definition get_range (bs : list byte) (a b : N) : option (list byte) :=
  if (a <=? b) && (b <=? blen bs)
  then Some (take (N.to_nat (b - a)) (drop (N.to_nat a) bs))
  else None.

(** ** Lemmas *)

Lemma to_N_bound (b : byte) : Byte.to_N b < 256.
Proof. pose proof (Byte.to_N_bounded b). lia. Qed.

Lemma to_N_as_u8 n : Byte.to_N (as_u8 n) = wrap U8 n.
Proof.
  unfold as_u8. assert (wrap U8 n < 256) as Hn by (apply N.mod_lt; done).
  destruct (Byte.of_N (wrap U8 n)) eqn:E; [by apply Byte.to_of_N|].
  apply Byte.of_N_None_iff in E. lia.
Qed.

Lemma as_u8_to_N b : as_u8 (Byte.to_N b) = b.
Proof.
  unfold as_u8, wrap. rewrite N.mod_small by (apply to_N_bound). by rewrite Byte.of_to_N.
Qed.

Lemma land_127 n : N.land n 127 = n mod 128.
Proof. change 127 with (N.ones 7). by rewrite N.land_ones. Qed.

Lemma land_shiftl_small a b k : a < 2 ^ k -> N.land a (N.shiftl b k) = 0.
Proof.
  intros Ha. apply N.bits_inj_0. intros n. rewrite N.land_spec.
  destruct (N.lt_ge_cases n k) as [Hn|Hn].
  - by rewrite N.shiftl_spec_low, andb_false_r.
  - destruct (N.eq_dec a 0) as [->|Hz]; [by rewrite N.bits_0|].
    rewrite N.bits_above_log2; [done|].
    apply N.log2_lt_pow2; [lia|]. eapply N.lt_le_trans; [exact Ha|].
    by apply N.pow_le_mono_r.
Qed.

(** A disjunction of disjoint bit ranges is a sum. *)
Lemma lor_shiftl_add a b k : a < 2 ^ k -> N.lor a (N.shiftl b k) = a + b * 2 ^ k.
Proof.
  intros Ha. rewrite <-N.lxor_lor, <-N.add_nocarry_lxor by by apply land_shiftl_small.
  by rewrite N.shiftl_mul_pow2.
Qed.

Lemma lor_128 n : n < 128 -> N.lor n 128 = n + 128.
Proof. intros H. change 128 with (N.shiftl 1 7) at 1. by rewrite lor_shiftl_add. Qed.

Lemma land_128 n : N.land n 128 = 0 <-> N.testbit n 7 = false.
Proof.
  split; intros H.
  - assert (N.testbit (N.land n 128) 7 = false) as Hb by by rewrite H.
    rewrite N.land_spec in Hb. change (N.testbit 128 7) with true in Hb. by rewrite andb_true_r in Hb.
  - apply N.bits_inj_0. intros k. rewrite N.land_spec. change 128 with (2 ^ 7).
    destruct (N.eq_dec k 7) as [->|Hk]; [by rewrite H|].
    by rewrite N.pow2_bits_false, andb_false_r by congruence.
Qed.

Lemma land_128_small n : n < 128 -> N.land n 128 = 0.
Proof. intros H. apply (land_shiftl_small n 1 7). exact H. Qed.

Lemma land_128_large n : n < 128 -> N.land (n + 128) 128 <> 0.
Proof.
  intros H. rewrite <-lor_128 by done. intros Hz%land_128. rewrite N.lor_spec in Hz.
  by apply orb_false_elim in Hz as [_ Hz].
Qed.

Lemma blen_app a b : blen (a ++ b) = blen a + blen b.
Proof. unfold blen. rewrite length_app. lia. Qed.

Lemma blen_singleton b : blen [b] = 1.
Proof. reflexivity. Qed.

Lemma get_byte_app pre b post : get_byte (pre ++ b :: post) (blen pre) = Some b.
Proof. unfold get_byte, blen. rewrite Nat2N.id. by rewrite list_lookup_middle. Qed.

Lemma get_byte_bound bs i b : get_byte bs i = Some b -> i < blen bs.
Proof. unfold get_byte, blen. intros H%lookup_lt_Some. lia. Qed.

Lemma get_range_app pre mid post :
  get_range (pre ++ mid ++ post) (blen pre) (blen pre + blen mid) = Some mid.
Proof.
  unfold get_range. rewrite !blen_app.
  replace (blen pre <=? blen pre + blen mid) with true by (symmetry; apply N.leb_le; lia).
  replace (blen pre + blen mid <=? _) with true by (symmetry; apply N.leb_le; lia). cbn [andb].
  replace (N.to_nat (blen pre + blen mid - blen pre)) with (length mid) by (unfold blen; lia).
  unfold blen at 1. rewrite Nat2N.id, drop_app_length, take_app_length. done.
Qed.

Lemma u64_as_i32_extend z : is_i32 z -> u64_as_i32 (i32_as_u64 z) = z.
Proof.
  unfold is_i32, u64_as_i32, i32_as_u64, wrap, U32. intros Hz.
  rewrite N2Z.inj_mod, Z2N.id by (apply Z.mod_pos_bound; lia).
  change (Z.of_N 4294967296) with 4294967296%Z.
  rewrite Z.mod_mod_divide by by exists 4294967296%Z.
  destruct (Z.ltb_spec (z mod 4294967296) 2147483648); zify; Z.to_euclidean_division_equations; lia.
Qed.

Lemma i32_as_u64_bound z : i32_as_u64 z < U64.
Proof.
  unfold i32_as_u64, U64. pose proof (Z.mod_pos_bound z 18446744073709551616). lia.
Qed.
