(* ===== verification/F64.v ===== *)
(** * IEEE doubles

    [f64] as the Standard Library's [spec_float], with the comparisons the source makes: every one
    is false on a NaN. *)

From Stdlib Require Import ZArith Floats.SpecFloat.
From stdpp Require Import base tactics.

Definition f64 : Type := spec_float.

Definition f64_zero : f64 := S754_zero false.
Definition f64_one : f64 := S754_finite false 4503599627370496 (-52).
Definition f64_two : f64 := S754_finite false 4503599627370496 (-51).
(** The double the literal [0.1] denotes, [0x1.999999999999ap-4]. *)
Definition f64_tenth : f64 := S754_finite false 7205759403792794 (-56).

(** [x <= y], [x < y], [x == y]. *)
Definition f64_le (x y : f64) : bool := SFleb x y.
Definition f64_lt (x y : f64) : bool := SFltb x y.
Definition f64_eq (x y : f64) : bool := SFeqb x y.

(** [f64::is_finite]. *)
Definition is_finite (x : f64) : bool :=
  match x with S754_zero _ | S754_finite _ _ _ => true | _ => false end.

(** [(0.0..=1.0).contains(&x)]. *)
Definition in_unit_interval (x : f64) : bool := f64_le f64_zero x && f64_le x f64_one.

Lemma f64_eq_refl x : is_finite x = true -> f64_eq x x = true.
Proof.
  unfold f64_eq, SFeqb, SFcompare. destruct x as [s|s| |s m e]; try done; intros _.
  destruct s; simpl; rewrite Z.compare_refl, Pos.compare_refl; done.
Qed.

Lemma in_unit_interval_finite x : in_unit_interval x = true -> is_finite x = true.
Proof.
  unfold in_unit_interval, f64_le, SFleb. destruct x as [s|[]| |s m e]; done.
Qed.

Lemma SFcompare_antisym x y : SFcompare y x = option_map CompOpp (SFcompare x y).
Proof.
  destruct x as [sx|sx| |sx mx ex], y as [sy|sy| |sy my ey]; try (destruct sx, sy; done);
    try (destruct sx; done); try (destruct sy; done); try done.
  destruct sx, sy; try done; simpl; rewrite (Z.compare_antisym ex ey);
    destruct (ex ?= ey)%Z; simpl; try done;
    pose proof (Pos.compare_cont_antisym mx my Eq) as E; cbn [CompOpp] in E; rewrite <-E;
    by destruct (Pos.compare_cont Eq mx my).
Qed.

(** [x <= y] excludes [y < x]. *)
Lemma f64_le_not_lt x y : f64_le x y = true -> f64_lt y x = false.
Proof.
  unfold f64_le, f64_lt, SFleb, SFltb. rewrite (SFcompare_antisym x y).
  by destruct (SFcompare x y) as [[]|].
Qed.
