(* ===== verification/HealthCodec.v ===== *)
(** * The health-check codec

    [transport-api/src/client/dto/health_proto_codec.rs], [health_check_request.rs],
    [health_check_response.rs] and [client/vo/health_status.rs]: protobuf varints, the field reader
    and the two messages of [grpc.health.v1.Health/Check].

    A reader is a state; a read is an operation on it that fails with a [DecodeError].
    [DecodeError::create] belongs to the contract crate and is the parameter [create]. *)

From S2P Require Import Prelude Text Bytes.
From Stdlib Require Import NArith ZArith Lia Ascii String Strings.Byte.
From stdpp Require Import base list strings option.

Open Scope N_scope.

(** ** Varints *)

(** The [while value >= 0x80] loop and the push after it; the loop shifts seven bits a turn, so ten
    turns empty 64 bits ([write_varint_unfold]). *)
Fixpoint write_varint_loop (fuel : nat) (out : list byte) (value : N) : list byte :=
  match fuel with
  | O => out
  | S fuel' =>
      if 128 <=? value
      then write_varint_loop fuel' (out ++ [as_u8 (N.lor (N.land (wrap U8 value) 127) 128)])
             (N.shiftr value 7)
      else out ++ [as_u8 value]
  end.

Definition write_varint (out : list byte) (value : N) : list byte := write_varint_loop 10 out value.

Fixpoint varint_len_loop (fuel : nat) (length value : N) : N :=
  match fuel with
  | O => length
  | S fuel' =>
      if 128 <=? value then varint_len_loop fuel' (length + 1) (N.shiftr value 7) else length
  end.

Definition varint_len (value : N) : N := varint_len_loop 10 1 value.

(** ** The reader *)

Record HealthProtoReader := reader {
  bytes : list byte;
  offset : N;
  message : string;
}.

Definition set_offset (o : N) (r : HealthProtoReader) : HealthProtoReader :=
  reader (bytes r) o (message r).

Section reader.
Context {DecodeError : Type} (create : string -> string -> DecodeError).

Definition read (A : Type) : Type := eff HealthProtoReader (Result A DecodeError).

Definition error (reason : string) : HealthProtoReader -> DecodeError :=
  fun r => create (message r) reason.

Definition fail {A} (reason : string) : read A := fun r => (Err (error reason r), r).

(** [for index in 0..10]; the first argument counts the turns left. *)
Fixpoint read_varint_loop (turns : nat) (index value : N) : read N :=
  match turns with
  | O => fail "protobuf varint exceeds 10 bytes"
  | S turns' => fun r =>
      match get_byte (bytes r) (offset r) with
      | None => fail "truncated protobuf varint" r
      | Some b =>
          let byte := Byte.to_N b in
          let r := set_offset (offset r + 1) r in
          if (index =? 9) && (1 <? byte)
          then fail "protobuf varint overflows 64 bits" r
          else
            let value := N.lor value (wrap U64 (N.shiftl (N.land byte 127) (index * 7))) in
            if N.land byte 128 =? 0 then (Ok value, r)
            else read_varint_loop turns' (index + 1) value r
      end
  end.

Definition read_varint : read N := read_varint_loop 10 0 0.

Definition next_field : read (option (N * N)) := fun r =>
  if offset r =? blen (bytes r) then (Ok None, r)
  else
    bindr read_varint (fun key =>
      let field := N.shiftr key 3 in
      let wire_type := N.land key 7 in
      if (field =? 0) || (536870911 <? field)
         || (wire_type =? 3) || (wire_type =? 4) || (wire_type =? 6) || (wire_type =? 7)
      then fail "invalid protobuf field key"
      else ret (Ok (Some (field, wire_type)))) r.

Definition read_length_delimited : read (list byte) :=
  let!? length := read_varint in
  fun r =>
    if U64 <=? length then fail "protobuf length does not fit in memory" r
    else
      match checked_add (offset r) length with
      | None => fail "protobuf length overflows" r
      | Some stop =>
          match get_range (bytes r) (offset r) stop with
          | None => fail "truncated length-delimited protobuf field" r
          | Some value => (Ok value, set_offset stop r)
          end
      end.

Definition skip_bytes (length : N) : read unit := fun r =>
  match checked_add (offset r) length with
  | None => fail "protobuf field length overflows" r
  | Some stop =>
      if blen (bytes r) <? stop then fail "truncated fixed-width protobuf field" r
      else (Ok tt, set_offset stop r)
  end.

Definition skip (wire_type : N) : read unit :=
  if wire_type =? 0 then (let!? _ := read_varint in ret (Ok tt))
  else if wire_type =? 1 then skip_bytes 8
  else if wire_type =? 2 then (let!? _ := read_length_delimited in ret (Ok tt))
  else if wire_type =? 5 then skip_bytes 4
  else fail "unsupported protobuf wire type".

(** [while let Some((field, wire_type)) = reader.next_field()? { body }], the form both [decode]s
    have; [None] when the fuel runs out, which [decode_loop_total] excludes. *)
Fixpoint decode_loop {A} (body : A -> N -> N -> read A) (fuel : nat) (acc : A)
    (r : HealthProtoReader) : option (Result A DecodeError) :=
  match fuel with
  | O => None
  | S fuel' =>
      match next_field r with
      | (Err e, _) => Some (Err e)
      | (Ok None, _) => Some (Ok acc)
      | (Ok (Some (field, wire_type)), r1) =>
          match body acc field wire_type r1 with
          | (Err e, _) => Some (Err e)
          | (Ok acc', r2) => decode_loop body fuel' acc' r2
          end
      end
  end.

(** Every turn reads at least one byte, so one turn per byte and one for the end are enough. *)
Definition decode_fields {A} (body : A -> N -> N -> read A) (init : A) (name : string)
    (bs : list byte) : option (Result A DecodeError) :=
  decode_loop body (S (length bs)) init (reader bs 0 name).
End reader.

(** ** [HealthCheckRequest] *)

Module HealthCheckRequest.
Definition FULL_NAME : string := "grpc.health.v1.HealthCheckRequest".

Definition encode_into (service : string) (out : list byte) : list byte :=
  if negb (is_empty service)
  then write_varint (write_varint out 10) (N.of_nat (str_len service))
         ++ list_byte_of_string service
  else out.

Definition estimate_encoded_len (service : string) : N :=
  if is_empty service then 0
  else 1 + varint_len (N.of_nat (str_len service)) + N.of_nat (str_len service).

Section decode.
Context {DecodeError : Type} (create : string -> string -> DecodeError).

Definition field (service : string) (f wire_type : N) : read string :=
  if (f =? 1) && (wire_type =? 2)
  then
    let!? value := read_length_delimited create in
    let text := string_of_list_byte value in
    if utf8_valid text then ret (Ok text)
    else ret (Err (create FULL_NAME "service is not valid UTF-8"))
  else let!? _ := skip create wire_type in ret (Ok service).

Definition decode (bs : list byte) : option (Result string DecodeError) :=
  decode_fields create field "" FULL_NAME bs.
End decode.
End HealthCheckRequest.

(** ** [HealthCheckResponse] *)

Inductive HealthStatus := Unknown | Serving | NotServing | ServiceUnknown.

Definition health_status_from (value : Z) : HealthStatus :=
  match value with
  | 1%Z => Serving
  | 2%Z => NotServing
  | 3%Z => ServiceUnknown
  | _ => Unknown
  end.

Module HealthCheckResponse.
Definition FULL_NAME : string := "grpc.health.v1.HealthCheckResponse".

Definition status_of (status : Z) : HealthStatus := health_status_from status.

Definition encode_into (status : Z) (out : list byte) : list byte :=
  if negb (status =? 0)%Z then write_varint (write_varint out 8) (i32_as_u64 status) else out.

Definition estimate_encoded_len (status : Z) : N :=
  if (status =? 0)%Z then 0 else 1 + varint_len (i32_as_u64 status).

Section decode.
Context {DecodeError : Type} (create : string -> string -> DecodeError).

Definition field (status : Z) (f wire_type : N) : read Z :=
  if (f =? 1) && (wire_type =? 0)
  then let!? value := read_varint create in ret (Ok (u64_as_i32 value))
  else let!? _ := skip create wire_type in ret (Ok status).

Definition decode (bs : list byte) : option (Result Z DecodeError) :=
  decode_fields create field 0%Z FULL_NAME bs.
End decode.
End HealthCheckResponse.

(** ** Varints: lemmas *)

Lemma write_varint_loop_S fuel out value :
  write_varint_loop (S fuel) out value =
    if 128 <=? value
    then write_varint_loop fuel (out ++ [as_u8 (N.lor (N.land (wrap U8 value) 127) 128)])%list
           (N.shiftr value 7)
    else (out ++ [as_u8 value])%list.
Proof. reflexivity. Qed.

Lemma write_varint_loop_app fuel out value :
  write_varint_loop fuel out value = (out ++ write_varint_loop fuel [] value)%list.
Proof.
  revert out value. induction fuel as [|fuel IH]; intros out value; cbn [write_varint_loop].
  - by rewrite app_nil_r.
  - destruct (128 <=? value); [|done]. rewrite IH, (IH ([] ++ _)). by rewrite app_assoc.
Qed.

Lemma write_varint_app out value : write_varint out value = (out ++ write_varint [] value)%list.
Proof. apply write_varint_loop_app. Qed.

Lemma shiftr_7 n : N.shiftr n 7 = n / 128.
Proof. by rewrite N.shiftr_div_pow2. Qed.

(** Fuel: a value below [128 ^ fuel] is written out completely, so more fuel changes nothing. *)
Lemma write_varint_loop_enough fuel out value :
  value < 128 ^ N.of_nat fuel -> (0 < fuel)%nat ->
  write_varint_loop (S fuel) out value = write_varint_loop fuel out value.
Proof.
  revert out value. induction fuel as [|fuel IH]; intros out value Hv Hf; [lia|].
  rewrite Nat2N.inj_succ, N.pow_succ_r' in Hv.
  rewrite write_varint_loop_S, (write_varint_loop_S fuel out value).
  destruct (128 <=? value) eqn:E; [|done].
  apply N.leb_le in E. destruct fuel as [|fuel]; [simpl in Hv; lia|].
  apply IH; [|lia]. rewrite shiftr_7. apply N.Div0.div_lt_upper_bound. lia.
Qed.

(** [write_varint] satisfies the equation of the source's loop. *)
Lemma write_varint_unfold out value :
  value < U64 ->
  write_varint out value =
    if 128 <=? value
    then write_varint (out ++ [as_u8 (N.lor (N.land (wrap U8 value) 127) 128)])%list
           (N.shiftr value 7)
    else (out ++ [as_u8 value])%list.
Proof.
  intros Hv. unfold write_varint. rewrite (write_varint_loop_S 9 out).
  destruct (128 <=? value); [|done]. symmetry. apply write_varint_loop_enough; [|lia].
  rewrite shiftr_7. apply N.Div0.div_lt_upper_bound.
  eapply N.lt_le_trans; [exact Hv|]. vm_compute. congruence.
Qed.

Lemma varint_len_loop_spec fuel len value :
  value < 128 ^ N.of_nat fuel -> (0 < fuel)%nat ->
  varint_len_loop fuel len value + 1 = len + blen (write_varint_loop fuel [] value).
Proof.
  revert len value. induction fuel as [|fuel IH]; intros len value Hv Hf; [lia|].
  rewrite Nat2N.inj_succ, N.pow_succ_r' in Hv.
  cbn [varint_len_loop write_varint_loop]. destruct (128 <=? value) eqn:E.
  - apply N.leb_le in E. destruct fuel as [|fuel]; [simpl in Hv; lia|].
    rewrite IH; [|rewrite shiftr_7; apply N.Div0.div_lt_upper_bound; lia|lia].
    rewrite (write_varint_loop_app _ ([] ++ _)%list), blen_app. cbn [app]. rewrite blen_singleton. lia.
  - cbn [app]. rewrite blen_singleton. lia.
Qed.

Lemma U64_pow_128 n : n < U64 -> n < 128 ^ N.of_nat 10.
Proof. intros H. eapply N.lt_le_trans; [exact H|]. vm_compute. congruence. Qed.

Lemma varint_len_spec value : value < U64 -> varint_len value = blen (write_varint [] value).
Proof.
  intros Hv. unfold varint_len, write_varint.
  pose proof (varint_len_loop_spec 10 1 value (U64_pow_128 _ Hv) ltac:(lia)). lia.
Qed.

Lemma write_varint_small out value : value < 128 -> write_varint out value = (out ++ [as_u8 value])%list.
Proof.
  intros Hv. unfold write_varint. rewrite write_varint_loop_S.
  by replace (128 <=? value) with false by (symmetry; apply N.leb_gt; lia).
Qed.

Lemma varint_shift_le v p : v / 128 * (p * 128) <= v * p.
Proof.
  rewrite (N.mul_comm p), N.mul_assoc. apply N.mul_le_mono_r.
  rewrite N.mul_comm. apply N.Div0.mul_div_le.
Qed.

Lemma varint_digit_sum acc v p : acc + v mod 128 * p + v / 128 * (p * 128) = acc + v * p.
Proof. rewrite (N.div_mod v 128) at 3 by done. lia. Qed.

(** ** The reader: lemmas *)

Section reader_lemmas.
Context {DecodeError : Type} (create : string -> string -> DecodeError).
Implicit Types (pre post bs : list byte) (m : string) (r : HealthProtoReader).

(** The reader of [pre ++ post] that stands after [pre]. *)
Definition standing pre post m : HealthProtoReader := reader (pre ++ post) (blen pre) m.

Lemma standing_shift pre mid post m :
  reader (pre ++ mid ++ post) (blen pre + blen mid) m = standing (pre ++ mid) post m.
Proof. unfold standing. by rewrite blen_app, app_assoc. Qed.

Lemma standing_get pre b post m :
  get_byte (bytes (standing pre (b :: post) m)) (offset (standing pre (b :: post) m)) = Some b.
Proof. apply get_byte_app. Qed.

Lemma standing_step pre b post m :
  set_offset (offset (standing pre (b :: post) m) + 1) (standing pre (b :: post) m)
  = standing (pre ++ [b]) post m.
Proof. unfold standing, set_offset. simpl. rewrite blen_app, <-app_assoc. done. Qed.

Lemma read_varint_loop_write turns i acc v pre post m :
  N.of_nat turns + i = 10 -> acc < 2 ^ (i * 7) -> v * 2 ^ (i * 7) < U64 -> (0 < turns)%nat ->
  read_varint_loop create turns i acc (standing pre (write_varint_loop turns [] v ++ post) m)
  = (Ok (acc + v * 2 ^ (i * 7)), standing (pre ++ write_varint_loop turns [] v) post m).
Proof.
  revert i acc v pre. induction turns as [|turns IH]; intros i acc v pre Hi Hacc Hv Ht; [lia|].
  assert (2 ^ ((i + 1) * 7) = 2 ^ (i * 7) * 128) as Hp.
  { replace ((i + 1) * 7) with (i * 7 + 7) by lia. by rewrite N.pow_add_r. }
  assert (0 < 2 ^ (i * 7)) as Hpos by (apply N.neq_0_lt_0, N.pow_nonzero; lia).
  assert (i = 9 -> v < 2) as H9.
  { intros ->. change (2 ^ (9 * 7)) with 9223372036854775808 in Hv. unfold U64 in Hv. lia. }
  cbn [write_varint_loop read_varint_loop]. destruct (128 <=? v) eqn:E.
  - apply N.leb_le in E. destruct (N.eqb_spec i 9) as [->|Hi9]; [lia|].
    rewrite write_varint_loop_app. cbn [app]. rewrite standing_get, standing_step, to_N_as_u8.
    assert (wrap U8 (N.lor (N.land (wrap U8 v) 127) 128) = v mod 128 + 128) as ->.
    { rewrite land_127. unfold wrap, U8.
      pose proof (N.mod_lt v 128 ltac:(done)).
      assert ((v mod 256) mod 128 = v mod 128) as ->.
      { zify. Z.to_euclidean_division_equations. lia. }
      rewrite lor_128 by done. apply N.mod_small. lia. }
    pose proof (N.mod_lt v 128 ltac:(done)) as Hm. cbn [andb].
    destruct (N.land (v mod 128 + 128) 128 =? 0) eqn:Ez.
    { apply N.eqb_eq in Ez. by apply land_128_large in Ez. }
    rewrite land_127. replace ((v mod 128 + 128) mod 128) with (v mod 128)
      by (zify; Z.to_euclidean_division_equations; lia).
    pose proof (N.div_mod v 128 ltac:(done)) as Hd.
    unfold wrap. rewrite N.mod_small by (rewrite N.shiftl_mul_pow2; unfold U64 in *; nia).
    rewrite lor_shiftl_add, shiftr_7 by done.
    destruct turns as [|turns]; [lia|].
    rewrite IH; [|lia|nia| |lia].
    2:{ rewrite Hp. eapply N.le_lt_trans; [apply varint_shift_le|exact Hv]. }
    rewrite Hp, varint_digit_sum. f_equal. by rewrite <-app_assoc.
  - apply N.leb_gt in E. cbn [app]. rewrite standing_get, standing_step, to_N_as_u8.
    unfold wrap. rewrite (N.mod_small v U8) by (unfold U8; lia).
    rewrite land_128_small, land_127, (N.mod_small v 128) by lia. cbn [N.eqb].
    rewrite N.mod_small by (rewrite N.shiftl_mul_pow2; lia). rewrite lor_shiftl_add by done.
    destruct (N.eqb_spec i 9) as [->|]; [|done].
    replace (1 <? v) with false by (symmetry; apply N.ltb_ge; lia). done.
Qed.

Lemma read_varint_write v pre post m :
  v < U64 ->
  read_varint create (standing pre (write_varint [] v ++ post) m)
  = (Ok v, standing (pre ++ write_varint [] v) post m).
Proof.
  intros Hv. unfold read_varint, write_varint. rewrite read_varint_loop_write by (simpl; lia).
  do 2 f_equal. simpl. lia.
Qed.
End reader_lemmas.

(** ** Fields: lemmas *)

Lemma write_varint_cons value : exists b rest, write_varint [] value = b :: rest.
Proof.
  unfold write_varint. rewrite write_varint_loop_S. case_match; [|eauto].
  rewrite write_varint_loop_app. cbn [app]. eauto.
Qed.

Section field_lemmas.
Context {DecodeError : Type} (create : string -> string -> DecodeError).
Implicit Types (pre post bs : list byte) (m : string) (r : HealthProtoReader).

Lemma next_field_end pre m : next_field create (standing pre [] m) = (Ok None, standing pre [] m).
Proof.
  unfold next_field, standing. cbn [offset bytes]. rewrite app_nil_r, N.eqb_refl. done.
Qed.

Definition valid_key (key : N) : bool :=
  negb ((N.shiftr key 3 =? 0) || (536870911 <? N.shiftr key 3)
        || (N.land key 7 =? 3) || (N.land key 7 =? 4) || (N.land key 7 =? 6)
        || (N.land key 7 =? 7)).

Lemma next_field_key key pre post m :
  key < U64 -> valid_key key = true ->
  next_field create (standing pre (write_varint [] key ++ post) m)
  = (Ok (Some (N.shiftr key 3, N.land key 7)), standing (pre ++ write_varint [] key) post m).
Proof.
  intros Hk Hv%negb_true_iff. unfold next_field.
  replace (offset _ =? blen _) with false.
  2:{ symmetry. apply N.eqb_neq. unfold standing. cbn [offset bytes]. rewrite !blen_app.
      destruct (write_varint_cons key) as (b & rest & ->). change (b :: rest) with ([b] ++ rest)%list.
      rewrite blen_app, blen_singleton. lia. }
  unfold bindr, bind. rewrite read_varint_write, Hv by done. done.
Qed.

Lemma read_length_delimited_write v pre post m :
  blen pre + blen (write_varint [] (blen v)) + blen v < U64 ->
  read_length_delimited create (standing pre (write_varint [] (blen v) ++ v ++ post) m)
  = (Ok v, standing (pre ++ write_varint [] (blen v) ++ v) post m).
Proof.
  intros Hv. unfold read_length_delimited, bindr, bind. rewrite read_varint_write by lia.
  replace (U64 <=? blen v) with false by (symmetry; apply N.leb_gt; lia).
  unfold checked_add, standing at 1 2 3. cbn [offset bytes]. rewrite blen_app.
  replace (_ <? U64) with true by (symmetry; apply N.ltb_lt; lia).
  rewrite <-blen_app, get_range_app. unfold set_offset, standing. cbn [bytes message].
  rewrite !blen_app, <-!app_assoc. do 2 f_equal. lia.
Qed.
End field_lemmas.

(** ** Progress of the reader *)

Section progress.
Context {DecodeError : Type} (create : string -> string -> DecodeError).

Definition in_bounds (r : HealthProtoReader) : Prop := offset r <= blen (bytes r).

(** A successful [m] keeps the bytes, moves on by at least [k], and stays in bounds. *)
Definition advances {A} (k : N) (m : read (DecodeError := DecodeError) A) : Prop :=
  forall r a r', in_bounds r -> m r = (Ok a, r') ->
    bytes r' = bytes r /\ offset r + k <= offset r' /\ in_bounds r'.

Lemma advances_weaken {A} k k' (m : read A) : advances k m -> k' <= k -> advances k' m.
Proof. intros Hm Hk r a r' Hr E. destruct (Hm r a r' Hr E) as (? & ? & ?). split_and!; [done|lia|done]. Qed.

Lemma advances_fail {A} k reason : advances k (fail create (A := A) reason).
Proof. intros r a r' _ E. done. Qed.

Lemma advances_ret {A} (x : Result A DecodeError) : advances 0 (ret x).
Proof. intros r a r' Hr [= -> ->]. split_and!; [done|lia|done]. Qed.

Lemma advances_bindr {A B} k k' (m : read A) (f : A -> read B) :
  advances k m -> (forall a, advances k' (f a)) -> advances (k + k') (bindr m f).
Proof.
  intros Hm Hf r b r' Hr. unfold bindr, bind. destruct (m r) as [[a|e] r1] eqn:E1; [|done].
  intros E2. destruct (Hm _ _ _ Hr E1) as (E & Ho & Hr1).
  destruct (Hf _ _ _ _ Hr1 E2) as (E' & Ho' & ?). split_and!; [congruence|lia|done].
Qed.

Lemma read_varint_loop_advances turns i acc : advances 1 (read_varint_loop create turns i acc).
Proof.
  revert i acc. induction turns as [|turns IH]; intros i acc r a r' Hr; cbn [read_varint_loop];
    [done|].
  destruct (get_byte _ _) as [b|] eqn:Eb; [|done].
  apply get_byte_bound in Eb. destruct (_ && _); [done|].
  assert (in_bounds (set_offset (offset r + 1) r)) by (unfold in_bounds, set_offset; simpl; lia).
  destruct (_ =? 0).
  - intros [= <- <-]. unfold set_offset. simpl. split_and!; [done|lia|done].
  - intros E. apply IH in E as (E & Ho & ?); [|done]. simpl in *. split_and!; [done|lia|done].
Qed.

Lemma read_varint_advances : advances 1 (read_varint create).
Proof. apply read_varint_loop_advances. Qed.

Lemma skip_bytes_advances k : advances k (skip_bytes create k).
Proof.
  intros r a r' Hr. unfold skip_bytes, checked_add. repeat case_match; simplify_eq; intros E; simplify_eq.
  bool_prop. unfold in_bounds, set_offset. simpl. split_and!; [done|lia|lia].
Qed.

Lemma read_length_delimited_advances : advances 1 (read_length_delimited create).
Proof.
  apply (advances_bindr 1 0); [apply read_varint_advances|]. intros len r a r' Hr.
  unfold checked_add, get_range. repeat case_match; simplify_eq; intros E; simplify_eq.
  bool_prop. unfold in_bounds, set_offset. simpl. split_and!; [done|lia|lia].
Qed.

Lemma skip_advances w : advances 0 (skip create w).
Proof.
  unfold skip. repeat case_match.
  - eapply advances_weaken; [apply (advances_bindr 1 0); [apply read_varint_advances|]|lia].
    intros _. apply advances_ret.
  - eapply advances_weaken; [apply skip_bytes_advances|lia].
  - eapply advances_weaken; [apply (advances_bindr 1 0); [apply read_length_delimited_advances|]|lia].
    intros _. apply advances_ret.
  - eapply advances_weaken; [apply skip_bytes_advances|lia].
  - apply advances_fail.
Qed.

Lemma next_field_advances r f r' :
  in_bounds r -> next_field create r = (Ok (Some f), r') ->
  bytes r' = bytes r /\ offset r + 1 <= offset r' /\ in_bounds r'.
Proof.
  intros Hr. unfold next_field. destruct (_ =? _); [done|].
  apply (advances_bindr 1 0); [apply read_varint_advances| |done].
  intros key. cbn zeta. destruct (_ || _); [apply advances_fail|apply advances_ret].
Qed.

(** Every turn of a decode loop moves on, so its fuel is enough. *)
Lemma decode_loop_total {A} (body : A -> N -> N -> read A) fuel acc r :
  (forall acc f w, advances 0 (body acc f w)) -> in_bounds r ->
  blen (bytes r) - offset r < N.of_nat fuel ->
  exists res, decode_loop create body fuel acc r = Some res.
Proof.
  intros Hbody. revert acc r. induction fuel as [|fuel IH]; intros acc r Hr Hf; [lia|].
  cbn [decode_loop]. destruct (next_field create r) as [[[[f w]|]|e] r1] eqn:E1; [|eauto..].
  destruct (next_field_advances _ _ _ Hr E1) as (Eb & Ho & Hr1).
  destruct (body acc f w r1) as [[acc'|e] r2] eqn:E2; [|eauto].
  destruct (Hbody _ _ _ _ _ _ Hr1 E2) as (Eb2 & Ho2 & Hr2). apply IH; [done|].
  rewrite Eb2, Eb. unfold in_bounds in *. rewrite Eb2, Eb in Hr2. lia.
Qed.

Lemma decode_fields_total {A} (body : A -> N -> N -> read A) init name bs :
  (forall acc f w, advances 0 (body acc f w)) ->
  exists res, decode_fields create body init name bs = Some res.
Proof.
  intros Hbody. apply decode_loop_total; [done|unfold in_bounds; simpl; lia|].
  simpl. unfold blen. lia.
Qed.

Lemma request_field_advances acc f w : advances 0 (HealthCheckRequest.field create acc f w).
Proof.
  unfold HealthCheckRequest.field. case_match.
  - eapply advances_weaken; [apply (advances_bindr 1 0)|lia];
      [apply read_length_delimited_advances|]. intros v. case_match; apply advances_ret.
  - apply (advances_bindr 0 0); [apply skip_advances|]. intros _. apply advances_ret.
Qed.

Lemma response_field_advances acc f w : advances 0 (HealthCheckResponse.field create acc f w).
Proof.
  unfold HealthCheckResponse.field. case_match.
  - eapply advances_weaken; [apply (advances_bindr 1 0)|lia];
      [apply read_varint_advances|]. intros v. apply advances_ret.
  - apply (advances_bindr 0 0); [apply skip_advances|]. intros _. apply advances_ret.
Qed.
End progress.

#[export] Hint Resolve request_field_advances response_field_advances : egress.

(** ** One turn of each decode loop *)

Section loop_steps.
Context {DecodeError : Type} (create : string -> string -> DecodeError).

Lemma blen_text s : blen (list_byte_of_string s) = N.of_nat (str_len s).
Proof.
  unfold blen, str_len. f_equal. rewrite <-(string_of_list_byte_of_string s) at 2.
  induction (list_byte_of_string s) as [|b l IH]; simpl; [done|]. by f_equal.
Qed.

Lemma request_encoded s :
  is_empty s = false ->
  HealthCheckRequest.encode_into s []
  = (write_varint [] 10 ++ write_varint [] (blen (list_byte_of_string s))
       ++ list_byte_of_string s)%list.
Proof.
  intros Hs. unfold HealthCheckRequest.encode_into. rewrite Hs, blen_text. cbn [negb].
  by rewrite write_varint_app, app_assoc.
Qed.

Lemma request_loop_step fuel acc s pre post m :
  utf8_valid s = true -> is_empty s = false ->
  blen (pre ++ HealthCheckRequest.encode_into s []) < U64 ->
  decode_loop create (HealthCheckRequest.field create) (S fuel) acc
    (standing pre (HealthCheckRequest.encode_into s [] ++ post) m)
  = decode_loop create (HealthCheckRequest.field create) fuel s
      (standing (pre ++ HealthCheckRequest.encode_into s []) post m).
Proof.
  intros Hs He Hlen. rewrite request_encoded in * by done. rewrite !blen_app in Hlen.
  cbn [decode_loop]. rewrite <-!app_assoc, next_field_key by done.
  change (N.shiftr 10 3) with 1. change (N.land 10 7) with 2.
  unfold HealthCheckRequest.field. cbn [N.eqb Pos.eqb andb]. unfold bindr, bind.
  rewrite read_length_delimited_write by (rewrite blen_app; lia).
  cbv zeta. rewrite string_of_list_byte_of_string, Hs, <-!app_assoc. done.
Qed.

Lemma response_encoded z :
  (z =? 0)%Z = false ->
  HealthCheckResponse.encode_into z [] = (write_varint [] 8 ++ write_varint [] (i32_as_u64 z))%list.
Proof. intros Hz. unfold HealthCheckResponse.encode_into. by rewrite Hz, write_varint_app. Qed.

Lemma response_loop_step fuel acc z pre post m :
  is_i32 z -> (z =? 0)%Z = false ->
  decode_loop create (HealthCheckResponse.field create) (S fuel) acc
    (standing pre (HealthCheckResponse.encode_into z [] ++ post) m)
  = decode_loop create (HealthCheckResponse.field create) fuel z
      (standing (pre ++ HealthCheckResponse.encode_into z []) post m).
Proof.
  intros Hi Hz. rewrite response_encoded by done. cbn [decode_loop].
  rewrite <-!app_assoc, next_field_key by done.
  change (N.shiftr 8 3) with 1. change (N.land 8 7) with 0.
  unfold HealthCheckResponse.field. cbn [N.eqb Pos.eqb andb]. unfold bindr, bind.
  rewrite read_varint_write by apply i32_as_u64_bound. unfold ret.
  by rewrite u64_as_i32_extend, <-app_assoc.
Qed.

(** A field of varint type that the message does not know is skipped. *)
Lemma response_loop_unknown fuel acc key v pre post m :
  key < U64 -> v < U64 -> valid_key key = true -> N.land key 7 = 0 -> N.shiftr key 3 <> 1 ->
  decode_loop create (HealthCheckResponse.field create) (S fuel) acc
    (standing pre (write_varint [] key ++ write_varint [] v ++ post) m)
  = decode_loop create (HealthCheckResponse.field create) fuel acc
      (standing (pre ++ write_varint [] key ++ write_varint [] v) post m).
Proof.
  intros Hk Hv Hvalid Hw Hf. cbn [decode_loop]. rewrite next_field_key by done.
  unfold HealthCheckResponse.field. rewrite Hw.
  replace (N.shiftr key 3 =? 1) with false by (symmetry; by apply N.eqb_neq). cbn [andb].
  unfold skip, bindr, bind. cbn [N.eqb]. rewrite read_varint_write by done. unfold ret.
  by rewrite <-app_assoc.
Qed.

Lemma decode_loop_end {A} (body : A -> N -> N -> read A) fuel acc pre m :
  decode_loop create body (S fuel) acc (standing pre [] m) = Some (Ok acc).
Proof. cbn [decode_loop]. by rewrite next_field_end. Qed.

Lemma decode_loop_more {A} (body : A -> N -> N -> read A) fuel k acc r res :
  decode_loop create body fuel acc r = Some res ->
  decode_loop create body (fuel + k) acc r = Some res.
Proof.
  revert acc r. induction fuel as [|fuel IH]; intros acc r; cbn [decode_loop Nat.add]; [done|].
  repeat case_match; auto.
Qed.

(** What a decode gives can be found with any fuel that gives a result. *)
Lemma decode_fields_fuel {A} (body : A -> N -> N -> read A) init name bs fuel res :
  (forall acc f w, advances 0 (body acc f w)) ->
  decode_loop create body fuel init (reader bs 0 name) = Some res ->
  decode_fields create body init name bs = Some res.
Proof.
  intros Hbody E. destruct (decode_fields_total create body init name bs Hbody) as [res' E'].
  pose proof E' as E2. apply (decode_loop_more _ _ fuel) in E2.
  apply (decode_loop_more _ _ (S (length bs))) in E.
  replace (S (length bs) + fuel)%nat with (fuel + S (length bs))%nat in E2 by lia. congruence.
Qed.
End loop_steps.

(** ** Properties *)

(** Two encoded health requests, one after the other, decode to the last service that is not
    empty; with an empty second request this is the round trip of the first. *)
Theorem request_roundtrip {DecodeError} (create : string -> string -> DecodeError) a b :
  utf8_valid a = true -> utf8_valid b = true ->
  blen (HealthCheckRequest.encode_into b (HealthCheckRequest.encode_into a [])) < U64 ->
  HealthCheckRequest.decode create
    (HealthCheckRequest.encode_into b (HealthCheckRequest.encode_into a []))
  = Some (Ok (if is_empty b then a else b)).
Proof.
  intros Ha Hb Hlen.
  assert (HealthCheckRequest.encode_into b (HealthCheckRequest.encode_into a [])
          = HealthCheckRequest.encode_into a [] ++ HealthCheckRequest.encode_into b [])%list as E.
  { unfold HealthCheckRequest.encode_into at 1 4. case_match; [|by rewrite app_nil_r].
    rewrite write_varint_app, (write_varint_app _ 10), (write_varint_app (write_varint [] 10)).
    by rewrite <-!app_assoc. }
  rewrite E in *. apply (decode_fields_fuel _ _ _ _ _ 3); [auto with egress|].
  change (reader ?x 0 ?m) with (standing [] x m).
  rewrite blen_app in Hlen.
  destruct (is_empty a) eqn:Ea.
  - destruct a; [|done]. change (HealthCheckRequest.encode_into "" []) with (@nil byte) in *.
    cbn [app] in *.
    destruct (is_empty b) eqn:Eb; [by destruct b; [rewrite (decode_loop_end _ _ 2)|]|].
    rewrite <-(app_nil_r (HealthCheckRequest.encode_into b [])).
    rewrite request_loop_step by (done || cbn [app]; lia). apply decode_loop_end.
  - rewrite request_loop_step by (done || cbn [app]; lia). cbn [app].
    destruct (is_empty b) eqn:Eb.
    + destruct b; [|done]. apply decode_loop_end.
    + rewrite <-(app_nil_r (HealthCheckRequest.encode_into b [])).
      rewrite request_loop_step by (done || rewrite blen_app; lia). apply decode_loop_end.
Qed.

Lemma request_roundtrip_witness :
  HealthCheckRequest.decode pair
    (HealthCheckRequest.encode_into "pkg.B" (HealthCheckRequest.encode_into "pkg.A" []))
  = Some (Ok "pkg.B"%string).
Proof. apply (request_roundtrip pair "pkg.A" "pkg.B"); reflexivity. Defined.

(** C40: A health response, for every [i32] status, decodes to itself, also when a field the message
    does not know follows it. *)
Theorem response_roundtrip {DecodeError} (create : string -> string -> DecodeError) z key v :
  is_i32 z -> key < U64 -> v < U64 -> valid_key key = true -> N.land key 7 = 0 ->
  N.shiftr key 3 <> 1 ->
  HealthCheckResponse.decode create (HealthCheckResponse.encode_into z []) = Some (Ok z) /\
  HealthCheckResponse.decode create
    (HealthCheckResponse.encode_into z [] ++ write_varint [] key ++ write_varint [] v)
  = Some (Ok z).
Proof.
  intros Hz Hk Hv Hkey Hw Hf. split.
  - apply (decode_fields_fuel _ _ _ _ _ 2); [auto with egress|].
    change (reader ?x 0 ?m) with (standing [] x m). destruct (z =? 0)%Z eqn:Ez.
    + apply Z.eqb_eq in Ez as ->. apply (decode_loop_end _ _ 1).
    + rewrite <-(app_nil_r (HealthCheckResponse.encode_into z [])).
      rewrite response_loop_step by done. apply decode_loop_end.
  - apply (decode_fields_fuel _ _ _ _ _ 3); [auto with egress|].
    change (reader ?x 0 ?m) with (standing [] x m).
    rewrite <-(app_nil_r (write_varint [] v)). destruct (z =? 0)%Z eqn:Ez.
    + apply Z.eqb_eq in Ez as ->. cbn [app HealthCheckResponse.encode_into negb Z.eqb].
      rewrite response_loop_unknown by done. apply decode_loop_end.
    + rewrite response_loop_step, response_loop_unknown by done. apply decode_loop_end.
Qed.

Lemma response_roundtrip_witness :
  HealthCheckResponse.decode pair
    (HealthCheckResponse.encode_into (-2) [] ++ write_varint [] 16 ++ write_varint [] 300)
  = Some (Ok (-2)%Z).
Proof.
  apply (response_roundtrip pair (-2) 16 300); [unfold is_i32; lia|reflexivity..|discriminate].
Defined.

(** Decoding is total: on any bytes both messages give a value or an error. *)
Theorem decode_total {DecodeError} (create : string -> string -> DecodeError) bs :
  is_Some (HealthCheckRequest.decode create bs) /\ is_Some (HealthCheckResponse.decode create bs).
Proof.
  split; [destruct (decode_fields_total create (HealthCheckRequest.field create) ""
                      HealthCheckRequest.FULL_NAME bs) as [r E]
         |destruct (decode_fields_total create (HealthCheckResponse.field create) 0%Z
                      HealthCheckResponse.FULL_NAME bs) as [r E]]; eauto with egress.
Qed.

(** The estimated length of a message is the number of bytes its encoding appends. *)
Theorem estimate_exact out s z :
  N.of_nat (str_len s) < U64 ->
  blen (HealthCheckRequest.encode_into s out)
  = blen out + HealthCheckRequest.estimate_encoded_len s /\
  blen (HealthCheckResponse.encode_into z out)
  = blen out + HealthCheckResponse.estimate_encoded_len z.
Proof.
  intros Hs. split.
  - unfold HealthCheckRequest.encode_into, HealthCheckRequest.estimate_encoded_len.
    destruct (is_empty s); cbn [negb]; [lia|].
    rewrite varint_len_spec, write_varint_app, (write_varint_small _ 10) by done.
    rewrite !blen_app, blen_singleton, blen_text. lia.
  - unfold HealthCheckResponse.encode_into, HealthCheckResponse.estimate_encoded_len.
    destruct (z =? 0)%Z; cbn [negb]; [lia|].
    rewrite varint_len_spec, write_varint_app, (write_varint_small _ 8)
      by (done || apply i32_as_u64_bound).
    rewrite !blen_app, blen_singleton. lia.
Qed.

Lemma estimate_exact_witness :
  blen (HealthCheckRequest.encode_into "pkg.A" []) = 7 /\
  blen (HealthCheckResponse.encode_into (-1) []) = 11.
Proof. apply (estimate_exact [] "pkg.A" (-1)). reflexivity. Defined.

Lemma read_varint_loop_errors turns i acc r e r' :
  N.of_nat turns + i = 10 -> i < 10 ->
  read_varint_loop pair turns i acc r = (Err e, r') ->
  e = (message r, "truncated protobuf varint"%string) \/
  e = (message r, "protobuf varint overflows 64 bits"%string).
Proof.
  revert i acc r. induction turns as [|turns IH]; intros i acc r Hi H10; [simpl in Hi; lia|].
  cbn [read_varint_loop]. destruct (get_byte _ _) as [b|]; [|intros [= <- <-]; auto].
  destruct ((i =? 9) && _) eqn:E9; [intros [= <- <-]; auto|].
  destruct (_ =? 0) eqn:Ez; [done|]. intros E.
  destruct (N.eqb_spec i 9) as [->|].
  - cbn [andb] in E9. bool_prop. rewrite land_128_small in Ez by lia. done.
  - apply IH in E; [done|lia|lia].
Qed.

(** A varint is read from at most ten bytes and fails only when the bytes end or the value does
    not fit in 64 bits: the error after the loop is unreachable. *)
Theorem read_varint_errors r e r' :
  read_varint pair r = (Err e, r') ->
  e = (message r, "truncated protobuf varint"%string) \/
  e = (message r, "protobuf varint overflows 64 bits"%string).
Proof. by apply read_varint_loop_errors. Qed.

Lemma read_varint_errors_witness :
  let r := reader [xff] 0 "m" in
  ("m", "truncated protobuf varint")%string = (message r, "truncated protobuf varint"%string) \/
  ("m", "truncated protobuf varint")%string = (message r, "protobuf varint overflows 64 bits"%string).
Proof. eapply (read_varint_errors (reader [xff] 0 "m")). reflexivity. Defined.
