(* ===== verification/Contract.v ===== *)
(** * The contract the clients are written against

    The crates under [src/] depend on a contract crate ([proto_pattern]) whose code is not in the
    repository.  What its users match on exhaustively or construct is data here ([StatusCode],
    [CallError], [CallKind], [CallEvent]); its opaque values (metadata, call options, errors) are
    the parameters of the class [Contract].  A request object is the tuple its [into_parts] returns.

    A world [W] is what calls may change: the network, the clock, the peer.  An operation that awaits
    something is an [eff W]. *)

From S2P Require Import Prelude Text.
From Stdlib Require Import NArith Strings.Byte.
From stdpp Require Import base list strings option.

(** ** Data *)

Inductive StatusCode :=
| StatusOk | StatusCancelled | StatusUnknown | InvalidArgument | DeadlineExceeded | NotFound
| AlreadyExists | PermissionDenied | ResourceExhausted | FailedPrecondition | Aborted | OutOfRange
| Unimplemented | Internal | Unavailable | DataLoss | Unauthenticated.

#[export] Instance StatusCode_eq_dec : EqDecision StatusCode.
Proof. solve_decision. Defined.

Inductive CallKind := Unary | ServerStream | ClientStream | BidiStream.

#[export] Instance CallKind_eq_dec : EqDecision CallKind.
Proof. solve_decision. Defined.

(** [std::time::Duration], in nanoseconds: seconds of 64 bits and a part below a second. *)
Definition Duration : Type := N.
Definition SECOND : N := 1000000000.
Definition DURATION_LIMIT : N := (18446744073709551616 * SECOND)%N.

Definition from_secs (secs : N) : Duration := (secs * SECOND)%N.
Definition from_millis (ms : N) : Duration := (ms * 1000000)%N.

(** [Duration::checked_add] and [Duration::checked_sub]. *)
Definition duration_add (a b : Duration) : option Duration :=
  if (a + b <? DURATION_LIMIT)%N then Some (a + b)%N else None.
Definition duration_sub (a b : Duration) : option Duration :=
  if (b <=? a)%N then Some (a - b)%N else None.

(** ** Metadata *)

(** [MetadataView]: what can be read of a block of headers or trailers. *)
Record MetadataView (MetadataError M : Type) := {
  get_values : M -> string -> Result (list string) MetadataError;
  get_entries : M -> Result (list (string * string)) MetadataError;
  get_binary_entries :
    M -> Result (list (Result (string * list byte) MetadataError)) MetadataError;
}.
Arguments get_values {_ _}.
Arguments get_entries {_ _}.
Arguments get_binary_entries {_ _}.

(** The opaque types of the contract crate and their operations. *)
Class Contract := {
  Metadata : Type;
  MetadataError : Type;
  MetadataBuilder : Type;
  EncodeError : Type;
  DecodeError : Type;
  CallOptions : Type;
  (** A stream of request messages; every client here hands it on as it is. *)
  RequestStream : Type -> Type;
  metadata_default : Metadata;
  metadata_view : MetadataView MetadataError Metadata;
  metadata_error_to_string : MetadataError -> string;
  decode_error_create : string -> string -> DecodeError;
  builder_create : MetadataBuilder;
  builder_append : MetadataBuilder -> string -> string -> Result MetadataBuilder MetadataError;
  builder_append_binary :
    MetadataBuilder -> string -> list byte -> Result MetadataBuilder MetadataError;
  builder_build : MetadataBuilder -> Metadata;
  options_create : option Duration -> Metadata -> CallOptions;
  get_timeout : CallOptions -> option Duration;
  get_metadata : CallOptions -> Metadata;
}.

(** ** Failures *)

Inductive CallError `{Contract} :=
| Status (path : string) (code : StatusCode) (message : string) (details : list byte)
    (trailers : Metadata)
| Transport_ (path : string) (code : StatusCode) (reason : string)
| Encode (error : EncodeError)
| Decode (error : DecodeError).

(** ** Methods and messages *)

(** [Payload]: how a message is written and read. *)
Record Payload `{Contract} (A : Type) := {
  estimate_encoded_len : A -> N;
  encode_into : A -> list byte -> Result (list byte) EncodeError;
  decode : list byte -> Result A DecodeError;
}.
Arguments estimate_encoded_len {_ _}.
Arguments encode_into {_ _}.
Arguments decode {_ _}.

(** [Method]: the types and the path of a typed call. *)
Record Method `{Contract} := {
  Request : Type;
  Response : Type;
  PATH : string;
  request_payload : Payload Request;
  response_payload : Payload Response;
}.

(** ** Responses *)

Record CallResponse (A M : Type) := call_response {
  message : A;
  headers : M;
  trailers : M;
}.
Arguments call_response {_ _}.
Arguments message {_ _}.
Arguments headers {_ _}.
Arguments trailers {_ _}.

(** [ResponseStream<T>]: a value of its own state type with the operations of the trait; [drop]
    is what happens when the value goes out of scope. *)
Record StreamOps `{Contract} (W S T M : Type) := {
  read_message : S -> eff W (Result (option T) CallError * S);
  stream_headers : S -> eff W (Result M CallError * S);
  read_trailers : S -> eff W (Result M CallError * S);
  drop : S -> eff W unit;
}.
Arguments read_message {_ _ _ _ _}.
Arguments stream_headers {_ _ _ _ _}.
Arguments read_trailers {_ _ _ _ _}.
Arguments drop {_ _ _ _ _}.

Record ResponseStream `{Contract} (W T M : Type) := response_stream {
  stream_state : Type;
  stream_value : stream_state;
  stream_ops : StreamOps W stream_state T M;
}.
Arguments response_stream {_ _ _ _}.
Arguments stream_state {_ _ _ _}.
Arguments stream_value {_ _ _ _}.
Arguments stream_ops {_ _ _ _}.

(** The stream of a client as a stream of a decorator whose state has one more component. *)
Definition lift_ops `{Contract} {F W S T M} (ops : StreamOps W S T M) : StreamOps (F * W) S T M := {|
  read_message st := lift (read_message ops st);
  stream_headers st := lift (stream_headers ops st);
  read_trailers st := lift (read_trailers ops st);
  drop st := lift (drop ops st);
|}.

Definition lift_stream `{Contract} {F W T M} (s : ResponseStream W T M) :
    ResponseStream (F * W) T M :=
  response_stream (stream_state s) (stream_value s) (lift_ops (stream_ops s)).

(** ** Clients *)

(** [Transport]: the typed calls, with the associated metadata type of the responses. *)
Record Transport `{Contract} (W : Type) := {
  t_metadata : Type;
  t_view : MetadataView MetadataError t_metadata;
  call : forall M : Method, Request M -> CallOptions ->
    eff W (Result (CallResponse (Response M) t_metadata) CallError);
  call_server_stream : forall M : Method, Request M -> CallOptions ->
    eff W (Result (ResponseStream W (Response M) t_metadata) CallError);
  call_client_stream : forall M : Method, RequestStream (Request M) -> CallOptions ->
    eff W (Result (CallResponse (Response M) t_metadata) CallError);
  call_bidi_stream : forall M : Method, RequestStream (Request M) -> CallOptions ->
    eff W (Result (ResponseStream W (Response M) t_metadata) CallError);
}.
Arguments t_metadata {_ _}.
Arguments t_view {_ _}.
Arguments call {_ _}.
Arguments call_server_stream {_ _}.
Arguments call_client_stream {_ _}.
Arguments call_bidi_stream {_ _}.

(** [RawTransport]: the same four shapes with a path at run time and bytes for messages. *)
Record RawTransport `{Contract} (W : Type) := {
  r_metadata : Type;
  r_view : MetadataView MetadataError r_metadata;
  call_raw : string -> list byte -> CallOptions ->
    eff W (Result (CallResponse (list byte) r_metadata) CallError);
  call_raw_server_stream : string -> list byte -> CallOptions ->
    eff W (Result (ResponseStream W (list byte) r_metadata) CallError);
  call_raw_client_stream : string -> RequestStream (list byte) -> CallOptions ->
    eff W (Result (CallResponse (list byte) r_metadata) CallError);
  call_raw_bidi_stream : string -> RequestStream (list byte) -> CallOptions ->
    eff W (Result (ResponseStream W (list byte) r_metadata) CallError);
}.
Arguments r_metadata {_ _}.
Arguments r_view {_ _}.
Arguments call_raw {_ _}.
Arguments call_raw_server_stream {_ _}.
Arguments call_raw_client_stream {_ _}.
Arguments call_raw_bidi_stream {_ _}.

(** A client is both. *)
Record Client `{Contract} (W : Type) := client {
  typed : Transport W;
  raw : RawTransport W;
}.
Arguments client {_ _}.
Arguments typed {_ _}.
Arguments raw {_ _}.

(** ** Events *)

Definition CallIdentity : Type := string * CallKind.

Inductive CallEvent `{Contract} (M : Type) :=
| Started (call : CallIdentity)
| Opened (call : CallIdentity) (headers : M)
| MessageRead (call : CallIdentity)
| Completed (call : CallIdentity) (headers : option M) (trailers : M)
| Failed (call : CallIdentity) (error : CallError)
| Cancelled (call : CallIdentity).
Arguments Started {_ _}.
Arguments Opened {_ _}.
Arguments MessageRead {_ _}.
Arguments Completed {_ _}.
Arguments Failed {_ _}.
Arguments Cancelled {_ _}.

(** ** A contract of lists

    The simplest contract: metadata is a list of text entries and a list of binary ones, and a key
    that is empty is refused.  The witnesses run on it. *)
Module ListContract.
Definition md : Type := list (string * string) * list (string * list byte).

Definition view : MetadataView string md := {|
  get_values m key := Ok (snd <$> filter (fun e => e.1 = key) m.1);
  get_entries m := Ok m.1;
  get_binary_entries m := Ok (Ok <$> m.2);
|}.

Definition append (m : md) (key value : string) : Result md string :=
  if is_empty key then Err "invalid metadata key"%string else Ok (m.1 ++ [(key, value)], m.2).

Definition append_binary (m : md) (key : string) (value : list byte) : Result md string :=
  if is_empty key then Err "invalid metadata key"%string else Ok (m.1, m.2 ++ [(key, value)]).
End ListContract.

Definition list_contract : Contract := {|
  Metadata := ListContract.md;
  MetadataError := string;
  MetadataBuilder := ListContract.md;
  EncodeError := string;
  DecodeError := string * string;
  CallOptions := option Duration * ListContract.md;
  RequestStream := list;
  metadata_default := ([], []);
  metadata_view := ListContract.view;
  metadata_error_to_string := id;
  decode_error_create := pair;
  builder_create := ([], []);
  builder_append := ListContract.append;
  builder_append_binary := ListContract.append_binary;
  builder_build := id;
  options_create := pair;
  get_timeout := fst;
  get_metadata := snd;
|}.

Definition list_view : MetadataView (@MetadataError list_contract) ListContract.md :=
  ListContract.view.
