(* ===== verification/HealthMethod.v ===== *)
(** * The health check as a typed method

    [transport-api/src/client/health_check.rs] and the two [Payload] implementations, over the codec
    of [HealthCodec]. *)

From S2P Require Import Prelude Text Bytes HealthCodec Contract.
From Stdlib Require Import NArith ZArith Strings.Byte.
From stdpp Require Import base tactics strings option list.

Section method.
Context `{Contract}.

(** A codec's decoder always gives a result ([HealthCodec.decode_total]), so the last branch is
    never taken. *)
Definition decoded {A} (name : string) (r : option (Result A DecodeError)) : Result A DecodeError :=
  match r with Some r => r | None => Err (decode_error_create name "") end.

Definition health_request_payload : Payload string := {|
  estimate_encoded_len := HealthCheckRequest.estimate_encoded_len;
  encode_into service out := Ok (HealthCheckRequest.encode_into service out);
  decode bs :=
    decoded HealthCheckRequest.FULL_NAME (HealthCheckRequest.decode decode_error_create bs);
|}.

Definition health_response_payload : Payload Z := {|
  estimate_encoded_len := HealthCheckResponse.estimate_encoded_len;
  encode_into status out := Ok (HealthCheckResponse.encode_into status out);
  decode bs :=
    decoded HealthCheckResponse.FULL_NAME (HealthCheckResponse.decode decode_error_create bs);
|}.

Definition HealthCheck : Method := {|
  Request := string;
  Response := Z;
  PATH := "/grpc.health.v1.Health/Check";
  request_payload := health_request_payload;
  response_payload := health_response_payload;
|}.
End method.
