(* ===== verification/Metadata.v ===== *)
(** * Extending metadata

    [transport-spi/src/spi/client/std_metadata_extender.rs] over the opaque metadata of the contract,
    and the laws the contract crate documents for it ([MetadataLaws]): a builder keeps what is
    appended, in order; entries that metadata holds can be appended again. *)

From S2P Require Import Prelude Text Contract.
From Stdlib Require Import Lia Strings.Byte.
From stdpp Require Import base tactics strings option list.

Section extender.
Context `{Contract}.

(** [for entry in entries { builder.append(entry.get_key(), entry.get_value())?; }] *)
Fixpoint append_all (builder : MetadataBuilder) (entries : list (string * string)) :
    Result MetadataBuilder MetadataError :=
  match entries with
  | [] => Ok builder
  | (key, value) :: entries' =>
      let? builder := builder_append builder key value in append_all builder entries'
  end.

(** The same for the binary entries, each of which may fail to decode. *)
Fixpoint append_all_binary (builder : MetadataBuilder)
    (entries : list (Result (string * list byte) MetadataError)) :
    Result MetadataBuilder MetadataError :=
  match entries with
  | [] => Ok builder
  | entry :: entries' =>
      let? entry := entry in
      let? builder := builder_append_binary builder entry.1 entry.2 in
      append_all_binary builder entries'
  end.

Definition start (source : Metadata) : Result MetadataBuilder MetadataError :=
  let builder := builder_create in
  let? entries := get_entries metadata_view source in
  let? builder := append_all builder entries in
  let? binary := get_binary_entries metadata_view source in
  append_all_binary builder binary.

Definition extender_append (source : Metadata) (key value : string) :
    Result Metadata MetadataError :=
  let? builder := start source in
  let? builder := builder_append builder key value in
  Ok (builder_build builder).

(** The loop of [extend]: a key that [source] holds is not added. *)
Fixpoint extend_loop (source : Metadata) (builder : MetadataBuilder)
    (added : list (string * string)) : Result MetadataBuilder MetadataError :=
  match added with
  | [] => Ok builder
  | (key, value) :: added' =>
      let? values := get_values metadata_view source key in
      let? builder :=
        (match values with [] => builder_append builder key value | _ => Ok builder end) in
      extend_loop source builder added'
  end.

Definition extend (source : Metadata) (added : list (string * string)) :
    Result Metadata MetadataError :=
  let? builder := start source in
  let? builder := extend_loop source builder added in
  Ok (builder_build builder).

Definition copy {M} (view : MetadataView MetadataError M) (source : M) :
    Result Metadata MetadataError :=
  let builder := builder_create in
  let? entries := get_entries view source in
  let? builder := append_all builder entries in
  let? binary := get_binary_entries view source in
  let? builder := append_all_binary builder binary in
  Ok (builder_build builder).
End extender.

(** ** What the contract crate promises of metadata *)

Class MetadataLaws `{Contract} := {
  text : Metadata -> list (string * string);
  binary : Metadata -> list (string * list byte);
  builder_text : MetadataBuilder -> list (string * string);
  builder_binary : MetadataBuilder -> list (string * list byte);
  (** The form a key has once stored, and what may be stored. *)
  norm : string -> string;
  valid : string -> string -> bool;
  valid_key : string -> bool;
  (** Metadata that a builder made. *)
  built : Metadata -> Prop;
  norm_idem : forall k, norm (norm k) = norm k;
  valid_norm : forall k v, valid k v = true -> valid (norm k) v = true;
  valid_valid_key : forall k v, valid k v = true -> valid_key k = true;
  create_text : builder_text builder_create = [];
  create_binary : builder_binary builder_create = [];
  append_valid : forall b k v, valid k v = true -> exists b',
    builder_append b k v = Ok b' /\ builder_text b' = builder_text b ++ [(norm k, v)] /\
    builder_binary b' = builder_binary b;
  append_invalid : forall b k v, valid k v = false -> exists e, builder_append b k v = Err e;
  append_binary_again : forall m b k v, built m -> (k, v) ∈ binary m -> exists b',
    builder_append_binary b k v = Ok b' /\ builder_text b' = builder_text b /\
    builder_binary b' = builder_binary b ++ [(k, v)];
  build_text : forall b, text (builder_build b) = builder_text b;
  build_binary : forall b, binary (builder_build b) = builder_binary b;
  built_entries : forall m, built m -> get_entries metadata_view m = Ok (text m) /\
    Forall (fun '(k, v) => valid k v = true /\ norm k = k) (text m);
  built_binary : forall m, built m ->
    get_binary_entries metadata_view m = Ok (Ok <$> binary m);
  built_values : forall m k, built m -> valid_key k = true ->
    get_values metadata_view m k = Ok (snd <$> filter (fun e => e.1 = norm k) (text m));
  (** A key that may not be stored is refused, or found nowhere. *)
  invalid_key_values : forall m k v vs, built m -> valid_key k = false ->
    get_values metadata_view m k <> Ok (v :: vs);
  built_build : forall m b,
    built m -> (forall e, e ∈ builder_binary b -> e ∈ binary m) ->
    Forall (fun '(k, v) => valid k v = true /\ norm k = k) (builder_text b) ->
    built (builder_build b);
}.

(** The values [m] holds for [k]. *)
Definition values `{MetadataLaws} (m : Metadata) (k : string) : list string :=
  snd <$> filter (fun e => e.1 = norm k) (text m).

(** The entries of [added] that [source] holds no value for, as they are stored. *)
Definition missing `{MetadataLaws} (source : Metadata) (added : list (string * string)) :
    list (string * string) :=
  (fun '(k, v) => (norm k, v)) <$> filter (fun e => values source e.1 = []) added.

(** Whether [extend] can add [e] to [source], or has no need to. *)
Definition addable `{MetadataLaws} (source : Metadata) (e : string * string) : bool :=
  valid_key e.1 && (bool_decide (values source e.1 <> []) || valid e.1 e.2).

(** ** Lemmas *)

Section lemmas.
Context `{HC : Contract} `{HL : !MetadataLaws}.

Lemma append_all_stored b entries :
  Forall (fun '(k, v) => valid k v = true /\ norm k = k) entries ->
  exists b', append_all b entries = Ok b' /\ builder_text b' = builder_text b ++ entries /\
    builder_binary b' = builder_binary b.
Proof.
  intros HF. revert b. induction HF as [|[k v] entries [Hv Hk] _ IH]; intros b; cbn [append_all].
  - exists b. by rewrite app_nil_r.
  - destruct (append_valid b k v Hv) as (b1 & -> & Ht & Hb). cbn [rbind].
    destruct (IH b1) as (b2 & -> & Ht2 & Hb2). exists b2.
    rewrite Ht2, Hb2, Ht, Hb, Hk, <-app_assoc. done.
Qed.

Lemma append_all_binary_stored m b entries :
  built m -> (forall e, e ∈ entries -> e ∈ binary m) ->
  exists b', append_all_binary b (Ok <$> entries) = Ok b' /\ builder_text b' = builder_text b /\
    builder_binary b' = builder_binary b ++ entries.
Proof.
  intros Hm. revert b. induction entries as [|[k v] entries IH]; intros b He;
    cbn [fmap list_fmap append_all_binary].
  - exists b. by rewrite app_nil_r.
  - destruct (append_binary_again m b k v Hm (He _ ltac:(left))) as (b1 & E & Ht & Hb).
    cbn [rbind fst snd]. rewrite E. cbn [rbind].
    destruct (IH b1) as (b2 & -> & Ht2 & Hb2); [intros e ?; apply He; by right|].
    exists b2. rewrite Ht2, Hb2, Ht, Hb, <-app_assoc. done.
Qed.

Lemma start_built m :
  built m -> exists b, start m = Ok b /\ builder_text b = text m /\ builder_binary b = binary m.
Proof.
  intros Hm. unfold start. destruct (built_entries m Hm) as [-> HF]. cbn [rbind].
  destruct (append_all_stored builder_create (text m) HF) as (b1 & -> & Ht & Hb). cbn [rbind].
  rewrite (built_binary m Hm). cbn [rbind].
  destruct (append_all_binary_stored m b1 (binary m) Hm) as (b2 & -> & Ht2 & Hb2); [done|].
  exists b2. by rewrite Ht2, Ht, Hb2, Hb, create_text, create_binary.
Qed.

(** Copying what a builder made keeps every entry. *)
Lemma copy_built m :
  built m -> exists m', copy metadata_view m = Ok m' /\ text m' = text m /\ binary m' = binary m /\
    built m'.
Proof.
  intros Hm. destruct (start_built m Hm) as (b & E & Ht & Hb).
  exists (builder_build b). rewrite build_text, build_binary. split_and!; [|done|done|].
  - unfold start in E. unfold copy.
    destruct (get_entries metadata_view m) as [es|]; cbn [rbind] in *; [|done].
    destruct (append_all _ es) as [b1|]; cbn [rbind] in *; [|done].
    destruct (get_binary_entries metadata_view m) as [bs|]; cbn [rbind] in *; [|done].
    by rewrite E.
  - apply (built_build m); [done|by rewrite Hb|]. rewrite Ht. apply (built_entries m Hm).
Qed.

Lemma extend_loop_spec m b added :
  built m ->
  Forall (fun e => valid_key e.1 = true /\ (values m e.1 = [] -> valid e.1 e.2 = true)) added ->
  exists b', extend_loop m b added = Ok b' /\
    builder_text b' = builder_text b ++ missing m added /\ builder_binary b' = builder_binary b.
Proof.
  intros Hm HF. revert b. induction HF as [|[k v] added [Hk Hv] _ IH]; intros b; cbn [extend_loop].
  - exists b. by rewrite app_nil_r.
  - cbn [fst snd] in Hk, Hv. rewrite built_values by done. cbn [rbind].
    change (snd <$> filter (fun e => e.1 = norm k) (text m)) with (values m k).
    unfold missing. rewrite filter_cons. cbn [fst].
    destruct (values m k) as [|x l] eqn:Ex.
    + rewrite decide_True by done.
      destruct (append_valid b k v (Hv eq_refl)) as (b1 & -> & Ht & Hb). cbn [rbind].
      destruct (IH b1) as (b2 & -> & Ht2 & Hb2). exists b2.
      rewrite Ht2, Hb2, Ht, Hb, <-app_assoc. done.
    + rewrite decide_False by done. cbn [rbind]. apply IH.
Qed.

Lemma extend_loop_invalid m b added :
  built m -> forallb (addable m) added = false -> exists e, extend_loop m b added = Err e.
Proof.
  intros Hm. revert b. induction added as [|[k v] added IH]; intros b; [done|]. cbn [forallb extend_loop].
  unfold addable at 1. cbn [fst snd]. destruct (valid_key k) eqn:Hk.
  - rewrite built_values by done. cbn [rbind].
    change (snd <$> filter (fun e => e.1 = norm k) (text m)) with (values m k).
    destruct (values m k) as [|x l] eqn:Ex; [rewrite bool_decide_false by (intros []; done)|
      rewrite bool_decide_true by done]; cbn; [|apply IH].
    destruct (valid k v) eqn:Hv; cbn.
    + destruct (append_valid b k v Hv) as (b1 & -> & _). apply IH.
    + destruct (append_invalid b k v Hv) as [e ->]. by exists e.
  - cbn. intros _. pose proof (fun v vs => invalid_key_values m k v vs Hm Hk) as Hnone.
    destruct (get_values metadata_view m k) as [[|x l]|e]; cbn [rbind]; [|by destruct (Hnone x l)|eauto].
    destruct (append_invalid b k v) as [e ->]; [|by exists e].
    apply not_true_is_false. intros Hv%valid_valid_key. congruence.
Qed.

(** [extend] adds the missing entries after the source's own, and nothing else. *)
Lemma extend_spec m added :
  built m ->
  Forall (fun e => valid_key e.1 = true /\ (values m e.1 = [] -> valid e.1 e.2 = true)) added ->
  exists m', extend m added = Ok m' /\ text m' = text m ++ missing m added /\
    binary m' = binary m /\ built m'.
Proof.
  intros Hm HF. unfold extend. destruct (start_built m Hm) as (b & -> & Ht & Hb). cbn [rbind].
  destruct (extend_loop_spec m b added Hm HF) as (b' & -> & Ht' & Hb'). cbn [rbind].
  exists (builder_build b'). rewrite build_text, build_binary, Ht', Hb', Ht, Hb.
  split_and!; [done..|]. apply (built_build m); [done|by rewrite Hb', Hb|].
  rewrite Ht', Ht. apply Forall_app. split; [apply (built_entries m Hm)|].
  unfold missing. apply Forall_fmap, Forall_forall. intros [k v] [Hempty Hin]%list_elem_of_filter.
  rewrite Forall_forall in HF. destruct (HF _ Hin) as [_ Hv]. cbn in *.
  split; [by apply valid_norm, Hv|apply norm_idem].
Qed.

Lemma extend_invalid m added :
  built m -> forallb (addable m) added = false -> exists e, extend m added = Err e.
Proof.
  intros Hm HF. unfold extend. destruct (start_built m Hm) as (b & -> & _). cbn [rbind].
  destruct (extend_loop_invalid m b added Hm HF) as [e ->]. by exists e.
Qed.

Lemma addable_all m added :
  forallb (addable m) added = true ->
  Forall (fun e => valid_key e.1 = true /\ (values m e.1 = [] -> valid e.1 e.2 = true)) added.
Proof.
  intros HF. apply Forall_forall. intros e He. rewrite forallb_forall in HF.
  specialize (HF e ltac:(by apply list_elem_of_In)). unfold addable in HF.
  apply andb_true_iff in HF as [Hk Hv]. split; [done|]. intros E. rewrite bool_decide_false in Hv by (intros []; done). done.
Qed.

Lemma values_app m m' added k :
  text m' = text m ++ added ->
  values m' k = values m k ++ (snd <$> filter (fun e => e.1 = norm k) added).
Proof. intros E. unfold values. by rewrite E, filter_app, fmap_app. Qed.

(** A key the source holds is not among the missing ones. *)
Lemma missing_absent m added k :
  values m k <> [] -> filter (fun e => e.1 = norm k) (missing m added) = [].
Proof.
  intros Hk. unfold missing. induction added as [|[k' v] added IH]; [done|].
  rewrite filter_cons. cbn [fst]. case_decide as Hv; [|done].
  cbn [fmap list_fmap]. rewrite filter_cons. cbn [fst]. case_decide as Hn; [|done].
  exfalso. apply Hk. unfold values in *. by rewrite <-Hn.
Qed.

(** [append] adds one entry after the source's own. *)
Lemma append_spec m k v :
  built m -> valid k v = true ->
  exists m', extender_append m k v = Ok m' /\ text m' = text m ++ [(norm k, v)] /\
    binary m' = binary m /\ built m'.
Proof.
  intros Hm Hv. unfold extender_append. destruct (start_built m Hm) as (b & -> & Ht & Hb).
  cbn [rbind]. destruct (append_valid b k v Hv) as (b' & -> & Ht' & Hb'). cbn [rbind].
  exists (builder_build b'). rewrite build_text, build_binary, Ht', Hb', Ht, Hb.
  split_and!; [done..|]. apply (built_build m); [done|by rewrite Hb', Hb|].
  rewrite Ht', Ht. apply Forall_app. split; [apply (built_entries m Hm)|].
  repeat constructor; [by apply valid_norm|apply norm_idem].
Qed.

Lemma append_invalid_spec m k v :
  built m -> valid k v = false -> exists e, extender_append m k v = Err e.
Proof.
  intros Hm Hv. unfold extender_append. destruct (start_built m Hm) as (b & -> & _). cbn [rbind].
  destruct (append_invalid b k v Hv) as [e ->]. by exists e.
Qed.
End lemmas.

(** ** The list contract keeps the laws *)

#[export] Instance list_metadata_laws : @MetadataLaws list_contract.
Proof.
  refine {|
    text := fst : @Metadata list_contract -> _;
    binary := snd : @Metadata list_contract -> _;
    builder_text := fst : @MetadataBuilder list_contract -> _;
    builder_binary := snd : @MetadataBuilder list_contract -> _;
    norm := id;
    valid k _ := negb (is_empty k);
    valid_key k := negb (is_empty k);
    built m := Forall (fun '(k, _) => is_empty k = false) m.1 /\
               Forall (fun '(k, _) => is_empty k = false) m.2;
  |}; try done.
  - intros [t b] k v Hv. cbn. unfold ListContract.append. apply negb_true_iff in Hv. rewrite Hv.
    eauto.
  - intros b k v Hv. cbn. unfold ListContract.append. apply negb_false_iff in Hv. rewrite Hv. eauto.
  - intros [t b] [t' b'] k v [_ HF] Hin. cbn in *. unfold ListContract.append_binary.
    rewrite Forall_forall in HF. specialize (HF _ Hin). cbn in HF. rewrite HF. eauto.
  - intros [t b] [HF _]. split; [done|]. eapply Forall_impl; [exact HF|].
    intros [k v] Hk. cbn. by rewrite Hk.
  - intros [t b] k v vs [HF _] Hk. cbn in *. apply negb_false_iff in Hk.
    destruct (filter _ t) as [|e es] eqn:E; [done|].
    assert (e ∈ filter (fun e : string * string => e.1 = k) t) as [<- Hin]%list_elem_of_filter
      by (rewrite E; left).
    rewrite Forall_forall in HF. specialize (HF e Hin). destruct e. cbn in *. congruence.
  - intros m [t b] [_ Hm] Hin HF. cbn in *. split.
    + eapply Forall_impl; [exact HF|]. intros [k v] [Hk _]. by apply negb_true_iff in Hk.
    + apply Forall_forall. intros e He. rewrite Forall_forall in Hm. by apply Hm, Hin.
Defined.
