(* ===== verification/Interceptors.v ===== *)
(** * Interceptors

    [transport-api/src/interceptor/]: the call an interceptor may change (class [OutboundCall]), the
    reply it may look at, the interceptor and the chain (class [GrpcEgressInterceptorChain]);
    [transport-spi/src/spi/client/pending_call.rs], the call behind the interface;
    [transport-std/src/std/interceptor/]: the standard chain and the trace-context interceptor; and
    the two interceptors of [examples/composition-root].

    [&mut dyn OutboundCall] is state passing: an interceptor is an effect on the call and the
    world. *)

From S2P Require Import Prelude Text Contract Metadata.
From Stdlib Require Import Lia.
From stdpp Require Import base tactics strings option list.

(** ** The call an interceptor sees *)

Class OutboundCall `{Contract} (C : Type) := {
  path : C -> string;
  timeout : C -> option Duration;
  set_timeout : C -> option Duration -> C;
  has_header : C -> string -> bool;
  header_values : C -> string -> list string;
  (** The call with the header, or the failure and the call as it was. *)
  add_header : C -> string -> string -> Result C CallError;
}.

(** What the documentation of the trait promises. *)
Class OutboundCallLaws `{MetadataLaws} (C : Type) `{!OutboundCall C} := {
  (** The calls the laws speak of: those an implementation builds. *)
  sound : C -> Prop;
  has_header_values : forall c k, has_header c k = true <-> header_values c k <> [];
  set_timeout_spec : forall c t, sound c ->
    sound (set_timeout c t) /\ timeout (set_timeout c t) = t /\
    path (set_timeout c t) = path c /\
    forall k, header_values (set_timeout c t) k = header_values c k;
  add_header_ok : forall c k v, sound c -> valid k v = true -> exists c',
    add_header c k v = Ok c' /\ sound c' /\ path c' = path c /\ timeout c' = timeout c /\
    forall k', valid_key k' = true ->
      header_values c' k'
      = header_values c k' ++ (if decide (norm k = norm k') then [v] else []);
  add_header_invalid : forall c k v, sound c -> valid k v = false ->
    exists reason, add_header c k v = Err (Transport_ (path c) InvalidArgument reason);
}.

(** ** [PendingCall] *)

Record PendingCall `{Contract} := pending_call {
  pending_path : string;
  pending_timeout : option Duration;
  pending_metadata : Metadata;
}.
Arguments pending_call {_}.

Section pending.
Context `{Contract}.

Definition pending_from (path : string) (options : CallOptions) : PendingCall :=
  pending_call path (get_timeout options) (get_metadata options).

Definition options_from (call : PendingCall) : CallOptions :=
  options_create (pending_timeout call) (pending_metadata call).

Definition pending_header_values (call : PendingCall) (key : string) : list string :=
  match get_values metadata_view (pending_metadata call) key with Ok l => l | Err _ => [] end.

Definition pending_has_header (call : PendingCall) (key : string) : bool :=
  negb (match pending_header_values call key with [] => true | _ => false end).

Definition pending_add_header (call : PendingCall) (key value : string) :
    Result PendingCall CallError :=
  let? metadata :=
    map_err (fun e =>
               Transport_ (pending_path call) InvalidArgument (metadata_error_to_string e))
      (extender_append (pending_metadata call) key value) in
  Ok (pending_call (pending_path call) (pending_timeout call) metadata).

#[export] Instance pending_outbound : OutboundCall PendingCall := {|
  path := pending_path;
  timeout := pending_timeout;
  set_timeout call t := pending_call (pending_path call) t (pending_metadata call);
  has_header := pending_has_header;
  header_values := pending_header_values;
  add_header := pending_add_header;
|}.
End pending.

(** ** Replies, interceptors and chains *)

Record InboundReply `{Contract} := inbound_reply {
  reply_path : string;
  reply_headers : Metadata;
  reply_trailers : Metadata;
}.
Arguments inbound_reply {_}.

(** [GrpcEgressInterceptor]; [before_call] works on any implementation of [OutboundCall]. *)
Record GrpcEgressInterceptor `{Contract} (W : Type) := {
  before_call : forall C `{!OutboundCall C}, eff (C * W) (Result unit CallError);
  after_call : InboundReply -> eff W (Result unit CallError);
  on_event : CallEvent Metadata -> eff W unit;
}.
Arguments before_call {_ _} _ C {_}.
Arguments after_call {_ _}.
Arguments on_event {_ _}.

Class GrpcEgressInterceptorChain `{Contract} (W Ch : Type) := {
  push : Ch -> GrpcEgressInterceptor W -> Ch;
  len : Ch -> nat;
  is_empty : Ch -> bool;
  run_before : Ch -> forall C `{!OutboundCall C}, eff (C * W) (Result unit CallError);
  run_after : Ch -> InboundReply -> eff W (Result unit CallError);
  run_event : Ch -> CallEvent Metadata -> eff W unit;
}.

(** ** The standard chain *)

Section std_chain.
Context `{Contract} {W : Type}.

Definition StdGrpcEgressInterceptorChain : Type := list (GrpcEgressInterceptor W).

Fixpoint std_run_before (chain : StdGrpcEgressInterceptorChain) (C : Type) `{!OutboundCall C} :
    eff (C * W) (Result unit CallError) :=
  match chain with
  | [] => ret (Ok tt)
  | interceptor :: rest =>
      let!? _ := before_call interceptor C in std_run_before rest C
  end.

Fixpoint std_run_after (chain : StdGrpcEgressInterceptorChain) (reply : InboundReply) :
    eff W (Result unit CallError) :=
  match chain with
  | [] => ret (Ok tt)
  | interceptor :: rest =>
      let!? _ := after_call interceptor reply in std_run_after rest reply
  end.

Fixpoint std_run_event (chain : StdGrpcEgressInterceptorChain) (event : CallEvent Metadata) :
    eff W unit :=
  match chain with
  | [] => ret tt
  | interceptor :: rest => on_event interceptor event ;;; std_run_event rest event
  end.

#[export] Instance std_chain : GrpcEgressInterceptorChain W StdGrpcEgressInterceptorChain := {|
  push chain interceptor := chain ++ [interceptor];
  len := length;
  is_empty chain := match chain with [] => true | _ => false end;
  run_before := std_run_before;
  run_after := std_run_after;
  run_event := std_run_event;
|}.
End std_chain.

(** ** The trace context *)

Inductive TraceContextSource :=
| PassThrough
| Static (traceparent : string) (tracestate : option string).

Section interceptors.
Context `{Contract} {W : Type}.

Definition TRACEPARENT : string := "traceparent".
Definition TRACESTATE : string := "tracestate".

(** [call.add_header(key, value)?] on the call of the state. *)
Definition add_header_to (C : Type) `{!OutboundCall C} (key value : string) :
    eff (C * W) (Result unit CallError) :=
  fun '(call, w) =>
    match add_header call key value with
    | Ok call' => (Ok tt, (call', w))
    | Err e => (Err e, (call, w))
    end.

Definition trace_before_call (source : TraceContextSource) (C : Type) `{!OutboundCall C} :
    eff (C * W) (Result unit CallError) :=
  fun '(call, w) =>
    if has_header call TRACEPARENT then (Ok tt, (call, w))
    else
      match source with
      | PassThrough => (Ok tt, (call, w))
      | Static traceparent tracestate =>
          bindr (add_header_to C TRACEPARENT traceparent) (fun _ =>
            match tracestate with
            | Some state => add_header_to C TRACESTATE state
            | None => ret (Ok tt)
            end) (call, w)
      end.

Definition TraceContextGrpcEgressInterceptor (source : TraceContextSource) :
    GrpcEgressInterceptor W := {|
  before_call C _ := trace_before_call source C;
  after_call _ := ret (Ok tt);
  on_event _ := ret tt;
|}.

(** [StdGrpcEgressInterceptorFactory], whose interceptors share a source, and
    [StdGrpcEgressInterceptorChainFactory::build]. *)
Record StdGrpcEgressInterceptorFactory := interceptor_factory { source : TraceContextSource }.

Definition interceptor_build (self : StdGrpcEgressInterceptorFactory) : GrpcEgressInterceptor W :=
  TraceContextGrpcEgressInterceptor (source self).

Definition chain_build : StdGrpcEgressInterceptorChain (W := W) := [].

(** ** The interceptors of the composition root *)

(** [push] appends to the shared log of the world. *)
Definition event_phase {M} (event : CallEvent M) : string :=
  match event with
  | Started _ => "started"
  | Opened _ _ => "opened"
  | MessageRead _ => "message_read"
  | Completed _ _ _ => "completed"
  | Failed _ _ => "failed"
  | Cancelled _ => "cancelled"
  end.

Definition OrderInterceptor (label : string) (push : string -> W -> W) :
    GrpcEgressInterceptor W := {|
  before_call C _ := act (fun '(call, w) => (call, push ("before:" +:+ label) w)) ;;; ret (Ok tt);
  after_call _ := act (push ("after:" +:+ label)) ;;; ret (Ok tt);
  on_event event := act (push ("event:" +:+ event_phase event +:+ ":" +:+ label));
|}.

Definition RefusingInterceptor : GrpcEgressInterceptor W := {|
  before_call C _ := fun '(call, w) =>
    (Err (Transport_ (path call) PermissionDenied "refused by the example"), (call, w));
  after_call _ := ret (Ok tt);
  on_event _ := ret tt;
|}.
End interceptors.

(** ** Lemmas *)

(** A pending call keeps what the interface promises. *)
#[export] Instance pending_laws `{HC : Contract} `{HL : !MetadataLaws} : OutboundCallLaws PendingCall.
Proof.
  refine {| sound (c : PendingCall) := built (pending_metadata c) |}.
  - intros c k. cbn. unfold pending_has_header.
    destruct (pending_header_values c k); cbn; naive_solver.
  - done.
  - intros c k v Hc Hv. cbn in *. unfold pending_add_header.
    destruct (append_spec (pending_metadata c) k v Hc Hv) as (m' & -> & Ht & _ & Hm').
    cbn [map_err rbind]. eexists. split_and!; [done..|].
    intros k' Hk'. unfold pending_header_values. cbn [pending_metadata].
    rewrite !built_values by done. rewrite Ht, filter_app, fmap_app. f_equal.
    rewrite filter_cons. cbn [fst]. by case_decide.
  - intros c k v Hc Hv. cbn in *. unfold pending_add_header.
    destruct (append_invalid_spec (pending_metadata c) k v Hc Hv) as [e ->]. by eexists.
Defined.

Lemma std_run_before_app `{Contract} {W} (l1 l2 : list (GrpcEgressInterceptor W)) C
    `{!OutboundCall C} s :
  std_run_before (l1 ++ l2) C s = (let!? _ := std_run_before l1 C in std_run_before l2 C) s.
Proof.
  revert s. induction l1 as [|i l1 IH]; intros s; [done|].
  cbn [std_run_before app]. unfold bindr, bind in *.
  destruct (before_call i C s) as [[[]|e] s']; [|done]. rewrite IH.
  by destruct (std_run_before l1 C s') as [[[]|e] s''].
Qed.

(** ** Properties *)

(** C22: Against the interface of an outbound call, the trace-context interceptor leaves a call that
    carries a [traceparent] alone; to any other it adds its [traceparent] and its [tracestate], if it
    has one, after the headers the call has, and changes neither path, timeout nor other headers. *)
Theorem trace_context_adds_once `{HC : Contract} `{HL : !MetadataLaws} {W C} `{HO : !OutboundCall C}
    `{HOL : !OutboundCallLaws C} (traceparent : string) tracestate (c : C) (w : W) :
  sound c -> norm TRACEPARENT <> norm TRACESTATE ->
  valid TRACEPARENT traceparent = true ->
  (forall state, tracestate = Some state -> valid TRACESTATE state = true) ->
  exists c',
    trace_before_call (Static traceparent tracestate) C (c, w) = (Ok tt, (c', w)) /\
    path c' = path c /\ timeout c' = timeout c /\
    (header_values c TRACEPARENT <> [] -> c' = c) /\
    (header_values c TRACEPARENT = [] ->
       header_values c' TRACEPARENT = [traceparent] /\
       (valid_key TRACESTATE = true ->
          header_values c' TRACESTATE
          = header_values c TRACESTATE ++ option_list tracestate) /\
       forall k, valid_key k = true -> norm k <> norm TRACEPARENT -> norm k <> norm TRACESTATE ->
         header_values c' k = header_values c k).
Proof.
  intros Hc Hne Hp Hs. unfold trace_before_call.
  destruct (has_header c TRACEPARENT) eqn:Eh.
  { apply has_header_values in Eh. exists c. split_and!; [done..|]. intros E; exfalso; by apply Eh. }
  assert (header_values c TRACEPARENT = []) as Hempty.
  { destruct (header_values c TRACEPARENT) eqn:E; [done|].
    assert (has_header c TRACEPARENT = true) by (apply has_header_values; by rewrite E). congruence. }
  destruct (add_header_ok c TRACEPARENT traceparent Hc Hp) as (c1 & E1 & Hc1 & Hp1 & Ht1 & Hv1).
  unfold bindr, bind, add_header_to, ret. rewrite E1.
  pose proof (valid_valid_key _ _ Hp) as Hkp.
  destruct tracestate as [state|].
  - destruct (add_header_ok c1 TRACESTATE state Hc1 (Hs _ eq_refl)) as (c2 & -> & _ & Hp2 & Ht2 & Hv2).
    exists c2. split_and!; [done|congruence|congruence|done|]. intros _. split_and!.
    + rewrite Hv2, Hv1, Hempty by done. repeat case_decide; try congruence; by rewrite ?app_nil_r.
    + intros Hk. rewrite Hv2, Hv1 by done. repeat case_decide; try congruence; by rewrite ?app_nil_r.
    + intros k Hk Hn1 Hn2. rewrite Hv2, Hv1 by done.
      repeat case_decide; try congruence; by rewrite ?app_nil_r.
  - exists c1. split_and!; [done..|]. intros _. split_and!.
    + rewrite Hv1, Hempty by done. case_decide; try congruence; by rewrite ?app_nil_r.
    + intros Hk. rewrite Hv1 by done. case_decide; try congruence; by rewrite ?app_nil_r.
    + intros k Hk Hn1 Hn2. rewrite Hv1 by done. case_decide; try congruence; by rewrite ?app_nil_r.
Qed.

#[local] Existing Instance list_contract.

Lemma trace_context_adds_once_witness :
  let c := pending_call "/s/M" None ([("x-a", "1")], []) in
  exists c',
    trace_before_call (Static "00-ab-cd-01" (Some "vendor=1")) PendingCall (c, tt)
    = (Ok tt, (c', tt)) /\
    path c' = path c /\ timeout c' = timeout c /\
    (header_values c TRACEPARENT <> [] -> c' = c) /\
    (header_values c TRACEPARENT = [] ->
       header_values c' TRACEPARENT = ["00-ab-cd-01"] /\
       (valid_key TRACESTATE = true ->
          header_values c' TRACESTATE = header_values c TRACESTATE ++ ["vendor=1"]) /\
       forall k, valid_key k = true -> norm k <> norm TRACEPARENT -> norm k <> norm TRACESTATE ->
         header_values c' k = header_values c k).
Proof.
  intros c. apply (trace_context_adds_once "00-ab-cd-01" (Some "vendor=1") c tt).
  - cbn. split; by repeat constructor.
  - discriminate.
  - reflexivity.
  - reflexivity.
Defined.
