(* ===== verification/Intercepted.v ===== *)
(** * A client whose calls run through the interceptors

    [transport-spi/src/spi/client/intercepted_transport.rs] and [pattern_egress_interceptor.rs]:
    [before_call] of the chain before anything is sent, [after_call] after a message came back, and
    the lifecycle events of the call and of its response stream. *)

From S2P Require Import Prelude Text Contract Metadata Interceptors.
From Stdlib Require Import Lia Strings.Byte.
From stdpp Require Import base tactics strings option list.

Section intercepted.
Context `{Contract} {W Ch : Type} `{!GrpcEgressInterceptorChain W Ch}.

(** ** [PatternEgressInterceptor] *)

(** The adapter is the chain it holds. *)
Definition adapter_before_call (chain : Ch) (identity : CallIdentity) (options : CallOptions) :
    eff W (Result CallOptions CallError) := fun w =>
  if is_empty chain then (Ok options, w)
  else
    let path := identity.1 in
    let pending := pending_from path options in
    let '(r, (pending', w')) := run_before chain PendingCall (pending, w) in
    match r with
    | Ok _ => (Ok (options_from pending'), w')
    | Err e => (Err e, w')
    end.

Definition adapter_on_event (chain : Ch) {M} (view : MetadataView MetadataError M)
    (event : CallEvent M) : eff W unit :=
  match event with
  | Started call => run_event chain (Started call)
  | Opened call headers =>
      match copy view headers with
      | Ok headers => run_event chain (Opened call headers)
      | Err _ => ret tt
      end
  | MessageRead call => run_event chain (MessageRead call)
  | Completed call headers trailers =>
      match copy view trailers with
      | Ok trailers =>
          match headers with
          | Some headers =>
              match copy view headers with
              | Ok headers => run_event chain (Completed call (Some headers) trailers)
              | Err _ => ret tt
              end
          | None => run_event chain (Completed call None trailers)
          end
      | Err _ => ret tt
      end
  | Failed call error => run_event chain (Failed call error)
  | Cancelled call => run_event chain (Cancelled call)
  end.

(** An event that carries no metadata of the transport's type. *)
Definition plain_event (chain : Ch) (event : CallEvent Metadata) : eff W unit :=
  adapter_on_event chain metadata_view event.

Definition adapter_failed (chain : Ch) (path : string) (kind : CallKind) (error : CallError) :
    eff W unit :=
  plain_event chain (Failed (path, kind) error).

(** ** [PatternResponseStream] *)

Record PatternResponseStream (S : Type) := pattern_stream {
  stream_inner : S;
  stream_path : string;
  stream_kind : CallKind;
  opened : bool;
  terminal : bool;
}.
Arguments pattern_stream {_}.
Arguments stream_inner {_}.
Arguments stream_path {_}.
Arguments stream_kind {_}.
Arguments opened {_}.
Arguments terminal {_}.

Section stream.
Context {S T M : Type} (chain : Ch) (view : MetadataView MetadataError M).
Context (ops : StreamOps W S T M).
Implicit Types (st : PatternResponseStream S).

Definition identity_of st : CallIdentity := (stream_path st, stream_kind st).

Definition set_inner st (s : S) : PatternResponseStream S :=
  pattern_stream s (stream_path st) (stream_kind st) (opened st) (terminal st).
Definition set_opened st : PatternResponseStream S :=
  pattern_stream (stream_inner st) (stream_path st) (stream_kind st) true (terminal st).
Definition set_terminal st : PatternResponseStream S :=
  pattern_stream (stream_inner st) (stream_path st) (stream_kind st) (opened st) true.

Definition notify_opened st : eff W (PatternResponseStream S) :=
  let! (r, s) := stream_headers ops (stream_inner st) in
  let st := set_inner st s in
  match r with
  | Ok metadata =>
      let st := set_opened st in
      adapter_on_event chain view (Opened (identity_of st) metadata) ;;;
      ret st
  | Err _ => ret st
  end.

Definition pattern_read_message st : eff W (Result (option T) CallError * PatternResponseStream S) :=
  let! (r, s) := read_message ops (stream_inner st) in
  let st := set_inner st s in
  match r with
  | Ok message =>
      (match message with
       | Some _ => adapter_on_event chain view (MessageRead (identity_of st))
       | None => ret tt
       end) ;;;
      ret (Ok message, st)
  | Err error =>
      let st := set_terminal st in
      adapter_failed chain (stream_path st) (stream_kind st) error ;;;
      ret (Err error, st)
  end.

Definition pattern_get_headers st : eff W (Result M CallError * PatternResponseStream S) :=
  let! (r, s) := stream_headers ops (stream_inner st) in
  let st := set_inner st s in
  match r with
  | Ok metadata =>
      (if negb (opened st) then adapter_on_event chain view (Opened (identity_of st) metadata)
       else ret tt) ;;;
      ret (Ok metadata, set_opened st)
  | Err error => ret (Err error, st)
  end.

Definition pattern_read_trailers st : eff W (Result M CallError * PatternResponseStream S) :=
  let! (r, s) := read_trailers ops (stream_inner st) in
  let st := set_inner st s in
  match r with
  | Ok trailers =>
      adapter_on_event chain view (Completed (identity_of st) None trailers) ;;;
      ret (Ok trailers, set_terminal st)
  | Err error =>
      let st := set_terminal st in
      adapter_failed chain (stream_path st) (stream_kind st) error ;;;
      ret (Err error, st)
  end.

(** [Drop::drop], then the drop of the fields. *)
Definition pattern_drop st : eff W unit :=
  (if negb (terminal st) then plain_event chain (Cancelled (identity_of st)) else ret tt) ;;;
  Contract.drop ops (stream_inner st).

Definition pattern_ops : StreamOps W (PatternResponseStream S) T M := {|
  read_message := pattern_read_message;
  stream_headers := pattern_get_headers;
  read_trailers := pattern_read_trailers;
  Contract.drop := pattern_drop;
|}.
End stream.

(** The stream of a response, observed. *)
Definition observe {T M} (chain : Ch) (view : MetadataView MetadataError M) (path : string)
    (kind : CallKind) (inner : ResponseStream W T M) : eff W (ResponseStream W T M) :=
  let! st := notify_opened chain view (stream_ops inner)
               (pattern_stream (stream_value inner) path kind false false) in
  ret (response_stream _ st (pattern_ops chain view (stream_ops inner))).

(** ** [InterceptedTransport] *)

Record InterceptedTransport := intercepted {
  inner : Client W;
  chain : Ch;
}.
Implicit Types (self : InterceptedTransport).

Definition intercepted_before self (path : string) (kind : CallKind) (options : CallOptions) :
    eff W (Result CallOptions CallError) :=
  let identity := (path, kind) in
  let!? options := adapter_before_call (chain self) identity options in
  plain_event (chain self) (Started identity) ;;;
  ret (Ok options).

Definition metadata_failure (path : string) (error : MetadataError) : CallError :=
  Transport_ path Internal (metadata_error_to_string error).

Definition run_after_egress self {M} (view : MetadataView MetadataError M) (path : string)
    (headers trailers : M) : eff W (Result unit CallError) :=
  if is_empty (chain self) then ret (Ok tt)
  else
    match map_err (metadata_failure path) (copy view headers) with
    | Err e => ret (Err e)
    | Ok headers =>
        match map_err (metadata_failure path) (copy view trailers) with
        | Err e => ret (Err e)
        | Ok trailers => run_after (chain self) (inbound_reply path headers trailers)
        end
    end.

Definition intercepted_after self {M} (view : MetadataView MetadataError M) (path : string)
    (kind : CallKind) (headers trailers : M) : eff W (Result unit CallError) :=
  let! r := run_after_egress self view path headers trailers in
  match r with
  | Err error => plain_event (chain self) (Failed (path, kind) error) ;;; ret (Err error)
  | Ok _ =>
      adapter_on_event (chain self) view (Completed (path, kind) (Some headers) trailers) ;;;
      ret (Ok tt)
  end.

Definition intercepted_error self (path : string) (kind : CallKind) (error : CallError) :
    eff W unit :=
  plain_event (chain self) (Failed (path, kind) error).
End intercepted.
Arguments pattern_stream {_}.
Arguments stream_inner {_}.
Arguments stream_path {_}.
Arguments stream_kind {_}.
Arguments opened {_}.
Arguments terminal {_}.

(** ** The eight calls *)

Section calls.
Context `{Contract} {W Ch : Type} `{!GrpcEgressInterceptorChain W Ch}.
Implicit Types (self : InterceptedTransport (W := W) (Ch := Ch)).

Definition intercepted_call self (M : Method) (message : Request M) (options : CallOptions) :
    eff W (Result (CallResponse (Response M) (t_metadata (typed (inner self)))) CallError) :=
  let!? options := intercepted_before self (PATH M) Unary options in
  let! response := call (typed (inner self)) M message options in
  match response with
  | Err error => intercepted_error self (PATH M) Unary error ;;; ret (Err error)
  | Ok response =>
      let!? _ := intercepted_after self (t_view (typed (inner self))) (PATH M) Unary
                   (headers response) (trailers response) in
      ret (Ok response)
  end.

Definition intercepted_call_server_stream self (M : Method) (message : Request M)
    (options : CallOptions) :
    eff W (Result (ResponseStream W (Response M) (t_metadata (typed (inner self)))) CallError) :=
  let!? options := intercepted_before self (PATH M) ServerStream options in
  let! response := call_server_stream (typed (inner self)) M message options in
  match response with
  | Err error => intercepted_error self (PATH M) ServerStream error ;;; ret (Err error)
  | Ok stream =>
      let! stream := observe (chain self) (t_view (typed (inner self))) (PATH M) ServerStream stream in
      ret (Ok stream)
  end.

Definition intercepted_call_client_stream self (M : Method) (requests : RequestStream (Request M))
    (options : CallOptions) :
    eff W (Result (CallResponse (Response M) (t_metadata (typed (inner self)))) CallError) :=
  let!? options := intercepted_before self (PATH M) ClientStream options in
  let! response := call_client_stream (typed (inner self)) M requests options in
  match response with
  | Err error => intercepted_error self (PATH M) ClientStream error ;;; ret (Err error)
  | Ok response =>
      let!? _ := intercepted_after self (t_view (typed (inner self))) (PATH M) ClientStream
                   (headers response) (trailers response) in
      ret (Ok response)
  end.

Definition intercepted_call_bidi_stream self (M : Method) (requests : RequestStream (Request M))
    (options : CallOptions) :
    eff W (Result (ResponseStream W (Response M) (t_metadata (typed (inner self)))) CallError) :=
  let!? options := intercepted_before self (PATH M) BidiStream options in
  let! response := call_bidi_stream (typed (inner self)) M requests options in
  match response with
  | Err error => intercepted_error self (PATH M) BidiStream error ;;; ret (Err error)
  | Ok stream =>
      let! stream := observe (chain self) (t_view (typed (inner self))) (PATH M) BidiStream stream in
      ret (Ok stream)
  end.

Definition intercepted_typed self : Transport W := {|
  t_metadata := t_metadata (typed (inner self));
  t_view := t_view (typed (inner self));
  call := intercepted_call self;
  call_server_stream := intercepted_call_server_stream self;
  call_client_stream := intercepted_call_client_stream self;
  call_bidi_stream := intercepted_call_bidi_stream self;
|}.

Definition intercepted_call_raw self (path : string) (message : list byte) (options : CallOptions) :
    eff W (Result (CallResponse (list byte) (r_metadata (raw (inner self)))) CallError) :=
  let!? options := intercepted_before self path Unary options in
  let! response := call_raw (raw (inner self)) path message options in
  match response with
  | Err error => intercepted_error self path Unary error ;;; ret (Err error)
  | Ok response =>
      let!? _ := intercepted_after self (r_view (raw (inner self))) path Unary
                   (headers response) (trailers response) in
      ret (Ok response)
  end.

Definition intercepted_call_raw_server_stream self (path : string) (message : list byte)
    (options : CallOptions) :
    eff W (Result (ResponseStream W (list byte) (r_metadata (raw (inner self)))) CallError) :=
  let!? options := intercepted_before self path ServerStream options in
  let! response := call_raw_server_stream (raw (inner self)) path message options in
  match response with
  | Err error => intercepted_error self path ServerStream error ;;; ret (Err error)
  | Ok stream =>
      let! stream := observe (chain self) (r_view (raw (inner self))) path ServerStream stream in
      ret (Ok stream)
  end.

Definition intercepted_call_raw_client_stream self (path : string)
    (requests : RequestStream (list byte)) (options : CallOptions) :
    eff W (Result (CallResponse (list byte) (r_metadata (raw (inner self)))) CallError) :=
  let!? options := intercepted_before self path ClientStream options in
  let! response := call_raw_client_stream (raw (inner self)) path requests options in
  match response with
  | Err error => intercepted_error self path ClientStream error ;;; ret (Err error)
  | Ok response =>
      let!? _ := intercepted_after self (r_view (raw (inner self))) path ClientStream
                   (headers response) (trailers response) in
      ret (Ok response)
  end.

Definition intercepted_call_raw_bidi_stream self (path : string)
    (requests : RequestStream (list byte)) (options : CallOptions) :
    eff W (Result (ResponseStream W (list byte) (r_metadata (raw (inner self)))) CallError) :=
  let!? options := intercepted_before self path BidiStream options in
  let! response := call_raw_bidi_stream (raw (inner self)) path requests options in
  match response with
  | Err error => intercepted_error self path BidiStream error ;;; ret (Err error)
  | Ok stream =>
      let! stream := observe (chain self) (r_view (raw (inner self))) path BidiStream stream in
      ret (Ok stream)
  end.

Definition intercepted_raw self : RawTransport W := {|
  r_metadata := r_metadata (raw (inner self));
  r_view := r_view (raw (inner self));
  call_raw := intercepted_call_raw self;
  call_raw_server_stream := intercepted_call_raw_server_stream self;
  call_raw_client_stream := intercepted_call_raw_client_stream self;
  call_raw_bidi_stream := intercepted_call_raw_bidi_stream self;
|}.

Definition intercepted_client self : Client W :=
  client (intercepted_typed self) (intercepted_raw self).
End calls.
