(* ===== verification/InterceptedSpec.v ===== *)
(** * What interceptors see

    The order in which the hooks of a chain run around a call, and the events a response stream
    gives its observers over its life. *)

From S2P Require Import Prelude Text Contract Metadata Interceptors Intercepted.
From Stdlib Require Import Lia Strings.Byte.
From stdpp Require Import base tactics strings option list.

(** ** Any chain *)

Section chain_runs.
Context `{Contract} {W Ch : Type} `{!GrpcEgressInterceptorChain W Ch}.
Implicit Types (self : InterceptedTransport (W := W) (Ch := Ch)).

Lemma before_run self path kind options w pending w1 :
  is_empty (chain self) = false ->
  run_before (chain self) PendingCall (pending_from path options, w) = (Ok tt, (pending, w1)) ->
  intercepted_before self path kind options w
  = (Ok (options_from pending), (run_event (chain self) (Started (path, kind)) w1).2).
Proof.
  intros He Hb. unfold intercepted_before, adapter_before_call, bindr, bind, ret. rewrite He.
  cbn [fst]. rewrite Hb. unfold plain_event, adapter_on_event. by destruct (run_event _ _ w1).
Qed.

Lemma before_refused self path kind options w e pending w1 :
  is_empty (chain self) = false ->
  run_before (chain self) PendingCall (pending_from path options, w) = (Err e, (pending, w1)) ->
  intercepted_before self path kind options w = (Err e, w1).
Proof.
  intros He Hb. unfold intercepted_before, adapter_before_call, bindr, bind, ret. rewrite He.
  cbn [fst]. by rewrite Hb.
Qed.

Lemma after_run self {M} (view : MetadataView MetadataError M) path kind hs ts h t w w1 :
  is_empty (chain self) = false -> copy view hs = Ok h -> copy view ts = Ok t ->
  run_after (chain self) (inbound_reply path h t) w = (Ok tt, w1) ->
  intercepted_after self view path kind hs ts w
  = (Ok tt, (run_event (chain self) (Completed (path, kind) (Some h) t) w1).2).
Proof.
  intros He Hh Ht Ha. unfold intercepted_after, run_after_egress, bind, ret.
  rewrite He, Hh, Ht. cbn [map_err]. rewrite Ha. unfold adapter_on_event. rewrite Hh, Ht.
  by destruct (run_event _ _ w1).
Qed.

Lemma error_run self path kind error w :
  intercepted_error self path kind error w = run_event (chain self) (Failed (path, kind) error) w.
Proof. reflexivity. Qed.

(** A raw unary call, when its hooks let it through. *)
Lemma raw_call_run self path message options w options' w1 :
  intercepted_before self path Unary options w = (Ok options', w1) ->
  call_raw (intercepted_raw self) path message options w
  = match call_raw (raw (inner self)) path message options' w1 with
    | (Err error, w2) => (Err error, (run_event (chain self) (Failed (path, Unary) error) w2).2)
    | (Ok response, w2) =>
        match intercepted_after self (r_view (raw (inner self))) path Unary
                (headers response) (trailers response) w2 with
        | (Ok _, w3) => (Ok response, w3)
        | (Err e, w3) => (Err e, w3)
        end
    end.
Proof.
  intros Hb. cbn [intercepted_raw call_raw]. unfold intercepted_call_raw, bindr, bind, ret.
  rewrite Hb. destruct (call_raw _ _ _ _ _) as [[response|error] w2].
  - by destruct (intercepted_after _ _ _ _ _ _ w2) as [[[]|e] w3].
  - rewrite error_run. by destruct (run_event _ _ w2).
Qed.

Lemma raw_call_refused self path message options w e w1 :
  intercepted_before self path Unary options w = (Err e, w1) ->
  call_raw (intercepted_raw self) path message options w = (Err e, w1).
Proof.
  intros Hb. cbn [intercepted_raw call_raw]. unfold intercepted_call_raw, bindr, bind, ret.
  by rewrite Hb.
Qed.
End chain_runs.

(** ** A chain of recording interceptors *)

Section order.
Context `{Contract} {W : Type}.

(** The log is the first component of the world. *)
Definition append_log {A W} (entry : A) : list A * W -> list A * W := fun '(l, w) => (l ++ [entry], w).

Definition order_chain (labels : list string) :
    StdGrpcEgressInterceptorChain (W := list string * W) :=
  (fun label => OrderInterceptor label append_log) <$> labels.

Definition before_entries (labels : list string) : list string := (String.append "before:") <$> labels.
Definition after_entries (labels : list string) : list string := (String.append "after:") <$> labels.
Definition event_entries (phase : string) (labels : list string) : list string :=
  (fun label => "event:" +:+ phase +:+ ":" +:+ label) <$> labels.

Lemma order_before labels rest C `{!OutboundCall C} (c : C) l (w : W) :
  std_run_before (order_chain labels ++ rest) C (c, (l, w))
  = std_run_before rest C (c, (l ++ before_entries labels, w)).
Proof.
  revert l. induction labels as [|label labels IH]; intros l; cbn; [by rewrite app_nil_r|].
  unfold bindr, bind, act, ret. cbn. etransitivity; [apply IH|]. by rewrite <-app_assoc.
Qed.

Lemma order_after labels reply l (w : W) :
  std_run_after (order_chain labels) reply (l, w) = (Ok tt, (l ++ after_entries labels, w)).
Proof.
  revert l. induction labels as [|label labels IH]; intros l; cbn; [by rewrite app_nil_r|].
  unfold bindr, bind, act, ret. cbn. etransitivity; [apply IH|]. by rewrite <-app_assoc.
Qed.

Lemma order_event labels rest event l (w : W) :
  std_run_event (order_chain labels ++ rest) event (l, w)
  = std_run_event rest event (l ++ event_entries (event_phase event) labels, w).
Proof.
  revert l. induction labels as [|label labels IH]; intros l; cbn; [by rewrite app_nil_r|].
  unfold bind, act. cbn. etransitivity; [apply IH|]. by rewrite <-app_assoc.
Qed.

Lemma order_event_all labels event l (w : W) :
  std_run_event (order_chain labels) event (l, w)
  = (tt, (l ++ event_entries (event_phase event) labels, w)).
Proof. rewrite <-(app_nil_r (order_chain labels)). apply order_event. Qed.
End order.

(** The client whose raw unary calls are [m] next to a log. *)
Definition logging_raw `{Contract} {A W M} (view : MetadataView MetadataError M)
    (m : string -> list byte -> CallOptions -> eff W (Result (CallResponse (list byte) M) CallError)) :
    RawTransport (list A * W) := {|
  r_metadata := M;
  r_view := view;
  call_raw path message options := lift (m path message options);
  call_raw_server_stream _ _ _ := ret (Err (Transport_ "" Unimplemented ""));
  call_raw_client_stream _ _ _ := ret (Err (Transport_ "" Unimplemented ""));
  call_raw_bidi_stream _ _ _ := ret (Err (Transport_ "" Unimplemented ""));
|}.

(** The options a call carries once interceptors that change nothing have run. *)
Definition rebuilt `{Contract} (options : CallOptions) : CallOptions :=
  options_create (get_timeout options) (get_metadata options).

(** C19: Around a raw unary call, a chain of recording interceptors runs every [before_call] in the
    order of registration before the call is sent, then the started event; after a response whose
    metadata can be copied every [after_call], then the completed event; after a failure the failed
    event only. The outcome of the call is returned unchanged. An interceptor at the end of the chain
    that refuses makes its error the call's: nothing is sent and no event is given. *)
Theorem interceptor_order `{HC : Contract} {W M} (typed : Transport (list string * W))
    (view : MetadataView MetadataError M) m first labels path message options l (w : W) :
  let self := intercepted (client typed (logging_raw view m)) (order_chain (first :: labels)) in
  let refusing := intercepted (client typed (logging_raw view m))
                    (order_chain (first :: labels) ++ [RefusingInterceptor]) in
  let all := first :: labels in
  let sent := l ++ before_entries all ++ event_entries "started" all in
  (forall response w' h t, m path message (rebuilt options) w = (Ok response, w') ->
     copy view (headers response) = Ok h -> copy view (trailers response) = Ok t ->
     call_raw (intercepted_raw self) path message options (l, w)
     = (Ok response, (sent ++ after_entries all ++ event_entries "completed" all, w'))) /\
  (forall error w', m path message (rebuilt options) w = (Err error, w') ->
     call_raw (intercepted_raw self) path message options (l, w)
     = (Err error, (sent ++ event_entries "failed" all, w'))) /\
  call_raw (intercepted_raw refusing) path message options (l, w)
  = (Err (Transport_ path PermissionDenied "refused by the example"), (l ++ before_entries all, w)).
Proof.
  intros self refusing all sent.
  assert (intercepted_before self path Unary options (l, w) = (Ok (rebuilt options), (sent, w)))
    as Hself.
  { unfold self. erewrite before_run; [|done|].
    2:{ cbn [chain run_before std_chain]. rewrite <-(app_nil_r (order_chain (first :: labels))).
        by rewrite order_before. }
    cbn [chain run_event std_chain]. rewrite order_event_all. cbn [snd event_phase].
    unfold sent. by rewrite <-app_assoc. }
  split_and!.
  - intros response w' h t Em Eh Et. rewrite (raw_call_run self _ _ _ _ _ _ Hself).
    unfold self. cbn [inner raw logging_raw call_raw r_view]. unfold lift. rewrite Em.
    erewrite after_run; [|done..|apply order_after].
    cbn [chain run_event std_chain]. rewrite order_event_all. cbn [snd event_phase].
    by rewrite <-app_assoc.
  - intros error w' Em. rewrite (raw_call_run self _ _ _ _ _ _ Hself).
    unfold self. cbn [inner raw logging_raw call_raw]. unfold lift. rewrite Em.
    cbn [chain run_event std_chain]. by rewrite order_event_all.
  - apply (raw_call_refused refusing). unfold refusing. eapply before_refused; [done|].
    cbn [chain run_before std_chain]. rewrite order_before. reflexivity.
Qed.

#[local] Existing Instance list_contract.

(** The log the composition root's scenario expects. *)
Lemma interceptor_order_witness :
  call_raw (intercepted_raw (intercepted
      (client (Build_Transport _ (list string * unit) ListContract.md list_view
                 (fun _ _ _ => ret (Err (Encode ""))) (fun _ _ _ => ret (Err (Encode "")))
                 (fun _ _ _ => ret (Err (Encode ""))) (fun _ _ _ => ret (Err (Encode ""))))
         (logging_raw list_view
            (fun _ message _ => ret (Ok (call_response message ([], []) ([], []))))))
      (order_chain ["a"; "b"])))
    "/pkg.Service/Method" [x70] (None, ([], [])) ([], tt)
  = (Ok (call_response [x70] ([], []) ([], [])),
     (["before:a"; "before:b"; "event:started:a"; "event:started:b";
       "after:a"; "after:b"; "event:completed:a"; "event:completed:b"], tt)).
Proof.
  refine (proj1 (interceptor_order _ list_view
    (fun _ message _ => ret (Ok (call_response message ([], []) ([], []))))
    "a" ["b"] "/pkg.Service/Method" [x70] (None, ([], [])) [] tt)
    (call_response [x70] ([], []) ([], [])) tt ([], []) ([], []) _ _ _); reflexivity.
Defined.

(** ** The life of a response stream *)

(** A chain that records the events it is given. *)
#[export] Instance recording `{Contract} {W} :
    GrpcEgressInterceptorChain (list (CallEvent Metadata) * W) unit := {|
  push _ _ := tt;
  len _ := 1;
  is_empty _ := false;
  run_before _ _ _ := ret (Ok tt);
  run_after _ _ := ret (Ok tt);
  run_event _ event := fun '(l, w) => (tt, (l ++ [event], w));
|}.

Section lifecycle.
Context `{Contract} {W S T M : Type} (view : MetadataView MetadataError M).
Context (ops : StreamOps W S T M).

(** What a caller does with a stream, and what it gets. *)
Inductive stream_op := DoRead | DoHeaders | DoTrailers.
Inductive output :=
| GotMessage (r : Result (option T) CallError)
| GotMetadata (r : Result M CallError).

Definition do_op {V S'} (o : StreamOps V S' T M) (op : stream_op) (st : S') : eff V (output * S') :=
  match op with
  | DoRead => let! (r, st) := read_message o st in ret (GotMessage r, st)
  | DoHeaders => let! (r, st) := stream_headers o st in ret (GotMetadata r, st)
  | DoTrailers => let! (r, st) := read_trailers o st in ret (GotMetadata r, st)
  end.

(** The uses of a stream in order, then its drop. *)
Fixpoint use {V S'} (o : StreamOps V S' T M) (script : list stream_op) (st : S') :
    eff V (list output) :=
  match script with
  | [] => Contract.drop o st ;;; ret []
  | op :: rest =>
      let! (out, st) := do_op o op st in
      let! outs := use o rest st in
      ret (out :: outs)
  end.

Definition observed : StreamOps (list (CallEvent Metadata) * W) (PatternResponseStream S) T M :=
  pattern_ops tt view (lift_ops ops).

Definition is_opened {A} (e : CallEvent A) : bool := match e with Opened _ _ => true | _ => false end.
Definition is_message {A} (e : CallEvent A) : bool := match e with MessageRead _ => true | _ => false end.
Definition is_final {A} (e : CallEvent A) : bool :=
  match e with Completed _ _ _ | Failed _ _ => true | _ => false end.
Definition is_cancelled {A} (e : CallEvent A) : bool :=
  match e with Cancelled _ => true | _ => false end.
Definition call_of {A} (e : CallEvent A) : CallIdentity :=
  match e with
  | Started c | Opened c _ | MessageRead c | Completed c _ _ | Failed c _ | Cancelled c => c
  end.

(** A use that gave the caller a message. *)
Definition reads (u : stream_op * output) : bool :=
  match u with (DoRead, GotMessage (Ok (Some _))) => true | _ => false end.

(** A use after which the call is over: a read that failed, or trailers, there or not. *)
Definition ends (u : stream_op * output) : bool :=
  match u with (DoRead, GotMessage (Err _)) | (DoTrailers, _) => true | _ => false end.

(** A use that ends the call in a way the observers can be told: trailers have to be copied. *)
Definition announces (u : stream_op * output) : bool :=
  match u with
  | (DoRead, GotMessage (Err _)) | (DoTrailers, GotMetadata (Err _)) => true
  | (DoTrailers, GotMetadata (Ok m)) => is_ok (copy view m)
  | _ => false
  end.

Definition count {A} (p : A -> bool) (l : list A) : nat := length (List.filter p l).

Lemma count_app {A} (p : A -> bool) l l' : count p (l ++ l') = (count p l + count p l')%nat.
Proof. unfold count. by rewrite List.filter_app, length_app. Qed.

(** The events [es] given while the stream went from [st] to [st'], against what the caller got. *)
Record watched (st st' : PatternResponseStream S) (es : list (CallEvent Metadata))
    (uses : list (stream_op * output)) : Prop := {
  w_identity : identity_of st' = identity_of st;
  w_terminal : terminal st' = terminal st || existsb ends uses;
  w_opened : (count is_opened es + (if opened st then 1 else 0) <= if opened st' then 1 else 0)%nat;
  w_finals : count is_final es = count announces uses;
  w_messages : count is_message es = count reads uses;
  w_alive : count is_cancelled es = 0%nat;
  w_calls : Forall (fun e => call_of e = identity_of st) es;
}.

Lemma watched_refl st : watched st st [] [].
Proof. split; [done|by rewrite orb_false_r|cbn; lia|done..]. Qed.

Lemma watched_trans st1 st2 st3 es es' us us' :
  watched st1 st2 es us -> watched st2 st3 es' us' -> watched st1 st3 (es ++ es') (us ++ us').
Proof.
  intros [I1 T1 O1 F1 M1 A1 C1] [I2 T2 O2 F2 M2 A2 C2]. split; rewrite ?count_app; try lia.
  - congruence.
  - by rewrite T2, T1, existsb_app, orb_assoc.
  - rewrite I1 in C2. by apply Forall_app.
Qed.

Lemma adapter_opened call m l (w : W) :
  exists es, adapter_on_event tt view (Opened call m) (l, w) = (tt, (l ++ es, w)) /\
    (es = [] \/ exists m', es = [Opened call m']).
Proof.
  unfold adapter_on_event. destruct (copy view m) as [m'|].
  - by exists [Opened call m']; eauto.
  - exists []. rewrite app_nil_r. by eauto.
Qed.

Lemma adapter_completed call m l (w : W) :
  exists es, adapter_on_event tt view (Completed call None m) (l, w) = (tt, (l ++ es, w)) /\
    if is_ok (copy view m) then exists m', es = [Completed call None m'] else es = [].
Proof.
  unfold adapter_on_event. destruct (copy view m) as [m'|]; cbn.
  - exists [Completed call None m']. by eauto.
  - exists []. by rewrite app_nil_r.
Qed.

(** One use: the caller gets what the inner stream gives, and the events are those of the use. *)
Lemma observed_op st l (w : W) op :
  exists st' es,
    do_op observed op st (l, w)
    = (((do_op ops op (stream_inner st) w).1.1, st'),
       (l ++ es, (do_op ops op (stream_inner st) w).2)) /\
    stream_inner st' = (do_op ops op (stream_inner st) w).1.2 /\
    watched st st' es [(op, (do_op ops op (stream_inner st) w).1.1)].
Proof.
  destruct op; unfold do_op, observed, bind, ret; cbn [pattern_ops read_message stream_headers
    read_trailers]; unfold pattern_read_message, pattern_get_headers, pattern_read_trailers, bind, ret,
    lift; cbn [lift_ops read_message stream_headers read_trailers]; unfold lift.
  - destruct (read_message ops _ w) as [[[[m|]|e] s] w']; cbn.
    + do 2 eexists. split_and!; [reflexivity|done|]. split; cbn; rewrite ?orb_false_r; auto.
    + do 2 eexists. split_and!; [by rewrite app_nil_r|done|]. split; cbn; rewrite ?orb_false_r; auto.
    + do 2 eexists. split_and!; [reflexivity|done|]. split; cbn; rewrite ?orb_true_r; auto.
  - destruct (stream_headers ops _ w) as [[[m|e] s] w']; cbn.
    + destruct (opened st) eqn:Eo; cbn.
      * do 2 eexists. split_and!; [by rewrite app_nil_r|done|].
        split; cbn; rewrite ?orb_false_r, ?Eo; auto.
      * destruct (adapter_opened (identity_of st) m l w') as (es & Ea & Hes).
        unfold identity_of, set_inner in *. cbn in *. rewrite Ea. do 2 eexists.
        split_and!; [reflexivity|done|].
        destruct Hes as [->|[m' ->]]; split; cbn; rewrite ?orb_false_r, ?Eo; auto.
    + do 2 eexists. split_and!; [by rewrite app_nil_r|done|]. split; cbn; rewrite ?orb_false_r; auto.
  - destruct (read_trailers ops _ w) as [[[m|e] s] w']; cbn.
    + destruct (adapter_completed (identity_of st) m l w') as (es & Ea & Hes).
      unfold identity_of, set_inner in *. cbn in *. rewrite Ea. do 2 eexists.
      split_and!; [reflexivity|done|].
      destruct (is_ok (copy view m)) eqn:Ec; [destruct Hes as [m' ->]|rewrite Hes];
        split; unfold count; cbn; rewrite ?Ec, ?orb_true_r; auto.
    + do 2 eexists. split_and!; [reflexivity|done|]. split; cbn; rewrite ?orb_true_r; auto.
Qed.

(** A whole use. *)
Lemma observed_use script st l (w : W) :
  exists st' es,
    use observed script st (l, w)
    = ((use ops script (stream_inner st) w).1,
       (l ++ es ++ (if terminal st' then [] else [Cancelled (identity_of st)]),
        (use ops script (stream_inner st) w).2)) /\
    watched st st' es (zip script (use ops script (stream_inner st) w).1).
Proof.
  revert st l w. induction script as [|op script IH]; intros st l w; cbn [use].
  - exists st, []. split; [|apply watched_refl].
    unfold bind, ret, observed. cbn [pattern_ops Contract.drop]. unfold pattern_drop, bind, ret,
      plain_event, adapter_on_event.
    destruct (terminal st); cbn; unfold lift; destruct (Contract.drop ops _ w) as [[] w']; [|done].
    by rewrite app_nil_r.
  - unfold bind, ret. destruct (observed_op st l w op) as (st1 & es & -> & Hs & Hw).
    destruct (do_op ops op (stream_inner st) w) as [[out s1] w1]. cbn [fst snd] in *.
    destruct (IH st1 (l ++ es) w1) as (st' & es' & -> & Hw'). rewrite Hs in *.
    exists st', (es ++ es'). destruct (use ops script s1 w1) as [outs w2]. cbn [fst snd] in *. split.
    + by rewrite (w_identity _ _ _ _ Hw), <-!app_assoc.
    + cbn [zip zip_with]. by eapply (watched_trans _ _ _ _ _ [_]).
Qed.
End lifecycle.

(** C18: Watching a response stream from its start, through any uses in any order, to its drop: the
    caller gets exactly what the inner stream gives. Every event names the call; at most one opened
    event is given, one event per message read, and one completed or failed event per use that ends
    the call (a read that fails, or trailers) if it can be told: trailers that cannot be copied
    give no event. The drop adds a cancelled event exactly when no use ended the call, and nothing
    else does. So a stream goes without any terminal event only where the one thing that ended it was
    trailers that cannot be copied. *)
Theorem stream_lifecycle `{HC : Contract} {W S T M} (view : MetadataView MetadataError M)
    (ops : StreamOps W S T M) path kind script s (w : W) :
  let opening := stream_headers ops s w in
  let used := use ops script opening.1.2 opening.2 in
  let uses := zip script used.1 in
  exists st l0 l,
    let events := l ++ (if existsb ends uses then [] else [Cancelled (path, kind)]) in
    notify_opened tt view (lift_ops ops) (pattern_stream s path kind false false) ([], w)
    = (st, (l0, opening.2)) /\
    use (observed view ops) script st (l0, opening.2) = (used.1, (events, used.2)) /\
    Forall (fun e => call_of e = (path, kind)) events /\
    (count is_opened l <= 1)%nat /\
    count is_message l = count reads uses /\
    count is_final l = count (announces view) uses /\
    count is_cancelled l = 0%nat /\
    (existsb (fun e => is_final e || is_cancelled e) events = false <->
       existsb ends uses = true /\ existsb (announces view) uses = false).
Proof.
  intros opening used uses.
  assert (exists st l0,
    notify_opened tt view (lift_ops ops) (pattern_stream s path kind false false) ([], w)
    = (st, (l0, opening.2)) /\ stream_inner st = opening.1.2 /\
    watched (S := S) (T := T) view (pattern_stream s path kind false false) st l0 []) as (st & l0 & En & Hs & Hw).
  { unfold notify_opened, bind, ret, opening. cbn [lift_ops stream_headers]. unfold lift.
    cbn [stream_inner]. destruct (stream_headers ops s w) as [[[m|e] s1] w1].
    - destruct (adapter_opened view (path, kind) m [] w1) as (es & Ea & Hes).
      unfold identity_of, set_opened, set_inner. cbn in *. rewrite Ea. cbn.
      do 2 eexists. split_and!; [reflexivity|done|]. destruct Hes as [->|[m' ->]]; split; cbn; auto.
    - do 2 eexists. split_and!; [reflexivity|done|]. split; cbn; auto. }
  destruct (observed_use view ops script st l0 opening.2) as (st' & es & Eu & Hw').
  rewrite Hs in *. fold used in Eu, Hw'. fold uses in Hw'.
  pose proof (watched_trans view _ _ _ _ _ _ _ Hw Hw') as [_ HT HO HF HM HA HC'].
  cbn in HT, HO. cbn [app] in HF, HM.
  exists st, l0, (l0 ++ es). rewrite HT, (w_identity _ _ _ _ _ Hw), app_assoc in Eu.
  change (identity_of (pattern_stream s path kind false false)) with (path, kind) in *.
  split_and!; [done|exact Eu| |destruct (opened st'); lia|done..|].
  - apply Forall_app. split; [done|]. destruct (existsb ends uses); by repeat constructor.
  - revert HF HA. generalize (l0 ++ es) as l. intros l HF HA. clear -HF HA.
    assert (forall A (p : A -> bool) l, existsb p l = false <-> count p l = 0%nat) as Hcount.
    { clear. intros A p l. unfold count. induction l as [|x l IH]; [done|]. cbn.
      destruct (p x); cbn; [by split|exact IH]. }
    assert (existsb (fun e => is_final e || is_cancelled e) l = existsb is_final l) as Hl.
    { apply Hcount in HA. clear HF. induction l as [|e l IH]; [done|]. cbn in *.
      destruct (is_final e), (is_cancelled e); cbn in *; auto. done. }
    rewrite existsb_app, Hl. destruct (existsb ends uses); cbn; rewrite ?orb_false_r, ?orb_true_r.
    + rewrite !Hcount, HF. naive_solver.
    + naive_solver.
Qed.

(** A stream whose reads and trailers fail. *)
Definition failing_stream : StreamOps unit unit unit ListContract.md := {|
  read_message st := ret (Err (Transport_ "/s/M" Unavailable "reset"), st);
  stream_headers st := ret (Ok ([], []), st);
  read_trailers st := ret (Err (Transport_ "/s/M" Unavailable "reset"), st);
  Contract.drop st := ret tt;
|}.

(** A stream whose trailers have an entry that cannot be copied. *)
Definition garbled_stream : StreamOps unit unit unit ListContract.md := {|
  read_message st := ret (Ok None, st);
  stream_headers st := ret (Ok ([], []), st);
  read_trailers st := ret (Ok ([(""%string, "value"%string)], []), st);
  Contract.drop st := ret tt;
|}.

(** The garbled stream, read to its end with its trailers, is opened and never ended. *)
Lemma stream_lifecycle_witness :
  exists st l0 l,
    notify_opened tt list_view (lift_ops garbled_stream)
      (pattern_stream tt "/s/M" ServerStream false false) ([], tt) = (st, (l0, tt)) /\
    use (observed list_view garbled_stream) [DoRead; DoTrailers] st (l0, tt)
    = ([GotMessage (Ok None); GotMetadata (Ok ([(""%string, "value"%string)], []))], (l, tt)) /\
    existsb (fun e => is_final e || is_cancelled e) l = false.
Proof.
  destruct (stream_lifecycle list_view garbled_stream "/s/M" ServerStream [DoRead; DoTrailers] tt tt)
    as (st & l0 & l & En & Eu & _ & _ & _ & _ & _ & Hsilent).
  exists st, l0. eexists. split_and!; [exact En|exact Eu|]. by apply Hsilent.
Defined.

(** A stream can give more than one terminal event: a read that fails, and then trailers that
    fail, are each reported as a failure of the call. *)
Theorem stream_fails_twice :
  let error := Transport_ "/s/M" Unavailable "reset" in
  (use (observed list_view failing_stream) [DoRead; DoTrailers]
     (pattern_stream tt "/s/M" ServerStream false false) ([], tt)).2.1
  = [Failed ("/s/M", ServerStream) error; Failed ("/s/M", ServerStream) error].
Proof. reflexivity. Qed.
