(* ===== verification/Identity.v ===== *)
(** * Calls that carry the caller's identity

    [transport-spi/src/spi/context/context_headers.rs] and [context_transport.rs]: a view of a client
    whose calls carry the headers derived from a [CallerIdentity]. *)

From S2P Require Import Prelude Text Contract Metadata.
From Stdlib Require Import Lia Strings.Byte.
From stdpp Require Import base tactics strings option list.

(** [transport-api]'s trait, by what its methods return. *)
Record CallerIdentity := {
  trace_id : option string;
  tenant_id : option string;
  bearer_token : option string;
  identity_headers : list (string * string);
}.

(** [ContextHeaders::from]. *)
Definition context_headers (identity : CallerIdentity) : list (string * string) :=
  (match trace_id identity with Some trace_id => [("x-trace-id", trace_id)] | None => [] end) ++
  (match tenant_id identity with Some tenant_id => [("x-tenant-id", tenant_id)] | None => [] end) ++
  (match bearer_token identity with
   | Some token => [("authorization", "Bearer " +:+ token)]
   | None => []
   end) ++
  identity_headers identity.

Section context.
Context `{Contract} {W : Type}.

Record ContextTransport := context_transport {
  inner : Client W;
  context : list (string * string);
}.
Implicit Types (self : ContextTransport).

Definition context_from (inner : Client W) (identity : CallerIdentity) : ContextTransport :=
  context_transport inner (context_headers identity).

Definition invalid_identity (path : string) (e : MetadataError) : CallError :=
  Transport_ path InvalidArgument
    ("the identity holds a header that is not valid: " +:+ metadata_error_to_string e).

Definition add_headers self (path : string) (options : CallOptions) : Result CallOptions CallError :=
  match context self with
  | [] => Ok options
  | _ =>
      let? metadata :=
        map_err (invalid_identity path) (extend (get_metadata options) (context self)) in
      Ok (options_create (get_timeout options) metadata)
  end.

Definition context_typed self : Transport W := {|
  t_metadata := t_metadata (typed (inner self));
  t_view := t_view (typed (inner self));
  call M message options :=
    let!? options := ret (add_headers self (PATH M) options) in
    call (typed (inner self)) M message options;
  call_server_stream M message options :=
    let!? options := ret (add_headers self (PATH M) options) in
    call_server_stream (typed (inner self)) M message options;
  call_client_stream M requests options :=
    let!? options := ret (add_headers self (PATH M) options) in
    call_client_stream (typed (inner self)) M requests options;
  call_bidi_stream M requests options :=
    let!? options := ret (add_headers self (PATH M) options) in
    call_bidi_stream (typed (inner self)) M requests options;
|}.

Definition context_raw self : RawTransport W := {|
  r_metadata := r_metadata (raw (inner self));
  r_view := r_view (raw (inner self));
  call_raw path message options :=
    let!? options := ret (add_headers self path options) in
    call_raw (raw (inner self)) path message options;
  call_raw_server_stream path message options :=
    let!? options := ret (add_headers self path options) in
    call_raw_server_stream (raw (inner self)) path message options;
  call_raw_client_stream path requests options :=
    let!? options := ret (add_headers self path options) in
    call_raw_client_stream (raw (inner self)) path requests options;
  call_raw_bidi_stream path requests options :=
    let!? options := ret (add_headers self path options) in
    call_raw_bidi_stream (raw (inner self)) path requests options;
|}.

Definition context_client self : Client W := client (context_typed self) (context_raw self).
End context.

(** ** Properties *)

(** C23: The eight calls of a view, typed and raw, all do the same with the identity's headers. When
    each of them can be added to the caller's, or need not be since the caller has set its key, every
    call is the inner client's on options of the same timeout and binary entries, which hold the caller's
    own headers and after them exactly the identity's whose keys the caller has not set. When one cannot,
    for a key gRPC does not allow or a value that may not be stored, every call fails with
    [InvalidArgument] for its path, and nothing is sent. *)
Theorem identity_headers_added `{HC : Contract} `{HL : !MetadataLaws} {W} (inner : Client W)
    (identity : CallerIdentity) (options : CallOptions) (own : built (get_metadata options)) :
  let source := get_metadata options in
  let added := context_headers identity in
  let view := context_client (context_from inner identity) in
  if forallb (addable source) added then
    exists options',
      (options' = options /\ added = [] \/
       exists metadata, options' = options_create (get_timeout options) metadata /\
         text metadata = text source ++ missing source added /\
         binary metadata = binary source /\
         forall k, values source k <> [] -> values metadata k = values source k) /\
      forall (w : W),
        (forall M m, call (typed view) M m options w = call (typed inner) M m options' w) /\
        (forall M m, call_server_stream (typed view) M m options w
                     = call_server_stream (typed inner) M m options' w) /\
        (forall M ms, call_client_stream (typed view) M ms options w
                      = call_client_stream (typed inner) M ms options' w) /\
        (forall M ms, call_bidi_stream (typed view) M ms options w
                      = call_bidi_stream (typed inner) M ms options' w) /\
        (forall path m, call_raw (raw view) path m options w = call_raw (raw inner) path m options' w) /\
        (forall path m, call_raw_server_stream (raw view) path m options w
                        = call_raw_server_stream (raw inner) path m options' w) /\
        (forall path ms, call_raw_client_stream (raw view) path ms options w
                         = call_raw_client_stream (raw inner) path ms options' w) /\
        (forall path ms, call_raw_bidi_stream (raw view) path ms options w
                         = call_raw_bidi_stream (raw inner) path ms options' w)
  else
    exists why,
      let refused path := Transport_ path InvalidArgument
        ("the identity holds a header that is not valid: " +:+ why) in
      forall (w : W),
        (forall M m, call (typed view) M m options w = (Err (refused (PATH M)), w)) /\
        (forall M m, call_server_stream (typed view) M m options w = (Err (refused (PATH M)), w)) /\
        (forall M ms, call_client_stream (typed view) M ms options w = (Err (refused (PATH M)), w)) /\
        (forall M ms, call_bidi_stream (typed view) M ms options w = (Err (refused (PATH M)), w)) /\
        (forall path m, call_raw (raw view) path m options w = (Err (refused path), w)) /\
        (forall path m, call_raw_server_stream (raw view) path m options w = (Err (refused path), w)) /\
        (forall path ms, call_raw_client_stream (raw view) path ms options w = (Err (refused path), w)) /\
        (forall path ms, call_raw_bidi_stream (raw view) path ms options w = (Err (refused path), w)).
Proof.
  intros source added view. destruct (forallb (addable source) added) eqn:Eadd.
  - assert (exists options', (forall path, add_headers (context_from inner identity) path options = Ok options') /\
      (options' = options /\ added = [] \/
       exists metadata, options' = options_create (get_timeout options) metadata /\
         text metadata = text source ++ missing source added /\
         binary metadata = binary source /\
         forall k, values source k <> [] -> values metadata k = values source k))
      as (options' & Eh & Ho).
    { unfold context_from, add_headers. cbn [context]. fold added source. apply addable_all in Eadd.
      destruct (extend_spec source added own Eadd) as (m' & E & Ht & Hb & _).
      destruct added as [|e added'] eqn:Ea; [by exists options; eauto|].
      rewrite E. exists (options_create (get_timeout options) m'). split; [done|].
      right. exists m'. split_and!; [done..|]. intros k Hk. rewrite (values_app _ m' _ k Ht).
      by rewrite missing_absent, app_nil_r by done. }
    exists options'. split; [exact Ho|]. intros w.
    split_and!; intros; cbn [view context_client typed raw context_typed context_raw call call_server_stream
      call_client_stream call_bidi_stream call_raw call_raw_server_stream call_raw_client_stream
      call_raw_bidi_stream]; rewrite Eh; reflexivity.
  - destruct (extend_invalid source added own Eadd) as [e E].
    exists (metadata_error_to_string e). intros refused w.
    assert (forall path, add_headers (context_from inner identity) path options = Err (refused path)) as Eh.
    { intros path. unfold context_from, add_headers. cbn [context]. fold added source.
      destruct added as [|x added'] eqn:Ea; [done|]. by rewrite E. }
    split_and!; intros; cbn [view context_client typed raw context_typed context_raw call call_server_stream
      call_client_stream call_bidi_stream call_raw call_raw_server_stream call_raw_client_stream
      call_raw_bidi_stream]; rewrite Eh; reflexivity.
Qed.

#[local] Existing Instance list_contract.

(** A client whose unary calls answer with the options they got. *)
Definition echo_options : Client (list CallOptions) := {|
  typed := {|
    t_metadata := ListContract.md;
    t_view := list_view;
    call _ _ options := act (fun w => w ++ [options]) ;;; ret (Err (Encode "echo"));
    call_server_stream _ _ _ := ret (Err (Encode ""));
    call_client_stream _ _ _ := ret (Err (Encode ""));
    call_bidi_stream _ _ _ := ret (Err (Encode ""));
  |};
  raw := {|
    r_metadata := ListContract.md;
    r_view := list_view;
    call_raw _ _ _ := ret (Err (Encode ""));
    call_raw_server_stream _ _ _ := ret (Err (Encode ""));
    call_raw_client_stream _ _ _ := ret (Err (Encode ""));
    call_raw_bidi_stream _ _ _ := ret (Err (Encode ""));
  |};
|}.

Definition empty_method : Method := {|
  Request := unit;
  Response := unit;
  PATH := "/s/M";
  request_payload := {|
    estimate_encoded_len _ := 0%N; encode_into _ out := Ok out; decode _ := Ok tt |};
  response_payload := {|
    estimate_encoded_len _ := 0%N; encode_into _ out := Ok out; decode _ := Ok tt |};
|}.

(** The caller's own [authorization] is kept and the tenant is added; a header with an empty key
    is refused, on a raw call too. *)
Lemma identity_headers_added_witness :
  let options : CallOptions := (None, ([("authorization", "Basic x")], [])) in
  let identity headers := {| trace_id := None; tenant_id := Some "acme"; bearer_token := Some "t";
                             identity_headers := headers |} in
  (exists options',
     call (typed (context_client (context_from echo_options (identity [])))) empty_method tt options []
     = call (typed echo_options) empty_method tt options' [] /\
     text (get_metadata options') = [("authorization", "Basic x"); ("x-tenant-id", "acme")]) /\
  exists error,
    call_raw (raw (context_client (context_from echo_options (identity [("", "x")])))) "/s/N" [] options []
    = (Err error, []).
Proof.
  intros options identity.
  assert (built (H := list_contract) (get_metadata options)) as Hb by (cbn; split; by repeat constructor).
  split.
  - destruct (identity_headers_added echo_options (identity []) options Hb)
      as (options' & [[-> Hne]|(metadata & -> & Ht & _)] & Hcalls); [done|].
    eexists. split; [apply (Hcalls [])|exact Ht].
  - destruct (identity_headers_added echo_options (identity [("", "x")]) options Hb) as (why & Hcalls).
    eexists. apply (Hcalls []).
Defined.
