(* ===== verification/Bearer.v ===== *)
(** * Bearer tokens

    [auth-bearer-api/src/vo/], [auth-bearer-std/src/std/] and
    [auth-bearer-spi/src/spi/]: the signing configuration, its builder, the builder of claims, the
    comparison of secrets and the interceptor that signs a token for a call.  Signing is the crate
    [jsonwebtoken]'s (class [Jwt]); a boxed error is its text. *)

From S2P Require Import Prelude Text Bytes Contract Metadata Interceptors.
From Stdlib Require Import NArith Lia Strings.Byte.
From stdpp Require Import base tactics strings option list.

Inductive BearerAuthError :=
| SignFailed (source : string)
| InvalidSystemTime
| ValidationFailed (text : string).

Definition bearer_error_to_string (e : BearerAuthError) : string :=
  match e with
  | SignFailed _ => "failed to mint bearer token"
  | InvalidSystemTime => "system clock is before Unix epoch"
  | ValidationFailed text => "validation error: " +:+ text
  end.

(** ** Secrets *)

Inductive SecretMaterial :=
| Hs256 (secret : list byte)
| Rs256 (private_pem : list byte).

Record BearerSecret := bearer_secret { material : SecretMaterial }.

Definition secret_try_from (material : SecretMaterial) : Result BearerSecret BearerAuthError :=
  match material with
  | Hs256 secret =>
      if is_nil secret then Err (ValidationFailed "HS256 secret must not be empty")
      else Ok (bearer_secret material)
  | Rs256 private_pem =>
      if is_nil private_pem then Err (ValidationFailed "RS256 private PEM must not be empty")
      else Ok (bearer_secret material)
  end.

Definition hs256 (secret : list byte) : Result BearerSecret BearerAuthError :=
  secret_try_from (Hs256 secret).
Definition rs256 (private_pem : list byte) : Result BearerSecret BearerAuthError :=
  secret_try_from (Rs256 private_pem).

Definition hs256_secret (s : BearerSecret) : option (list byte) :=
  match material s with Hs256 secret => Some secret | _ => None end.
Definition rs256_private_pem (s : BearerSecret) : option (list byte) :=
  match material s with Rs256 private_pem => Some private_pem | _ => None end.

(** [StdBearerSecretGuard]; the time a comparison takes is not modelled. *)
Definition ct_eq_hs256 (left right : BearerSecret) : bool :=
  match hs256_secret left, hs256_secret right with
  | Some a, Some b => bool_decide (a = b)
  | _, _ => false
  end.

(** ** The configuration *)

Record BearerEgressConfig := bearer_config {
  secret : BearerSecret;
  issuer : string;
  audience : string;
  subject : string;
  lifetime_seconds : N;
}.

Definition validate (c : BearerEgressConfig) : Result unit BearerAuthError :=
  if Text.is_empty (issuer c) then Err (ValidationFailed "issuer must not be empty")
  else if Text.is_empty (audience c) then Err (ValidationFailed "audience must not be empty")
  else if Text.is_empty (subject c) then Err (ValidationFailed "subject must not be empty")
  else if (lifetime_seconds c =? 0)%N then Err (ValidationFailed "lifetime_seconds must be >= 1")
  else Ok tt.

Definition try_new (secret : BearerSecret) (issuer audience subject : string) (lifetime_seconds : N) :
    Result BearerEgressConfig BearerAuthError :=
  let value := bearer_config secret issuer audience subject lifetime_seconds in
  let? _ := validate value in
  Ok value.

(** What a text says of the configuration, before the checks. *)
Record BearerEgressConfigData := {
  data_secret : BearerSecret;
  data_issuer : string;
  data_audience : string;
  data_subject : string;
  data_lifetime_seconds : N;
}.

Definition try_from (v : BearerEgressConfigData) : Result BearerEgressConfig BearerAuthError :=
  try_new (data_secret v) (data_issuer v) (data_audience v) (data_subject v) (data_lifetime_seconds v).

Module ConfigBuilder.
Record StdBearerEgressConfigBuilder := config_builder {
  b_secret : option BearerSecret;
  b_issuer : option string;
  b_audience : option string;
  b_subject : option string;
  b_lifetime_seconds : option N;
}.

Definition default : StdBearerEgressConfigBuilder := config_builder None None None None None.

Inductive setter :=
| Secret (secret : BearerSecret)
| Issuer (issuer : string)
| Audience (audience : string)
| Subject (subject : string)
| LifetimeSeconds (secs : N).

Definition set (b : StdBearerEgressConfigBuilder) (s : setter) : StdBearerEgressConfigBuilder :=
  let '(config_builder k i a u l) := b in
  match s with
  | Secret secret => config_builder (Some secret) i a u l
  | Issuer issuer => config_builder k (Some issuer) a u l
  | Audience audience => config_builder k i (Some audience) u l
  | Subject subject => config_builder k i a (Some subject) l
  | LifetimeSeconds secs => config_builder k i a u (Some secs)
  end.

Definition build (b : StdBearerEgressConfigBuilder) : Result BearerEgressConfig string :=
  let? secret := ok_or (b_secret b) "secret is required"%string in
  let? issuer := ok_or (b_issuer b) "issuer is required"%string in
  let? audience := ok_or (b_audience b) "audience is required"%string in
  let? subject := ok_or (b_subject b) "subject is required"%string in
  let? lifetime := ok_or (b_lifetime_seconds b) "lifetime_seconds is required"%string in
  map_err bearer_error_to_string (try_new secret issuer audience subject lifetime).
End ConfigBuilder.

(** [StdBearerEgressConfigBuilderFactory::build]. *)
Definition bearer_config_builder : ConfigBuilder.StdBearerEgressConfigBuilder := ConfigBuilder.default.

(** ** Claims *)

(** [JwtClaims] of [swe_edge_security], by the fields that are set here. *)
Record JwtClaims := jwt_claims {
  iss : string;
  aud : string;
  sub : string;
  exp : N;
  iat : N;
}.

Module ClaimsBuilder.
Record StdJwtClaimsBuilder := claims_builder {
  b_iss : option string;
  b_aud : option string;
  b_sub : option string;
  b_exp : option N;
  b_iat : option N;
}.

Definition default : StdJwtClaimsBuilder := claims_builder None None None None None.

Inductive setter :=
| Iss (iss : string) | Aud (aud : string) | Sub (sub : string) | Exp (exp : N) | Iat (iat : N).

Definition set (b : StdJwtClaimsBuilder) (s : setter) : StdJwtClaimsBuilder :=
  let '(claims_builder i a u e t) := b in
  match s with
  | Iss iss => claims_builder (Some iss) a u e t
  | Aud aud => claims_builder i (Some aud) u e t
  | Sub sub => claims_builder i a (Some sub) e t
  | Exp exp => claims_builder i a u (Some exp) t
  | Iat iat => claims_builder i a u e (Some iat)
  end.

Definition build (b : StdJwtClaimsBuilder) : Result JwtClaims string :=
  let? iss := ok_or (b_iss b) "iss is required"%string in
  let? aud := ok_or (b_aud b) "aud is required"%string in
  let? sub := ok_or (b_sub b) "sub is required"%string in
  let? exp := ok_or (b_exp b) "exp is required"%string in
  let? iat := ok_or (b_iat b) "iat is required"%string in
  Ok (jwt_claims iss aud sub exp iat).
End ClaimsBuilder.

(** [StdJwtClaimsBuilderFactory::build]. *)
Definition jwt_claims_builder : ClaimsBuilder.StdJwtClaimsBuilder := ClaimsBuilder.default.

(** ** The interceptor *)

Definition AUTHORIZATION_HEADER : string := "authorization".

Inductive Algorithm := HS256 | RS256.

Class Jwt := {
  EncodingKey : Type;
  from_secret : list byte -> EncodingKey;
  from_rsa_pem : list byte -> Result EncodingKey string;
  jwt_encode : Algorithm -> JwtClaims -> EncodingKey -> Result string string;
}.

(** [u64::saturating_add]. *)
Definition saturating_add (a b : N) : N := N.min (a + b) U64_MAX.

Section interceptor.
Context `{Contract} `{Jwt} {W : Type}.

(** [SystemTime::now()], in whole seconds since the epoch; [None] before it. *)
Context (system_time : eff W (option N)).
Implicit Types (config : BearerEgressConfig).

Definition claims_at config (now : N) : JwtClaims := {|
  iss := issuer config;
  aud := audience config;
  sub := subject config;
  iat := now;
  exp := saturating_add now (lifetime_seconds config);
|}.

Definition signing_key config : Result (Algorithm * EncodingKey) BearerAuthError :=
  match hs256_secret (secret config) with
  | Some secret => Ok (HS256, from_secret secret)
  | None =>
      match rs256_private_pem (secret config) with
      | Some private_pem =>
          let? key := map_err SignFailed (from_rsa_pem private_pem) in
          Ok (RS256, key)
      | None => Err (SignFailed "no supported signing key")
      end
  end.

Definition sign_token config : eff W (Result string BearerAuthError) :=
  let! now := system_time in
  ret (let? now := ok_or now InvalidSystemTime in
       let? (alg, key) := signing_key config in
       map_err SignFailed (jwt_encode alg (claims_at config now) key)).

Definition bearer_before_call config (C : Type) `{!OutboundCall C} :
    eff (C * W) (Result unit CallError) :=
  fun '(call, w) =>
    if has_header call AUTHORIZATION_HEADER then (Ok tt, (call, w))
    else
      let '(token, w) := sign_token config w in
      match token with
      | Err _ => (Err (Transport_ (path call) Internal "failed to mint bearer token"), (call, w))
      | Ok token => add_header_to C AUTHORIZATION_HEADER ("Bearer " +:+ token) (call, w)
      end.

Definition BearerEgressInterceptor config : GrpcEgressInterceptor W := {|
  before_call C _ := bearer_before_call config C;
  after_call _ := ret (Ok tt);
  on_event _ := ret tt;
|}.

(** [StdBearerInterceptorFactory], whose interceptors share a configuration. *)
Record StdBearerInterceptorFactory := bearer_factory { factory_config : BearerEgressConfig }.

Definition bearer_build (self : StdBearerInterceptorFactory) : GrpcEgressInterceptor W :=
  BearerEgressInterceptor (factory_config self).
End interceptor.

(** ** What a configuration promises *)

(** Key material that is not empty, three names that are not, and a lifetime. *)
Definition usable_secret (s : BearerSecret) : Prop :=
  match material s with Hs256 secret => secret <> [] | Rs256 pem => pem <> [] end.

Lemma secret_try_from_ok m s :
  secret_try_from m = Ok s <-> s = bearer_secret m /\ usable_secret s.
Proof.
  unfold secret_try_from, usable_secret. destruct m as [[|b bs]|[|b bs]]; cbn; split; naive_solver.
Qed.

Lemma bearer_try_new_ok k i a u l c :
  try_new k i a u l = Ok c <->
  c = bearer_config k i a u l /\ i <> "" /\ a <> "" /\ u <> "" /\ l <> 0%N.
Proof.
  unfold try_new, validate. cbn.
  destruct i; [naive_solver|]. destruct a; [naive_solver|]. destruct u; [naive_solver|]. cbn.
  destruct (N.eqb_spec l 0); cbn; naive_solver.
Qed.

(** A token signed by a usable secret uses the algorithm of its kind; the signing key is missing
    only when the PEM is refused. *)
Lemma signing_key_cases `{Jwt} c :
  match material (secret c) with
  | Hs256 k => signing_key c = Ok (HS256, from_secret k)
  | Rs256 pem => signing_key c = rmap (pair RS256) (map_err SignFailed (from_rsa_pem pem))
  end.
Proof.
  unfold signing_key, hs256_secret, rs256_private_pem. destruct (material (secret c)) as [k|pem]; [done|].
  by destruct (from_rsa_pem pem).
Qed.

(** ** Properties *)

(** C34: The bearer interceptor leaves a call that carries an [authorization] header alone, and reads no
    clock for it. To any other call it adds one [Bearer] header whose token holds the claims of the
    configuration, issued at the time of this call and expiring a lifetime later, or at the end of
    the 64-bit seconds, signed by the algorithm of the secret; path, timeout and the other headers
    stay. When no token can be made the call fails with [Internal], unchanged. *)
Theorem bearer_signs_each_call `{HC : Contract} `{HL : !MetadataLaws} `{HJ : Jwt} {W C}
    `{HO : !OutboundCall C} `{HOL : !OutboundCallLaws C} (system_time : eff W (option N))
    config (c : C) (w : W)
    (Hc : sound c)
    (Hvalid : forall alg claims key token, jwt_encode alg claims key = Ok token ->
       valid AUTHORIZATION_HEADER ("Bearer " +:+ token) = true) :
  let out := bearer_before_call system_time config C (c, w) in
  (header_values c AUTHORIZATION_HEADER <> [] -> out = (Ok tt, (c, w))) /\
  (header_values c AUTHORIZATION_HEADER = [] ->
     out.2.2 = (system_time w).2 /\
     ((exists now alg key token c',
         (system_time w).1 = Some now /\ signing_key config = Ok (alg, key) /\
         jwt_encode alg {| iss := issuer config; aud := audience config; sub := subject config;
                           exp := N.min (now + lifetime_seconds config) U64_MAX; iat := now |} key
         = Ok token /\
         out.1 = Ok tt /\ out.2.1 = c' /\ path c' = path c /\ timeout c' = timeout c /\
         header_values c' AUTHORIZATION_HEADER = ["Bearer " +:+ token] /\
         forall k, valid_key k = true -> norm k <> norm AUTHORIZATION_HEADER ->
           header_values c' k = header_values c k) \/
      (is_ok (sign_token system_time config w).1 = false /\ out.2.1 = c /\
       out.1 = Err (Transport_ (path c) Internal "failed to mint bearer token")))).
Proof.
  intros out. unfold out, bearer_before_call.
  destruct (has_header c AUTHORIZATION_HEADER) eqn:Eh.
  { apply has_header_values in Eh. split; [done|]. intros E. by destruct Eh. }
  assert (header_values c AUTHORIZATION_HEADER = []) as Hempty.
  { destruct (header_values c AUTHORIZATION_HEADER) eqn:E; [done|].
    rewrite (proj2 (has_header_values c AUTHORIZATION_HEADER)) in Eh; [done|by rewrite E]. }
  split; [done|]. intros _. unfold sign_token, bind, ret.
  destruct (system_time w) as [[now|] w1]; cbn [ok_or rbind]; [|split; [done|by right]].
  destruct (signing_key config) as [[alg key]|e] eqn:Ek; cbn [rbind]; [|split; [done|by right]].
  destruct (jwt_encode alg (claims_at config now) key) as [token|e] eqn:Ej; cbn [map_err];
    [|split; [done|by right]].
  unfold add_header_to. apply Hvalid in Ej as Hv.
  destruct (add_header_ok c AUTHORIZATION_HEADER ("Bearer " +:+ token) Hc Hv)
    as (c1 & -> & _ & Hp1 & Ht1 & Hv1).
  pose proof (valid_valid_key _ _ Hv) as Hk.
  split; [done|]. left. exists now, alg, key, token, c1. split_and!; try done.
  - by rewrite Hv1, Hempty, decide_True.
  - intros k Hk1 Hn. rewrite Hv1, decide_False by (congruence || done). apply app_nil_r.
Qed.

#[local] Existing Instance list_contract.

(** A signer whose tokens are the expiry, for the example. *)
#[local] Instance expiry_jwt : Jwt := {|
  EncodingKey := list byte;
  from_secret k := k;
  from_rsa_pem k := Ok k;
  jwt_encode _ claims _ := Ok (decimal (exp claims));
|}.

Definition bearer_example : BearerEgressConfig :=
  bearer_config (bearer_secret (Hs256 ["k"%byte])) "svc" "up" "acct" 60.

Lemma bearer_signs_each_call_witness :
  let c := pending_call "/s/M" None ([("x-a", "1")], []) in
  let out := bearer_before_call (fun t : nat => (Some 1000%N, Datatypes.S t)) bearer_example
               PendingCall (c, O) in
  out.2.2 = 1%nat /\ header_values out.2.1 AUTHORIZATION_HEADER = ["Bearer 1060"].
Proof.
  intros c out.
  assert (sound c) as Hc by (cbn; split; by repeat constructor).
  destruct (proj2 (bearer_signs_each_call (fun t : nat => (Some 1000%N, Datatypes.S t)) bearer_example
    c O Hc (fun _ _ _ _ _ => eq_refl)) eq_refl) as [Hw [(now & alg & key & token & c' & Ht & _ & Hj & _ & Hc' & _ & _ & Hv & _)|[Hno _]]].
  - split; [exact Hw|]. injection Ht as <-. injection Hj as <-. etransitivity; [|exact Hv].
    exact (f_equal (fun x => header_values x AUTHORIZATION_HEADER) Hc').
  - discriminate Hno.
Defined.
