(* ===== verification/Frames.v ===== *)
(** * Message frames

    [test-support/src/frame/]: the five-byte framing of gRPC, which the peers of the tests speak. *)

From S2P Require Import Prelude Bytes.
From Stdlib Require Import NArith Lia Strings.Byte.
From stdpp Require Import base tactics list option.

Open Scope N_scope.

Record DecodedFrame := decoded_frame {
  compressed : bool;
  payload : list byte;
}.

Definition PREFIX_LEN : nat := 5.

(** [u32::to_be_bytes] and [u32::from_be_bytes]. *)
Definition be_bytes (n : N) : list byte :=
  [as_u8 (n / 16777216); as_u8 (n / 65536); as_u8 (n / 256); as_u8 n].

Definition from_be_bytes (a b c d : byte) : N :=
  ((Byte.to_N a * 256 + Byte.to_N b) * 256 + Byte.to_N c) * 256 + Byte.to_N d.

(** [payload.len() as u32]. *)
Definition frame (flag : byte) (payload : list byte) : list byte :=
  flag :: be_bytes (wrap U32 (blen payload)) ++ payload.

Definition encode (payload : list byte) : list byte := frame x00 payload.
Definition encode_compressed (payload : list byte) : list byte := frame x01 payload.

(** [while rest.len() >= PREFIX_LEN]; every turn takes at least the prefix, so the length is fuel. *)
Fixpoint decode_loop (fuel : nat) (rest : list byte) : list DecodedFrame :=
  match fuel, rest with
  | S fuel', flag :: b1 :: b2 :: b3 :: b4 :: body =>
      let length := N.to_nat (from_be_bytes b1 b2 b3 b4) in
      if Nat.ltb (List.length body) length then []
      else
        decoded_frame (Byte.eqb flag x01) (take length body)
          :: decode_loop fuel' (drop length body)
  | _, _ => []
  end.

Definition decode_all (data : list byte) : list DecodedFrame := decode_loop (length data) data.

(** ** Lemmas *)

Lemma be_bytes_of n a b c d :
  n < U32 -> be_bytes n = [a; b; c; d] -> from_be_bytes a b c d = n.
Proof.
  intros Hn [= <- <- <- <-]. unfold from_be_bytes. rewrite !to_N_as_u8. unfold wrap, U8, U32 in *.
  pose proof (N.div_mod n 256 ltac:(lia)). pose proof (N.div_mod (n / 256) 256 ltac:(lia)).
  pose proof (N.div_mod (n / 256 / 256) 256 ltac:(lia)).
  rewrite N.Div0.div_div in *. rewrite N.Div0.div_div in *.
  change (256 * 256) with 65536 in *. change (65536 * 256) with 16777216 in *.
  assert (n / 16777216 < 256) by (apply N.Div0.div_lt_upper_bound; lia).
  rewrite (N.mod_small (n / 16777216)) by done. lia.
Qed.

(** More fuel than bytes changes nothing. *)
Lemma decode_loop_fuel f1 f2 data :
  (length data <= f1)%nat -> (length data <= f2)%nat -> decode_loop f1 data = decode_loop f2 data.
Proof.
  revert f2 data. induction f1 as [|f1 IH]; intros f2 data H1 H2.
  { destruct data; [|cbn in H1; lia]. by destruct f2. }
  destruct f2 as [|f2]; [destruct data; [done|cbn in H2; lia]|].
  destruct data as [|g [|b1 [|b2 [|b3 [|b4 body]]]]]; cbn [decode_loop]; try done.
  case_match; [done|]. f_equal. cbn in H1, H2. apply IH; rewrite length_drop; lia.
Qed.

(** One turn of the loop. *)
Lemma decode_loop_turn f g b1 b2 b3 b4 body n :
  from_be_bytes b1 b2 b3 b4 = N.of_nat n ->
  decode_loop (S f) (g :: b1 :: b2 :: b3 :: b4 :: body)
  = if Nat.ltb (length body) n then []
    else decoded_frame (Byte.eqb g x01) (take n body) :: decode_loop f (drop n body).
Proof. intros Hn. cbn [decode_loop]. by rewrite Hn, Nat2N.id. Qed.

(** A frame at the front is decoded, and the rest after it. *)
Lemma decode_frame flag body rest :
  blen body < U32 ->
  decode_all (frame flag body ++ rest)
  = decoded_frame (Byte.eqb flag x01) body :: decode_all rest.
Proof.
  intros Hl. unfold decode_all, frame, wrap. rewrite N.mod_small by done.
  pose proof (be_bytes_of (blen body) _ _ _ _ Hl eq_refl) as Hbe.
  unfold be_bytes in *. cbn [app length]. rewrite (decode_loop_turn _ _ _ _ _ _ _ _ Hbe), length_app.
  destruct (Nat.ltb_spec (length body + length rest) (length body)); [lia|].
  rewrite take_app_length, drop_app_length. f_equal. apply decode_loop_fuel; lia.
Qed.

(** The encoding of a message, compressed or not. *)
Definition encoded (m : bool * list byte) : list byte :=
  if m.1 then encode_compressed m.2 else encode m.2.

Lemma decode_encoded_app (messages : list (bool * list byte)) rest :
  Forall (fun m => blen m.2 < U32) messages ->
  decode_all (concat (encoded <$> messages) ++ rest)
  = ((fun m => decoded_frame m.1 m.2) <$> messages) ++ decode_all rest.
Proof.
  induction 1 as [|[z m] ms Hm _ IH]; [done|]. rewrite !fmap_cons. cbn [concat app].
  rewrite <- app_assoc. cbn [fst snd] in *.
  destruct z; cbn [encoded fst snd]; unfold encode_compressed, encode; rewrite decode_frame by done;
    f_equal; exact IH.
Qed.

(** ** Properties *)

(** C35: Decoding a body of encoded messages, compressed or not, gives them back in order, whatever
    incomplete message comes after them: a prefix of a frame adds nothing. *)
Theorem decode_encode_all (messages : list (bool * list byte)) flag body (cut : nat)
    (fits : Forall (fun m => blen m.2 < U32) messages) (body_fits : blen body < U32)
    (incomplete : (cut < length (frame flag body))%nat) :
  decode_all (concat (encoded <$> messages) ++ take cut (frame flag body))
  = (fun m => decoded_frame m.1 m.2) <$> messages.
Proof.
  rewrite decode_encoded_app by done. enough (decode_all (take cut (frame flag body)) = []) as ->.
  { apply app_nil_r. }
  unfold frame, wrap in *. rewrite N.mod_small in * by done.
  pose proof (be_bytes_of (blen body) _ _ _ _ body_fits eq_refl) as Hbe.
  unfold be_bytes in *. cbn [app length] in incomplete.
  do 5 (destruct cut as [|cut]; [reflexivity|]). cbn [app take firstn length].
  unfold decode_all. cbn [length]. rewrite (decode_loop_turn _ _ _ _ _ _ _ _ Hbe), length_take.
  destruct (Nat.ltb_spec (cut `min` length body) (length body)); [done|lia].
Qed.

Lemma decode_encode_all_witness :
  decode_all (encode [x61; x62] ++ encode_compressed [x63] ++ [x00; x00; x00])
  = [decoded_frame false [x61; x62]; decoded_frame true [x63]].
Proof.
  refine (decode_encode_all [(false, [x61; x62]); (true, [x63])] x00 [x64] 3 _ _ _).
  - repeat constructor.
  - reflexivity.
  - cbn. lia.
Defined.
