(* ===== verification/Peer.v ===== *)
(** * The in-process peer of the tests

    [test-support/src/peer/]: how a peer answers a request as its behaviour says, what it records,
    and requests answered at the same time; and the view of a peer that
    [examples/composition-root/src/echo_server.rs] gives its scenarios.

    The HTTP/2 server is the crate [hyper]'s and header values are the crate [http]'s (class [Http]);
    a request is what the handler is called with, its body being [None] when reading it failed. *)

From S2P Require Import Prelude Text Bytes Contract Frames.
From Stdlib Require Import NArith Lia Strings.Byte.
From stdpp Require Import base tactics strings option list gmap.

(** ** What the handler gets and gives *)

Class Http := {
  HeaderValue : Type;
  (** [HeaderValue::to_str], [HeaderValue::from_str] and [HeaderValue::from_static]. *)
  value_to_str : HeaderValue -> option string;
  value_from_str : string -> option HeaderValue;
  value_from_static : string -> HeaderValue;
}.

(** What the crate documents: a text of printable characters is a value, and reads back. *)
Definition printable (s : string) : bool :=
  forallb (fun c => (32 <=? code c) && (code c <? 127))%N (String.list_ascii_of_string s).

Class HttpLaws `{Http} := {
  printable_value : forall s, printable s = true ->
    exists v, value_from_str s = Some v /\ value_to_str v = Some s;
  static_value : forall s, printable s = true -> value_to_str (value_from_static s) = Some s;
}.

(** [PeerBehaviour]. *)
Inductive PeerBehaviour :=
| Echo
| Reply (payload : list byte)
| Delay (wait : Duration)
| ReplyCompressed (encoding : option string) (payload : list byte)
| ReplyStatus (status : string) (message : option string) (retry_after_secs : option N)
| ReplyRaw (body : list byte) (encoding : option string).

(** [RecordedRequest]. *)
Record RecordedRequest := recorded_request {
  recorded_path : string;
  recorded_headers : gmap string string;
  recorded_frames : list DecodedFrame;
}.

Definition get_header (r : RecordedRequest) (name : string) : option string :=
  recorded_headers r !! name.

Section peer.
Context `{Http}.

Record HttpRequest := http_request {
  uri_path : string;
  request_headers : list (string * HeaderValue);
  request_body : option (list byte);
}.

Record HttpResponse := http_response {
  response_status : N;
  response_headers : list (string * HeaderValue);
  response_body : list byte;
  response_trailers : option (list (string * HeaderValue));
}.

(** ** The answer *)

(** [headers().iter().filter_map(..).collect()]: of several readable values of a name the last. *)
Definition collect_headers (headers : list (string * HeaderValue)) : gmap string string :=
  fold_left (fun m '(name, value) =>
      match value_to_str value with Some v => <[name := v]> m | None => m end)
    headers ∅.

Definition frames_of (request : HttpRequest) : list DecodedFrame :=
  decode_all (default [] (request_body request)).

Definition record_of (request : HttpRequest) : RecordedRequest :=
  recorded_request (uri_path request) (collect_headers (request_headers request))
    (frames_of request).

Definition reply_of (behaviour : PeerBehaviour) (frames : list DecodedFrame) : list byte :=
  match behaviour with
  | Reply payload => Frames.encode payload
  | ReplyCompressed _ payload => encode_compressed payload
  | ReplyRaw body _ => body
  | ReplyStatus _ _ _ => []
  | Echo | Delay _ => concat ((fun f => Frames.encode (Frames.payload f)) <$> frames)
  end.

(** [http::response::Builder]; [None] once a header was refused. *)
Definition Builder : Type := option (list (string * HeaderValue)).

Definition header (builder : Builder) (name value : string) : Builder :=
  headers ← builder; value ← value_from_str value; Some (headers ++ [(name, value)]).

(** [headers_mut().insert(..)]. *)
Definition insert_header (builder : Builder) (name : string) (value : HeaderValue) : Builder :=
  headers ← builder; Some (filter (fun e => e.1 <> name) headers ++ [(name, value)]).

Definition when_some {A} (o : option A) (f : Builder -> A -> Builder) (b : Builder) : Builder :=
  match o with Some a => f b a | None => b end.

Definition headers_for (behaviour : PeerBehaviour) : Builder :=
  let builder := header (Some []) "content-type" "application/grpc" in
  let builder :=
    match behaviour with
    | ReplyCompressed (Some encoding) _ | ReplyRaw _ (Some encoding) =>
        header builder "grpc-encoding" encoding
    | _ => builder
    end in
  match behaviour with
  | ReplyStatus status message retry_after_secs =>
      let builder :=
        insert_header builder "grpc-status"
          (default (value_from_static "") (value_from_str status)) in
      let builder := when_some message (fun b m => header b "grpc-message" m) builder in
      when_some retry_after_secs (fun b secs => header b "retry-after" (decimal secs)) builder
  | _ => builder
  end.

Definition trailers_for (behaviour : PeerBehaviour) : option (list (string * HeaderValue)) :=
  match behaviour with
  | ReplyStatus _ _ _ => None
  | _ => Some [("grpc-status", value_from_static "0")]
  end.

Definition empty_response : HttpResponse := http_response 200 [] [] None.

Definition response_for (behaviour : PeerBehaviour) (frames : list DecodedFrame) : HttpResponse :=
  match headers_for behaviour with
  | Some headers => http_response 200 headers (reply_of behaviour frames) (trailers_for behaviour)
  | None => empty_response
  end.

(** [PeerServer::answer], on the shared record and the world of the clock. *)
Definition answer {W} (sleep : Duration -> eff W unit) (request : HttpRequest)
    (behaviour : PeerBehaviour) : eff (list RecordedRequest * W) HttpResponse :=
  act (fun '(record, w) => (record ++ [record_of request], w)) ;;;
  (match behaviour with Delay wait => lift (sleep wait) | _ => ret tt end) ;;;
  ret (response_for behaviour (frames_of request)).

(** ** Requests answered at the same time

    Each connection is a task of its own, and the record is behind a lock: a request is recorded in
    one step and answered in a later one. *)

Inductive phase := Received | Recorded | Answered (response : HttpResponse).

Record Serving := serving {
  record : list RecordedRequest;
  tasks : list (HttpRequest * phase);
}.

Inductive step (behaviour : PeerBehaviour) : Serving -> Serving -> Prop :=
| step_arrive record tasks r :
    step behaviour (serving record tasks) (serving record (tasks ++ [(r, Received)]))
| step_record record l1 r l2 :
    step behaviour (serving record (l1 ++ (r, Received) :: l2))
      (serving (record ++ [record_of r]) (l1 ++ (r, Recorded) :: l2))
| step_answer record l1 r l2 :
    step behaviour (serving record (l1 ++ (r, Recorded) :: l2))
      (serving record (l1 ++ (r, Answered (response_for behaviour (frames_of r))) :: l2)).

Definition seen (t : HttpRequest * phase) : option HttpRequest :=
  match t.2 with Received => None | _ => Some t.1 end.

(** ** The running peer *)

(** [RunningPeer]; its record is the shared one. *)
Record RunningPeer := running_peer { addr : string }.

Definition get_endpoint (self : RunningPeer) : string := "http://" +:+ addr self.
Definition get_https_endpoint (self : RunningPeer) : string := "https://" +:+ addr self.
End peer.

(** ** What the scenarios read of a peer *)

Module EchoServer.
Definition count_requests (record : list RecordedRequest) : nat := length record.

Definition get_last_header (record : list RecordedRequest) (name : string) : option string :=
  request ← last record; get_header request name.

Definition is_last_message_compressed (record : list RecordedRequest) : bool :=
  default false
    (request ← last record; frame ← head (recorded_frames request); Some (compressed frame)).
End EchoServer.

(** ** Lemmas *)

Section lemmas.
Context `{HHL : HttpLaws}.

(** The readable values of a name, in order. *)
Definition readable (name : string) (headers : list (string * HeaderValue)) : list string :=
  omap (fun e => if decide (e.1 = name) then value_to_str e.2 else None) headers.

Lemma readable_app name l1 l2 : readable name (l1 ++ l2) = readable name l1 ++ readable name l2.
Proof. apply omap_app. Qed.

Lemma collect_headers_last headers name :
  collect_headers headers !! name = last (readable name headers).
Proof.
  unfold collect_headers. induction headers as [|[k v] headers IH] using rev_ind; [done|].
  rewrite fold_left_app, readable_app, last_app. cbn [fold_left readable omap list_omap fst snd].
  destruct (value_to_str v) as [s|]; case_decide as Hk; simplify_eq; cbn.
  - by rewrite lookup_insert_eq.
  - by rewrite lookup_insert_ne.
  - done.
  - done.
Qed.

Lemma header_printable headers name s :
  printable s = true -> exists v,
    header (Some headers) name s = Some (headers ++ [(name, v)]) /\ value_to_str v = Some s.
Proof. intros (v & E & Hv)%printable_value. exists v. unfold header. cbn. by rewrite E. Qed.

Lemma decimal_printable n : printable (decimal n) = true.
Proof.
  unfold printable. rewrite decimal_chars. apply forallb_forall. intros c Hc.
  pose proof (decimal_fuel_digits 20 n) as HF. rewrite Forall_forall in HF.
  apply list_elem_of_In in Hc. specialize (HF _ Hc). cbn in HF. bool_prop.
  apply andb_true_intro. split; [apply N.leb_le|apply N.ltb_lt]; lia.
Qed.

Lemma omap_snoc_mid {A B} (f : A -> option B) l1 a l2 :
  omap f (l1 ++ a :: l2) = omap f l1 ++ option_list (f a) ++ omap f l2.
Proof. rewrite omap_app. f_equal. cbn. by destruct (f a). Qed.
End lemmas.

(** The record holds what the tasks past the first step received, and an answer is that of its
    own request. *)
Record consistent `{Http} (behaviour : PeerBehaviour) (s : Serving) : Prop := {
  recorded_once : record s ≡ₚ record_of <$> omap seen (tasks s);
  answered_own : forall r response, (r, Answered response) ∈ tasks s ->
    response = response_for behaviour (frames_of r);
}.

Lemma step_consistent `{Http} behaviour s s' :
  step behaviour s s' -> consistent behaviour s -> consistent behaviour s'.
Proof.
  intros Hstep [Hrec Hans]. destruct Hstep as [rc ts r|rc l1 r l2|rc l1 r l2]; cbn in *; split; cbn.
  - rewrite omap_app. cbn. by rewrite app_nil_r.
  - intros r' resp [Hin|Hin]%elem_of_app; [by apply Hans|].
    apply list_elem_of_singleton in Hin. naive_solver.
  - rewrite Hrec, !omap_snoc_mid. cbn [seen snd fst option_list]. rewrite !fmap_app. cbn.
    solve_Permutation.
  - intros r' resp [Hin|[[=]|Hin]%elem_of_cons]%elem_of_app; apply Hans, elem_of_app; [by left|].
    right. by apply elem_of_cons; right.
  - rewrite Hrec, !omap_snoc_mid. done.
  - intros r' resp [Hin|[[= -> ->]|Hin]%elem_of_cons]%elem_of_app; [|done|]; apply Hans, elem_of_app;
      [by left|]. right. by apply elem_of_cons; right.
Qed.

(** The answer of a peer that sends a message: the status is in the trailers. *)
Lemma message_response `{HttpLaws} behaviour frames :
  match behaviour with Echo | Reply _ | Delay _ => True | _ => False end ->
  exists content status,
    response_for behaviour frames
    = http_response 200 [("content-type", content)] (reply_of behaviour frames)
        (Some [("grpc-status", status)]) /\
    value_to_str content = Some "application/grpc" /\ value_to_str status = Some "0".
Proof.
  intros Hb. destruct (header_printable [] "content-type" "application/grpc" eq_refl) as (v & E & Hv).
  exists v, (value_from_static "0"). split_and!; [|done|by apply static_value].
  unfold response_for, headers_for. by destruct behaviour; try done; rewrite E.
Qed.

Lemma answer_steps `{Http} {W} (sleep : Duration -> eff W unit) behaviour r rc ts w :
  let '(response, (rc', _)) := answer sleep r behaviour (rc, w) in
  rtc (step behaviour) (serving rc (ts ++ [(r, Received)])) (serving rc' (ts ++ [(r, Answered response)])).
Proof.
  unfold answer, bind, act, ret, lift. destruct behaviour as [| |wait| | |];
    [| |destruct (sleep wait w) as [[] w']| | |];
    (eapply rtc_l; [apply step_record|eapply rtc_l; [apply step_answer|done]]).
Qed.

(** ** Properties *)

(** Requests answered at the same time: whatever the order of the steps, the record holds each
    request that has got past its recording exactly once, and so every request that was answered;
    and a request is answered as the behaviour says for its own messages.  The handler run alone
    makes those steps. *)
Theorem peer_records `{Http} (behaviour : PeerBehaviour) (s : Serving) :
  (rtc (step behaviour) (serving [] []) s ->
     record s ≡ₚ record_of <$> omap seen (tasks s) /\
     forall r response, (r, Answered response) ∈ tasks s ->
       response = response_for behaviour (frames_of r) /\ record_of r ∈ record s) /\
  (forall W (sleep : Duration -> eff W unit) r rc ts w,
     let '(response, (rc', _)) := answer sleep r behaviour (rc, w) in
     rtc (step behaviour) (serving rc (ts ++ [(r, Received)]))
       (serving rc' (ts ++ [(r, Answered response)]))).
Proof.
  split; [|intros; apply answer_steps]. intros Hsteps.
  assert (consistent behaviour s) as [Hrec Hans].
  { assert (consistent behaviour (serving [] [])) as H0.
    { split; [done|]. cbn. intros r response Hin. by apply elem_of_nil in Hin. }
    revert H0. induction Hsteps as [|x y z Hxy _ IH]; [done|]. intros Hx.
    by apply IH, (step_consistent _ x). }
  split; [done|]. intros r response Hin. split; [by apply Hans|].
  rewrite Hrec. apply list_elem_of_fmap_2. apply list_elem_of_omap. exists (r, Answered response).
  by split.
Qed.

#[local] Instance text_http : Http := {|
  HeaderValue := string;
  value_to_str := Some;
  value_from_str s := if printable s then Some s else None;
  value_from_static := id;
|}.

#[local] Instance text_http_laws : HttpLaws.
Proof. split; [intros s Hs; exists s; cbn; by rewrite Hs|done]. Defined.

Definition request_ab : HttpRequest :=
  http_request "/pkg.Service/Method" [("te", "trailers"); ("x-a", "1"); ("x-a", "2")]
    (Some (Frames.encode [x61] ++ encode_compressed [x62; x63])).

Lemma peer_records_witness :
  let s := serving [record_of request_ab]
             [(request_ab, Answered (response_for Echo (frames_of request_ab))); (request_ab, Received)] in
  record s ≡ₚ record_of <$> omap seen (tasks s) /\
  forall r response, (r, Answered response) ∈ tasks s ->
    response = response_for Echo (frames_of r) /\ record_of r ∈ record s.
Proof.
  intros s. apply (proj1 (peer_records Echo s)). unfold s.
  eapply rtc_l; [apply step_arrive with (r := request_ab)|].
  eapply rtc_l; [apply step_arrive with (r := request_ab)|].
  eapply rtc_l; [apply (step_record Echo [] [] request_ab)|].
  eapply rtc_l; [apply (step_answer Echo _ [] request_ab)|]. apply rtc_refl.
Defined.

(** A peer that echoes, at once or after a wait, answers a request with its messages in order,
    none of them compressed, and the status 0 after them; it records the request before it waits,
    with the path, the messages as they came and, for each header, its last readable value. *)
Theorem peer_echoes `{HttpLaws} {W} (sleep : Duration -> eff W unit) (request : HttpRequest)
    (messages : list (bool * list byte)) (rest : list byte) (wait : option Duration) rc w :
  Forall (fun m => (blen m.2 < U32)%N) messages -> decode_all rest = [] ->
  request_body request = Some (concat (encoded <$> messages) ++ rest) ->
  let behaviour := match wait with Some d => Delay d | None => Echo end in
  exists response recorded,
    answer sleep request behaviour (rc, w)
    = (response, (rc ++ [recorded], match wait with Some d => (sleep d w).2 | None => w end)) /\
    decode_all (response_body response) = (fun m => decoded_frame false m.2) <$> messages /\
    response_status response = 200%N /\
    (exists v, response_trailers response = Some [("grpc-status", v)] /\ value_to_str v = Some "0") /\
    recorded_path recorded = uri_path request /\
    recorded_frames recorded = (fun m => decoded_frame m.1 m.2) <$> messages /\
    forall name, get_header recorded name = last (readable name (request_headers request)).
Proof.
  intros Hfit Hrest Hbody behaviour.
  assert (frames_of request = (fun m => decoded_frame m.1 m.2) <$> messages) as Hframes.
  { unfold frames_of. rewrite Hbody. change (default [] (Some ?l)) with l.
    by rewrite decode_encoded_app, Hrest, app_nil_r. }
  exists (response_for behaviour (frames_of request)), (record_of request). split_and!.
  - unfold answer, bind, act, ret, lift, behaviour. destruct wait as [d|]; [|done].
    by destruct (sleep d w) as [[] w'].
  - unfold behaviour. destruct (message_response behaviour (frames_of request)) as (v & sv & E & _).
    { unfold behaviour. by destruct wait. }
    fold behaviour. rewrite E. cbn [response_body].
    pose proof (decode_encoded_app ((fun m => (false, m.2)) <$> messages) []) as Hd.
    rewrite <- !list_fmap_compose, !app_nil_r in Hd.
    assert (reply_of behaviour (frames_of request) = concat (encoded ∘ (fun m => (false, m.2)) <$> messages))
      as ->; [|apply Hd, Forall_fmap; eapply Forall_impl; [exact Hfit|done]].
    unfold reply_of, behaviour. rewrite Hframes, <- list_fmap_compose. by destruct wait.
  - unfold response_for. by destruct (headers_for behaviour).
  - destruct (message_response behaviour (frames_of request)) as (v & sv & -> & _ & Hs).
    { unfold behaviour. by destruct wait. }
    by exists sv.
  - done.
  - done.
  - intros name. apply collect_headers_last.
Qed.

Lemma peer_echoes_witness :
  exists response recorded,
    answer (fun d t => (tt, t + d)%N) request_ab (Delay 5%N) ([], 0%N) = (response, ([recorded], 5%N)) /\
    decode_all (response_body response) = [decoded_frame false [x61]; decoded_frame false [x62; x63]] /\
    response_status response = 200%N /\
    (exists v, response_trailers response = Some [("grpc-status", v)] /\ value_to_str v = Some "0") /\
    recorded_path recorded = "/pkg.Service/Method" /\
    recorded_frames recorded = [decoded_frame false [x61]; decoded_frame true [x62; x63]] /\
    forall name, get_header recorded name = last (readable name (request_headers request_ab)).
Proof.
  refine (peer_echoes (fun d t => (tt, t + d)%N) request_ab [(false, [x61]); (true, [x62; x63])] []
    (Some 5%N) [] 0%N _ _ _); [repeat constructor|reflexivity|reflexivity].
Defined.

(** An optional header whose value is printable is added after the others. *)
Lemma when_header `{HttpLaws} {A} headers name (o : option A) (f : A -> string) :
  (forall a, o = Some a -> printable (f a) = true) ->
  exists headers', when_some o (fun b a => header b name (f a)) (Some headers) = Some headers' /\
    forall k, readable k headers'
      = readable k headers ++ (if decide (name = k) then option_list (f <$> o) else []).
Proof.
  intros Ho. destruct o as [a|]; cbn [when_some].
  - destruct (header_printable headers name (f a) (Ho a eq_refl)) as (v & -> & Hv).
    eexists. split; [done|]. intros k. rewrite readable_app. cbn. case_decide; [by rewrite Hv|done].
  - exists headers. split; [done|]. intros k. case_decide; by rewrite app_nil_r.
Qed.

(** A peer told to answer with a status sends no message and no trailers: the status is in the
    headers as it was given, an empty one where it cannot be a header, with the message of the
    status and the seconds to wait, which read back as the number they were.  A message that cannot
    be a header makes the whole answer empty, status included. *)
Lemma peer_status_answer `{HttpLaws} (status : string) (message : option string)
    (retry_after_secs : option N) (frames : list DecodedFrame) :
  let answered := response_for (ReplyStatus status message retry_after_secs) frames in
  (forall m, message = Some m -> value_from_str m = None -> answered = empty_response) /\
  ((forall m, message = Some m -> printable m = true) ->
     response_status answered = 200%N /\ response_body answered = [] /\
     response_trailers answered = None /\
     readable "content-type" (response_headers answered) = ["application/grpc"] /\
     (printable status = true -> readable "grpc-status" (response_headers answered) = [status]) /\
     (value_from_str status = None -> readable "grpc-status" (response_headers answered) = [""]) /\
     readable "grpc-message" (response_headers answered) = option_list message /\
     readable "retry-after" (response_headers answered) = option_list (decimal <$> retry_after_secs) /\
     forall secs, retry_after_secs = Some secs -> (secs <= U64_MAX)%N ->
       parse_u64 (decimal secs) = Some secs).
Proof.
  intros answered. unfold answered, response_for, headers_for.
  destruct (header_printable [] "content-type" "application/grpc" eq_refl) as (v & -> & Hv).
  set (sv := default (value_from_static "") (value_from_str status)).
  change (insert_header (Some ([] ++ [("content-type", v)])) "grpc-status" sv)
    with (Some [("content-type", v); ("grpc-status", sv)]).
  split.
  - intros m -> Hm. cbn [when_some]. unfold header. cbn. rewrite Hm. cbn.
    by destruct retry_after_secs.
  - intros Hm.
    destruct (when_header [("content-type", v); ("grpc-status", sv)] "grpc-message" message id Hm)
      as (hs & E & Hhs). change (fun b a => header b "grpc-message" (id a))
      with (fun b m => header b "grpc-message" m) in E. rewrite E.
    destruct (when_header hs "retry-after" retry_after_secs decimal) as (hs' & -> & Hhs').
    { intros a _. apply decimal_printable. }
    cbn [response_status response_body response_trailers response_headers].
    assert (forall k, readable k [("content-type", v); ("grpc-status", sv)]
      = (if decide ("content-type" = k) then ["application/grpc"] else []) ++
        (if decide ("grpc-status" = k) then option_list (value_to_str sv) else [])) as Hbase.
    { intros k. cbn. rewrite Hv. repeat case_decide; cbn; by destruct (value_to_str sv). }
    split_and!; [done..| | | | | |intros; by apply parse_u64_decimal];
      rewrite ?Hhs', ?Hhs, ?Hbase; cbn; rewrite ?app_nil_r; try done.
    + intros (x & Ex & Hx)%printable_value. unfold sv. rewrite Ex. cbn. by rewrite Hx.
    + intros Ex. unfold sv. rewrite Ex. cbn. by rewrite static_value.
    + by rewrite option_fmap_id.
Qed.

Lemma peer_status_answer_witness :
  let answered := response_for (ReplyStatus "14" (Some "down") (Some 7%N)) [] in
  response_status answered = 200%N /\ response_body answered = [] /\
  response_trailers answered = None /\
  readable "content-type" (response_headers answered) = ["application/grpc"] /\
  (printable "14" = true -> readable "grpc-status" (response_headers answered) = ["14"]) /\
  (value_from_str "14" = None -> readable "grpc-status" (response_headers answered) = [""]) /\
  readable "grpc-message" (response_headers answered) = ["down"] /\
  readable "retry-after" (response_headers answered) = ["7"] /\
  forall secs, Some 7%N = Some secs -> (secs <= U64_MAX)%N -> parse_u64 (decimal secs) = Some secs.
Proof.
  apply (proj2 (peer_status_answer "14" (Some "down") (Some 7%N) [])).
  by intros m [= <-].
Defined.
