(* ===== verification/Polling.v ===== *)
(** * Waiting for something, with a limit

    The loops of the test code that look at a condition again and again until it holds or a time
    limit passes ([wait_for_client_close], [wait_until_idle]), and that they end. *)

From S2P Require Import Prelude Contract.
From Stdlib Require Import NArith Lia.
From stdpp Require Import base tactics.

Open Scope N_scope.

(** [Instant::now] and [tokio::time::sleep]; an instant is nanoseconds since some origin. *)
Class Timer (W : Type) := {
  instant_now : eff W N;
  pause : Duration -> eff W unit;
}.

(** What both do with the time of a world: a reading is not before the time, a pause takes at least
    its duration. *)
Class TimerLaws (W : Type) `{!Timer W} := {
  time : W -> N;
  now_reads w : let '(t, w') := instant_now w in time w <= t /\ t <= time w';
  pause_takes d w : time w + d <= time (pause d w).2;
}.

(** [while within { if check { return true } sleep(step) } last]; [None] when the fuel runs out. *)
Fixpoint poll {W} `{!Timer W} (fuel : nat) (within check last : eff W bool) (step : Duration) :
    eff W (option bool) :=
  match fuel with
  | O => ret None
  | S fuel' =>
      let! more := within in
      if more then
        let! holds := check in
        if holds then ret (Some true)
        else pause step ;;; poll fuel' within check last step
      else let! holds := last in ret (Some holds)
  end.

(** Turns enough for a limit of [limit] in steps of [step]. *)
Definition turns (limit step : Duration) : nat := Datatypes.S (N.to_nat (limit / step + 1)).

Section poll.
Context {W : Type} `{!Timer W} `{!TimerLaws W} (within check last : eff W bool) (step : Duration).
Context (deadline : N) (P : W -> Prop).

(** The condition of the loop reads the clock, the checks take no negative time, and both and the
    pauses keep what [P] says; while the condition holds the deadline has not passed. *)
Context (within_time : forall w, time w <= time (within w).2)
        (within_true : forall w, (within w).1 = true -> time w < deadline)
        (check_time : forall w, time w <= time (check w).2).
Context (P_within : forall w, P w -> P (within w).2)
        (P_check : forall w, P w -> (check w).1 = false -> P (check w).2)
        (P_pause : forall w, P w -> P (pause step w).2).

(** With turns enough the loop ends: at a check that holds, or at the last one after the limit; the
    worlds at which these are made satisfy [P]. *)
Lemma poll_ends fuel w :
  P w -> deadline <= time w + N.of_nat fuel * step ->
  exists w1, P w1 /\ P (within w1).2 /\ time w <= time w1 /\
    let w2 := (within w1).2 in
    ((within w1).1 = true /\ (check w2).1 = true /\
       poll (Datatypes.S fuel) within check last step w = (Some true, (check w2).2) \/
     (within w1).1 = false /\
       poll (Datatypes.S fuel) within check last step w = (Some (last w2).1, (last w2).2)).
Proof.
  revert w. induction fuel as [|fuel IH]; intros w HP Hfuel.
  - exists w. pose proof (within_true w). pose proof (P_within w HP).
    cbn [poll]. unfold bind, ret. destruct (within w) as [[] w2]; cbn in *; [lia|].
    split_and!; try done. right. split; [done|]. by destruct (last w2).
  - pose proof (within_true w) as Ht. pose proof (P_within w HP) as Hw.
    pose proof (within_time w) as Hle.
    remember (Datatypes.S fuel) as n eqn:En. cbn [poll]. unfold bind, ret.
    destruct (within w) as [[] w2] eqn:Ew; cbn in *.
    + pose proof (P_check w2 Hw) as Hc. pose proof (check_time w2) as Hct.
      destruct (check w2) as [[] w3] eqn:Ec; cbn in *.
      * exists w. rewrite Ew. cbn. rewrite Ec. split_and!; try done. left. done.
      * specialize (Hc eq_refl). pose proof (P_pause w3 Hc) as HP4.
        pose proof (pause_takes step w3) as Hp. destruct (pause step w3) as [[] w4]. cbn in *.
        subst n. destruct (IH w4 HP4) as (w1 & H1 & H2 & H3 & H4); [lia|].
        exists w1. split_and!; [done..|lia|exact H4].
    + exists w. rewrite Ew. cbn. split_and!; try done. right. split; [done|]. by destruct (last w2).
Qed.

Lemma turns_enough limit w :
  0 < step -> deadline <= time w + limit ->
  deadline <= time w + N.of_nat (N.to_nat (limit / step + 1)) * step.
Proof.
  intros Hs Hl. rewrite N2Nat.id. pose proof (N.div_mod limit step ltac:(lia)).
  pose proof (N.mod_lt limit step ltac:(lia)). nia.
Qed.
End poll.
