(* ===== verification/Proxy.v ===== *)
(** * The freezable proxy of the tests

    [test-support/src/proxy/]: a proxy forwards each connection to an upstream, both ways, until it
    is frozen; it counts the connections its clients closed, and a test waits for the first.

    A connection has two tasks, each a loop of a read and a write ([to_upstream], [to_client]); the
    flag and the counter are atomic.  [on_read] and [on_write] are the arms of the loop, and [step]
    interleaves them with one another and with [freeze]. *)

From S2P Require Import Prelude Bytes Contract Polling.
From Stdlib Require Import NArith Lia Strings.Byte.
From stdpp Require Import base tactics list option relations.

(** ** One direction of a connection *)

(** Waiting for a read; writing what is left of a buffer; ended by the source; broken by the sink. *)
Inductive pipe_phase := Reading | Writing (rest : list byte) | Ended | Broken.

(** The bytes read from the source and written to the sink so far. *)
Record Pipe := pipe {
  phase : pipe_phase;
  taken : list byte;
  delivered : list byte;
}.

Definition fresh : Pipe := pipe Reading [] [].

(** [match read(&mut buf).await]: [None] is [Err], [Some []] is [Ok(0)]. *)
Definition on_read (frozen : bool) (result : option (list byte)) (p : Pipe) : Pipe :=
  match result with
  | None | Some [] => pipe Ended (taken p) (delivered p)
  | Some chunk =>
      if negb frozen then pipe (Writing chunk) (taken p ++ chunk) (delivered p)
      else pipe Reading (taken p ++ chunk) (delivered p)
  end.

(** One write of [write_all]: the sink takes the first [n] bytes, or fails ([None]). *)
Definition on_write (result : option nat) (rest : list byte) (p : Pipe) : Pipe :=
  match result with
  | None => pipe Broken (taken p) (delivered p)
  | Some n =>
      pipe (match drop n rest with [] => Reading | rest' => Writing rest' end)
        (taken p) (delivered p ++ take n rest)
  end.

(** ** The proxy *)

Record Connection := connection {
  to_upstream : Pipe;
  to_client : Pipe;
}.

(** The state the tasks and [RunningProxy] share. *)
Record Proxy := proxy {
  frozen : bool;
  closed_by_client : nat;
  connections : list Connection;
}.

Definition start : Proxy := proxy false 0 [].

Definition freeze (s : Proxy) : Proxy := proxy true (closed_by_client s) (connections s).
Definition get_closed_by_client (s : Proxy) : nat := closed_by_client s.

(** [fetch_add] when the client's side ended. *)
Definition count_end (p : Pipe) (closed : nat) : nat :=
  match phase p with Ended => closed + 1 | _ => closed end.

Definition BUFFER : N := 8192.

Definition fits (result : option (list byte)) : Prop :=
  match result with Some chunk => (blen chunk <= BUFFER)%N | None => True end.

Inductive step : Proxy -> Proxy -> Prop :=
| step_accept f n l : step (proxy f n l) (proxy f n (l ++ [connection fresh fresh]))
| step_freeze s : step s (freeze s)
| up_read f n l1 u d l2 result (reading : phase u = Reading) :
    fits result ->
    let u' := on_read f result u in
    step (proxy f n (l1 ++ connection u d :: l2))
      (proxy f (count_end u' n) (l1 ++ connection u' d :: l2))
| up_write f n l1 u d l2 rest result (writing : phase u = Writing rest) :
    result <> Some 0 ->
    step (proxy f n (l1 ++ connection u d :: l2))
      (proxy f n (l1 ++ connection (on_write result rest u) d :: l2))
| down_read f n l1 u d l2 result :
    phase d = Reading -> fits result ->
    step (proxy f n (l1 ++ connection u d :: l2))
      (proxy f n (l1 ++ connection u (on_read f result d) :: l2))
| down_write f n l1 u d l2 rest result :
    phase d = Writing rest -> result <> Some 0 ->
    step (proxy f n (l1 ++ connection u d :: l2))
      (proxy f n (l1 ++ connection u (on_write result rest d) :: l2)).

(** ** Lemmas on one direction *)

(** What is still to be written of what was read. *)
Definition pending (p : Pipe) : list byte :=
  match phase p with Writing rest => rest | _ => [] end.

(** Everything that was and will be written of what was read so far. *)
Definition committed (p : Pipe) : list byte := delivered p ++ pending p.

(** Before a freeze all that was read is delivered or to be; after, some may have been dropped; and
    a sink that failed leaves some undelivered. *)
Record sound (f : bool) (p : Pipe) : Prop := {
  in_order : committed p `prefix_of` taken p;
  nothing_lost : f = false -> phase p <> Broken -> committed p = taken p;
}.

Lemma sound_fresh f : sound f fresh.
Proof. by split. Qed.

Lemma sound_freeze f p : sound f p -> sound true p.
Proof. intros []. by split. Qed.

Lemma on_read_sound f result p : phase p = Reading -> sound f p -> sound f (on_read f result p).
Proof.
  intros Hp [Hpre Hall]. unfold committed, pending in *. rewrite Hp, app_nil_r in *.
  destruct result as [[|b chunk]|]; cbn.
  - split; cbn; unfold committed, pending; cbn; rewrite app_nil_r; [done|]. intros Hf _. by apply Hall.
  - destruct f; cbn; split; unfold committed, pending; cbn; rewrite ?app_nil_r; try done.
    + by apply prefix_app_r.
    + rewrite Hall by (rewrite ?Hp; done). done.
    + intros _ _. by rewrite Hall by (rewrite ?Hp; done).
  - split; cbn; unfold committed, pending; cbn; rewrite app_nil_r; [done|]. intros Hf _. by apply Hall.
Qed.

(** A write that does not fail moves bytes from what is pending to what is delivered. *)
Lemma on_write_committed n rest p :
  phase p = Writing rest -> committed (on_write (Some n) rest p) = committed p.
Proof.
  intros Hp. unfold committed, pending. rewrite Hp. cbn [on_write phase delivered].
  rewrite <- (take_drop n rest) at 3. rewrite <- app_assoc. do 2 f_equal.
  by destruct (drop n rest).
Qed.

Lemma on_write_sound f result rest p :
  phase p = Writing rest -> sound f p -> sound f (on_write result rest p).
Proof.
  intros Hp [Hpre Hall]. destruct result as [n|].
  - split; rewrite on_write_committed by done; cbn [on_write taken phase]; [done|].
    intros Hf _. apply Hall; [done|]. by rewrite Hp.
  - split; [|by intros]. unfold committed, pending in *. cbn. rewrite app_nil_r.
    etrans; [|exact Hpre]. by apply prefix_app_r.
Qed.

(** Once frozen, a pipe commits nothing more. *)
Lemma on_read_frozen result p :
  phase p = Reading -> committed (on_read true result p) = committed p.
Proof. intros Hp. unfold committed, pending. rewrite Hp. by destruct result as [[]|]. Qed.

Lemma on_write_delivered result rest p :
  phase p = Writing rest -> committed (on_write result rest p) `prefix_of` committed p.
Proof.
  intros Hp. destruct result as [n|]; [by rewrite on_write_committed|].
  unfold committed, pending. rewrite Hp. cbn. rewrite app_nil_r. by apply prefix_app_r.
Qed.

(** ** Lemmas on the proxy *)

Definition ended (c : Connection) : bool :=
  match phase (to_upstream c) with Ended => true | _ => false end.

Definition count_ended (l : list Connection) : nat := length (List.filter ended l).

Record well_formed (s : Proxy) : Prop := {
  pipes_sound : Forall (fun c => sound (frozen s) (to_upstream c) /\ sound (frozen s) (to_client c))
                  (connections s);
  each_end_counted : closed_by_client s = count_ended (connections s);
}.

Lemma count_ended_mid l1 c l2 :
  count_ended (l1 ++ c :: l2) = count_ended l1 + (if ended c then 1 else 0) + count_ended l2.
Proof.
  unfold count_ended. rewrite List.filter_app, length_app. cbn [List.filter].
  destruct (ended c); cbn [length]; lia.
Qed.

Lemma Forall_mid {A} (P : A -> Prop) l1 a a' l2 :
  Forall P (l1 ++ a :: l2) -> (P a -> P a') -> Forall P (l1 ++ a' :: l2).
Proof. rewrite !Forall_app, !Forall_cons. naive_solver. Qed.

Lemma step_well_formed s s' : step s s' -> well_formed s -> well_formed s'.
Proof.
  intros Hstep [HF Hn].
  destruct Hstep; cbn [frozen closed_by_client connections freeze] in *; split;
    cbn [frozen closed_by_client connections] in *.
  - apply Forall_app. split; [done|]. constructor; [|constructor]. split; apply sound_fresh.
  - unfold count_ended in *. rewrite List.filter_app, length_app. cbn. lia.
  - eapply Forall_impl; [exact HF|]. intros c [??]. split; by eapply sound_freeze.
  - done.
  - eapply Forall_mid; [exact HF|]. intros [??]. split; [by apply on_read_sound|done].
  - rewrite Hn, !count_ended_mid. unfold ended, u'. cbn [to_upstream]. rewrite reading.
    destruct result as [[|b chunk]|]; cbn; [lia| |lia]. destruct f; cbn; lia.
  - eapply Forall_mid; [exact HF|]. intros [??]. split; [by apply on_write_sound|done].
  - rewrite Hn, !count_ended_mid. unfold ended. cbn [to_upstream]. rewrite writing.
    destruct result as [k|]; cbn; [|lia]. destruct (drop k rest); cbn; lia.
  - eapply Forall_mid; [exact HF|]. intros [??]. split; [done|by apply on_read_sound].
  - by rewrite Hn, !count_ended_mid.
  - eapply Forall_mid; [exact HF|]. intros [??]. split; [done|by apply on_write_sound].
  - by rewrite Hn, !count_ended_mid.
Qed.

Lemma steps_well_formed s : rtc step start s -> well_formed s.
Proof.
  intros Hsteps. assert (well_formed start) as H0 by (by split).
  revert H0. induction Hsteps as [|x y z Hxy _ IH]; [done|]. intros. by eapply IH, step_well_formed.
Qed.

(** Two states of the same proxy, the second later: the bytes a pipe of the first has written and
    committed bound what it has written in the second. *)
Definition settled (p p' : Pipe) : Prop :=
  delivered p `prefix_of` delivered p' /\ committed p' `prefix_of` committed p.

#[export] Instance settled_preorder : PreOrder settled.
Proof. split; [by intros p|]. intros p q r [??] [??]. split; by etrans. Qed.

Definition settled_conn (c c' : Connection) : Prop :=
  settled (to_upstream c) (to_upstream c') /\ settled (to_client c) (to_client c').

#[export] Instance settled_conn_preorder : PreOrder settled_conn.
Proof. split; [by intros c|]. intros p q r [??] [??]. split; by etrans. Qed.

Lemma on_read_settled result p : phase p = Reading -> settled p (on_read true result p).
Proof.
  intros Hp. split; [by destruct result as [[]|]|]. by rewrite on_read_frozen.
Qed.

Lemma on_write_settled result rest p : phase p = Writing rest -> settled p (on_write result rest p).
Proof.
  intros Hp. split; [|by apply on_write_delivered].
  destruct result; cbn; [by apply prefix_app_r|done].
Qed.

(** The connections there were keep their places, each settled; a new one forwards nothing. *)
Lemma step_frozen s s' :
  step s s' -> frozen s = true ->
  frozen s' = true /\
  forall i c', connections s' !! i = Some c' ->
    match connections s !! i with
    | Some c => settled_conn c c'
    | None => settled_conn (connection fresh fresh) c'
    end.
Proof.
  assert (forall l1 (c c' : Connection) l2 i c1,
    settled_conn c c' -> (l1 ++ c' :: l2) !! i = Some c1 ->
    match (l1 ++ c :: l2) !! i with
    | Some c0 => settled_conn c0 c1
    | None => settled_conn (connection fresh fresh) c1
    end) as Hmid.
  { intros l1 c c' l2 i c1 Hc. destruct (decide (i < length l1)) as [?|?].
    - rewrite !lookup_app_l by done. by intros ->.
    - rewrite !lookup_app_r by lia. destruct (i - length l1); cbn; [by intros [= <-]|].
      by intros ->. }
  intros Hstep Hf. destruct Hstep; cbn in *; subst; (split; [done|]); intros i c'.
  - destruct (decide (i < length l)) as [?|?].
    + rewrite lookup_app_l by done. by intros ->.
    + rewrite lookup_app_r, (proj2 (lookup_ge_None l i)) by lia.
      destruct (i - length l); cbn; [by intros [= <-]|done].
  - by intros ->.
  - apply Hmid. split; cbn; [by apply on_read_settled|done].
  - apply Hmid. split; cbn; [by apply on_write_settled|done].
  - apply Hmid. split; cbn; [done|by apply on_read_settled].
  - apply Hmid. split; cbn; [done|by apply on_write_settled].
Qed.

Lemma step_frozen_lookup s s' i c :
  step s s' -> connections s !! i = Some c -> is_Some (connections s' !! i).
Proof.
  intros Hstep Hi. apply lookup_lt_is_Some_2. apply lookup_lt_Some in Hi.
  destruct Hstep; cbn in *; rewrite ?length_app in *; cbn in *; lia.
Qed.

(** ** Waiting for a close *)

Section wait.
Context {W : Type} `{!Timer W}.

(** [closed_by_client.load(SeqCst)]; the tasks of the proxy run while the caller sleeps. *)
Context (load : eff W nat).

Definition saw_close : eff W bool := let! closed := load in ret (Nat.ltb 0 closed).

Definition PAUSE : Duration := from_millis 20.

Definition wait_for_client_close (fuel : nat) (limit : Duration) : eff W (option bool) :=
  let! t := instant_now in
  let deadline := (t + limit)%N in
  poll fuel (let! t := instant_now in ret (t <? deadline)%N) saw_close saw_close PAUSE.
End wait.

(** ** Properties *)

(** C36: In every state the tasks of the proxy reach, each direction has delivered a prefix of what
    it read, and, before a freeze and unless its sink failed, all but what it is writing; the
    counter is the number of connections whose client ended its side, each counted once. *)
Theorem proxy_forwards (s : Proxy) :
  rtc step start s ->
  Forall (fun c => Forall (fun p =>
      delivered p `prefix_of` taken p /\
      (frozen s = false -> phase p <> Broken -> delivered p ++ pending p = taken p))
    [to_upstream c; to_client c]) (connections s) /\
  get_closed_by_client s = count_ended (connections s) /\
  get_closed_by_client s <= length (connections s).
Proof.
  intros [HF Hn]%steps_well_formed. split_and!; [|done|].
  - eapply Forall_impl; [exact HF|]. intros c [Hu Hd].
    assert (forall p, sound (frozen s) p -> delivered p `prefix_of` taken p /\
      (frozen s = false -> phase p <> Broken -> delivered p ++ pending p = taken p)) as Hp.
    { intros p [Hpre Hall]. split; [|exact Hall]. etrans; [by apply prefix_app_r|exact Hpre]. }
    repeat constructor; by apply Hp.
  - unfold get_closed_by_client. rewrite Hn. apply List.filter_length_le.
Qed.

Lemma proxy_forwards_witness :
  let s := proxy false 1 [connection (pipe Ended [x61] [x61]) (pipe (Writing [x63]) [x62; x63] [x62])] in
  Forall (fun c => Forall (fun p =>
      delivered p `prefix_of` taken p /\
      (frozen s = false -> phase p <> Broken -> delivered p ++ pending p = taken p))
    [to_upstream c; to_client c]) (connections s) /\
  get_closed_by_client s = count_ended (connections s) /\
  get_closed_by_client s <= length (connections s).
Proof.
  intros s. apply proxy_forwards. unfold s, start.
  eapply rtc_l; [apply step_accept|].
  eapply rtc_l; [apply (up_read false 0 [] fresh fresh [] (Some [x61])); [done|by cbn]|].
  eapply rtc_l; [apply (up_write false 0 [] _ fresh [] [x61] (Some 1)); done|].
  eapply rtc_l; [apply (down_read false 0 [] _ fresh [] (Some [x62; x63])); [done|by cbn]|].
  eapply rtc_l; [apply (down_write false 0 [] _ _ [] [x62; x63] (Some 1)); done|].
  eapply rtc_l; [apply (up_read false 0 [] _ _ [] None); done|]. apply rtc_refl.
Defined.

(** C37: After a freeze, whatever the tasks do, a direction of a connection only finishes writing
    what it had read before: what it has delivered since is at most that, and a connection accepted
    later delivers nothing.  The proxy stays frozen and goes on counting closes. *)
Theorem proxy_freezes (s s' : Proxy) :
  rtc step (freeze s) s' ->
  frozen s' = true /\
  forall i c', connections s' !! i = Some c' ->
    match connections s !! i with
    | Some c =>
        delivered (to_upstream c') `prefix_of` committed (to_upstream c) /\
        delivered (to_client c') `prefix_of` committed (to_client c)
    | None => delivered (to_upstream c') = [] /\ delivered (to_client c') = []
    end.
Proof.
  intros Hsteps.
  assert (frozen s' = true /\ forall i c', connections s' !! i = Some c' ->
    settled_conn (default (connection fresh fresh) (connections (freeze s) !! i)) c') as [Hf Hc].
  { assert (frozen (freeze s) = true) as Hf by done. revert Hf.
    induction Hsteps as [x|x y z Hxy _ IH]; intros Hf.
    - split; [done|]. by intros i c' ->.
    - destruct (step_frozen _ _ Hxy Hf) as [Hfy Hy]. destruct (IH Hfy) as [Hfz Hz].
      split; [done|]. intros i c' Hi. specialize (Hz _ _ Hi). specialize (Hy i).
      destruct (connections y !! i) as [cy|] eqn:Ey.
      + specialize (Hy cy eq_refl). destruct (connections x !! i); cbn in *; by etrans.
      + destruct (connections x !! i) as [cx|] eqn:Ex; [|done].
        exfalso. destruct (step_frozen_lookup x y i cx Hxy Ex) as [? E]. congruence. }
  split; [done|]. intros i c' Hi. specialize (Hc _ _ Hi). cbn [freeze connections] in Hc.
  assert (forall p p', settled p p' -> delivered p' `prefix_of` committed p) as Hp.
  { intros p p' [_ H2]. etrans; [by apply prefix_app_r|exact H2]. }
  destruct (connections s !! i) as [c|]; cbn in Hc; destruct Hc as [Hu Hd].
  - split; by apply Hp.
  - split; [apply prefix_nil_inv, (Hp fresh _ Hu)|apply prefix_nil_inv, (Hp fresh _ Hd)].
Qed.

(** What was read before a freeze is written after it: [freeze] says it forwards nothing from then
    on. *)
Lemma freeze_lets_writes_finish :
  exists s s', rtc step start s /\ frozen s = true /\ rtc step s s' /\
    connections s = [connection (pipe (Writing [x61]) [x61] []) fresh] /\
    connections s' = [connection (pipe Reading [x61] [x61]) fresh].
Proof.
  exists (proxy true 0 [connection (pipe (Writing [x61]) [x61] []) fresh]),
    (proxy true 0 [connection (pipe Reading [x61] [x61]) fresh]).
  split_and!; try done.
  - eapply rtc_l; [apply step_accept|].
    eapply rtc_l; [apply (up_read false 0 [] fresh fresh [] (Some [x61])); [done|by cbn]|].
    eapply rtc_l; [apply step_freeze|]. apply rtc_refl.
  - eapply rtc_l; [apply (up_write true 0 [] _ fresh [] [x61] (Some 1)); done|]. apply rtc_refl.
Qed.

Lemma proxy_freezes_witness :
  frozen (proxy true 0 [connection (pipe Reading [x61; x62] [x61]) fresh]) = true /\
  forall i c',
    connections (proxy true 0 [connection (pipe Reading [x61; x62] [x61]) fresh]) !! i = Some c' ->
    match connections (proxy false 0 [connection (pipe (Writing [x61]) [x61] []) fresh]) !! i with
    | Some c =>
        delivered (to_upstream c') `prefix_of` committed (to_upstream c) /\
        delivered (to_client c') `prefix_of` committed (to_client c)
    | None => delivered (to_upstream c') = [] /\ delivered (to_client c') = []
    end.
Proof.
  apply proxy_freezes.
  eapply rtc_l; [apply (up_write true 0 [] _ fresh [] [x61] (Some 1)); done|].
  eapply rtc_l; [apply (up_read true 0 [] _ fresh [] (Some [x62])); [done|by cbn]|].
  apply rtc_refl.
Defined.

(** Waiting for a client's close ends, with as many turns as 20 ms go into the limit and two
    more, and says whether a close had been counted when it looked last: at once when there was one
    before, and otherwise never before the limit has passed without one. *)
Theorem wait_for_close_ends {W} `{TimerLaws W} (load : eff W nat) (count : W -> nat) limit w :
  (forall w, load w = (count w, w)) ->
  (forall w, count w <= count (instant_now w).2) -> (forall d w, count w <= count (pause d w).2) ->
  exists b w',
    wait_for_client_close load (turns limit PAUSE) limit w = (Some b, w') /\
    b = Nat.ltb 0 (count w') /\
    (0 < count w -> b = true) /\
    (b = false -> (time w + limit <= time w')%N).
Proof.
  intros Hload Hnow Hpause. unfold wait_for_client_close, turns.
  assert (forall w, saw_close load w = (Nat.ltb 0 (count w), w)) as Hsaw.
  { intros x. unfold saw_close, bind, ret. by rewrite Hload. }
  unfold bind at 1. destruct (instant_now w) as [t w0] eqn:E0.
  pose proof (now_reads w) as Hr. rewrite E0 in Hr. destruct Hr as [Ht Ht0].
  pose proof (Hnow w) as Hw0. rewrite E0 in Hw0. cbn in Hw0.
  set (within := bind instant_now (fun t' => ret (t' <? t + limit)%N)).
  assert (forall x, within x = ((instant_now x).1 <? t + limit, (instant_now x).2)%N) as Hwithin.
  { intros x. unfold within, bind, ret. by destruct (instant_now x). }
  destruct (poll_ends within (saw_close load) (saw_close load) PAUSE (t + limit)
    (fun x => count w0 <= count x)) with (fuel := N.to_nat (limit / PAUSE + 1)%N) (w := w0)
    as (w1 & _ & HP2 & Hle & Hend); try done.
  - intros x. rewrite Hwithin. cbn. pose proof (now_reads x). destruct (instant_now x). cbn. lia.
  - intros x. rewrite Hwithin. cbn. intros Hx%N.ltb_lt. pose proof (now_reads x).
    destruct (instant_now x). cbn in *. lia.
  - intros x. by rewrite Hsaw.
  - intros x Hx. rewrite Hwithin. cbn. etrans; [exact Hx|apply Hnow].
  - intros x Hx _. by rewrite Hsaw.
  - intros x Hx. etrans; [exact Hx|apply Hpause].
  - apply turns_enough; [done|]. lia.
  - rewrite Hwithin in *. cbn [fst snd] in *. rewrite Hsaw in *. cbn [fst snd] in *.
    pose proof (now_reads w1) as Hr. destruct (instant_now w1) as [t1 w2]. cbn [fst snd] in *.
    destruct Hend as [(_ & Hb & Hp)|(Hlate & Hp)].
    + exists true, w2. split_and!; [exact Hp|done..].
    + eexists _, w2. split_and!; [exact Hp|done| |].
      * intros Hc. apply Nat.ltb_lt. lia.
      * intros _. apply N.ltb_ge in Hlate. lia.
Qed.

(** A clock of nanoseconds that moves only in pauses, and a client that closes after 50 ms. *)
#[local] Instance sleeping : Timer N := {|
  instant_now w := (w, w);
  pause d w := (tt, w + d)%N;
|}.

#[local] Instance sleeping_laws : TimerLaws N.
Proof. refine {| time := id |}; intros; cbn; lia. Defined.

Definition closes_at (at_time : N) (w : N) : nat := if (at_time <=? w)%N then 1 else 0.

Lemma wait_for_close_ends_witness :
  exists b w',
    wait_for_client_close (fun w => (closes_at (from_millis 50) w, w)) (turns (from_millis 200) PAUSE)
      (from_millis 200) 0%N = (Some b, w') /\
    b = Nat.ltb 0 (closes_at (from_millis 50) w') /\
    (0 < closes_at (from_millis 50) 0 -> b = true) /\
    (b = false -> (0 + from_millis 200 <= w')%N).
Proof.
  refine (wait_for_close_ends (fun w => (closes_at (from_millis 50) w, w))
            (closes_at (from_millis 50)) (from_millis 200) 0%N _ _ _); [done| |].
  - intros w. cbn. lia.
  - intros d w. cbn. unfold closes_at. destruct (N.leb_spec (from_millis 50) w); [|lia].
    rewrite (proj2 (N.leb_le _ _)) by lia. lia.
Defined.
