(* ===== verification/Accepting.v ===== *)
(** * Accept loops

    What a started peer and a started proxy run: the accept loop of [PeerServer::serve]
    ([test-support/src/peer/peer_server.rs]) and of [FreezableProxy::start]
    ([test-support/src/proxy/freezable_proxy.rs]), a task that spawns one per connection, and the drop
    of [RunningPeer] and [RunningProxy], which aborts it.  What the connections do is in [Peer] and
    [Proxy]; here it is what they do from the accept to the end, with the loop. *)

From S2P Require Import Prelude Contract Frames Peer Proxy.
From Stdlib Require Import Lia Strings.Byte.
From stdpp Require Import base tactics strings option list relations.

(** ** The loop *)

(** [while let Ok((stream, _)) = listener.accept().await { spawn(..) }]: between two polls, in a poll
    (it was aborted meanwhile), ended. *)
Inductive Loop := Waiting | Polled (aborted : bool) | Over.

(** [JoinHandle::abort]: a task is ended where it awaits, so a poll under way goes on. *)
Definition abort_loop (l : Loop) : Loop :=
  match l with Polled _ => Polled true | _ => Over end.

Record Listening (S : Type) := listening { loop : Loop; inside : S }.
Arguments listening {_}.
Arguments loop {_}.
Arguments inside {_}.

(** [Drop] of the handle. *)
Definition drop_handle {S} (s : Listening S) : Listening S := listening (abort_loop (loop s)) (inside s).

Section loop.
Context {S : Type} (accepted : S -> S) (work : S -> S -> Prop).

(** The loop, the handle and the tasks of the connections, one step at a time. *)
Inductive step : Listening S -> Listening S -> Prop :=
| step_wake s : step (listening Waiting s) (listening (Polled false) s)
| step_accept b s : step (listening (Polled b) s) (listening (Polled b) (accepted s))
| step_accept_err b s : step (listening (Polled b) s) (listening Over s)
| step_pending b s : step (listening (Polled b) s) (listening (if b then Over else Waiting) s)
| step_drop s : step s (drop_handle s)
| step_work l s s' : work s s' -> step (listening l s) (listening l s').

(** *** After the drop *)

Context (keeps : S -> S -> Prop) `{!PreOrder keeps} (Hwork : forall s s', work s s' -> keeps s s').

Lemma over_stays s s' : rtc step s s' -> loop s = Over -> loop s' = Over /\ keeps (inside s) (inside s').
Proof.
  induction 1 as [|s1 s2 s3 Hstep _ IH]; [done|]. intros Hl.
  assert (loop s2 = Over /\ keeps (inside s1) (inside s2)) as [Hl2 Hc].
  { destruct Hstep as [| | | |s|l s s' Hw]; cbn in *; try done; [by rewrite Hl|].
    split; [done|by apply Hwork]. }
  destruct (IH Hl2) as [? Hc']. split; [done|by etrans].
Qed.

Lemma aborted_stays s s' :
  rtc step s s' -> loop s = Polled true \/ loop s = Over -> loop s' = Polled true \/ loop s' = Over.
Proof.
  induction 1 as [|s1 s2 s3 Hstep _ IH]; [done|]. intros Hl. apply IH.
  destruct Hl as [Hl|Hl], Hstep as [| | | |s|]; cbn in *; try congruence; rewrite ?Hl; try injection Hl as ->; tauto.
Qed.

(** A loop that is not being polled when its handle is dropped accepts nothing more; one that is
    accepts at most until that poll ends. *)
Lemma dropped_loop s s' :
  rtc step (drop_handle s) s' ->
  match loop s with
  | Polled _ => loop s' = Polled true \/ loop s' = Over
  | _ => loop s' = Over /\ keeps (inside s) (inside s')
  end.
Proof.
  destruct s as [[] s0]; cbn; intros Hs.
  - by apply over_stays in Hs.
  - apply aborted_stays in Hs; [done|by left].
  - by apply over_stays in Hs.
Qed.

(** The tasks of the connections are not the loop's: they go on. *)
Lemma work_goes_on l s s' : rtc work s s' -> rtc step (listening l s) (listening l s').
Proof. induction 1 as [|s1 s2 s3 Hw _ IH]; [done|]. by eapply rtc_l; [apply step_work|]. Qed.
End loop.

(** A relation that the tasks and every accept respect is one of the whole. *)
Lemma step_projects {S P} (accepted : S -> S) (work : S -> S -> Prop) (f : S -> P) (R : P -> P -> Prop) s s' :
  (forall s, rtc R (f s) (f (accepted s))) -> (forall s s', work s s' -> rtc R (f s) (f s')) ->
  rtc (step accepted work) s s' -> rtc R (f (inside s)) (f (inside s')).
Proof.
  intros Ha Hw. induction 1 as [|s1 s2 s3 Hstep _ IH]; [done|].
  etrans; [|exact IH]. destruct Hstep; cbn; eauto using rtc_refl.
Qed.

(** ** The peer *)

(** The task of a connection: the TLS handshake, if there is an acceptor, then requests until it
    ends. *)
Inductive ConnPhase := Handshake | Serving | Gone.

Record PeerTasks `{Http} := peer_tasks {
  conns : list ConnPhase;
  served : Peer.Serving;
}.
Arguments peer_tasks {_}.

Section peer.
Context `{Http} (behaviour : PeerBehaviour) (acceptor : bool).

Definition peer_accepted (s : PeerTasks) : PeerTasks :=
  peer_tasks (conns s ++ [if acceptor then Handshake else Serving]) (served s).

Inductive peer_work : PeerTasks -> PeerTasks -> Prop :=
| handshake_ok l1 l2 s : peer_work (peer_tasks (l1 ++ Handshake :: l2) s) (peer_tasks (l1 ++ Serving :: l2) s)
| handshake_err l1 l2 s : peer_work (peer_tasks (l1 ++ Handshake :: l2) s) (peer_tasks (l1 ++ Gone :: l2) s)
| connection_end l1 l2 s : peer_work (peer_tasks (l1 ++ Serving :: l2) s) (peer_tasks (l1 ++ Gone :: l2) s)
| request_arrives l1 l2 record tasks r :
    peer_work (peer_tasks (l1 ++ Serving :: l2) (serving record tasks))
      (peer_tasks (l1 ++ Serving :: l2) (serving record (tasks ++ [(r, Received)])))
| request_handled l s s' :
    Peer.step behaviour s s' -> length (tasks s') = length (tasks s) ->
    peer_work (peer_tasks l s) (peer_tasks l s').

Definition peer_step : Listening PeerTasks -> Listening PeerTasks -> Prop := step peer_accepted peer_work.

Definition peer_started : Listening PeerTasks := listening Waiting (peer_tasks [] (serving [] [])).

Definition same_conns (s s' : PeerTasks) : Prop := length (conns s') = length (conns s).

#[export] Instance same_conns_preorder : PreOrder same_conns.
Proof. split; [done|]. intros x y z H1 H2. unfold same_conns in *. congruence. Qed.

Lemma peer_work_conns s s' : peer_work s s' -> same_conns s s'.
Proof. destruct 1; unfold same_conns; cbn; rewrite ?length_app; cbn; done. Qed.

(** Of a peer with no connection left no request comes. *)
Lemma peer_work_gone s s' :
  peer_work s s' -> Forall (eq Gone) (conns s) ->
  Forall (eq Gone) (conns s') /\ length (tasks (served s')) = length (tasks (served s)).
Proof.
  destruct 1; cbn; try done;
    rewrite Forall_app, Forall_cons; intros (_ & [=] & _).
Qed.

Lemma peer_gone s s' :
  rtc peer_step s s' -> loop s = Over -> Forall (eq Gone) (conns (inside s)) ->
  length (tasks (served (inside s'))) = length (tasks (served (inside s))).
Proof.
  induction 1 as [|s1 s2 s3 Hstep _ IH]; [done|]. intros Hl Hg.
  assert (loop s2 = Over /\ Forall (eq Gone) (conns (inside s2)) /\
    length (tasks (served (inside s2))) = length (tasks (served (inside s1)))) as (Hl2 & Hg2 & Hn).
  { destruct Hstep as [| | | |s|l s s' Hw]; cbn in *; simplify_eq; try done.
    - unfold drop_handle. cbn. by rewrite Hl.
    - by destruct (peer_work_gone _ _ Hw Hg). }
  rewrite IH; done.
Qed.

(** What the tasks do is what [Peer.step] allows. *)
Lemma peer_projects s s' :
  rtc peer_step s s' -> rtc (Peer.step behaviour) (served (inside s)) (served (inside s')).
Proof.
  apply (step_projects _ _ served); [done|]. destruct 1; cbn; try done.
  - apply rtc_once, step_arrive.
  - by apply rtc_once.
Qed.

(** A request on an open connection is recorded and answered. *)
Lemma open_answers l1 l2 record tasks r :
  rtc peer_work (peer_tasks (l1 ++ Serving :: l2) (serving record tasks))
    (peer_tasks (l1 ++ Serving :: l2)
       (serving (record ++ [record_of r]) (tasks ++ [(r, Answered (response_for behaviour (frames_of r)))]))).
Proof.
  eapply rtc_l; [apply request_arrives|].
  eapply rtc_l; [apply request_handled; [apply step_record|by cbn; rewrite !length_app]|].
  eapply rtc_l; [apply request_handled; [apply step_answer|by cbn; rewrite !length_app]|]. apply rtc_refl.
Qed.
End peer.

(** ** The proxy *)

(** The connections whose upstream is being connected to, and those that forward. *)
Record ProxyTasks := proxy_tasks {
  dialing : nat;
  forwarding : Proxy.Proxy;
}.

Definition proxy_accepted (s : ProxyTasks) : ProxyTasks := proxy_tasks (S (dialing s)) (forwarding s).

Inductive proxy_work : ProxyTasks -> ProxyTasks -> Prop :=
| dial_ok n f closed l :
    proxy_work (proxy_tasks (S n) (proxy f closed l))
      (proxy_tasks n (proxy f closed (l ++ [connection Proxy.fresh Proxy.fresh])))
(** [TcpStream::connect(upstream).await?]: the client's side is closed, and not counted. *)
| dial_err n s : proxy_work (proxy_tasks (S n) s) (proxy_tasks n s)
| forward_step n s s' :
    Proxy.step s s' -> length (connections s') = length (connections s) ->
    proxy_work (proxy_tasks n s) (proxy_tasks n s').

Definition proxy_step : Listening ProxyTasks -> Listening ProxyTasks -> Prop := step proxy_accepted proxy_work.

Definition proxy_started : Listening ProxyTasks := listening Waiting (proxy_tasks 0 Proxy.start).

(** Connections that were accepted and have not failed to reach the upstream. *)
Definition reached (s : ProxyTasks) : nat := dialing s + length (connections (forwarding s)).

Definition fewer (s s' : ProxyTasks) : Prop := reached s' <= reached s.

#[export] Instance fewer_preorder : PreOrder fewer.
Proof. split; [by intros s; apply le_n|]. intros x y z H1 H2. unfold fewer in *. lia. Qed.

Lemma proxy_work_fewer s s' : proxy_work s s' -> fewer s s'.
Proof. destruct 1; unfold fewer, reached; cbn in *; rewrite ?length_app; cbn; lia. Qed.

Lemma proxy_projects s s' :
  rtc proxy_step s s' -> rtc Proxy.step (forwarding (inside s)) (forwarding (inside s')).
Proof.
  apply (step_projects _ _ forwarding); [done|]. destruct 1; cbn; [|done|by apply rtc_once].
  apply rtc_once, Proxy.step_accept.
Qed.

(** ** Properties *)

Notation tasks_of p := (tasks (served (inside p))).
Notation record_in p := (record (served (inside p))).

(** C38: A running peer, from its start on, whatever its tasks and its clients do: each request past its
    recording is in the record once, and is answered as the behaviour says for its own messages.
    When its handle is dropped the loop is over, and no connection is accepted any more, unless the
    loop is just being polled: then it ends with that poll.  Connections are not ended: a request
    on one that is open is still recorded and answered; where none is left no request comes. *)
Theorem running_peer_serves `{Http} (behaviour : PeerBehaviour) (acceptor : bool) p :
  rtc (peer_step behaviour acceptor) peer_started p ->
  (record_in p ≡ₚ record_of <$> omap seen (tasks_of p) /\
   forall r response, (r, Answered response) ∈ tasks_of p ->
     response = response_for behaviour (frames_of r) /\ record_of r ∈ record_in p) /\
  (forall p', rtc (peer_step behaviour acceptor) (drop_handle p) p' ->
     match loop p with
     | Polled _ => loop p' = Polled true \/ loop p' = Over
     | _ => loop p' = Over /\ length (conns (inside p')) = length (conns (inside p))
     end) /\
  (forall r, Serving ∈ conns (inside p) ->
     exists p', rtc (peer_step behaviour acceptor) (drop_handle p) p' /\
       record_in p' = record_in p ++ [record_of r] /\
       (r, Answered (response_for behaviour (frames_of r))) ∈ tasks_of p') /\
  (forall p', loop p = Waiting -> Forall (Logic.eq Gone) (conns (inside p)) ->
     rtc (peer_step behaviour acceptor) (drop_handle p) p' -> length (tasks_of p') = length (tasks_of p)).
Proof.
  intros Hp. split; [|split; [|split]].
  - apply (proj1 (peer_records behaviour (served (inside p)))).
    exact (peer_projects behaviour acceptor _ _ Hp).
  - intros p'. apply (dropped_loop _ _ same_conns), peer_work_conns.
  - intros r (l1 & l2 & E)%list_elem_of_split. destruct p as [l [cs [rc ts]]]. cbn in *. subst cs.
    eexists. split; [eapply work_goes_on, open_answers|]. cbn. split; [done|].
    apply elem_of_app. right. by apply list_elem_of_singleton.
  - intros p' Hl Hg Hs. rewrite (peer_gone behaviour acceptor _ _ Hs); [done| |done].
    cbn. by rewrite Hl.
Qed.

#[local] Existing Instance text_http.

(** A peer with TLS, two clients whose handshakes succeed and fail, one request on the first. *)
Definition busy_peer (response : HttpResponse) : Listening PeerTasks :=
  listening (Polled false) (peer_tasks [Serving; Gone]
    (serving [record_of request_ab] [(request_ab, Answered response)])).

Lemma running_peer_serves_witness :
  let response := response_for Echo (frames_of request_ab) in
  record_in (busy_peer response) ≡ₚ record_of <$> omap seen (tasks_of (busy_peer response)) /\
  (forall p', rtc (peer_step Echo true) (drop_handle (busy_peer response)) p' ->
     loop p' = Polled true \/ loop p' = Over) /\
  exists p', rtc (peer_step Echo true) (drop_handle (busy_peer response)) p' /\
    record_in p' = [record_of request_ab; record_of request_ab] /\
    (request_ab, Answered response) ∈ tasks_of p'.
Proof.
  intros response. destruct (running_peer_serves Echo true (busy_peer response)) as ([Hr _] & Hd & Ho & _).
  - unfold peer_started, busy_peer.
    eapply rtc_l; [apply step_wake|]. do 2 (eapply rtc_l; [apply step_accept|]).
    eapply rtc_l; [apply step_work, (handshake_ok _ [])|].
    eapply rtc_l; [apply step_work, (handshake_err _ [Serving])|].
    etrans; [|apply rtc_refl]. apply work_goes_on. exact (open_answers Echo [] [Gone] [] [] request_ab).
  - split; [exact Hr|]. split; [exact Hd|]. destruct (Ho request_ab) as (p' & Hs & Hrec & Ha); [by left|].
    by exists p'.
Defined.

(** A running proxy: what was shown of its connections holds with the loop around them and through
    the drop of its handle; after that none is accepted but in a poll of the loop that is under way,
    and those there are go on. *)
Theorem running_proxy_forwards p :
  rtc proxy_step proxy_started p ->
  rtc Proxy.step Proxy.start (forwarding (inside p)) /\
  (forall p', rtc proxy_step (drop_handle p) p' ->
     rtc Proxy.step (forwarding (inside p)) (forwarding (inside p')) /\
     match loop p with
     | Polled _ => loop p' = Polled true \/ loop p' = Over
     | _ => loop p' = Over /\ reached (inside p') <= reached (inside p)
     end) /\
  (forall s', Proxy.step (forwarding (inside p)) s' ->
     length (connections s') = length (connections (forwarding (inside p))) ->
     proxy_step (drop_handle p) (listening (abort_loop (loop p)) (proxy_tasks (dialing (inside p)) s'))).
Proof.
  intros Hp. split; [exact (proxy_projects _ _ Hp)|split].
  - intros p' Hs. split; [exact (proxy_projects _ _ Hs)|].
    exact (dropped_loop proxy_accepted proxy_work fewer proxy_work_fewer _ _ Hs).
  - intros s' Hs Hn. destruct p as [l [n s]]. apply step_work. by apply forward_step.
Qed.
