(* ===== verification/Cancellation.v ===== *)
(** * Calls that end when a signal fires

    [transport-spi/src/spi/cancellation/signal/]: [cancellable_transport.rs] and
    [cancellable_response_stream.rs].  A race of a signal with a call is about polls, so here a call
    is a future: a state that is polled until it is ready and then, or when the race is lost,
    dropped.  [tokio::select!] with [biased] polls the signal first on every poll. *)

From S2P Require Import Prelude Text Contract.
From Stdlib Require Import Lia Strings.Byte.
From stdpp Require Import base tactics strings option list.

(** ** Futures *)

(** A future that lends out nothing: the call of a client. *)
Record Future (W A : Type) := {
  f_state : Type;
  f_start : f_state;
  f_poll : f_state -> eff W (option A * f_state);
  f_drop : f_state -> eff W unit;
}.
Arguments f_state {_ _}.
Arguments f_start {_ _}.
Arguments f_poll {_ _}.
Arguments f_drop {_ _}.

(** [async { f.await.map(g) }]. *)
Definition f_map {W A B} (g : A -> B) (f : Future W A) : Future W B := {|
  f_state := f_state f;
  f_start := f_start f;
  f_poll s := let! (r, s) := f_poll f s in ret (g <$> r, s);
  f_drop := f_drop f;
|}.

(** A future when the state has one more component. *)
Definition f_lift {F W A} (f : Future W A) : Future (F * W) A := {|
  f_state := f_state f;
  f_start := f_start f;
  f_poll s := lift (f_poll f s);
  f_drop s := lift (f_drop f s);
|}.

(** A future that borrows a stream [S] and gives it back when it is dropped: one read. *)
Record Borrowing (W S A : Type) := {
  b_state : Type;
  b_start : S -> b_state;
  b_poll : b_state -> eff W (option A * b_state);
  b_drop : b_state -> eff W S;
}.
Arguments b_state {_ _ _}.
Arguments b_start {_ _ _}.
Arguments b_poll {_ _ _}.
Arguments b_drop {_ _ _}.

(** A response stream, a client and a raw client, with futures for the calls they await. *)
Record AsyncStream `{Contract} (W T M : Type) := {
  a_state : Type;
  a_value : a_state;
  a_read_message : Borrowing W a_state (Result (option T) CallError);
  a_get_headers : a_state -> eff W (Result M CallError * a_state);
  a_read_trailers : Borrowing W a_state (Result M CallError);
  a_drop : a_state -> eff W unit;
}.
Arguments a_state {_ _ _ _}.
Arguments a_value {_ _ _ _}.
Arguments a_read_message {_ _ _ _}.
Arguments a_get_headers {_ _ _ _}.
Arguments a_read_trailers {_ _ _ _}.
Arguments a_drop {_ _ _ _}.

Record AsyncTransport `{Contract} (W : Type) := {
  at_metadata : Type;
  at_call : forall M : Method, Request M -> CallOptions ->
    Future W (Result (CallResponse (Response M) at_metadata) CallError);
  at_call_server_stream : forall M : Method, Request M -> CallOptions ->
    Future W (Result (AsyncStream W (Response M) at_metadata) CallError);
  at_call_client_stream : forall M : Method, RequestStream (Request M) -> CallOptions ->
    Future W (Result (CallResponse (Response M) at_metadata) CallError);
  at_call_bidi_stream : forall M : Method, RequestStream (Request M) -> CallOptions ->
    Future W (Result (AsyncStream W (Response M) at_metadata) CallError);
}.
Arguments at_metadata {_ _}.
Arguments at_call {_ _}.
Arguments at_call_server_stream {_ _}.
Arguments at_call_client_stream {_ _}.
Arguments at_call_bidi_stream {_ _}.

Record AsyncRawTransport `{Contract} (W : Type) := {
  ar_metadata : Type;
  ar_call_raw : string -> list byte -> CallOptions ->
    Future W (Result (CallResponse (list byte) ar_metadata) CallError);
  ar_call_raw_server_stream : string -> list byte -> CallOptions ->
    Future W (Result (AsyncStream W (list byte) ar_metadata) CallError);
  ar_call_raw_client_stream : string -> RequestStream (list byte) -> CallOptions ->
    Future W (Result (CallResponse (list byte) ar_metadata) CallError);
  ar_call_raw_bidi_stream : string -> RequestStream (list byte) -> CallOptions ->
    Future W (Result (AsyncStream W (list byte) ar_metadata) CallError);
}.
Arguments ar_metadata {_ _}.
Arguments ar_call_raw {_ _}.
Arguments ar_call_raw_server_stream {_ _}.
Arguments ar_call_raw_client_stream {_ _}.
Arguments ar_call_raw_bidi_stream {_ _}.

(** [T: Transport + RawTransport]. *)
Record AsyncClient `{Contract} (W : Type) := async_client {
  a_typed : AsyncTransport W;
  a_raw : AsyncRawTransport W;
}.
Arguments async_client {_ _}.
Arguments a_typed {_ _}.
Arguments a_raw {_ _}.

(** ** The view *)

Section cancellable.
Context `{Contract} {W : Type}.

(** Whether a poll of [signal.wait_cancelled()] is ready; once it is, it stays so. *)
Context (fired : W -> bool).

Definition cancelled (path : string) : CallError :=
  Transport_ path StatusCancelled "the caller cancelled the call".

(** One poll of [select! { biased; () = signal => Err(cancelled), r = call => r }]. *)
Definition select_poll {S R} (path : string) (poll : S -> eff W (option (Result R CallError) * S))
    (s : S) : eff W (option (Result R CallError) * S) := fun w =>
  if fired w then ((Some (Err (cancelled path)), s), w) else poll s w.

Definition race {R} (path : string) (call : Future W (Result R CallError)) :
    Future W (Result R CallError) := {|
  f_state := f_state call;
  f_start := f_start call;
  f_poll := select_poll path (f_poll call);
  f_drop := f_drop call;
|}.

Definition cancellable_read {S R} (path : string) (read : Borrowing W S (Result R CallError)) :
    Borrowing W S (Result R CallError) := {|
  b_state := b_state read;
  b_start := b_start read;
  b_poll := select_poll path (b_poll read);
  b_drop := b_drop read;
|}.

Definition CancellableResponseStream {T M} (path : string) (inner : AsyncStream W T M) :
    AsyncStream W T M := {|
  a_state := a_state inner;
  a_value := a_value inner;
  a_read_message := cancellable_read path (a_read_message inner);
  a_get_headers := a_get_headers inner;
  a_read_trailers := cancellable_read path (a_read_trailers inner);
  a_drop := a_drop inner;
|}.

(** [race(..).await?], then the stream ended by the signal. *)
Definition race_stream {T M} (path : string)
    (call : Future W (Result (AsyncStream W T M) CallError)) :
    Future W (Result (AsyncStream W T M) CallError) :=
  f_map (rmap (CancellableResponseStream path)) (race path call).

Definition cancellable_typed (inner : AsyncTransport W) : AsyncTransport W := {|
  at_metadata := at_metadata inner;
  at_call M message options := race (PATH M) (at_call inner M message options);
  at_call_server_stream M message options :=
    race_stream (PATH M) (at_call_server_stream inner M message options);
  at_call_client_stream M requests options :=
    race (PATH M) (at_call_client_stream inner M requests options);
  at_call_bidi_stream M requests options :=
    race_stream (PATH M) (at_call_bidi_stream inner M requests options);
|}.

Definition cancellable_raw (inner : AsyncRawTransport W) : AsyncRawTransport W := {|
  ar_metadata := ar_metadata inner;
  ar_call_raw path message options := race path (ar_call_raw inner path message options);
  ar_call_raw_server_stream path message options :=
    race_stream path (ar_call_raw_server_stream inner path message options);
  ar_call_raw_client_stream path requests options :=
    race path (ar_call_raw_client_stream inner path requests options);
  ar_call_raw_bidi_stream path requests options :=
    race_stream path (ar_call_raw_bidi_stream inner path requests options);
|}.

(** [CancellableTransport], the view of a client that a signal ends. *)
Definition CancellableTransport (inner : AsyncClient W) : AsyncClient W :=
  async_client (cancellable_typed (a_typed inner)) (cancellable_raw (a_raw inner)).
End cancellable.

(** [StdGrpcCancellationFactory::build]. *)
Definition cancellation_build `{Contract} {W} (inner : AsyncClient W) (signal : W -> bool) : AsyncClient W :=
  CancellableTransport signal inner.

(** ** An executor *)

Section drive.
Context {W A S : Type} (poll : S -> eff W (option A * S)) (env : W -> W).

(** Poll up to [n] times; between polls the rest of the world moves as [env] says. *)
Fixpoint drive (n : nat) (s : S) (w : W) : option A * (S * W) :=
  match n with
  | O => (None, (s, w))
  | Datatypes.S n' =>
      match poll s w with
      | (Some a, s', w') => (Some a, (s', w'))
      | (None, s', w') => drive n' s' (env w')
      end
  end.
End drive.

Section races.
Context `{Contract} {W S R : Type} (fired : W -> bool) (env : W -> W) (path : string).
Context (poll : S -> eff W (option (Result R CallError) * S)).

(** [k] polls of the call that were not ready, the signal not fired before any of them. *)
Inductive quiet : nat -> S -> W -> S -> W -> Prop :=
| quiet_here s w : quiet 0 s w s w
| quiet_more k s w s1 w1 s2 w2 :
    fired w = false -> poll s w = (None, s1, w1) -> quiet k s1 (env w1) s2 w2 ->
    quiet (Datatypes.S k) s w s2 w2.

Lemma quiet_drive k s w s' w' n :
  quiet k s w s' w' ->
  drive (select_poll fired path poll) env (k + n) s w
  = drive (select_poll fired path poll) env n s' w'.
Proof.
  induction 1 as [|k s w s1 w1 s2 w2 Hf Hp Hq IH]; [done|]. cbn [drive Nat.add].
  unfold select_poll at 1. by rewrite Hf, Hp.
Qed.

Lemma drive_cases n s w :
  (exists k s' w', (k < n)%nat /\ quiet k s w s' w' /\ fired w' = true) \/
  (exists k s' w' r s2 w2, (k < n)%nat /\ quiet k s w s' w' /\ fired w' = false /\
     poll s' w' = (Some r, s2, w2)) \/
  (exists s' w', quiet n s w s' w').
Proof.
  revert s w. induction n as [|n IH]; intros s w; [right; right; do 2 eexists; constructor|].
  destruct (fired w) eqn:Ef.
  { left. exists O, s, w. split_and!; [lia|constructor|done]. }
  destruct (poll s w) as [[[r|] s1] w1] eqn:Ep.
  { right; left. exists O, s, w, r, s1, w1. split_and!; [lia|constructor|done|done]. }
  destruct (IH s1 (env w1)) as [(k & s' & w' & Hk & Hq & Hf)|[(k & s' & w' & r & s2 & w2 & Hk & Hq & Hf & Hp)
    |(s' & w' & Hq)]].
  - left. exists (Datatypes.S k), s', w'. split_and!; [lia|by econstructor|done].
  - right; left. exists (Datatypes.S k), s', w', r, s2, w2. split_and!; [lia|by econstructor|done|done].
  - right; right. exists s', w'. by econstructor.
Qed.
End races.

(** ** Reads of a stream *)

Section reads.
Context `{Contract} {W T M : Type} (env : W -> W).

(** One read: the future is started, polled up to [1 + n] times and dropped. *)
Definition read_once {S R} (read : Borrowing W S R) (n : nat) (s : S) : eff W (option R * S) :=
  fun w =>
    let '(r, (st, w)) := drive (b_poll read) env (Datatypes.S n) (b_start read s) w in
    let '(s, w) := b_drop read st w in ((r, s), w).

(** What a read of messages, or of trailers, gave. *)
Definition ReadOutcome : Type :=
  option (Result (option T) CallError) + option (Result M CallError).

(** The reads of [plan], one after the other: of the trailers where the flag is set, of a message
    otherwise, each with its number of polls. *)
Fixpoint reads (stream : AsyncStream W T M) (plan : list (bool * nat)) (s : a_state stream) (w : W) :
    list ReadOutcome * (a_state stream * W) :=
  match plan with
  | [] => ([], (s, w))
  | (trailers, n) :: plan =>
      let '(out, s, w) :=
        if trailers : bool
        then let '((r, s), w) := read_once (a_read_trailers stream) n s w in (inr r, s, w)
        else let '((r, s), w) := read_once (a_read_message stream) n s w in (inl r, s, w) in
      let '(rest, final) := reads stream plan s w in
      (out :: rest, final)
  end.

(** The outcome of a read that the signal ended. *)
Definition Cancelled_read (path : string) (step : bool * nat) : ReadOutcome :=
  if step.1 then inr (Some (Err (cancelled path))) else inl (Some (Err (cancelled path))).

(** Reads started and dropped without a poll. *)
Fixpoint abandoned (stream : AsyncStream W T M) (plan : list bool) (s : a_state stream) (w : W) :
    a_state stream * W :=
  match plan with
  | [] => (s, w)
  | trailers :: plan =>
      let '(s, w) :=
        if trailers : bool
        then b_drop (a_read_trailers stream) (b_start (a_read_trailers stream) s) w
        else b_drop (a_read_message stream) (b_start (a_read_message stream) s) w in
      abandoned stream plan s w
  end.

Lemma read_once_cancelled {S R} (fired : W -> bool) path (read : Borrowing W S (Result R CallError)) n s w :
  fired w = true ->
  read_once (cancellable_read fired path read) n s w
  = (let '(s', w') := b_drop read (b_start read s) w in
     ((Some (Err (cancelled path)), s'), w')).
Proof. intros Hf. unfold read_once. cbn. unfold select_poll at 1. by rewrite Hf. Qed.

Lemma reads_cancelled (fired : W -> bool) path (inner : AsyncStream W T M) :
  (forall w, fired w = true ->
     (forall st, fired (snd (b_drop (a_read_message inner) st w)) = true) /\
     (forall st, fired (snd (b_drop (a_read_trailers inner) st w)) = true)) ->
  forall plan b w, fired w = true ->
  reads (CancellableResponseStream fired path inner) plan b w
  = (Cancelled_read path <$> plan, abandoned inner (fst <$> plan) b w).
Proof.
  intros Hkeep. induction plan as [|[[] n] plan IH]; intros b w Hf; [done|cbn..].
  all: rewrite read_once_cancelled by done; cbn.
  - pose proof (proj2 (Hkeep w Hf) (b_start (a_read_trailers inner) b)) as Hf'.
    destruct (b_drop _ _ w) as [s w']. by rewrite (IH s w' Hf').
  - pose proof (proj1 (Hkeep w Hf) (b_start (a_read_message inner) b)) as Hf'.
    destruct (b_drop _ _ w) as [s w']. by rewrite (IH s w' Hf').
Qed.
End reads.

(** A stream comes out of [race_stream] only when the inner call gave one. *)
Lemma race_stream_opened `{Contract} {W T M} (fired : W -> bool) (env : W -> W) path
    (call : Future W (Result (AsyncStream W T M) CallError)) n s w stream s1 w1 :
  drive (f_poll (race_stream fired path call)) env n s w = (Some (Ok stream), (s1, w1)) ->
  exists k s' w' inner, quiet fired env (f_poll call) k s w s' w' /\ (k < n)%nat /\
    f_poll call s' w' = (Some (Ok inner), s1, w1) /\
    stream = CancellableResponseStream fired path inner.
Proof.
  revert s w. induction n as [|n IH]; intros s w; [done|]. cbn [drive].
  unfold race_stream, f_map, race. cbn. unfold bind, ret, select_poll.
  destruct (fired w) eqn:Ef; [done|].
  destruct (f_poll call s w) as [[[[inner|e]|] s2] w2] eqn:Ep; cbn.
  - intros [= <- <- <-]. exists O, s, w, inner. split_and!; [constructor|lia|done|done].
  - done.
  - intros Hd. destruct (IH s2 (env w2) Hd) as (k & s' & w' & inner & Hq & Hk & Hp & ->).
    exists (Datatypes.S k), s', w', inner. split_and!; [by econstructor|lia|done|done].
Qed.

(** ** Properties *)

(** C20: Polled any number of times in any moving world, a call that races a signal ends in one of
    three ways: [Cancelled], at the first poll that finds the signal fired, without polling the call
    again; the call's own result, at the poll that makes it ready, if the signal had not fired
    before; or not yet. A call made after the signal fired is never polled: nothing is sent. *)
Theorem cancellation_race `{Contract} {W R} (fired : W -> bool) (env : W -> W) path
    (call : Future W (Result R CallError)) n s w :
  let out := drive (f_poll (race fired path call)) env n s w in
  ((exists k s' w', (k < n)%nat /\ quiet fired env (f_poll call) k s w s' w' /\ fired w' = true /\
      out = (Some (Err (cancelled path)), (s', w'))) \/
   (exists k s' w' r s2 w2, (k < n)%nat /\ quiet fired env (f_poll call) k s w s' w' /\
      fired w' = false /\ f_poll call s' w' = (Some r, s2, w2) /\ out = (Some r, (s2, w2))) \/
   (exists s' w', quiet fired env (f_poll call) n s w s' w' /\ out = (None, (s', w')))) /\
  (fired w = true -> (0 < n)%nat -> out = (Some (Err (cancelled path)), (s, w))).
Proof.
  cbn [f_poll race]. split.
  - destruct (drive_cases fired env (f_poll call) n s w)
      as [(k & s' & w' & Hk & Hq & Hf)|[(k & s' & w' & r & s2 & w2 & Hk & Hq & Hf & Hp)|(s' & w' & Hq)]].
    + left. exists k, s', w'. split_and!; [done..|].
      replace n with (k + Datatypes.S (n - k - 1))%nat by lia.
      rewrite (quiet_drive fired env path _ _ _ _ _ _ _ Hq). cbn [drive]. unfold select_poll.
      by rewrite Hf.
    + right; left. exists k, s', w', r, s2, w2. split_and!; [done..|].
      replace n with (k + Datatypes.S (n - k - 1))%nat by lia.
      rewrite (quiet_drive fired env path _ _ _ _ _ _ _ Hq). cbn [drive]. unfold select_poll.
      by rewrite Hf, Hp.
    + right; right. exists s', w'. split; [done|].
      replace n with (n + 0)%nat by lia. by rewrite (quiet_drive fired env path _ _ _ _ _ _ _ Hq).
  - intros Hf Hn. destruct n as [|n]; [lia|]. cbn [drive]. unfold select_poll. by rewrite Hf.
Qed.

Lemma cancellation_race_witness :
  drive (f_poll (race (H := list_contract) (W := nat) (fun t => Nat.leb 3 t) "/s/M"
           {| f_state := unit; f_start := tt;
              f_poll s := ret (None : option (Result unit (@CallError list_contract)), s);
              f_drop _ := ret tt |})) S 2 tt 5
  = (Some (Err (@cancelled list_contract "/s/M")), (tt, 5%nat)).
Proof.
  apply (cancellation_race (H := list_contract) (fun t => Nat.leb 3 t) S "/s/M"
    {| f_state := unit; f_start := tt;
       f_poll s := ret (None : option (Result unit (@CallError list_contract)), s);
       f_drop _ := ret tt |} 2 tt 5); [reflexivity|lia].
Defined.

(** C21: A stream opened through a view is ended by the same signal. The call gives a stream only when
    the inner call does, at the same poll, and it is the inner stream seen through the view; once the
    signal has fired, every later read of messages or trailers, in any order and polled any number
    of times, fails with [Cancelled] at its first poll, and the inner stream is polled by none of
    them: each read is only started and dropped. *)
Theorem cancelled_reads `{Contract} {W T M} (fired : W -> bool) (env : W -> W) path
    (call : Future W (Result (AsyncStream W T M) CallError)) n s w stream s1 w1
    (opened : drive (f_poll (race_stream fired path call)) env n s w = (Some (Ok stream), (s1, w1))) :
  exists k s' w' inner,
    quiet fired env (f_poll call) k s w s' w' /\ (k < n)%nat /\
    f_poll call s' w' = (Some (Ok inner), s1, w1) /\
    stream = CancellableResponseStream fired path inner /\
    forall plan b w2,
      (forall w, fired w = true ->
         (forall st, fired (snd (b_drop (a_read_message inner) st w)) = true) /\
         (forall st, fired (snd (b_drop (a_read_trailers inner) st w)) = true)) ->
      fired w2 = true ->
      reads env (CancellableResponseStream fired path inner) plan b w2
      = (Cancelled_read path <$> plan, abandoned inner (fst <$> plan) b w2).
Proof.
  destruct (race_stream_opened fired env path call n s w stream s1 w1 opened)
    as (k & s' & w' & inner & Hk & Hq & Hp & ->).
  exists k, s', w', inner. split_and!; [done..|]. intros plan b w2 Hkeep Hf.
  by apply reads_cancelled.
Qed.

(** A stream of the example below: its state counts the reads given back. *)
Definition counted_stream : @AsyncStream list_contract nat unit unit := {|
  a_state := nat; a_value := O;
  a_read_message := {| b_state := nat; b_start s := s; b_poll s := ret (None, s);
    b_drop s := ret (Datatypes.S s) |};
  a_get_headers s := ret (Ok tt, s);
  a_read_trailers := {| b_state := nat; b_start s := s; b_poll s := ret (None, s);
    b_drop s := ret (Datatypes.S s) |};
  a_drop _ := ret tt;
|}.

Definition opening_call :
    @Future nat (Result (@AsyncStream list_contract nat unit unit) (@CallError list_contract)) := {|
  f_state := unit; f_start := tt;
  f_poll s := fun w => ((if Nat.leb 2 w then Some (Ok counted_stream) else None, s), w);
  f_drop _ := ret tt;
|}.

Lemma cancelled_reads_witness :
  exists k s' w' inner,
    quiet (fun t => Nat.leb 3 t) Datatypes.S (f_poll opening_call) k tt 0%nat s' w' /\ (k < 5)%nat /\
    f_poll opening_call s' w' = (Some (Ok inner), tt, 2%nat) /\
    reads Datatypes.S (CancellableResponseStream (fun t => Nat.leb 3 t) "/s/M" inner)
      [(false, 4%nat); (true, 2%nat)] (a_value inner) 7%nat
    = ([inl (Some (Err (@cancelled list_contract "/s/M")));
        inr (Some (Err (@cancelled list_contract "/s/M")))],
       abandoned inner [false; true] (a_value inner) 7%nat).
Proof.
  destruct (cancelled_reads (H := list_contract) (fun t => Nat.leb 3 t) Datatypes.S "/s/M"
    opening_call 5 tt 0%nat (CancellableResponseStream (fun t => Nat.leb 3 t) "/s/M" counted_stream)
    tt 2%nat eq_refl) as (k & s' & w' & inner & Hq & Hk & Hp & E & Hr).
  assert (inner = counted_stream) as ->.
  { cbn in Hp. destruct w' as [|[|]]; by simplify_eq. }
  exists k, s', w', counted_stream. split_and!; [done..|].
  apply (Hr [(false, 4%nat); (true, 2%nat)] (a_value counted_stream) 7%nat); [|reflexivity].
  intros w Hw. split; intros st; exact Hw.
Defined.
