(* ===== verification/Channel.v ===== *)
(** * The configuration of a channel

    [transport-api/src/channel/], [transport-api/src/loadbalancer/] and
    [transport-std/src/std/channel/]: the values a caller configures a client with, what makes them
    acceptable, the builder of a channel configuration, the reader of the load balancer settings and
    the reader of the TLS files. *)

From S2P Require Import Prelude Text Contract.
From Stdlib Require Import NArith Lia Strings.Byte.
From stdpp Require Import base tactics strings option list.

Open Scope N_scope.

Inductive GrpcChannelConfigError :=
| PlaintextRejected (endpoint : string)
| UnusableTlsFile (path reason : string)
| ConflictingOptions (first second reason : string)
| InvalidOptionValue (option_name reason : string)
| TlsOptionOnPlaintextEndpoint (option_name endpoint : string).

Inductive CompressionMode := NoCompression | GzipMode | ZstdMode.

(** ** Keep-alive *)

Module KeepAlive.
Record KeepAliveConfig := keep_alive_config {
  interval : Duration;
  timeout : Duration;
  permit_without_calls : bool;
}.

Definition try_new (interval timeout : Duration) (permit_without_calls : bool) :
    Result KeepAliveConfig string :=
  if interval =? 0 then Err "interval must be positive"%string
  else if timeout =? 0 then Err "timeout must be positive"%string
  else Ok (keep_alive_config interval timeout permit_without_calls).

Definition default : KeepAliveConfig := keep_alive_config (from_secs 10) (from_secs 20) false.

(** What a text says of a keep-alive, before the check. *)
Record KeepAliveConfigData := {
  data_interval : Duration;
  data_timeout : Duration;
  data_permit_without_calls : bool;
}.

Definition try_from (v : KeepAliveConfigData) : Result KeepAliveConfig string :=
  try_new (data_interval v) (data_timeout v) (data_permit_without_calls v).
End KeepAlive.

(** ** Mutual TLS *)

Module Mtls.
Record MtlsConfig := mtls_config {
  cert_pem_path : string;
  key_pem_path : string;
  ca_pem_path : option string;
}.

(** [path.trim().is_empty()]. *)
Definition blank (s : string) : bool := is_empty (trim s).

Definition try_new (cert_pem_path key_pem_path : string) (ca_pem_path : option string) :
    Result MtlsConfig GrpcChannelConfigError :=
  if blank cert_pem_path
  then Err (InvalidOptionValue "mtls" "cert_pem_path must not be empty")
  else if blank key_pem_path
  then Err (InvalidOptionValue "mtls" "key_pem_path must not be empty")
  else if match ca_pem_path with Some path => blank path | None => false end
  then Err (InvalidOptionValue "mtls" "ca_pem_path must not be empty when set")
  else Ok (mtls_config cert_pem_path key_pem_path ca_pem_path).

(** What a text says of an identity, before the checks. *)
Record MtlsConfigData := {
  data_cert_pem_path : string;
  data_key_pem_path : string;
  data_ca_pem_path : option string;
}.

Definition try_from (v : MtlsConfigData) : Result MtlsConfig GrpcChannelConfigError :=
  try_new (data_cert_pem_path v) (data_key_pem_path v) (data_ca_pem_path v).
End Mtls.
Notation MtlsConfig := Mtls.MtlsConfig.
Notation KeepAliveConfig := KeepAlive.KeepAliveConfig.
Notation blank := Mtls.blank.

(** ** The load balancer settings *)

Inductive BalancingStrategy := RoundRobin | Weighted | LeastConnections.

Module Loadbalancer.
Record BackendTarget := backend_target {
  url : string;
  weight : N;
}.

Definition target_try_new (url : string) (weight : N) : Result BackendTarget string :=
  if blank url then Err "backend url must not be empty"%string
  else if weight =? 0 then Err "backend weight must be >= 1"%string
  else Ok (backend_target url weight).

Record LoadbalancerSettings := loadbalancer_settings {
  strategy : BalancingStrategy;
  backends : list BackendTarget;
}.

Definition settings_try_new (strategy : BalancingStrategy) (backends : list BackendTarget) :
    Result LoadbalancerSettings string :=
  if is_nil backends then Err "backends must contain at least one target"%string
  else Ok (loadbalancer_settings strategy backends).

Section parse.

(** What [toml] reads of the document, before the conversions [serde] is told to make; a conversion
    that fails is an error of the deserializer with its text. *)
Context (toml_from_str : string -> Result (BalancingStrategy * list (string * N)) string).
Context (toml_custom : string -> string).

Fixpoint targets_from (data : list (string * N)) : Result (list BackendTarget) string :=
  match data with
  | [] => Ok []
  | (url, weight) :: data =>
      let? target := target_try_new url weight in
      let? targets := targets_from data in
      Ok (target :: targets)
  end.

Definition deserialize (text : string) : Result LoadbalancerSettings string :=
  let? (strategy, data) := toml_from_str text in
  map_err toml_custom
    (let? backends := targets_from data in settings_try_new strategy backends).

Definition parse_config (text : string) : Result LoadbalancerSettings GrpcChannelConfigError :=
  map_err (InvalidOptionValue "loadbalancer") (deserialize text).
End parse.
End Loadbalancer.
Notation BackendTarget := Loadbalancer.BackendTarget.
Notation LoadbalancerSettings := Loadbalancer.LoadbalancerSettings.

(** ** The channel *)

Definition DEFAULT_MAX_MESSAGE_BYTES : N := 4 * 1024 * 1024.
Definition DEFAULT_REQUEST_TIMEOUT_SECS : N := 30.

Module ChannelConfig.
Record GrpcChannelConfig := channel_config {
  endpoint : string;
  tls_required : bool;
  mtls : option MtlsConfig;
  keep_alive : option KeepAliveConfig;
  max_message_bytes : N;
  compression : CompressionMode;
  request_timeout_secs : option N;
}.

Definition try_new (endpoint : string) (tls_required : bool) (mtls : option MtlsConfig)
    (keep_alive : option KeepAliveConfig) (max_message_bytes : N) (compression : CompressionMode)
    (request_timeout_secs : option N) : Result GrpcChannelConfig string :=
  if blank endpoint then Err "endpoint must not be empty"%string
  else if max_message_bytes =? 0 then Err "max_message_bytes must be >= 1"%string
  else if bool_decide (request_timeout_secs = Some 0)
  then Err "request_timeout_secs must be >= 1 when set"%string
  else Ok (channel_config endpoint tls_required mtls keep_alive max_message_bytes compression
             request_timeout_secs).

Definition default : GrpcChannelConfig :=
  channel_config "" true None None DEFAULT_MAX_MESSAGE_BYTES NoCompression None.

(** [GrpcChannelConfigData]: what a text may say; a field it leaves out is the default's. *)
Record GrpcChannelConfigData := {
  data_endpoint : option string;
  data_tls_required : option bool;
  data_mtls : option MtlsConfig;
  data_keep_alive : option KeepAliveConfig;
  data_max_message_bytes : option N;
  data_compression : option CompressionMode;
  data_request_timeout_secs : option N;
}.

Definition try_from (c : GrpcChannelConfigData) : Result GrpcChannelConfig string :=
  try_new
    (option.default (endpoint default) (data_endpoint c))
    (option.default (tls_required default) (data_tls_required c))
    (data_mtls c) (data_keep_alive c)
    (option.default (max_message_bytes default) (data_max_message_bytes c))
    (option.default (compression default) (data_compression c))
    (data_request_timeout_secs c).
End ChannelConfig.
Notation GrpcChannelConfig := ChannelConfig.GrpcChannelConfig.

(** ** The builder of a channel *)

Module ChannelBuilder.
Record StdGrpcChannelConfigBuilder := channel_builder {
  endpoint : option string;
  tls_required : bool;
  mtls : option MtlsConfig;
  keep_alive : option KeepAliveConfig;
  max_message_bytes : option N;
  compression : option CompressionMode;
  request_timeout_secs : option N;
}.

Definition default : StdGrpcChannelConfigBuilder :=
  channel_builder None true None None None None None.

(** One fluent call. *)
Inductive setter :=
| WithEndpoint (endpoint : string)
| AllowPlaintext
| WithMtls (mtls : MtlsConfig)
| WithKeepAlive (keep_alive : KeepAliveConfig)
| WithMaxMessageBytes (bytes : N)
| WithCompression (mode : CompressionMode)
| WithRequestTimeout (timeout : Duration).

(** [Duration::as_secs]. *)
Definition as_secs (d : Duration) : N := d / SECOND.

Definition set (b : StdGrpcChannelConfigBuilder) (s : setter) : StdGrpcChannelConfigBuilder :=
  let '(channel_builder e t m k x c r) := b in
  match s with
  | WithEndpoint endpoint => channel_builder (Some endpoint) t m k x c r
  | AllowPlaintext => channel_builder e false m k x c r
  | WithMtls mtls => channel_builder e t (Some mtls) k x c r
  | WithKeepAlive keep_alive => channel_builder e t m (Some keep_alive) x c r
  | WithMaxMessageBytes bytes => channel_builder e t m k (Some bytes) c r
  | WithCompression mode => channel_builder e t m k x (Some mode) r
  | WithRequestTimeout timeout => channel_builder e t m k x c (Some (N.max (as_secs timeout) 1))
  end.

Definition build (b : StdGrpcChannelConfigBuilder) : Result GrpcChannelConfig string :=
  let? endpoint := ok_or (endpoint b) "endpoint required"%string in
  ChannelConfig.try_new endpoint (tls_required b) (mtls b) (keep_alive b)
    (option.default DEFAULT_MAX_MESSAGE_BYTES (max_message_bytes b))
    (option.default NoCompression (compression b))
    (request_timeout_secs b).
End ChannelBuilder.

(** [StdGrpcChannelConfigBuilderFactory::build] and [StdMtlsConfigFactory::build]. *)
Definition channel_config_builder : ChannelBuilder.StdGrpcChannelConfigBuilder := ChannelBuilder.default.

Definition mtls_build (cert_pem_path key_pem_path : string) (ca_pem_path : option string) :
    Result Mtls.MtlsConfig GrpcChannelConfigError :=
  Mtls.try_new cert_pem_path key_pem_path ca_pem_path.

(** ** The TLS settings *)

(** [TlsSettings], [TlsIdentity] and [Compression] of the contract crate. *)
Class TransportOptions := {
  TlsSettings : Type;
  TlsIdentity : Type;
  tls_create : option string -> list (list byte) -> option TlsIdentity -> TlsSettings;
  identity_create : list byte -> list byte -> TlsIdentity;
  get_identity : TlsSettings -> option TlsIdentity;
  Compression : Type;
  Gzip : Compression;
  Zstd : Compression;
}.

Module Tls.
Definition CERTIFICATE_MARKER : string := "-----BEGIN CERTIFICATE-----".
Definition PRIVATE_KEY_MARKER : string := "PRIVATE KEY-----".

Section resolver.
Context `{TransportOptions} {W : Type}.

(** [std::fs::read], with the text of its error. *)
Context (fs_read : string -> eff W (Result (list byte) string)).

Definition refuse (path reason : string) : GrpcChannelConfigError := UnusableTlsFile path reason.

Definition read_pem (path marker missing : string) :
    eff W (Result (list byte) GrpcChannelConfigError) :=
  let! file := fs_read path in
  match file with
  | Err e => ret (Err (refuse path e))
  | Ok bytes =>
      if negb (contains (from_utf8_lossy (String.string_of_list_byte bytes)) marker)
      then ret (Err (refuse path missing))
      else ret (Ok bytes)
  end.

Definition resolve (identity : option MtlsConfig) (root_ca : option string) :
    eff W (Result TlsSettings GrpcChannelConfigError) :=
  let!? roots :=
    match root_ca with
    | Some path =>
        let!? pem := read_pem path CERTIFICATE_MARKER "no certificate found in the file" in
        ret (Ok [pem])
    | None => ret (Ok [])
    end in
  let!? identity :=
    match identity with
    | Some mtls =>
        let!? cert := read_pem (Mtls.cert_pem_path mtls) CERTIFICATE_MARKER
                        "no certificate found in the file" in
        let!? key := read_pem (Mtls.key_pem_path mtls) PRIVATE_KEY_MARKER
                       "no private key found in the file" in
        ret (Ok (Some (identity_create cert key)))
    | None => ret (Ok None)
    end in
  ret (Ok (tls_create None roots identity)).
End resolver.
End Tls.

(** ** The builder, by its last calls *)

Import ChannelBuilder.

(** The argument of the last call that [pick] selects. *)
Definition last_of {A} (pick : setter -> option A) (calls : list setter) : option A :=
  last (omap pick calls).

Definition endpoint_of s := match s with WithEndpoint e => Some e | _ => None end.
Definition mtls_of s := match s with WithMtls m => Some m | _ => None end.
Definition keep_alive_of s := match s with WithKeepAlive k => Some k | _ => None end.
Definition bytes_of s := match s with WithMaxMessageBytes b => Some b | _ => None end.
Definition compression_of s := match s with WithCompression c => Some c | _ => None end.
Definition timeout_of s := match s with WithRequestTimeout d => Some (N.max (as_secs d) 1) | _ => None end.
Definition allows_plaintext s := match s with AllowPlaintext => true | _ => false end.

Lemma last_of_snoc {A} (pick : setter -> option A) calls s :
  last_of pick (calls ++ [s]) = match pick s with Some a => Some a | None => last_of pick calls end.
Proof.
  unfold last_of. rewrite omap_app. cbn. destruct (pick s); [by rewrite last_snoc|by rewrite app_nil_r].
Qed.

Lemma builder_state calls :
  fold_left set calls default
  = channel_builder (last_of endpoint_of calls) (negb (existsb allows_plaintext calls))
      (last_of mtls_of calls) (last_of keep_alive_of calls) (last_of bytes_of calls)
      (last_of compression_of calls) (last_of timeout_of calls).
Proof.
  induction calls as [|s calls IH] using rev_ind; [done|].
  rewrite fold_left_app, IH, existsb_app, !last_of_snoc. cbn [fold_left existsb].
  destruct s; cbn; rewrite ?orb_false_r, ?orb_true_r; done.
Qed.

Lemma channel_try_new_ok e t m k x c r cfg :
  ChannelConfig.try_new e t m k x c r = Ok cfg <->
  blank e = false /\ x <> 0 /\ r <> Some 0 /\ cfg = ChannelConfig.channel_config e t m k x c r.
Proof.
  unfold ChannelConfig.try_new. destruct (blank e); [naive_solver|].
  destruct (N.eqb_spec x 0); [naive_solver|]. case_bool_decide; naive_solver.
Qed.

Lemma timeout_positive calls : last_of timeout_of calls <> Some 0.
Proof.
  induction calls as [|s calls IH] using rev_ind; [done|]. rewrite last_of_snoc.
  destruct s; cbn; try done. intros [= E]. lia.
Qed.

(** ** Properties *)

(** The value that a builder's calls describe, on endpoint [e]. *)
Definition described (e : string) (calls : list setter) : GrpcChannelConfig := {|
  ChannelConfig.endpoint := e;
  ChannelConfig.tls_required := negb (existsb allows_plaintext calls);
  ChannelConfig.mtls := last_of mtls_of calls;
  ChannelConfig.keep_alive := last_of keep_alive_of calls;
  ChannelConfig.max_message_bytes :=
    option.default DEFAULT_MAX_MESSAGE_BYTES (last_of bytes_of calls);
  ChannelConfig.compression := option.default NoCompression (last_of compression_of calls);
  ChannelConfig.request_timeout_secs := last_of timeout_of calls;
|}.

(** A channel configuration is built from fluent calls exactly when the last endpoint is not
    blank and the last message cap is not zero; then every value is that of the last call for it or
    the default, TLS is required unless plaintext was allowed by some call, and the timeout is the
    last one's whole seconds, at least one. No sequence of calls is refused for its timeout. *)
Theorem channel_builder_correct (calls : list setter) (cfg : GrpcChannelConfig) :
  ChannelBuilder.build (fold_left set calls default) = Ok cfg <->
  exists e, last_of endpoint_of calls = Some e /\ blank e = false /\
    last_of bytes_of calls <> Some 0 /\
    cfg = described e calls.
Proof.
  rewrite builder_state. unfold ChannelBuilder.build. cbn.
  destruct (last_of endpoint_of calls) as [e|]; cbn [ok_or rbind]; [|naive_solver].
  rewrite channel_try_new_ok. pose proof (timeout_positive calls) as Ht.
  assert (option.default DEFAULT_MAX_MESSAGE_BYTES (last_of bytes_of calls) <> 0 <->
          last_of bytes_of calls <> Some 0) as Hx by (destruct (last_of bytes_of calls); naive_solver).
  rewrite Hx. naive_solver.
Qed.

Lemma targets_from_ok data targets :
  Loadbalancer.targets_from data = Ok targets ->
  targets = (fun t => Loadbalancer.backend_target t.1 t.2) <$> data /\
  Forall (fun t => blank (Loadbalancer.url t) = false /\ 1 <= Loadbalancer.weight t) targets.
Proof.
  revert targets. induction data as [|[u w] data IH]; intros targets; cbn.
  { intros [= <-]. by split. }
  unfold Loadbalancer.target_try_new.
  destruct (blank u) eqn:Eb; [done|]. destruct (N.eqb_spec w 0); [done|]. cbn.
  destruct (Loadbalancer.targets_from data) as [ts|] eqn:E; [|done]. cbn. intros [= <-].
  destruct (IH ts eq_refl) as [-> HF]. split; [done|]. constructor; [split; [done|cbn; lia]|done].
Qed.

(** The settings of a load balancer that a text gives are those it says, with at least one
    backend, no blank URL and no zero weight; any other text is an unusable value of the option. *)
Theorem loadbalancer_parse_config toml_from_str toml_custom text :
  match Loadbalancer.parse_config toml_from_str toml_custom text with
  | Ok s =>
      toml_from_str text
      = Ok (Loadbalancer.strategy s,
            (fun t => (Loadbalancer.url t, Loadbalancer.weight t)) <$> Loadbalancer.backends s) /\
      Loadbalancer.backends s <> [] /\
      Forall (fun t => blank (Loadbalancer.url t) = false /\ 1 <= Loadbalancer.weight t)
        (Loadbalancer.backends s)
  | Err e => exists reason, e = InvalidOptionValue "loadbalancer" reason
  end.
Proof.
  unfold Loadbalancer.parse_config, Loadbalancer.deserialize.
  destruct (toml_from_str text) as [[strategy data]|e]; cbn; [|eauto].
  destruct (Loadbalancer.targets_from data) as [ts|e] eqn:E; cbn; [|eauto].
  unfold Loadbalancer.settings_try_new. destruct ts as [|t ts]; cbn; [eauto|].
  apply targets_from_ok in E as [E HF]. split_and!; [|done|done]. do 2 f_equal.
  change (data = (fun t => (Loadbalancer.url t, Loadbalancer.weight t)) <$> (t :: ts)).
  rewrite E, <- list_fmap_compose. symmetry. etrans; [|apply list_fmap_id].
  apply list_fmap_ext. by intros ? [].
Qed.

(** ** Well-formed values *)

Definition keep_alive_wf (k : KeepAliveConfig) : Prop :=
  KeepAlive.interval k <> 0 /\ KeepAlive.timeout k <> 0.

Definition mtls_wf (m : MtlsConfig) : Prop :=
  blank (Mtls.cert_pem_path m) = false /\ blank (Mtls.key_pem_path m) = false /\
  forall path, Mtls.ca_pem_path m = Some path -> blank path = false.

Definition settings_wf (s : LoadbalancerSettings) : Prop :=
  Loadbalancer.backends s <> [] /\
  Forall (fun t => blank (Loadbalancer.url t) = false /\ 1 <= Loadbalancer.weight t)
    (Loadbalancer.backends s).

Definition channel_wf (c : GrpcChannelConfig) : Prop :=
  blank (ChannelConfig.endpoint c) = false /\ ChannelConfig.max_message_bytes c <> 0 /\
  ChannelConfig.request_timeout_secs c <> Some 0.

(** The same settings on another endpoint. *)
Definition on_endpoint (e : string) (c : GrpcChannelConfig) : GrpcChannelConfig := {|
  ChannelConfig.endpoint := e;
  ChannelConfig.tls_required := ChannelConfig.tls_required c;
  ChannelConfig.mtls := ChannelConfig.mtls c;
  ChannelConfig.keep_alive := ChannelConfig.keep_alive c;
  ChannelConfig.max_message_bytes := ChannelConfig.max_message_bytes c;
  ChannelConfig.compression := ChannelConfig.compression c;
  ChannelConfig.request_timeout_secs := ChannelConfig.request_timeout_secs c;
|}.

(** The values a text names, with the default of a field it leaves out. *)
Definition channel_of (c : ChannelConfig.GrpcChannelConfigData) : GrpcChannelConfig := {|
  ChannelConfig.endpoint := option.default ""%string (ChannelConfig.data_endpoint c);
  ChannelConfig.tls_required := option.default true (ChannelConfig.data_tls_required c);
  ChannelConfig.mtls := ChannelConfig.data_mtls c;
  ChannelConfig.keep_alive := ChannelConfig.data_keep_alive c;
  ChannelConfig.max_message_bytes :=
    option.default DEFAULT_MAX_MESSAGE_BYTES (ChannelConfig.data_max_message_bytes c);
  ChannelConfig.compression := option.default NoCompression (ChannelConfig.data_compression c);
  ChannelConfig.request_timeout_secs := ChannelConfig.data_request_timeout_secs c;
|}.

Lemma keep_alive_try_new_ok i t p k :
  KeepAlive.try_new i t p = Ok k <-> k = KeepAlive.keep_alive_config i t p /\ keep_alive_wf k.
Proof.
  unfold KeepAlive.try_new, keep_alive_wf.
  destruct (N.eqb_spec i 0), (N.eqb_spec t 0); naive_solver.
Qed.

Lemma mtls_try_new_ok c k a m :
  Mtls.try_new c k a = Ok m <-> m = Mtls.mtls_config c k a /\ mtls_wf m.
Proof.
  unfold Mtls.try_new, mtls_wf. split.
  - destruct (blank c) eqn:?; [done|]. destruct (blank k) eqn:?; [done|].
    destruct a as [p|]; [destruct (blank p) eqn:?; [done|]|]; intros [= <-]; cbn; naive_solver.
  - intros (-> & Hc & Hk & Ha). cbn in *. rewrite Hc, Hk.
    destruct a as [p|]; [|done]. by rewrite (Ha p eq_refl).
Qed.

Lemma targets_from_wf targets :
  Forall (fun t => blank (Loadbalancer.url t) = false /\ 1 <= Loadbalancer.weight t) targets ->
  Loadbalancer.targets_from ((fun t => (Loadbalancer.url t, Loadbalancer.weight t)) <$> targets)
  = Ok targets.
Proof.
  induction 1 as [|[u w] ts [Hu Hw] _ IH]; [done|].
  cbn [fmap list_fmap Loadbalancer.targets_from Loadbalancer.url Loadbalancer.weight] in *.
  unfold Loadbalancer.target_try_new. cbn in Hu, Hw. rewrite Hu, (proj2 (N.eqb_neq _ _)) by lia.
  cbn [rbind]. by rewrite IH.
Qed.

Lemma targets_from_data data targets :
  Loadbalancer.targets_from data = Ok targets ->
  data = (fun t => (Loadbalancer.url t, Loadbalancer.weight t)) <$> targets.
Proof.
  intros [-> _]%targets_from_ok. rewrite <- list_fmap_compose. symmetry. etrans; [|apply list_fmap_id].
  apply list_fmap_ext. by intros ? [].
Qed.

(** The settings a document gives are the well-formed ones it names, and only those. *)
Lemma settings_deserialize toml_from_str toml_custom text s :
  Loadbalancer.deserialize toml_from_str toml_custom text = Ok s <->
  settings_wf s /\
  toml_from_str text
  = Ok (Loadbalancer.strategy s,
        (fun t => (Loadbalancer.url t, Loadbalancer.weight t)) <$> Loadbalancer.backends s).
Proof.
  unfold Loadbalancer.deserialize, settings_wf, Loadbalancer.settings_try_new. split.
  - destruct (toml_from_str text) as [[strategy data]|]; [|done]. cbn [rbind].
    destruct (Loadbalancer.targets_from data) as [ts|] eqn:E; [|done]. cbn [rbind map_err].
    destruct ts as [|t ts]; [done|]. cbn [is_nil map_err]. intros [= <-]. cbn.
    rewrite (targets_from_data _ _ E). apply targets_from_ok in E as [_ HF]. by split_and!.
  - destruct s as [strategy ts]. cbn. intros [[Hne HF] ->]. cbn [rbind].
    rewrite targets_from_wf by done. cbn [rbind]. by destruct ts.
Qed.

(** C33: What a text or a builder's calls give becomes a configuration value exactly when that value is
    well formed, and the value is what was given: keep-alive times that are positive, identity files
    that are named, a balancer with backends that have URLs and weights, a channel with an endpoint, a
    message limit and a timeout that are not zero. The default keep-alive is well formed; the default
    channel, which no constructor checks, is but for its endpoint, which is empty. *)
Theorem channel_values_typed :
  (forall d k, KeepAlive.try_from d = Ok k <->
     keep_alive_wf k /\
     k = KeepAlive.keep_alive_config (KeepAlive.data_interval d) (KeepAlive.data_timeout d)
           (KeepAlive.data_permit_without_calls d)) /\
  keep_alive_wf KeepAlive.default /\
  (forall d m, Mtls.try_from d = Ok m <->
     mtls_wf m /\
     m = Mtls.mtls_config (Mtls.data_cert_pem_path d) (Mtls.data_key_pem_path d)
           (Mtls.data_ca_pem_path d)) /\
  (forall toml_from_str toml_custom text s,
     Loadbalancer.parse_config toml_from_str toml_custom text = Ok s <->
     settings_wf s /\
     toml_from_str text
     = Ok (Loadbalancer.strategy s,
           (fun t => (Loadbalancer.url t, Loadbalancer.weight t)) <$> Loadbalancer.backends s)) /\
  (forall d c, ChannelConfig.try_from d = Ok c <-> channel_wf c /\ c = channel_of d) /\
  (forall calls c, ChannelBuilder.build (fold_left set calls default) = Ok c <->
     channel_wf c /\ exists e, last_of endpoint_of calls = Some e /\ c = described e calls) /\
  (ChannelConfig.endpoint ChannelConfig.default = ""%string /\
   forall e, channel_wf (on_endpoint e ChannelConfig.default) <-> blank e = false).
Proof.
  split_and!; [| | | | | |done|].
  - intros d k. unfold KeepAlive.try_from. rewrite keep_alive_try_new_ok. naive_solver.
  - split; discriminate.
  - intros d m. unfold Mtls.try_from. rewrite mtls_try_new_ok. naive_solver.
  - intros toml custom text s. rewrite <- (settings_deserialize toml custom).
    unfold Loadbalancer.parse_config. destruct (Loadbalancer.deserialize _ _ _); cbn; naive_solver.
  - intros d c. unfold ChannelConfig.try_from. rewrite channel_try_new_ok. unfold channel_wf.
    split; [intros (? & ? & ? & ->); repeat split; done|intros [(? & ? & ?) ->]; repeat split; done].
  - intros calls c. rewrite builder_state. unfold ChannelBuilder.build. cbn.
    destruct (last_of endpoint_of calls) as [e|]; cbn [ok_or rbind]; [|naive_solver].
    rewrite channel_try_new_ok. split.
    + intros (? & ? & ? & ->). split; [done|]. by exists e.
    + intros [(? & ? & ?) (e' & [= <-] & ->)]. done.
  - intros e. unfold channel_wf. cbn. by split; [intros (? & _)|].
Qed.
