(* ===== verification/Pki.v ===== *)
(** * The certificates of a test

    [TestPki] ([test-support/src/tls/pki_fixture.rs]): an authority, the certificate it signed for a
    peer's server and the one it signed for a client, each written as PEM into a directory.  Keys and
    certificates are the crate [rcgen]'s ([Rcgen]), the directory is the operating system's
    ([Disk]). *)

From S2P Require Import Prelude Text Contract Channel.
From Stdlib Require Import NArith Lia Strings.Byte.
From stdpp Require Import base tactics strings option list gmap.

(** ** The crate and the disk *)

Module Rcgen.
Inductive KeyUsagePurpose := KeyCertSign | CrlSign.
Inductive ExtendedKeyUsagePurpose := ServerAuth | ClientAuth.
Inductive BasicConstraints := Unconstrained.
Inductive IsCa := NoCa | Ca (constraints : BasicConstraints).
Inductive SanType := IpAddress (a b c d : N).
End Rcgen.
Import Rcgen.

(** Errors are their texts, as [io::Error::other] keeps them. *)
Class RcgenSvc (W : Type) := {
  KeyPair : Type;
  CertificateParams : Type;
  Certificate : Type;
  Issuer : Type;
  key_generate : eff W (Result KeyPair string);
  params_new : list string -> Result CertificateParams string;
  push_common_name : CertificateParams -> string -> CertificateParams;
  set_is_ca : CertificateParams -> IsCa -> CertificateParams;
  set_key_usages : CertificateParams -> list KeyUsagePurpose -> CertificateParams;
  set_extended_key_usages : CertificateParams -> list ExtendedKeyUsagePurpose -> CertificateParams;
  push_subject_alt_name : CertificateParams -> SanType -> CertificateParams;
  self_signed : CertificateParams -> KeyPair -> eff W (Result Certificate string);
  issuer_new : CertificateParams -> KeyPair -> Issuer;
  signed_by : CertificateParams -> KeyPair -> Issuer -> eff W (Result Certificate string);
  cert_pem : Certificate -> list byte;
  cert_der : Certificate -> list byte;
  serialize_pem : KeyPair -> list byte;
  serialize_der : KeyPair -> list byte;
  (** [PrivateKeyDer]. *)
  PrivateKeyDer : Type;
  private_key_der_try_from : list byte -> Result PrivateKeyDer string;
}.

(** [tempfile::tempdir] and [std::fs::write]. *)
Class Disk (W : Type) := {
  tempdir : eff W (Result string string);
  fs_write : string -> list byte -> eff W (Result unit string);
}.

Fixpoint ends_with_slash (s : string) : bool :=
  match s with
  | EmptyString => false
  | String c EmptyString => N.eqb (code c) 47
  | String _ s => ends_with_slash s
  end.

(** [Path::join] of a relative name, on Unix. *)
Definition join (dir name : string) : string :=
  if Text.is_empty dir then name
  else if ends_with_slash dir then dir +:+ name
  else dir +:+ "/" +:+ name.

(** ** The fixture *)

Section fixture.
Context {W : Type} `{!RcgenSvc W} `{!Disk W}.

Record TestPki := test_pki {
  dir : string;
  server_chain : list (list byte);
  server_key : PrivateKeyDer;
  client_root : list (list byte);
}.

Definition generate_key : eff W (Result KeyPair string) := key_generate.
Definition new_params (names : list string) : Result CertificateParams string := params_new names.

Definition ca_params (params : CertificateParams) : CertificateParams :=
  set_key_usages (set_is_ca (push_common_name params "grpc-egress test authority") (Ca Unconstrained))
    [KeyCertSign; CrlSign].

Definition server_params (params : CertificateParams) : CertificateParams :=
  set_extended_key_usages (push_subject_alt_name params (IpAddress 127 0 0 1)) [ServerAuth].

Definition client_params (params : CertificateParams) : CertificateParams :=
  set_extended_key_usages (push_common_name params "grpc-egress test client") [ClientAuth].

(** [TestPki::create]. *)
Definition pki_create : eff W (Result TestPki string) :=
  let!? ca_key := generate_key in
  let!? params := ret (new_params []) in
  let ca_params := ca_params params in
  let!? ca_cert := self_signed ca_params ca_key in
  let issuer := issuer_new ca_params ca_key in
  let!? server_key := generate_key in
  let!? params := ret (new_params ["localhost"]) in
  let!? server_cert := signed_by (server_params params) server_key issuer in
  let!? client_key := generate_key in
  let!? params := ret (new_params []) in
  let!? client_cert := signed_by (client_params params) client_key issuer in
  let!? dir := tempdir in
  let!? _ := fs_write (join dir "ca.pem") (cert_pem ca_cert) in
  let!? _ := fs_write (join dir "server.pem") (cert_pem server_cert) in
  let!? _ := fs_write (join dir "server.key") (serialize_pem server_key) in
  let!? _ := fs_write (join dir "client.pem") (cert_pem client_cert) in
  let!? _ := fs_write (join dir "client.key") (serialize_pem client_key) in
  let!? server_key := ret (private_key_der_try_from (serialize_der server_key)) in
  ret (Ok (test_pki dir [cert_der server_cert] server_key [cert_der ca_cert])).

Definition get_ca_pem_path (self : TestPki) : string := join (dir self) "ca.pem".
Definition get_client_cert_pem_path (self : TestPki) : string := join (dir self) "client.pem".
Definition get_client_key_pem_path (self : TestPki) : string := join (dir self) "client.key".
Definition get_dir (self : TestPki) : string := dir self.
Definition get_server_chain (self : TestPki) : list (list byte) := server_chain self.
Definition get_server_key (self : TestPki) : PrivateKeyDer := server_key self.
Definition get_client_roots (self : TestPki) : list (list byte) := client_root self.
End fixture.
Arguments TestPki W {_}.
Arguments test_pki {_ _}.

(** ** What the crate and the disk promise *)

Class PkiLaws (W : Type) `{RcgenSvc W} `{!Disk W} (fs_read : string -> eff W (Result (list byte) string)) := {
  read_only path w : (fs_read path w).2 = w;
  read_written path bytes w w' :
    fs_write path bytes w = (Ok tt, w') -> fs_read path w' = (Ok bytes, w');
  read_others path bytes w w' path' :
    fs_write path bytes w = (Ok tt, w') -> path' <> path -> (fs_read path' w').1 = (fs_read path' w).1;
  tempdir_absolute w d w' : tempdir w = (Ok d, w') -> String.prefix "/" d = true;
  cert_pem_marked c : contains (from_utf8_lossy (String.string_of_list_byte (cert_pem c)))
                        Tls.CERTIFICATE_MARKER = true;
  key_pem_marked k : contains (from_utf8_lossy (String.string_of_list_byte (serialize_pem k)))
                       Tls.PRIVATE_KEY_MARKER = true;
}.

(** What the fixture made: the keys, the certificates and who signed them. *)
Record issued `{RcgenSvc W} (pki : TestPki W) (ca_key server_key client_key : KeyPair)
    (ca server client : Certificate) : Prop := {
  issued_ca : exists params w w', new_params [] = Ok params /\
    self_signed (ca_params params) ca_key w = (Ok ca, w') /\
    (exists names v v', new_params ["localhost"] = Ok names /\
       signed_by (server_params names) server_key (issuer_new (ca_params params) ca_key) v
       = (Ok server, v')) /\
    (exists v v', signed_by (client_params params) client_key (issuer_new (ca_params params) ca_key) v
       = (Ok client, v'));
  issued_chain : get_server_chain pki = [cert_der server];
  issued_key : private_key_der_try_from (serialize_der server_key) = Ok (get_server_key pki);
  issued_roots : get_client_roots pki = [cert_der ca];
}.

(** ** Lemmas *)

Lemma join_distinct d a b : a <> b -> join d a <> join d b.
Proof.
  unfold join. intros Hab. destruct (Text.is_empty d); [done|].
  destruct (ends_with_slash d); intros E; apply Hab.
  - by apply (inj (String.append d)) in E.
  - apply (inj (String.append d)) in E. by apply (inj (String.append "/")) in E.
Qed.

Lemma join_not_blank d name : String.prefix "/" d = true -> blank (join d name) = false.
Proof.
  intros Hd. assert (exists rest, join d name = ("/" ++ rest)%string) as [rest ->].
  { destruct d as [|c d]; [done|]. cbn in Hd. case_match eqn:Ec; [|done]. rewrite <- e.
    unfold join. destruct (Text.is_empty _) eqn:E; [done|].
    destruct (ends_with_slash _); eexists; reflexivity. }
  eapply trim_not_empty; reflexivity.
Qed.

Section lemmas.
Context {W : Type} `{HR : !RcgenSvc W} `{HD : !Disk W} (fs_read : string -> eff W (Result (list byte) string)).
Context `{HL : !PkiLaws W fs_read}.

(** The files hold what is listed. *)
Definition on_disk (files : list (string * list byte)) (w : W) : Prop :=
  Forall (fun f => fs_read f.1 w = (Ok f.2, w)) files.

Lemma write_run files path bytes w w' :
  on_disk files w -> fs_write path bytes w = (Ok tt, w') -> path ∉ files.*1 ->
  on_disk (files ++ [(path, bytes)]) w'.
Proof.
  intros Hf Hw Hp. apply Forall_app. split; [|by constructor; [apply (read_written _ _ _ _ Hw)|]].
  unfold on_disk in Hf. rewrite Forall_forall in Hf |- *. intros [p b] Hin. specialize (Hf _ Hin). cbn in *.
  pose proof (read_others _ _ _ _ p Hw) as Ho. pose proof (read_only p w') as Hr.
  destruct (fs_read p w') as [r v] eqn:E. cbn in Ho, Hr. rewrite Hf in Ho. cbn in Ho.
  rewrite Ho, Hr; [done|]. intros ->. apply Hp. apply list_elem_of_fmap. by exists (path, b).
Qed.

Lemma bindr_inv {A B E} (m : eff W (Result A E)) (k : A -> eff W (Result B E)) w b w' :
  bindr m k w = (Ok b, w') -> exists a w1, m w = (Ok a, w1) /\ k a w1 = (Ok b, w').
Proof.
  unfold bindr, bind, ret. destruct (m w) as [[a|e] w1]; [|done]. eauto.
Qed.

(** Reading a file back as PEM. *)
Lemma read_pem_run path marker missing bytes w :
  fs_read path w = (Ok bytes, w) ->
  contains (from_utf8_lossy (String.string_of_list_byte bytes)) marker = true ->
  Tls.read_pem fs_read path marker missing w = (Ok bytes, w).
Proof. intros Hr Hm. unfold Tls.read_pem, bind, ret. by rewrite Hr, Hm. Qed.
End lemmas.

(** The identity and the authority that a client of the fixture is configured with. *)
Definition client_tls `{RcgenSvc W} `{TransportOptions} (ca client : Certificate) (client_key : KeyPair) :
    TlsSettings :=
  tls_create None [cert_pem ca] (Some (identity_create (cert_pem client) (serialize_pem client_key))).

(** A name none of the files listed has. *)
Ltac fresh_in J := cbn; rewrite ?not_elem_of_cons; split_and?; solve [by apply J | apply not_elem_of_nil].

Section created.
Context {W : Type} `{HR : !RcgenSvc W} `{HD : !Disk W} `{HT : TransportOptions}.
Context (fs_read : string -> eff W (Result (list byte) string)) `{HL : !PkiLaws W fs_read}.

(** The files of the fixture, by what they hold. *)
Definition pki_files (pki : TestPki W) (server_key client_key : KeyPair) (ca server client : Certificate) :
    list (string * list byte) :=
  [(get_ca_pem_path pki, cert_pem ca);
   (join (get_dir pki) "server.pem", cert_pem server);
   (join (get_dir pki) "server.key", serialize_pem server_key);
   (get_client_cert_pem_path pki, cert_pem client);
   (get_client_key_pem_path pki, serialize_pem client_key)].

(** Every step of the creation, when it succeeded. *)
Lemma pki_create_run w pki w' :
  pki_create w = (Ok pki, w') ->
  exists ca_key server_key client_key ca server client,
    issued pki ca_key server_key client_key ca server client /\
    on_disk fs_read (pki_files pki server_key client_key ca server client) w' /\
    String.prefix "/" (get_dir pki) = true.
Proof.
  unfold pki_create.
  intros (ca_key & w1 & _ & (params & w2 & [= Hp <-] & (ca & w3 & Hca & (server_key & w4 & _ &
    (names & w5 & [= Hn <-] & (server & w6 & Hs & (client_key & w7 & _ & (params' & w8 & [= Hp' <-] &
    (client & w9 & Hc & (d & w10 & Hd & ([] & w11 & H1 & ([] & w12 & H2 & ([] & w13 & H3 &
    ([] & w14 & H4 & ([] & w15 & H5 & (key & w16 & [= Hk <-] & [= <- <-])%bindr_inv)%bindr_inv)%bindr_inv
    )%bindr_inv)%bindr_inv)%bindr_inv)%bindr_inv)%bindr_inv)%bindr_inv)%bindr_inv)%bindr_inv)%bindr_inv
    )%bindr_inv)%bindr_inv)%bindr_inv)%bindr_inv.
  unfold new_params in *. rewrite Hp in Hp'. injection Hp' as <-.
  exists ca_key, server_key, client_key, ca, server, client. split_and!.
  - split; cbn; [|done..]. exists params, w1, w3. split_and!; eauto 10.
  - assert (forall a b, a <> b -> join d a <> join d b) as J by (intros; by apply join_distinct).
    assert (on_disk fs_read [] w10) as F0 by constructor.
    pose proof (write_run fs_read _ _ _ _ _ F0 H1 ltac:(fresh_in J)) as F1.
    pose proof (write_run fs_read _ _ _ _ _ F1 H2 ltac:(fresh_in J)) as F2.
    pose proof (write_run fs_read _ _ _ _ _ F2 H3 ltac:(fresh_in J)) as F3.
    pose proof (write_run fs_read _ _ _ _ _ F3 H4 ltac:(fresh_in J)) as F4.
    exact (write_run fs_read _ _ _ _ _ F4 H5 ltac:(fresh_in J)).
  - exact (tempdir_absolute _ _ _ Hd).
Qed.

(** The configuration of the fixture's paths, resolved. *)
Lemma client_resolves pki server_key client_key ca server client w :
  on_disk fs_read (pki_files pki server_key client_key ca server client) w ->
  String.prefix "/" (get_dir pki) = true ->
  exists mtls,
    Mtls.try_new (get_client_cert_pem_path pki) (get_client_key_pem_path pki) (Some (get_ca_pem_path pki))
    = Ok mtls /\
    Tls.resolve fs_read (Some mtls) (Mtls.ca_pem_path mtls) w = (Ok (client_tls ca client client_key), w).
Proof.
  intros Hf Hd. eexists. split.
  - unfold Mtls.try_new, get_client_cert_pem_path, get_client_key_pem_path, get_ca_pem_path.
    by rewrite !join_not_blank.
  - unfold on_disk, pki_files in Hf. rewrite !Forall_cons in Hf. destruct Hf as (Ha & _ & _ & Hc & Hk & _).
    unfold Tls.resolve, bindr, bind, ret. cbn [Mtls.ca_pem_path Mtls.cert_pem_path Mtls.key_pem_path].
    cbn [fst snd] in *.
    rewrite (read_pem_run fs_read _ _ _ _ _ Ha (cert_pem_marked ca)).
    rewrite (read_pem_run fs_read _ _ _ _ _ Hc (cert_pem_marked client)).
    by rewrite (read_pem_run fs_read _ _ _ _ _ Hk (key_pem_marked client_key)).
Qed.

(** C39: The fixture that was created holds what its paths name: the authority that signed both
    certificates, the client's certificate and its key; and the mutual TLS configuration of these
    paths resolves to that authority and that identity. *)
Theorem pki_resolves w pki w' (created : pki_create w = (Ok pki, w')) :
  exists ca_key server_key client_key ca server client mtls,
    issued pki ca_key server_key client_key ca server client /\
    on_disk fs_read (pki_files pki server_key client_key ca server client) w' /\
    Mtls.try_new (get_client_cert_pem_path pki) (get_client_key_pem_path pki) (Some (get_ca_pem_path pki))
    = Ok mtls /\
    Tls.resolve fs_read (Some mtls) (Mtls.ca_pem_path mtls) w' = (Ok (client_tls ca client client_key), w').
Proof.
  destruct (pki_create_run w pki w' created) as (ak & sk & ck & ca & server & client & Hi & Hf & Hd).
  destruct (client_resolves pki sk ck ca server client w' Hf Hd) as (mtls & Hm & Hr).
  exists ak, sk, ck, ca, server, client, mtls. done.
Qed.
End created.

(** ** A disk and a crate for the examples

    Files by their paths and the number of the next key; a certificate is who it is of and the key
    that signed it.  They are a part of any state. *)

Record Files := make_files {
  stored_files : gmap string (list byte);
  next_key : N;
}.

Section in_memory.
Context {W : Type} (get : W -> Files) (set : Files -> W -> W) (get_set : forall f w, get (set f w) = f).

Definition text_bytes (s : string) : list byte := String.list_byte_of_string s.

Definition memory_rcgen : RcgenSvc W := {|
  KeyPair := N;
  CertificateParams := string;
  Certificate := string * N;
  Issuer := N;
  key_generate w :=
    let f := get w in
    (Ok (next_key f), set (make_files (stored_files f) (N.succ (next_key f))) w);
  params_new names := Ok (String.concat "," names);
  push_common_name p n := p +:+ n;
  set_is_ca p _ := p;
  set_key_usages p _ := p;
  set_extended_key_usages p _ := p;
  push_subject_alt_name p _ := p;
  self_signed p k := ret (Ok (p, k));
  issuer_new _ k := k;
  signed_by p _ i := ret (Ok (p, i));
  cert_pem c := text_bytes Tls.CERTIFICATE_MARKER;
  cert_der c := text_bytes c.1;
  serialize_pem _ := text_bytes Tls.PRIVATE_KEY_MARKER;
  serialize_der k := text_bytes (decimal k);
  PrivateKeyDer := list byte;
  private_key_der_try_from := Ok;
|}.

Definition memory_disk : Disk W := {|
  tempdir := ret (Ok "/tmp/pki"%string);
  fs_write path bytes w :=
    (Ok tt, set (make_files (<[path := bytes]> (stored_files (get w))) (next_key (get w))) w);
|}.

Definition memory_read (path : string) : eff W (Result (list byte) string) := fun w =>
  (match stored_files (get w) !! path with Some b => Ok b | None => Err "not found"%string end, w).

Lemma memory_laws : @PkiLaws W memory_rcgen memory_disk memory_read.
Proof using get_set.
  split.
  - done.
  - intros path bytes w w' [= <-]. unfold memory_read. rewrite get_set. cbn. by rewrite lookup_insert_eq.
  - intros path bytes w w' path' [= <-] Hp. unfold memory_read. rewrite get_set. cbn.
    by rewrite lookup_insert_ne.
  - intros w d w' [= <- <-]. reflexivity.
  - intros c. by vm_compute.
  - intros k. by vm_compute.
Defined.
End in_memory.

Definition no_files : Files := make_files ∅ 0.

#[local] Instance file_options : TransportOptions := {|
  TlsSettings := list (list byte) * option (list byte * list byte);
  TlsIdentity := list byte * list byte;
  tls_create _ roots identity := (roots, identity);
  identity_create cert key := (cert, key);
  get_identity := snd;
  Compression := bool;
  Gzip := true;
  Zstd := false;
|}.

#[local] Instance files_rcgen : RcgenSvc Files := memory_rcgen id (fun f _ => f).
#[local] Instance files_disk : Disk Files := memory_disk id (fun f _ => f).
#[local] Instance files_laws : PkiLaws Files (memory_read id) := memory_laws id (fun f _ => f) (fun _ _ => eq_refl).

Definition sample_pki : TestPki Files :=
  test_pki "/tmp/pki" [text_bytes "localhost"] (text_bytes "1") [text_bytes "grpc-egress test authority"].

Definition sample_disk : Files := (pki_create no_files).2.

Lemma pki_resolves_witness :
  pki_create no_files = (Ok sample_pki, sample_disk) /\
  exists ca_key server_key client_key ca server client mtls,
    issued sample_pki ca_key server_key client_key ca server client /\
    on_disk (memory_read id) (pki_files sample_pki server_key client_key ca server client) sample_disk /\
    Mtls.try_new "/tmp/pki/client.pem" "/tmp/pki/client.key" (Some "/tmp/pki/ca.pem") = Ok mtls /\
    Tls.resolve (memory_read id) (Some mtls) (Mtls.ca_pem_path mtls) sample_disk
    = (Ok (client_tls ca client client_key), sample_disk).
Proof.
  assert (pki_create no_files = (Ok sample_pki, sample_disk)) as E by reflexivity. split; [exact E|].
  exact (pki_resolves (memory_read id) no_files sample_pki sample_disk E).
Defined.
