(* ===== verification/Endpoint.v ===== *)
(** * One endpoint, or several behind a load balancer

    [transport-spi/src/spi/client/protosvc/endpoint_transport.rs].  The pool, its strategies and its
    health tracking are the crate [swe_edge_loadbalancer]'s (class [LoadbalancerSvc]); here is which
    client a call goes to and what is reported of it. *)

From S2P Require Import Prelude Text Contract Channel.
From Stdlib Require Import NArith Lia Strings.Byte.
From stdpp Require Import base tactics strings option list.

(** ** The load balancer *)

Module Lb.
Inductive Strategy := RoundRobin | Weighted | LeastConnections.

Record BackendConfig := backend_config { url : string; weight : N }.

Record LoadbalancerConfig := { strategy : Strategy; backends : list BackendConfig }.

Inductive Outcome := Success | Failure (reason : string).
End Lb.
Notation Outcome := Lb.Outcome.

Class LoadbalancerSvc (W : Type) := {
  BackendPoolInstance : Type;
  BackendId : Type;
  Backend : Type;
  backend_id : Backend -> BackendId;
  backend_url : Backend -> string;
  LoadbalancerError : Type;
  loadbalancer_error_to_string : LoadbalancerError -> string;
  build_pool : Lb.LoadbalancerConfig -> eff W (Result BackendPoolInstance LoadbalancerError);
  select : BackendPoolInstance -> eff W (Result Backend LoadbalancerError);
  report_outcome : BackendPoolInstance -> BackendId -> Outcome -> eff W unit;
}.

(** ** The clients *)

(** [T: Transport + RawTransport]: a type of clients, all with the same metadata. *)
Record ClientType `{Contract} (W T : Type) := {
  ct_metadata : Type;
  ct_view : MetadataView MetadataError ct_metadata;
  ct_call : T -> forall M : Method, Request M -> CallOptions ->
    eff W (Result (CallResponse (Response M) ct_metadata) CallError);
  ct_call_server_stream : T -> forall M : Method, Request M -> CallOptions ->
    eff W (Result (ResponseStream W (Response M) ct_metadata) CallError);
  ct_call_client_stream : T -> forall M : Method, RequestStream (Request M) -> CallOptions ->
    eff W (Result (CallResponse (Response M) ct_metadata) CallError);
  ct_call_bidi_stream : T -> forall M : Method, RequestStream (Request M) -> CallOptions ->
    eff W (Result (ResponseStream W (Response M) ct_metadata) CallError);
  cr_metadata : Type;
  cr_view : MetadataView MetadataError cr_metadata;
  cr_call_raw : T -> string -> list byte -> CallOptions ->
    eff W (Result (CallResponse (list byte) cr_metadata) CallError);
  cr_call_raw_server_stream : T -> string -> list byte -> CallOptions ->
    eff W (Result (ResponseStream W (list byte) cr_metadata) CallError);
  cr_call_raw_client_stream : T -> string -> RequestStream (list byte) -> CallOptions ->
    eff W (Result (CallResponse (list byte) cr_metadata) CallError);
  cr_call_raw_bidi_stream : T -> string -> RequestStream (list byte) -> CallOptions ->
    eff W (Result (ResponseStream W (list byte) cr_metadata) CallError);
}.
Arguments ct_metadata {_ _ _}.
Arguments ct_view {_ _ _}.
Arguments ct_call {_ _ _}.
Arguments ct_call_server_stream {_ _ _}.
Arguments ct_call_client_stream {_ _ _}.
Arguments ct_call_bidi_stream {_ _ _}.
Arguments cr_metadata {_ _ _}.
Arguments cr_view {_ _ _}.
Arguments cr_call_raw {_ _ _}.
Arguments cr_call_raw_server_stream {_ _ _}.
Arguments cr_call_raw_client_stream {_ _ _}.
Arguments cr_call_raw_bidi_stream {_ _ _}.

Section endpoint.
Context `{Contract} {W T : Type} `{!LoadbalancerSvc W} (ct : ClientType W T).

(** [CallError]'s [Display]. *)
Context (call_error_to_string : CallError -> string).

Record EndpointTransport := endpoint_transport {
  clients : list (string * T);
  pool : option BackendPoolInstance;
}.

Record Pick := make_pick {
  pick_client : T;
  pick_backend : option Backend;
}.

Implicit Types (self : EndpointTransport).

Definition lb_strategy (s : BalancingStrategy) : Lb.Strategy :=
  match s with
  | RoundRobin => Lb.RoundRobin
  | Weighted => Lb.Weighted
  | LeastConnections => Lb.LeastConnections
  end.

Definition pool_config (settings : LoadbalancerSettings) : Lb.LoadbalancerConfig := {|
  Lb.strategy := lb_strategy (Loadbalancer.strategy settings);
  Lb.backends := (fun b => Lb.backend_config (Loadbalancer.url b) (Loadbalancer.weight b))
                 <$> Loadbalancer.backends settings;
|}.

Definition create_pool (settings : LoadbalancerSettings) :
    eff W (Result BackendPoolInstance GrpcChannelConfigError) :=
  let! pool := build_pool (pool_config settings) in
  ret (map_err (fun e => InvalidOptionValue "loadbalancer" (loadbalancer_error_to_string e)) pool).

Definition endpoint_try_from (clients : list (string * T)) (balancing : option LoadbalancerSettings) :
    eff W (Result EndpointTransport GrpcChannelConfigError) :=
  let!? pool :=
    match balancing with
    | Some settings => let!? pool := create_pool settings in ret (Ok (Some pool))
    | None => ret (Ok None)
    end in
  ret (Ok (endpoint_transport clients pool)).

Definition refuse (path : string) (code : StatusCode) (reason : string) : CallError :=
  Transport_ path code reason.

(** [clients.iter().find(|(url, _)| *url == wanted).map(|(_, client)| client)]. *)
Fixpoint find_client (wanted : string) (clients : list (string * T)) : option T :=
  match clients with
  | [] => None
  | (url, target) :: clients =>
      if decide (url = wanted) then Some target else find_client wanted clients
  end.

Definition pick self (path : string) : eff W (Result Pick CallError) :=
  match pool self with
  | None =>
      ret (ok_or ((fun entry => make_pick entry.2 None) <$> head (clients self))
             (refuse path Internal "the endpoint has no client"))
  | Some pool =>
      let! selected := select pool in
      match selected with
      | Err e => ret (Err (refuse path Unavailable (loadbalancer_error_to_string e)))
      | Ok backend =>
          ret (let? target := ok_or (find_client (backend_url backend) (clients self))
                                (refuse path Internal "the pool picked a backend that has no client") in
               Ok (make_pick target (Some backend)))
      end
  end.

Definition judge_outcome {R} (result : Result R CallError) : Outcome :=
  match result with
  | Err (Transport_ _ Unavailable _ as error)
  | Err (Transport_ _ StatusUnknown _ as error)
  | Err (Status _ DeadlineExceeded _ _ _ as error) => Lb.Failure (call_error_to_string error)
  | _ => Lb.Success
  end.

Definition report self {R} (pick : Pick) (result : Result R CallError) : eff W unit :=
  match pool self, pick_backend pick with
  | Some pool, Some backend => report_outcome pool (backend_id backend) (judge_outcome result)
  | _, _ => ret tt
  end.

(** [let pick = self.pick(path)?; let result = ..; self.report(&pick, &result); result]. *)
Definition through self {R} (path : string) (send : T -> eff W (Result R CallError)) :
    eff W (Result R CallError) :=
  let!? pick := pick self path in
  let! result := send (pick_client pick) in
  report self pick result ;;;
  ret result.

Definition endpoint_typed self : Transport W := {|
  t_metadata := ct_metadata ct;
  t_view := ct_view ct;
  call M message options := through self (PATH M) (fun c => ct_call ct c M message options);
  call_server_stream M message options :=
    through self (PATH M) (fun c => ct_call_server_stream ct c M message options);
  call_client_stream M requests options :=
    through self (PATH M) (fun c => ct_call_client_stream ct c M requests options);
  call_bidi_stream M requests options :=
    through self (PATH M) (fun c => ct_call_bidi_stream ct c M requests options);
|}.

Definition endpoint_raw self : RawTransport W := {|
  r_metadata := cr_metadata ct;
  r_view := cr_view ct;
  call_raw path message options :=
    through self path (fun c => cr_call_raw ct c path message options);
  call_raw_server_stream path message options :=
    through self path (fun c => cr_call_raw_server_stream ct c path message options);
  call_raw_client_stream path requests options :=
    through self path (fun c => cr_call_raw_client_stream ct c path requests options);
  call_raw_bidi_stream path requests options :=
    through self path (fun c => cr_call_raw_bidi_stream ct c path requests options);
|}.

Definition endpoint_client self : Client W := client (endpoint_typed self) (endpoint_raw self).
End endpoint.
Arguments EndpointTransport W T {_}.
Arguments endpoint_transport {_ _ _}.
Arguments clients {_ _ _}.
Arguments pool {_ _ _}.
Arguments make_pick {_ _ _}.
Arguments pick_client {_ _ _}.
Arguments pick_backend {_ _ _}.

(** ** What the load balancer promises *)

(** A pool picks only among the backends it was built from. *)
Class LoadbalancerLaws (W : Type) `{LoadbalancerSvc W} := {
  pool_urls : BackendPoolInstance -> list string;
  build_pool_urls config w pool w' :
    build_pool config w = (Ok pool, w') -> pool_urls pool = Lb.url <$> Lb.backends config;
  select_urls pool w backend w' :
    select pool w = (Ok backend, w') -> In (backend_url backend) (pool_urls pool);
}.

(** ** Lemmas *)

Section endpoint_lemmas.
Context `{Contract} {W T : Type} `{!LoadbalancerSvc W}.

Lemma find_client_in wanted (clients : list (string * T)) :
  In wanted (fst <$> clients) ->
  exists c, find_client wanted clients = Some c /\ In (wanted, c) clients.
Proof.
  induction clients as [|[u c] clients IH]; [done|]. cbn. intros [<-|Hin].
  - rewrite decide_True by done. eauto.
  - destruct (decide (u = wanted)) as [->|]; [eauto|]. destruct (IH Hin) as (c' & -> & ?). eauto.
Qed.

(** What [endpoint_try_from] gives. *)
Lemma endpoint_try_from_ok clients balancing w (self : EndpointTransport W T) w' :
  endpoint_try_from clients balancing w = (Ok self, w') ->
  match balancing with
  | None => self = endpoint_transport clients None /\ w' = w
  | Some settings =>
      exists p, self = endpoint_transport clients (Some p) /\
        build_pool (pool_config settings) w = (Ok p, w')
  end.
Proof.
  unfold endpoint_try_from, create_pool, bindr, bind, ret. destruct balancing as [settings|].
  - destruct (build_pool (pool_config settings) w) as [[p|e] w1]; cbn; [|done].
    intros [= <- <-]. eauto.
  - intros [= <- <-]. done.
Qed.

Lemma pool_config_urls settings :
  Lb.url <$> Lb.backends (pool_config settings) = Loadbalancer.url <$> Loadbalancer.backends settings.
Proof. unfold pool_config. cbn. rewrite <- list_fmap_compose. by apply list_fmap_ext. Qed.

(** Going through an endpoint, by what the pool picks. *)
Lemma through_pool call_error_to_string (self : EndpointTransport W T) p {R} path
    (send : T -> eff W (Result R CallError)) w :
  pool self = Some p ->
  through call_error_to_string self path send w =
  match select p w with
  | (Err e, w1) => (Err (refuse path Unavailable (loadbalancer_error_to_string e)), w1)
  | (Ok b, w1) =>
      match find_client (backend_url b) (clients self) with
      | None => (Err (refuse path Internal "the pool picked a backend that has no client"), w1)
      | Some c =>
          let '(r, w2) := send c w1 in
          (r, (report_outcome p (backend_id b) (judge_outcome call_error_to_string r) w2).2)
      end
  end.
Proof.
  intros Hp. unfold through, pick, report, bindr, bind, ret. rewrite Hp.
  destruct (select p w) as [[b|e] w1]; cbn; [|done].
  destruct (find_client (backend_url b) (clients self)) as [c|]; cbn; [|done].
  destruct (send c w1) as [r w2]. by destruct (report_outcome p (backend_id b) _ w2) as [[] w3].
Qed.
End endpoint_lemmas.

(** ** Properties *)

(** A failure a backend is blamed for: it cannot be reached, or did not answer in time. *)
Definition at_fault `{Contract} {R} (r : Result R CallError) : Prop :=
  match r with
  | Err (Transport_ _ code _) => code = Unavailable \/ code = StatusUnknown
  | Err (Status _ code _ _ _) => code = DeadlineExceeded
  | _ => False
  end.

(** C31: A call through an endpoint whose clients cover the backends goes to the client of the backend
    the pool picked, once, and the pool is told its outcome, once, after it: a failure with the text
    of the error exactly when the backend is at fault, a success otherwise; the result is returned as
    it is. When the pool has no backend the call fails with [Unavailable] and nothing is sent.
    Without a pool the first client takes the call and nothing is reported. The two [Internal]
    failures do not occur. *)
Theorem endpoint_reports_once `{HC : Contract} {W T} `{HL : !LoadbalancerSvc W, !LoadbalancerLaws W}
    call_error_to_string (clients : list (string * T)) balancing w0 self w0'
    (built : endpoint_try_from clients balancing w0 = (Ok self, w0'))
    (covers : match balancing with
              | Some settings =>
                  incl (Loadbalancer.url <$> Loadbalancer.backends settings) (fst <$> clients)
              | None => clients <> []
              end)
    {R} path (send : T -> eff W (Result R CallError)) w :
  match balancing with
  | None => exists c, head (snd <$> clients) = Some c /\
      through call_error_to_string self path send w = send c w
  | Some _ =>
      exists p, pool self = Some p /\
      match select p w with
      | (Err e, w1) =>
          through call_error_to_string self path send w
          = (Err (Transport_ path Unavailable (loadbalancer_error_to_string e)), w1)
      | (Ok b, w1) =>
          exists c outcome, In (backend_url b, c) clients /\
            through call_error_to_string self path send w
            = ((send c w1).1, (report_outcome p (backend_id b) outcome (send c w1).2).2) /\
            (forall reason, outcome = Lb.Failure reason <->
               at_fault (send c w1).1 /\
               exists e, (send c w1).1 = Err e /\ reason = call_error_to_string e)
      end
  end.
Proof.
  apply endpoint_try_from_ok in built. destruct balancing as [settings|].
  - destruct built as (p & -> & Hb). exists p. split; [done|].
    rewrite (through_pool _ _ p) by done. cbn.
    destruct (select p w) as [[b|e] w1] eqn:Es; [|done].
    apply select_urls in Es. apply build_pool_urls in Hb. rewrite Hb, pool_config_urls in Es.
    destruct (find_client_in _ _ (covers _ Es)) as (c & -> & Hin).
    exists c, (judge_outcome call_error_to_string (send c w1).1). split_and!; [done| |].
    + by destruct (send c w1).
    + intros reason. destruct (send c w1) as [[a|[path' [] ? ? ?|path' [] ?|?|?]] w2]; cbn; naive_solver.
  - destruct built as [-> ->]. destruct clients as [|[u c] clients]; [done|].
    exists c. split; [done|]. unfold through, pick, report, bindr, bind, ret. cbn.
    by destruct (send c w) as [r w2].
Qed.

(** A load balancer for the examples: backends in turn, none when there is none; the world is the
    turn and the reports. *)
#[local] Instance turn_lb : LoadbalancerSvc (nat * list (string * Outcome)) := {|
  BackendPoolInstance := list string;
  BackendId := string;
  Backend := string;
  backend_id := id;
  backend_url := id;
  LoadbalancerError := string;
  loadbalancer_error_to_string := id;
  build_pool config := ret (Ok (Lb.url <$> Lb.backends config));
  select p := fun '(turn, reports) =>
    (match p !! (turn mod length p)%nat with Some url => Ok url | None => Err "no backend"%string end,
     (S turn, reports));
  report_outcome p id outcome := fun '(turn, reports) => (tt, (turn, reports ++ [(id, outcome)]));
|}.

#[local] Instance turn_laws : LoadbalancerLaws (nat * list (string * Outcome)).
Proof.
  refine {| pool_urls p := p |}.
  - intros config w p w' [= <- <-]. done.
  - intros p [turn reports] b w'. cbn. destruct (lookup (turn mod length p)%nat (p : list string)) as [url|] eqn:E; [|done].
    intros [= <- <-]. apply list_elem_of_In. exact (list_elem_of_lookup_2 _ _ _ E).
Defined.

#[local] Existing Instance list_contract.

Definition two_backends : LoadbalancerSettings :=
  Loadbalancer.loadbalancer_settings RoundRobin
    [Loadbalancer.backend_target "http://a" 1; Loadbalancer.backend_target "http://b" 1].

Definition turn_pool : @BackendPoolInstance _ turn_lb := ["http://a"; "http://b"].

(** The client of the second backend cannot reach it. *)
Definition send_to (n : nat) : eff (nat * list (string * Outcome)) (Result nat CallError) :=
  ret (if Nat.eqb n 2 then Err (Transport_ "/s/M" Unavailable "refused") else Ok n).

Lemma endpoint_reports_once_witness :
  through (fun _ => "text") (endpoint_transport [("http://a", 1%nat); ("http://b", 2%nat)]
    (Some turn_pool)) "/s/M" send_to (1%nat, [])
  = (Err (Transport_ "/s/M" Unavailable "refused"), (2%nat, [("http://b", Lb.Failure "text")])).
Proof.
  destruct (endpoint_reports_once (fun _ => "text") [("http://a", 1%nat); ("http://b", 2%nat)]
    (Some two_backends) (0%nat, [])
    (endpoint_transport [("http://a", 1%nat); ("http://b", 2%nat)]
      (Some turn_pool)) (0%nat, []) eq_refl (fun _ H => H) "/s/M" send_to (1%nat, []))
    as (p & [= <-] & c & outcome & [[= <-]|[[= <-]|[]]] & E & Ho).
  assert (outcome = Lb.Failure "text") as ->.
  { apply Ho. split; [by left|]. eexists. split; reflexivity. }
  exact E.
Defined.
