(* ===== verification/EgressBuilder.v ===== *)
(** * The builder of a client

    [transport-spi/src/spi/client/protosvc/grpc_egress_builder.rs]: the options of a client, what
    makes them acceptable, and the client built from them: interceptors around one endpoint or
    several.  The engine that opens connections is the crate [proto_tonic_spi]'s (class [Engine]). *)

From S2P Require Import Prelude Text Contract Interceptors Intercepted Channel Endpoint.
From Stdlib Require Import NArith Lia Strings.Byte.
From stdpp Require Import base tactics strings option list.

(** ** The engine *)

(** The factory of [proto_tonic_spi], by the options the builder gives it, and [http::Uri]'s parser. *)
Class Engine `{TransportOptions} (W T : Type) := {
  Factory : Type;
  EngineError : Type;
  engine_error_to_string : EngineError -> string;
  tonic_dual_builder : Factory;
  with_endpoint : Factory -> string -> Factory;
  with_timeout : Factory -> Duration -> Factory;
  with_max_decoding_message_size : Factory -> N -> Factory;
  with_max_encoding_message_size : Factory -> N -> Factory;
  with_tls : Factory -> TlsSettings -> Factory;
  with_send_compression : Factory -> Compression -> Factory;
  with_accept_compression : Factory -> Compression -> Factory;
  with_http2_keep_alive_interval : Factory -> Duration -> Factory;
  with_keep_alive_timeout : Factory -> Duration -> Factory;
  with_keep_alive_while_idle : Factory -> bool -> Factory;
  engine_build : Factory -> eff W (Result T EngineError);
  uri_parses : string -> bool;
}.

(** ** The options *)

Section builder.
Context `{Contract} `{TransportOptions} {W : Type}.

Inductive TlsSource :=
| Settings (settings : TlsSettings)
| Files (mtls : MtlsConfig).

Record GrpcEgressBuilderImpl := egress_builder {
  endpoint : string;
  endpoint_explicit : bool;
  plaintext_allowed : bool;
  request_timeout : Duration;
  max_decoding_message_size : option N;
  max_encoding_message_size : option N;
  send_compression : option Compression;
  accept_compression : list Compression;
  interceptors : list (GrpcEgressInterceptor W);
  tls : option TlsSource;
  keep_alive : option KeepAliveConfig;
  loadbalancer : option LoadbalancerSettings;
}.
Implicit Types (self : GrpcEgressBuilderImpl).

Definition builder_from (endpoint : string) : GrpcEgressBuilderImpl :=
  egress_builder endpoint false false (from_secs DEFAULT_REQUEST_TIMEOUT_SECS) None None None [] []
    None None None.

(** The compression a file configuration names. *)
Definition read_compression (mode : CompressionMode) : option Compression :=
  match mode with
  | NoCompression => None
  | GzipMode => Some Gzip
  | ZstdMode => Some Zstd
  end.

(** One fluent call. *)
Inductive egress_option :=
| WithEndpoint (endpoint : string)
| WithPlaintextAllowed
| WithRequestTimeout (timeout : Duration)
| WithMaxDecodingMessageSize (bytes : N)
| WithMaxEncodingMessageSize (bytes : N)
| WithSendCompression (compression : Compression)
| WithAcceptCompression (compression : Compression)
| WithTls (tls : TlsSettings)
| WithKeepAlive (keep_alive : KeepAliveConfig)
| WithLoadbalancer (settings : LoadbalancerSettings)
| WithInterceptor (interceptor : GrpcEgressInterceptor W)
| WithTraceContext (source : TraceContextSource)
| WithChannelConfig (config : GrpcChannelConfig).

Definition with_channel_config self (config : GrpcChannelConfig) : GrpcEgressBuilderImpl :=
  let request_timeout :=
    match ChannelConfig.request_timeout_secs config with
    | Some secs => from_secs secs
    | None => request_timeout self
    end in
  let '(send_compression, accept_compression) :=
    match read_compression (ChannelConfig.compression config) with
    | Some compression => (Some compression, [compression])
    | None => (send_compression self, accept_compression self)
    end in
  egress_builder (ChannelConfig.endpoint config)
    (endpoint_explicit self || negb (Text.is_empty (ChannelConfig.endpoint config)))
    (negb (ChannelConfig.tls_required config))
    request_timeout
    (Some (ChannelConfig.max_message_bytes config))
    (Some (ChannelConfig.max_message_bytes config))
    send_compression accept_compression
    (interceptors self)
    (match ChannelConfig.mtls config with Some mtls => Some (Files mtls) | None => tls self end)
    (match ChannelConfig.keep_alive config with Some k => Some k | None => keep_alive self end)
    (loadbalancer self).

Definition with_option self (o : egress_option) : GrpcEgressBuilderImpl :=
  let '(egress_builder e x p r d n s a i t k l) := self in
  match o with
  | WithEndpoint endpoint => egress_builder endpoint true p r d n s a i t k l
  | WithPlaintextAllowed => egress_builder e x true r d n s a i t k l
  | WithRequestTimeout timeout => egress_builder e x p timeout d n s a i t k l
  | WithMaxDecodingMessageSize bytes => egress_builder e x p r (Some bytes) n s a i t k l
  | WithMaxEncodingMessageSize bytes => egress_builder e x p r d (Some bytes) s a i t k l
  | WithSendCompression c => egress_builder e x p r d n (Some c) a i t k l
  | WithAcceptCompression c => egress_builder e x p r d n s (a ++ [c]) i t k l
  | WithTls tls => egress_builder e x p r d n s a i (Some (Settings tls)) k l
  | WithKeepAlive keep_alive => egress_builder e x p r d n s a i t (Some keep_alive) l
  | WithLoadbalancer settings => egress_builder e x p r d n s a i t k (Some settings)
  | WithInterceptor interceptor => egress_builder e x p r d n s a (i ++ [interceptor]) t k l
  | WithTraceContext source =>
      egress_builder e x p r d n s a (i ++ [interceptor_build (interceptor_factory source)]) t k l
  | WithChannelConfig config => with_channel_config self config
  end.

(** ** The checks *)

Definition presents_identity self : bool :=
  match tls self with
  | Some (Settings settings) => bool_decide (is_Some (get_identity settings))
  | Some (Files _) => true
  | None => false
  end.

(** The loop over the two message limits. *)
Fixpoint check_limits (limits : list (string * option N)) : Result unit GrpcChannelConfigError :=
  match limits with
  | [] => Ok tt
  | (name, value) :: limits =>
      if bool_decide (value = Some 0%N)
      then Err (InvalidOptionValue name
                  "zero would refuse every message; use a positive number of bytes")
      else check_limits limits
  end.

Definition check_values self : Result unit GrpcChannelConfigError :=
  let? _ := check_limits [("max_decoding_message_size", max_decoding_message_size self);
                          ("max_encoding_message_size", max_encoding_message_size self)] in
  if (request_timeout self =? 0)%N
  then Err (InvalidOptionValue "request_timeout"
              "zero would end every call at once; use a positive duration")
  else if presents_identity self && plaintext_allowed self
  then Err (ConflictingOptions "mtls" "plaintext_allowed"
              "mutual TLS needs TLS, and plaintext_allowed lets the client fall back to plaintext")
  else if bool_decide (is_Some (loadbalancer self)) && endpoint_explicit self
  then Err (ConflictingOptions "endpoint" "loadbalancer"
              "the backends of the load balancer carry the URLs; drop the endpoint")
  else Ok tt.

(** [endpoint.len() >= 7 && endpoint[..7].eq_ignore_ascii_case("http://")]. *)
Definition is_plaintext_endpoint (endpoint : string) : option bool :=
  if Nat.leb 7 (str_len endpoint)
  then (fun head => eq_ignore_ascii_case head "http://") <$> slice_to endpoint 7
  else Some false.

(** [iter().find(is_plaintext)] and [iter().all(is_plaintext)], which stop at the first that decides. *)
Fixpoint find_plaintext (targets : list string) : option (option string) :=
  match targets with
  | [] => Some None
  | url :: targets =>
      match is_plaintext_endpoint url with
      | None => None
      | Some true => Some (Some url)
      | Some false => find_plaintext targets
      end
  end.

Fixpoint all_plaintext (targets : list string) : option bool :=
  match targets with
  | [] => Some true
  | url :: targets =>
      match is_plaintext_endpoint url with
      | None => None
      | Some false => Some false
      | Some true => all_plaintext targets
      end
  end.

Definition name_tls_option self : option string :=
  match tls self with
  | Some (Settings _) => Some "tls"
  | Some (Files _) => Some "mtls"
  | None => None
  end.

(** ** Building *)

Section build.
Context {T : Type} `{!Engine W T} `{!LoadbalancerSvc W} (ct : ClientType W T).
Context (fs_read : string -> eff W (Result (list byte) string)).
Context (call_error_to_string : CallError -> string).

(** The URLs of the backends, each of which must parse. *)
Fixpoint backend_urls (backends : list BackendTarget) : Result (list string) GrpcChannelConfigError :=
  match backends with
  | [] => Ok []
  | backend :: backends =>
      if negb (uri_parses (Loadbalancer.url backend))
      then Err (InvalidOptionValue "loadbalancer"
                  ("backend '" +:+ Loadbalancer.url backend +:+ "' is not a valid URL"))
      else
        let? urls := backend_urls backends in
        Ok (Loadbalancer.url backend :: urls)
  end.

Definition list_targets self : Result (list string) GrpcChannelConfigError :=
  match loadbalancer self with
  | None => Ok [endpoint self]
  | Some settings =>
      if is_nil (Loadbalancer.backends settings)
      then Err (InvalidOptionValue "loadbalancer" "no backends; give at least one")
      else backend_urls (Loadbalancer.backends settings)
  end.

Definition resolve_tls self : eff W (Result TlsSettings GrpcChannelConfigError) :=
  match tls self with
  | Some (Settings settings) => ret (Ok settings)
  | Some (Files mtls) => Tls.resolve fs_read (Some mtls) (Mtls.ca_pem_path mtls)
  | None => ret (Ok (tls_create None [] None))
  end.

(** [if let Some(a) = o { f = set(f, a) }]. *)
Definition when {A} (o : option A) (set : Factory -> A -> Factory) (f : Factory) : Factory :=
  match o with Some a => set f a | None => f end.

(** The factory for [url], before [build]; [plaintext] says whether the URL is. *)
Definition factory_for self (url : string) (tls : TlsSettings) (plaintext : bool) : Factory :=
  let factory := with_timeout (with_endpoint tonic_dual_builder url) (request_timeout self) in
  let factory := when (max_decoding_message_size self) with_max_decoding_message_size factory in
  let factory := when (max_encoding_message_size self) with_max_encoding_message_size factory in
  let factory := if plaintext then factory else with_tls factory tls in
  let factory := when (send_compression self) with_send_compression factory in
  let factory := fold_left with_accept_compression (accept_compression self) factory in
  match keep_alive self with
  | Some k =>
      with_keep_alive_while_idle
        (with_keep_alive_timeout
           (with_http2_keep_alive_interval factory (KeepAlive.interval k)) (KeepAlive.timeout k))
        (KeepAlive.permit_without_calls k)
  | None => factory
  end.

Definition create_client self (url : string) (tls : TlsSettings) :
    may_panic W T GrpcChannelConfigError :=
  match is_plaintext_endpoint url with
  | None => ret None
  | Some plaintext =>
      no_panic (let! built := engine_build (factory_for self url tls plaintext) in
                ret (map_err (fun e => InvalidOptionValue "endpoint" (engine_error_to_string e)) built))
  end.

Fixpoint create_clients self (targets : list string) (tls : TlsSettings) :
    may_panic W (list (string * T)) GrpcChannelConfigError :=
  match targets with
  | [] => pure_result (Ok [])
  | url :: targets =>
      let* made := create_client self url tls in
      let* rest := create_clients self targets tls in
      pure_result (Ok ((url, made) :: rest))
  end.

(** The refusal of a plaintext target, when plaintext is not allowed. *)
Definition reject_plaintext self (targets : list string) : may_panic W unit GrpcChannelConfigError :=
  if negb (plaintext_allowed self) then
    match find_plaintext targets with
    | None => ret None
    | Some (Some url) => pure_result (Err (PlaintextRejected url))
    | Some None => pure_result (Ok tt)
    end
  else pure_result (Ok tt).

(** The refusal of a TLS option that no target would use. *)
Definition reject_tls_option self (targets : list string) : may_panic W unit GrpcChannelConfigError :=
  match name_tls_option self with
  | None => pure_result (Ok tt)
  | Some name =>
      match all_plaintext targets with
      | None => ret None
      | Some true =>
          pure_result (Err (TlsOptionOnPlaintextEndpoint name (default "" (head targets))))
      | Some false => pure_result (Ok tt)
      end
  end.

(** What is built: the endpoint and the chain around it. *)
Definition build_parts self :
    may_panic W (EndpointTransport W T * StdGrpcEgressInterceptorChain (W := W))
      GrpcChannelConfigError :=
  let* _ := pure_result (check_values self) in
  let* targets := pure_result (list_targets self) in
  let* _ := reject_plaintext self targets in
  let* _ := reject_tls_option self targets in
  let* tls := no_panic (resolve_tls self) in
  let* clients := create_clients self targets tls in
  let* endpoint := no_panic (endpoint_try_from clients (loadbalancer self)) in
  pure_result (Ok (endpoint, fold_left push (interceptors self) chain_build)).

Definition client_of (parts : EndpointTransport W T * StdGrpcEgressInterceptorChain (W := W)) : Client W :=
  intercepted_client (intercepted (endpoint_client ct call_error_to_string parts.1) parts.2).

Definition build self : may_panic W (Client W) GrpcChannelConfigError :=
  let* parts := build_parts self in
  pure_result (Ok (client_of parts)).
End build.
End builder.

(** ** What the options mean *)

(** The URL starts with [http://], in any case. *)
Definition plaintext (url : string) : bool := String.prefix "http://" (to_ascii_lowercase url).

(** Byte 7 of the URL is inside a character. *)
Definition cuts_character (url : string) : bool :=
  Nat.leb 7 (str_len url) && negb (is_char_boundary url 7).

Lemma str_len_lowercase s : str_len (to_ascii_lowercase s) = str_len s.
Proof. unfold str_len. induction s as [|c s IH]; cbn; congruence. Qed.

Lemma substring_lowercase n s :
  String.substring 0 n (to_ascii_lowercase s) = to_ascii_lowercase (String.substring 0 n s).
Proof. revert s. induction n as [|n IH]; intros [|c s]; cbn; [done..|]. by rewrite IH. Qed.

Lemma plaintext_endpoint_spec url :
  is_plaintext_endpoint url = if cuts_character url then None else Some (plaintext url).
Proof.
  unfold is_plaintext_endpoint, cuts_character, slice_to, plaintext.
  destruct (Nat.leb_spec 7 (str_len url)) as [Hl|Hl]; cbn [andb].
  - destruct (is_char_boundary url 7); cbn [negb fmap option_fmap option_map]; [|done]. f_equal.
    apply eq_true_iff_eq. rewrite String.prefix_correct. unfold eq_ignore_ascii_case.
    rewrite String.eqb_eq, substring_lowercase. cbn [String.length]. naive_solver.
  - f_equal. symmetry. apply not_true_is_false. intros Hp.
    apply prefix_spec in Hp as [post Hp]. apply (f_equal str_len) in Hp.
    rewrite str_len_lowercase, str_len_app in Hp. cbn in Hp. lia.
Qed.

Lemma find_plaintext_none targets :
  find_plaintext targets = Some None -> Forall (fun url => plaintext url = false) targets.
Proof.
  induction targets as [|url targets IH]; cbn; [constructor|]. rewrite plaintext_endpoint_spec.
  destruct (cuts_character url), (plaintext url) eqn:E; try done. auto.
Qed.

Lemma find_plaintext_first targets :
  forallb (fun url => negb (cuts_character url)) targets = true ->
  find_plaintext targets = Some (List.find plaintext targets).
Proof.
  induction targets as [|url targets IH]; cbn; [done|]. rewrite plaintext_endpoint_spec.
  destruct (cuts_character url), (plaintext url) eqn:E; try done.
Qed.

Lemma all_plaintext_safe targets :
  forallb (fun url => negb (cuts_character url)) targets = true ->
  all_plaintext targets = Some (forallb plaintext targets).
Proof.
  induction targets as [|url targets IH]; cbn; [done|]. rewrite plaintext_endpoint_spec.
  destruct (cuts_character url), (plaintext url) eqn:E; try done.
Qed.

Lemma all_plaintext_false targets :
  all_plaintext targets = Some false -> Exists (fun url => plaintext url = false) targets.
Proof.
  induction targets as [|url targets IH]; cbn; [done|]. rewrite plaintext_endpoint_spec.
  destruct (cuts_character url), (plaintext url) eqn:E; try done;
    intros; apply Exists_cons; auto.
Qed.

Lemma fold_push `{Contract} {W} (l acc : list (GrpcEgressInterceptor W)) :
  fold_left push l acc = acc ++ l.
Proof.
  revert acc. induction l as [|i l IH]; intros acc; cbn; [by rewrite app_nil_r|]. by rewrite IH, <- app_assoc.
Qed.

Section builder_lemmas.
Context `{HC : Contract} `{HT : TransportOptions} {W T : Type} `{!Engine W T} `{!LoadbalancerSvc W}.
Implicit Types (self : GrpcEgressBuilderImpl (W := W)).

(** The URLs the options name. *)
Definition targets_of self : list string :=
  match loadbalancer self with
  | None => [endpoint self]
  | Some settings => Loadbalancer.url <$> Loadbalancer.backends settings
  end.

Lemma check_values_ok self :
  check_values self = Ok tt <->
  max_decoding_message_size self <> Some 0%N /\ max_encoding_message_size self <> Some 0%N /\
  request_timeout self <> 0%N /\
  (presents_identity self = true -> plaintext_allowed self = false) /\
  (is_Some (loadbalancer self) -> endpoint_explicit self = false).
Proof.
  unfold check_values. cbn [check_limits]. do 2 (case_bool_decide; [naive_solver|]). cbn [rbind].
  destruct (N.eqb_spec (request_timeout self) 0); [naive_solver|].
  destruct (presents_identity self), (plaintext_allowed self); cbn [andb]; [naive_solver|..];
    case_bool_decide; destruct (endpoint_explicit self); cbn [andb]; naive_solver.
Qed.

Lemma backend_urls_ok backends urls :
  backend_urls backends = Ok urls -> urls = Loadbalancer.url <$> backends.
Proof.
  revert urls. induction backends as [|b backends IH]; intros urls; cbn; [by intros [= <-]|].
  destruct (uri_parses _); cbn; [|done]. destruct (backend_urls backends) as [us|]; [|done].
  cbn. intros [= <-]. by rewrite (IH us).
Qed.

Lemma list_targets_ok self urls :
  list_targets self = Ok urls -> urls = targets_of self /\ urls <> [].
Proof.
  unfold list_targets, targets_of. destruct (loadbalancer self) as [settings|]; [|by intros [= <-]].
  destruct (Loadbalancer.backends settings) as [|b bs] eqn:E; cbn [is_nil]; [done|].
  intros Hu. apply backend_urls_ok in Hu as ->. done.
Qed.

Lemma create_clients_ok self targets tls w clients w' :
  create_clients self targets tls w = (Some (Ok clients), w') ->
  fst <$> clients = targets /\
  Forall (fun entry => exists w1 w2,
    engine_build (factory_for self entry.1 tls (plaintext entry.1)) w1 = (Ok entry.2, w2)) clients.
Proof.
  revert w clients. induction targets as [|url targets IH]; intros w clients; cbn.
  { intros [= <- <-]. by split. }
  intros (made & w1 & Hm & (rest & w2 & Hr & [= <- <-])%bindp_inv)%bindp_inv.
  destruct (IH _ _ Hr) as [<- HF]. split; [done|]. constructor; [|done]. cbn.
  unfold create_client in Hm. rewrite plaintext_endpoint_spec in Hm.
  destruct (cuts_character url); [done|]. unfold no_panic, bind, ret in Hm.
  destruct (engine_build _ w) as [[t|e] w3] eqn:Eb; cbn in Hm; simplify_eq. eauto.
Qed.

(** Creating the clients panics only on a URL that is cut inside a character. *)
Lemma create_clients_safe self targets tls w :
  forallb (fun url => negb (cuts_character url)) targets = true ->
  (create_clients self targets tls w).1 <> None.
Proof.
  revert w. induction targets as [|url targets IH]; intros w; [done|]. cbn.
  intros [Hu Ht]%andb_prop. unfold bindp, bind at 1, create_client.
  rewrite plaintext_endpoint_spec. destruct (cuts_character url); [done|].
  unfold no_panic, bind, ret. destruct (engine_build _ w) as [[t|e] w1]; cbn; [|done].
  specialize (IH w1 Ht). destruct (create_clients self targets tls w1) as [[[cs|e]|] w2]; done.
Qed.
End builder_lemmas.

(** No panic of the builder is any but that of a cut character. *)
Lemma build_parts_total `{HC : Contract} `{HT : TransportOptions} {W T} `{!Engine W T}
    `{!LoadbalancerSvc W} fs_read (self : GrpcEgressBuilderImpl (W := W)) w :
  forallb (fun url => negb (cuts_character url)) (targets_of self) = true ->
  (build_parts fs_read self w).1 <> None.
Proof.
  intros Hs. unfold build_parts, bindp at 1 2, bind at 1 2, pure_result, ret at 1 2.
  destruct (check_values self) as [[]|e]; [|done].
  destruct (list_targets self) as [ts|e] eqn:Et; [|done]. destruct (list_targets_ok _ _ Et) as [-> _].
  assert (exists r, reject_plaintext self (targets_of self) w = (Some r, w)) as [r1 E1].
  { unfold reject_plaintext, pure_result, ret. rewrite find_plaintext_first by done.
    repeat case_match; eauto. }
  assert (exists r, reject_tls_option self (targets_of self) w = (Some r, w)) as [r2 E2].
  { unfold reject_tls_option, pure_result, ret. rewrite all_plaintext_safe by done.
    repeat case_match; eauto. }
  unfold bindp at 1, bind at 1. rewrite E1. destruct r1 as [[]|]; [|done].
  unfold bindp at 1, bind at 1. rewrite E2. destruct r2 as [[]|]; [|done].
  unfold bindp at 1, bind at 1, no_panic, bind at 1. destruct (resolve_tls fs_read self w) as [[tls|e] w1]; [|done].
  cbn. pose proof (create_clients_safe self (targets_of self) tls w1 Hs) as Hc.
  unfold bindp at 1, bind at 1.
  destruct (create_clients self (targets_of self) tls w1) as [[[cs|e]|] w2]; [|done..].
  unfold bindp, bind, ret. by destruct (endpoint_try_from cs _ w2) as [[ep|e] w3].
Qed.

(** The steps of a build that succeeded. *)
Lemma build_parts_ok `{HC : Contract} `{HT : TransportOptions} {W T} `{!Engine W T}
    `{!LoadbalancerSvc W} fs_read (self : GrpcEgressBuilderImpl (W := W)) w parts w' :
  build_parts fs_read self w = (Some (Ok parts), w') ->
  exists tls clients wc we,
    check_values self = Ok tt /\ list_targets self = Ok (targets_of self) /\
    reject_plaintext self (targets_of self) w = (Some (Ok tt), w) /\
    reject_tls_option self (targets_of self) w = (Some (Ok tt), w) /\
    resolve_tls fs_read self w = (Ok tls, wc) /\
    create_clients self (targets_of self) tls wc = (Some (Ok clients), we) /\
    endpoint_try_from clients (loadbalancer self) we = (Ok parts.1, w') /\
    parts.2 = interceptors self.
Proof.
  unfold build_parts.
  intros ([] & w1 & [= Hc <-] & (targets & w2 & [= Ht <-] & ([] & w3 & Hp & ([] & w4 & Hn &
    (tls & w5 & Htls & (clients & w6 & Hcs & (ep & w7 & He & [= <- <-])%bindp_inv)%bindp_inv)%bindp_inv
    )%bindp_inv)%bindp_inv)%bindp_inv)%bindp_inv.
  destruct (list_targets_ok _ _ Ht) as [-> _].
  assert (w3 = w) as ->.
  { unfold reject_plaintext, pure_result, ret in Hp. repeat case_match; by simplify_eq. }
  assert (w4 = w) as ->.
  { unfold reject_tls_option, pure_result, ret in Hn. repeat case_match; by simplify_eq. }
  exists tls, clients, w5, w6. unfold no_panic, bind, ret in He, Htls.
  destruct (resolve_tls fs_read self w) as [rt wt]. simplify_eq.
  destruct (endpoint_try_from clients _ w6) as [r w8]. simplify_eq.
  split_and!; try done. exact (fold_push _ []).
Qed.

Lemma reject_plaintext_ok `{HC : Contract} `{HT : TransportOptions} {W}
    (self : GrpcEgressBuilderImpl (W := W)) targets w w' :
  reject_plaintext self targets w = (Some (Ok tt), w') ->
  plaintext_allowed self = false -> Forall (fun url => plaintext url = false) targets.
Proof.
  unfold reject_plaintext, pure_result, ret. intros H Hp. rewrite Hp in H. cbn in H.
  destruct (find_plaintext targets) as [[]|] eqn:E; [done| |done]. by apply find_plaintext_none.
Qed.

Lemma reject_tls_option_ok `{HC : Contract} `{HT : TransportOptions} {W}
    (self : GrpcEgressBuilderImpl (W := W)) targets w w' :
  reject_tls_option self targets w = (Some (Ok tt), w') -> is_Some (name_tls_option self) ->
  Exists (fun url => plaintext url = false) targets.
Proof.
  unfold reject_tls_option, pure_result, ret. intros H [name Hn]. rewrite Hn in H.
  destruct (all_plaintext targets) as [[]|] eqn:E; [done| |done]. by apply all_plaintext_false.
Qed.

(** ** What a factory is told

    A call of the factory's, so that what is set on it can be read off a list. *)
Inductive factory_call `{TransportOptions} :=
| Timeout (d : Duration)
| MaxDecoding (bytes : N)
| MaxEncoding (bytes : N)
| UseTls (settings : TlsSettings)
| SendCompression (c : Compression)
| AcceptCompression (c : Compression)
| KeepAliveInterval (d : Duration)
| KeepAliveTimeout (d : Duration)
| KeepAliveWhileIdle (b : bool).

Section factory_calls.
Context `{HC : Contract} `{HT : TransportOptions} {W T : Type} `{!Engine W T}.
Implicit Types (self : GrpcEgressBuilderImpl (W := W)).

Definition apply_call (f : Factory) (c : factory_call) : Factory :=
  match c with
  | Timeout d => with_timeout f d
  | MaxDecoding bytes => with_max_decoding_message_size f bytes
  | MaxEncoding bytes => with_max_encoding_message_size f bytes
  | UseTls settings => with_tls f settings
  | SendCompression c => with_send_compression f c
  | AcceptCompression c => with_accept_compression f c
  | KeepAliveInterval d => with_http2_keep_alive_interval f d
  | KeepAliveTimeout d => with_keep_alive_timeout f d
  | KeepAliveWhileIdle b => with_keep_alive_while_idle f b
  end.

(** The encodings accepted, in order. *)
Definition accepted (c : factory_call) : option Compression :=
  match c with AcceptCompression c => Some c | _ => None end.

(** [calls] set exactly what the options ask for on the factory of [url]: TLS with [tls] unless the URL
    is plaintext, the timeout, and each option that is given. *)
Record settles self (url : string) (tls : TlsSettings) (calls : list factory_call) : Prop := {
  settles_tls : forall s, UseTls s ∈ calls <-> plaintext url = false /\ s = tls;
  settles_timeout : forall d, Timeout d ∈ calls <-> d = request_timeout self;
  settles_decoding : forall n, MaxDecoding n ∈ calls <-> max_decoding_message_size self = Some n;
  settles_encoding : forall n, MaxEncoding n ∈ calls <-> max_encoding_message_size self = Some n;
  settles_send : forall c, SendCompression c ∈ calls <-> send_compression self = Some c;
  settles_accept : omap accepted calls = accept_compression self;
  settles_interval : forall d, KeepAliveInterval d ∈ calls <->
    KeepAlive.interval <$> keep_alive self = Some d;
  settles_alive_timeout : forall d, KeepAliveTimeout d ∈ calls <->
    KeepAlive.timeout <$> keep_alive self = Some d;
  settles_idle : forall b, KeepAliveWhileIdle b ∈ calls <->
    KeepAlive.permit_without_calls <$> keep_alive self = Some b;
}.

(** The calls [create_client] makes, in order. *)
Definition calls_for self (url : string) (tls : TlsSettings) : list factory_call :=
  [Timeout (request_timeout self)] ++
  option_list (MaxDecoding <$> max_decoding_message_size self) ++
  option_list (MaxEncoding <$> max_encoding_message_size self) ++
  (if plaintext url then [] else [UseTls tls]) ++
  option_list (SendCompression <$> send_compression self) ++
  (AcceptCompression <$> accept_compression self) ++
  match keep_alive self with
  | Some k => [KeepAliveInterval (KeepAlive.interval k); KeepAliveTimeout (KeepAlive.timeout k);
               KeepAliveWhileIdle (KeepAlive.permit_without_calls k)]
  | None => []
  end.

Lemma factory_for_calls self url tls :
  factory_for self url tls (plaintext url)
  = fold_left apply_call (calls_for self url tls) (with_endpoint tonic_dual_builder url).
Proof.
  assert (forall l f, fold_left apply_call (AcceptCompression <$> l) f
                      = fold_left with_accept_compression l f) as Hacc.
  { intros l. induction l as [|c l IH]; intros f; [done|]. apply IH. }
  unfold factory_for, calls_for. rewrite !fold_left_app, Hacc.
  destruct (max_decoding_message_size self), (max_encoding_message_size self), (plaintext url),
    (send_compression self), (keep_alive self); reflexivity.
Qed.

Lemma calls_for_settle self url tls : settles self url tls (calls_for self url tls).
Proof.
  unfold calls_for. split.
  6:{ rewrite !omap_app.
      assert (forall l, omap accepted (AcceptCompression <$> l) = l) as ->.
      { intros l. induction l as [|c l IH]; [done|]. cbn. by f_equal. }
      destruct (max_decoding_message_size self), (max_encoding_message_size self), (plaintext url),
        (send_compression self), (keep_alive self); cbn; by rewrite ?app_nil_r. }
  all: intros x; rewrite !elem_of_app, list_elem_of_fmap;
    destruct (max_decoding_message_size self), (max_encoding_message_size self), (plaintext url),
      (send_compression self), (keep_alive self); cbn;
    rewrite ?elem_of_cons, ?elem_of_nil; naive_solver.
Qed.
End factory_calls.

(** ** An engine for the examples: a client is the list of the options it was made with. *)

#[local] Existing Instance list_contract.
#[local] Existing Instance turn_lb.

#[local] Instance no_tls_files : TransportOptions := {|
  TlsSettings := option unit;
  TlsIdentity := unit;
  tls_create _ _ identity := identity;
  identity_create _ _ := tt;
  get_identity := id;
  Compression := bool;
  Gzip := true;
  Zstd := false;
|}.

#[local] Instance tag_engine : Engine (nat * list (string * Outcome)) (list string) := {|
  Factory := list string;
  EngineError := string;
  engine_error_to_string := id;
  tonic_dual_builder := [];
  with_endpoint f url := f ++ [url];
  with_timeout f _ := f ++ ["timeout"];
  with_max_decoding_message_size f _ := f ++ ["max_decoding"];
  with_max_encoding_message_size f _ := f ++ ["max_encoding"];
  with_tls f _ := f ++ ["tls"];
  with_send_compression f _ := f ++ ["send"];
  with_accept_compression f _ := f ++ ["accept"];
  with_http2_keep_alive_interval f _ := f ++ ["interval"];
  with_keep_alive_timeout f _ := f ++ ["keep_alive"];
  with_keep_alive_while_idle f _ := f ++ ["idle"];
  engine_build f := ret (Ok f);
  uri_parses _ := true;
|}.

Definition tag_clients : ClientType (nat * list (string * Outcome)) (list string) := {|
  ct_metadata := ListContract.md;
  ct_view := list_view;
  ct_call _ _ _ _ := ret (Err (Transport_ "" Unimplemented ""));
  ct_call_server_stream _ _ _ _ := ret (Err (Transport_ "" Unimplemented ""));
  ct_call_client_stream _ _ _ _ := ret (Err (Transport_ "" Unimplemented ""));
  ct_call_bidi_stream _ _ _ _ := ret (Err (Transport_ "" Unimplemented ""));
  cr_metadata := ListContract.md;
  cr_view := list_view;
  cr_call_raw _ _ _ _ := ret (Err (Transport_ "" Unimplemented ""));
  cr_call_raw_server_stream _ _ _ _ := ret (Err (Transport_ "" Unimplemented ""));
  cr_call_raw_client_stream _ _ _ _ := ret (Err (Transport_ "" Unimplemented ""));
  cr_call_raw_bidi_stream _ _ _ _ := ret (Err (Transport_ "" Unimplemented ""));
|}.

Definition no_files (path : string) :
    eff (nat * list (string * Outcome)) (Result (list byte) string) := ret (Err "missing"%string).

(** The factory's endpoint, plaintext allowed. *)
Definition plain_builder : GrpcEgressBuilderImpl (W := nat * list (string * Outcome)) :=
  with_option (builder_from "HTTP://h") WithPlaintextAllowed.

(** Two backends of which the second is plaintext. *)
Definition mixed_builder : GrpcEgressBuilderImpl (W := nat * list (string * Outcome)) :=
  with_option (builder_from "https://unused") (WithLoadbalancer
    (Loadbalancer.loadbalancer_settings RoundRobin
       [Loadbalancer.backend_target "https://a" 1; Loadbalancer.backend_target "http://b" 1])).

(** ** Properties *)

(** C29: A client that is built has usable limits and timeout, never an identity together with allowed
    plaintext nor a balancer together with an explicit endpoint; it runs the registered interceptors,
    in order, around one client per named URL. Each is built by the engine from that URL and the calls
    that settle these options and no others: the timeout, the limits, compressions and keep-alive
    that are given, and TLS exactly for the URLs that are not [http://], with the settings given,
    those read from the files named, or the system's. A plaintext URL is there only if plaintext was
    allowed, never when the client presents an identity; and a TLS option is used by some URL. *)
Theorem build_accepts `{HC : Contract} `{HT : TransportOptions} {W T}
    `{HE : !Engine W T} `{HL : !LoadbalancerSvc W} (ct : ClientType W T) fs_read call_error_to_string
    (self : GrpcEgressBuilderImpl (W := W)) w built w'
    (ok : build ct fs_read call_error_to_string self w = (Some (Ok built), w')) :
  (max_decoding_message_size self <> Some 0%N /\ max_encoding_message_size self <> Some 0%N /\
   request_timeout self <> 0%N /\ (is_Some (loadbalancer self) -> endpoint_explicit self = false)) /\
  exists parts used wt,
    built = client_of ct call_error_to_string parts /\ parts.2 = interceptors self /\
    fst <$> clients parts.1 = targets_of self /\ targets_of self <> [] /\
    (pool parts.1 = None <-> loadbalancer self = None) /\
    match tls self with
    | Some (Settings settings) => used = settings
    | Some (Files mtls) => Tls.resolve fs_read (Some mtls) (Mtls.ca_pem_path mtls) w = (Ok used, wt)
    | None => used = tls_create None [] None
    end /\
    Forall (fun entry =>
      (plaintext entry.1 = true ->
         plaintext_allowed self = true /\ presents_identity self = false) /\
      exists calls w1 w2, settles self entry.1 used calls /\
        engine_build (fold_left apply_call calls (with_endpoint tonic_dual_builder entry.1)) w1
        = (Ok entry.2, w2)) (clients parts.1) /\
    (is_Some (name_tls_option self) -> Exists (fun url => plaintext url = false) (targets_of self)).
Proof.
  unfold build in ok. apply bindp_inv in ok as (parts & w1 & Hparts & [= <- <-]).
  apply build_parts_ok in Hparts as (used & cs & wc & we & Hc & Ht & Hp & Hn & Htls & Hcs & He & Hi).
  apply check_values_ok in Hc as (Hd & Hen & Hr & Hid & Hl). split; [done|].
  destruct (create_clients_ok _ _ _ _ _ _ Hcs) as [Hfst HF].
  assert (clients parts.1 = cs /\ (pool parts.1 = None <-> loadbalancer self = None)) as [Ecs Hpool].
  { apply endpoint_try_from_ok in He. destruct (loadbalancer self); [|by destruct He as [-> _]].
    by destruct He as (p & -> & _). }
  exists parts, used, wc. rewrite Ecs. split_and!; try done.
  - by apply list_targets_ok in Ht as [_ ?].
  - unfold resolve_tls, ret in Htls. by destruct (tls self) as [[]|]; simplify_eq.
  - rewrite Forall_forall in HF |- *. intros entry Hin. split.
    + intros Hpl. destruct (plaintext_allowed self) eqn:Ea.
      * split; [done|]. destruct (presents_identity self); [|done]. by specialize (Hid eq_refl).
      * pose proof (reject_plaintext_ok _ _ _ _ Hp Ea) as Hno. rewrite Forall_forall in Hno.
        assert (plaintext entry.1 = false) as E; [|by rewrite E in Hpl].
        apply Hno. rewrite <- Hfst. by apply (list_elem_of_fmap_2 fst).
    + destruct (HF entry Hin) as (wb & wb' & Hb). exists (calls_for self entry.1 used), wb, wb'.
      split; [apply calls_for_settle|]. by rewrite <- factory_for_calls.
  - by apply (reject_tls_option_ok _ _ _ _ Hn).
Qed.

(** A client of two backends, the first with TLS and the second without. *)
Definition two_targets : GrpcEgressBuilderImpl (W := nat * list (string * Outcome)) :=
  with_option mixed_builder WithPlaintextAllowed.

Lemma build_accepts_witness :
  exists (parts : EndpointTransport _ (list string)
      * StdGrpcEgressInterceptorChain (W := nat * list (string * Outcome))) tls,
    fst <$> clients parts.1 = ["https://a"; "http://b"] /\ tls = tls_create None [] None /\
    Forall (fun entry : string * list string => exists calls w1 w2,
      settles two_targets entry.1 tls calls /\
      engine_build (fold_left apply_call calls (with_endpoint tonic_dual_builder entry.1)) w1
      = (Ok entry.2, w2)) (clients parts.1).
Proof.
  destruct (build_parts no_files two_targets (0%nat, [])) as [[[parts|e]|] w'] eqn:Hb;
    [|by vm_compute in Hb..].
  assert (build tag_clients no_files (fun _ => "text") two_targets (0%nat, [])
          = (Some (Ok (client_of tag_clients (fun _ => "text") parts)), w'))
    as ok by (unfold build, bindp, bind; rewrite Hb; reflexivity).
  destruct (build_accepts tag_clients no_files (fun _ => "text") two_targets (0%nat, []) _ _ ok)
    as (_ & built & tls & wt & _ & _ & Hc & _ & _ & Htls & Hf & _).
  exists built, tls. split_and!; [exact Hc|exact Htls|].
  eapply Forall_impl; [exact Hf|]. intros entry [_ He]. exact He.
Defined.

(** An endpoint whose byte 7 is inside a character: [http:/] and [U+00E9]. *)
Definition cut_endpoint : string :=
  "http:/" +:+ String (Ascii.ascii_of_N 195) (String (Ascii.ascii_of_N 169) "/").

(** C30: Building gives a client or an error, and never panics, when no URL has a character across its
    seventh byte; a plaintext URL that is not allowed is then refused, the first of them, before any
    file is read or connection set up. An endpoint with a character across that byte makes the build
    panic instead of refusing it. *)
Theorem build_never_panics `{HC : Contract} `{HT : TransportOptions} {W T}
    `{HE : !Engine W T} `{HL : !LoadbalancerSvc W} (ct : ClientType W T) fs_read call_error_to_string
    (self : GrpcEgressBuilderImpl (W := W)) w
    (safe : forallb (fun url => negb (cuts_character url)) (targets_of self) = true) :
  (build ct fs_read call_error_to_string self w).1 <> None /\
  (forall url, check_values self = Ok tt -> is_ok (list_targets self) = true ->
     plaintext_allowed self = false -> List.find plaintext (targets_of self) = Some url ->
     build ct fs_read call_error_to_string self w = (Some (Err (PlaintextRejected url)), w)) /\
  build ct fs_read call_error_to_string (builder_from cut_endpoint) w = (None, w).
Proof.
  split_and!; [|intros url Hc Ht Ha Hf|reflexivity].
  - pose proof (build_parts_total fs_read self w safe) as Hb. unfold build, bindp, bind, ret.
    destruct (build_parts fs_read self w) as [[[parts|e]|] w1]; done.
  - destruct (list_targets self) as [ts|] eqn:El; [|done]. destruct (list_targets_ok _ _ El) as [-> _].
    unfold build, build_parts, reject_plaintext. rewrite Hc, El, Ha.
    unfold bindp, bind, pure_result, ret. cbn. by rewrite find_plaintext_first, Hf by done.
Qed.

Lemma build_never_panics_witness :
  build tag_clients no_files (fun _ => "text") mixed_builder (0%nat, [])
  = (Some (Err (PlaintextRejected "http://b")), (0%nat, [])).
Proof.
  refine (proj1 (proj2 (build_never_panics tag_clients no_files (fun _ => "text") mixed_builder
    (0%nat, []) eq_refl)) "http://b" _ _ _ _); reflexivity.
Defined.
