(* ===== verification/AsyncClient.v ===== *)
(** * The calls of a built client as futures

    An [async fn] of [endpoint_transport.rs] and [intercepted_transport.rs] that awaits one call is a
    future of three states: not polled yet, awaiting, finished ([Await]).  Here are the unary calls
    of a built client as such futures over those of the engine; that one polled by nobody else to
    its end does what [Intercepted] and [Endpoint] say ([client_future_alone]); and what a call that
    is dropped half-way has done ([dropped_call]). *)

From S2P Require Import Prelude Text Contract Interceptors Intercepted Channel Endpoint EgressBuilder Cancellation.
From Stdlib Require Import Lia Strings.Byte.
From stdpp Require Import base tactics strings option list.

(** ** One await *)

(** Where [async { let l = before?; let r = call(l).await; after(l, r) }] is. *)
Inductive Await {W L R : Type} (call : L -> Future W R) :=
| Unpolled
| Awaiting (l : L) (s : f_state (call l))
| Finished.
Arguments Unpolled {_ _ _ _}.
Arguments Awaiting {_ _ _ _}.
Arguments Finished {_ _ _ _}.

Section await.
Context {W L R B E : Type}.
Context (before : eff W (Result L E)) (call : L -> Future W R) (after : L -> R -> eff W (Result B E)).

(** A poll of the awaited future; it is dropped where it is ready. *)
Definition resume (l : L) (s : f_state (call l)) : eff W (option (Result B E) * Await call) :=
  let! (r, s) := f_poll (call l) s in
  match r with
  | None => ret (None, Awaiting l s)
  | Some r => f_drop (call l) s ;;; let! b := after l r in ret (Some b, Finished)
  end.

(** A finished one is not polled again: [drive] stops, and so does an [await]. *)
Definition await_poll (p : Await call) : eff W (option (Result B E) * Await call) :=
  match p with
  | Unpolled =>
      let! b := before in
      match b with
      | Err e => ret (Some (Err e), Finished)
      | Ok l => resume l (f_start (call l))
      end
  | Awaiting l s => resume l s
  | Finished => ret (None, Finished)
  end.

Definition await_drop (p : Await call) : eff W unit :=
  match p with Awaiting l s => f_drop (call l) s | _ => ret tt end.

Definition await : Future W (Result B E) := {|
  f_state := Await call;
  f_start := Unpolled;
  f_poll := await_poll;
  f_drop := await_drop;
|}.

(** What is left once the awaited future is driven. *)
Definition conclude (l : L) (out : option R * (f_state (call l) * W)) :
    option (Result B E) * (Await call * W) :=
  match out with
  | (None, (s, w)) => (None, (Awaiting l s, w))
  | (Some r, (s, w)) =>
      let '(_, w) := f_drop (call l) s w in
      let '(b, w) := after l r w in (Some b, (Finished, w))
  end.

Context (env : W -> W).

Lemma awaiting_drive n l s w :
  drive await_poll env n (Awaiting l s) w = conclude l (drive (f_poll (call l)) env n s w).
Proof.
  revert s w. induction n as [|n IH]; intros s w; [done|]. cbn. unfold resume, bind, ret.
  destruct (f_poll (call l) s w) as [[[r|] s1] w1]; [|apply IH]. cbn.
  destruct (f_drop (call l) s1 w1) as [[] w2]. by destruct (after l r w2).
Qed.

(** Driving it is driving what it awaits, from where [before] leaves the world. *)
Lemma await_drive n l w w1 :
  before w = (Ok l, w1) ->
  drive await_poll env (S n) Unpolled w
  = conclude l (drive (f_poll (call l)) env (S n) (f_start (call l)) w1).
Proof.
  intros Hb. cbn. unfold bind. rewrite Hb. unfold resume, bind, ret.
  destruct (f_poll (call l) (f_start (call l)) w1) as [[[r|] s1] w2]; [|apply awaiting_drive]. cbn.
  destruct (f_drop (call l) s1 w2) as [[] w3]. by destruct (after l r w3).
Qed.

(** One that was polled and is not ready awaits; the world is that of the awaited future. *)
Lemma await_pending n p w w' :
  drive await_poll env (S n) Unpolled w = (None, (p, w')) ->
  exists l w1 s,
    before w = (Ok l, w1) /\ p = Awaiting l s /\
    drive (f_poll (call l)) env (S n) (f_start (call l)) w1 = (None, (s, w')).
Proof.
  intros Hd. destruct (before w) as [[l|e] w1] eqn:Eb.
  - rewrite (await_drive n l w w1 Eb) in Hd.
    destruct (drive (f_poll (call l)) env (S n) (f_start (call l)) w1) as [[r|] [s w2]] eqn:Ed; cbn in Hd.
    + destruct (f_drop (call l) s w2) as [[] w3]. by destruct (after l r w3).
    + exists l, w1, s. by simplify_eq.
  - cbn in Hd. unfold bind, ret in Hd. by rewrite Eb in Hd.
Qed.
End await.

(** A future that nothing interrupts does what an operation does, up to how results are related. *)
Definition alone {W A B} (rel : A -> B -> Prop) (f : Future W A) (m : eff W B) : Prop :=
  forall w, exists n a s w1,
    drive (f_poll f) id (S n) (f_start f) w = (Some a, (s, w1)) /\
    rel a (m w).1 /\ (f_drop f s w1).2 = (m w).2.

Lemma await_alone {W L R R' B B' E} (before : eff W (Result L E)) (call : L -> Future W R)
    (after : L -> R -> eff W (Result B E)) (m : L -> eff W R') (after' : L -> R' -> eff W (Result B' E))
    (rel : R -> R' -> Prop) (rel' : Result B E -> Result B' E -> Prop) :
  (forall l, alone rel (call l) (m l)) -> (forall e, rel' (Err e) (Err e)) ->
  (forall l r r' w, rel r r' -> rel' (after l r w).1 (after' l r' w).1 /\ (after l r w).2 = (after' l r' w).2) ->
  alone rel' (await before call after) (let!? l := before in let! r := m l in after' l r).
Proof.
  intros Hm Herr Hafter w. unfold bindr, bind, ret. destruct (before w) as [[l|e] w1] eqn:Eb.
  - destruct (Hm l w1) as (n & r & s & w2 & Ed & Hr & Edrop). exists n.
    pose proof (await_drive before call after id n l w w1 Eb) as Ea. rewrite Ed in Ea. cbn [conclude] in Ea.
    destruct (m l w1) as [r' w3]. cbn [fst snd] in *. destruct (f_drop (call l) s w2) as [[] w4].
    cbn [snd] in Edrop. subst w4. destruct (Hafter l r r' w3 Hr) as [Hr' Hw].
    destruct (after l r w3) as [b w5]. by exists b, Finished, w5.
  - exists O, (Err e), Finished, w1. cbn. unfold bind, ret. by rewrite Eb.
Qed.

(** The same of a read, and of a stream. *)
Definition read_alone {W S R} (read : Borrowing W S R) (m : S -> eff W (R * S)) : Prop :=
  forall s w, exists n b w1,
    drive (b_poll read) id (Datatypes.S n) (b_start read s) w = (Some (m s w).1.1, (b, w1)) /\
    b_drop read b w1 = ((m s w).1.2, (m s w).2).

Record stream_alone `{Contract} {W T M} (a : AsyncStream W T M) (ops : StreamOps W (a_state a) T M) : Prop := {
  alone_message : read_alone (a_read_message a) (read_message ops);
  alone_headers s w : a_get_headers a s w = stream_headers ops s w;
  alone_trailers : read_alone (a_read_trailers a) (read_trailers ops);
  alone_drop s w : a_drop a s w = Contract.drop ops s w;
}.

Inductive same_stream `{Contract} {W T M} :
    Result (AsyncStream W T M) CallError -> Result (ResponseStream W T M) CallError -> Prop :=
| same_opened a ops : stream_alone a ops -> same_stream (Ok a) (Ok (response_stream _ (a_value a) ops))
| same_refused e : same_stream (Err e) (Err e).

(** ** An observed stream *)

(** A read of [PatternResponseStream]: its stream is out to the read of the inner one, or back. *)
Inductive Reading (B S : Type) :=
| Pending (st : PatternResponseStream unit) (b : B)
| Ready (st : PatternResponseStream S).
Arguments Pending {_ _}.
Arguments Ready {_ _}.

Section stream.
Context `{Contract} {W Ch : Type} `{!GrpcEgressInterceptorChain W Ch} {T M : Type}.
Context (chain : Ch) (view : MetadataView MetadataError M) (inner : AsyncStream W T M).

Notation S := (a_state inner).
Implicit Types (st : PatternResponseStream S).

Definition with_inner {S1 S2} (st : PatternResponseStream S1) (s : S2) : PatternResponseStream S2 :=
  pattern_stream s (stream_path st) (stream_kind st) (opened st) (terminal st).

Definition observed_read {R} (read : Borrowing W S R)
    (after : R -> PatternResponseStream S -> eff W (R * PatternResponseStream S)) :
    Borrowing W (PatternResponseStream S) R := {|
  b_state := Reading (b_state read) S;
  b_start st := Pending (with_inner st tt) (b_start read (stream_inner st));
  b_poll p :=
    match p with
    | Pending st b =>
        let! (r, b) := b_poll read b in
        match r with
        | None => ret (None, Pending st b)
        | Some r =>
            let! s := b_drop read b in
            let! (r, st) := after r (with_inner st s) in
            ret (Some r, Ready st)
        end
    | Ready st => ret (None, Ready st)
    end;
  b_drop p :=
    match p with
    | Pending st b => let! s := b_drop read b in ret (with_inner st s)
    | Ready st => ret st
    end;
|}.

Definition message_seen (r : Result (option T) CallError) st :
    eff W (Result (option T) CallError * PatternResponseStream S) :=
  match r with
  | Ok message =>
      (match message with
       | Some _ => adapter_on_event chain view (MessageRead (identity_of st))
       | None => ret tt
       end) ;;;
      ret (Ok message, st)
  | Err error =>
      let st := set_terminal st in
      adapter_failed chain (stream_path st) (stream_kind st) error ;;;
      ret (Err error, st)
  end.

Definition trailers_seen (r : Result M CallError) st :
    eff W (Result M CallError * PatternResponseStream S) :=
  match r with
  | Ok trailers =>
      adapter_on_event chain view (Completed (identity_of st) None trailers) ;;;
      ret (Ok trailers, set_terminal st)
  | Err error =>
      let st := set_terminal st in
      adapter_failed chain (stream_path st) (stream_kind st) error ;;;
      ret (Err error, st)
  end.

Definition async_get_headers st : eff W (Result M CallError * PatternResponseStream S) :=
  let! (r, s) := a_get_headers inner (stream_inner st) in
  let st := set_inner st s in
  match r with
  | Ok metadata =>
      (if negb (opened st) then adapter_on_event chain view (Opened (identity_of st) metadata)
       else ret tt) ;;;
      ret (Ok metadata, set_opened st)
  | Err error => ret (Err error, st)
  end.

Definition async_notify_opened st : eff W (PatternResponseStream S) :=
  let! (r, s) := a_get_headers inner (stream_inner st) in
  let st := set_inner st s in
  match r with
  | Ok metadata =>
      let st := set_opened st in
      adapter_on_event chain view (Opened (identity_of st) metadata) ;;;
      ret st
  | Err _ => ret st
  end.

Definition async_drop st : eff W unit :=
  (if negb (terminal st) then plain_event chain (Cancelled (identity_of st)) else ret tt) ;;;
  a_drop inner (stream_inner st).

Definition ObservedStream st : AsyncStream W T M := {|
  a_state := PatternResponseStream S;
  a_value := st;
  a_read_message := observed_read (a_read_message inner) message_seen;
  a_get_headers := async_get_headers;
  a_read_trailers := observed_read (a_read_trailers inner) trailers_seen;
  a_drop := async_drop;
|}.

(** [observe] of [Intercepted]. *)
Definition observe_async (path : string) (kind : CallKind) : eff W (AsyncStream W T M) :=
  let! st := async_notify_opened (pattern_stream (a_value inner) path kind false false) in
  ret (ObservedStream st).
End stream.

(** ** The client *)

Section client.
Context `{Contract} {W T : Type} `{!LoadbalancerSvc W} (ct : ClientType W T).
Context (call_error_to_string : CallError -> string).

(** The calls of an engine client: what is awaited in the end. *)
Class EngineFutures := {
  call_future : T -> forall M : Method, Request M -> CallOptions ->
    Future W (Result (CallResponse (Response M) (ct_metadata ct)) CallError);
  server_stream_future : T -> forall M : Method, Request M -> CallOptions ->
    Future W (Result (AsyncStream W (Response M) (ct_metadata ct)) CallError);
  client_stream_future : T -> forall M : Method, RequestStream (Request M) -> CallOptions ->
    Future W (Result (CallResponse (Response M) (ct_metadata ct)) CallError);
  bidi_stream_future : T -> forall M : Method, RequestStream (Request M) -> CallOptions ->
    Future W (Result (AsyncStream W (Response M) (ct_metadata ct)) CallError);
  call_raw_future : T -> string -> list byte -> CallOptions ->
    Future W (Result (CallResponse (list byte) (cr_metadata ct)) CallError);
  raw_server_stream_future : T -> string -> list byte -> CallOptions ->
    Future W (Result (AsyncStream W (list byte) (cr_metadata ct)) CallError);
  raw_client_stream_future : T -> string -> RequestStream (list byte) -> CallOptions ->
    Future W (Result (CallResponse (list byte) (cr_metadata ct)) CallError);
  raw_bidi_stream_future : T -> string -> RequestStream (list byte) -> CallOptions ->
    Future W (Result (AsyncStream W (list byte) (cr_metadata ct)) CallError);
}.

(** [through] of [Endpoint]. *)
Definition through_future {R} (self : EndpointTransport W T) (path : string)
    (send : T -> Future W (Result R CallError)) : Future W (Result R CallError) :=
  await (pick self path) (fun pick => send (pick_client pick))
    (fun pick result => report call_error_to_string self pick result ;;; ret result).

(** The client of [build_parts]. *)
Context (parts : EndpointTransport W T * StdGrpcEgressInterceptorChain (W := W)).

Notation around := (intercepted (endpoint_client ct call_error_to_string parts.1) parts.2).

(** What [Intercepted] does with an answer: one message, or a stream. *)
Definition answered {R M} (view : MetadataView MetadataError M) (path : string) (kind : CallKind)
    (response : Result (CallResponse R M) CallError) : eff W (Result (CallResponse R M) CallError) :=
  match response with
  | Err error => intercepted_error around path kind error ;;; ret (Err error)
  | Ok response =>
      let!? _ := intercepted_after around view path kind (headers response) (trailers response) in
      ret (Ok response)
  end.

Definition streamed {R M} (view : MetadataView MetadataError M) (path : string) (kind : CallKind)
    (response : Result (AsyncStream W R M) CallError) : eff W (Result (AsyncStream W R M) CallError) :=
  match response with
  | Err error => intercepted_error around path kind error ;;; ret (Err error)
  | Ok stream =>
      let! stream := observe_async (chain around) view stream path kind in
      ret (Ok stream)
  end.

(** A call of [Intercepted] through the endpoint. *)
Definition client_future {R} (path : string) (kind : CallKind)
    (after : Result R CallError -> eff W (Result R CallError))
    (send : T -> CallOptions -> Future W (Result R CallError)) (options : CallOptions) :
    Future W (Result R CallError) :=
  await (intercepted_before around path kind options)
    (fun options => through_future parts.1 path (fun t => send t options))
    (fun _ => after).

Context `{!EngineFutures}.

Definition built_typed : AsyncTransport W := {|
  at_metadata := ct_metadata ct;
  at_call M message := client_future (PATH M) Unary (answered (ct_view ct) (PATH M) Unary)
    (fun t => call_future t M message);
  at_call_server_stream M message := client_future (PATH M) ServerStream
    (streamed (ct_view ct) (PATH M) ServerStream) (fun t => server_stream_future t M message);
  at_call_client_stream M requests := client_future (PATH M) ClientStream
    (answered (ct_view ct) (PATH M) ClientStream) (fun t => client_stream_future t M requests);
  at_call_bidi_stream M requests := client_future (PATH M) BidiStream
    (streamed (ct_view ct) (PATH M) BidiStream) (fun t => bidi_stream_future t M requests);
|}.

Definition built_raw : AsyncRawTransport W := {|
  ar_metadata := cr_metadata ct;
  ar_call_raw path message := client_future path Unary (answered (cr_view ct) path Unary)
    (fun t => call_raw_future t path message);
  ar_call_raw_server_stream path message := client_future path ServerStream
    (streamed (cr_view ct) path ServerStream) (fun t => raw_server_stream_future t path message);
  ar_call_raw_client_stream path requests := client_future path ClientStream
    (answered (cr_view ct) path ClientStream) (fun t => raw_client_stream_future t path requests);
  ar_call_raw_bidi_stream path requests := client_future path BidiStream
    (streamed (cr_view ct) path BidiStream) (fun t => raw_bidi_stream_future t path requests);
|}.

Definition built_client : AsyncClient W := async_client built_typed built_raw.
End client.
Arguments EngineFutures {_} W T.

(** ** A stream alone *)

Section stream_alone.
Context `{Contract} {W Ch : Type} `{!GrpcEgressInterceptorChain W Ch} {T M : Type}.
Context (chain : Ch) (view : MetadataView MetadataError M) (inner : AsyncStream W T M).
Context (ops : StreamOps W (a_state inner) T M) (Hinner : stream_alone inner ops).

Lemma pending_drive {R} (read : Borrowing W (a_state inner) R) after n st b w r b' w' :
  drive (b_poll read) id n b w = (Some r, (b', w')) ->
  drive (b_poll (observed_read inner read after)) id n (Pending st b) w
  = (let '(s, w1) := b_drop read b' w' in
     let '((r, st), w2) := after r (with_inner st s) w1 in (Some r, (Ready st, w2))).
Proof.
  revert b w. induction n as [|n IH]; intros b w; [done|]. cbn. unfold bind, ret.
  destruct (b_poll read b w) as [[[r1|] b1] w1].
  - intros [= -> -> ->]. destruct (b_drop read b' w') as [s w2]. by destruct (after r (with_inner st s) w2) as [[]].
  - apply IH.
Qed.

Lemma observed_read_alone {R} (read : Borrowing W (a_state inner) R) after m :
  read_alone read m ->
  read_alone (observed_read inner read after)
    (fun st => let! (r, s) := m (stream_inner st) in after r (set_inner st s)).
Proof.
  intros Hm st w. destruct (Hm (stream_inner st) w) as (n & b & w1 & Ed & Edrop). exists n.
  pose proof (pending_drive read after _ (with_inner st tt) _ _ _ _ _ Ed) as Ea. rewrite Edrop in Ea.
  unfold bind. destruct (m (stream_inner st) w) as [[r s] w2]. cbn [fst snd] in *.
  change (with_inner (with_inner st tt) s) with (set_inner st s) in Ea.
  destruct (after r (set_inner st s) w2) as [[r' st'] w3]. by exists (Ready st'), w3.
Qed.

Lemma observed_stream_alone st :
  stream_alone (ObservedStream chain view inner st) (pattern_ops chain view ops).
Proof.
  split.
  - exact (observed_read_alone (a_read_message inner) (message_seen chain view inner) _ (alone_message _ _ Hinner)).
  - intros s w. cbn. unfold async_get_headers, pattern_get_headers, bind.
    by rewrite (alone_headers _ _ Hinner).
  - exact (observed_read_alone (a_read_trailers inner) (trailers_seen chain view inner) _ (alone_trailers _ _ Hinner)).
  - intros s w. cbn. unfold async_drop, pattern_drop, bind.
    destruct (_ w) as [[] w1]. apply (alone_drop _ _ Hinner).
Qed.

Lemma observe_alone path kind w :
  let '(a, w1) := observe_async chain view inner path kind w in
  let '(r, w2) := observe chain view path kind (response_stream _ (a_value inner) ops) w in
  same_stream (Ok a) (Ok r) /\ w1 = w2.
Proof.
  unfold observe_async, observe, async_notify_opened, notify_opened, bind, ret. cbn -[adapter_on_event].
  rewrite (alone_headers _ _ Hinner). destruct (stream_headers ops _ w) as [[[metadata|e] s] w1]; cbn -[adapter_on_event].
  - match goal with |- context [adapter_on_event ?c ?v ?e w1] =>
      destruct (adapter_on_event c v e w1) as [[] w2] end. split; [|done].
    exact (same_opened (ObservedStream chain view inner _) (pattern_ops chain view ops) (observed_stream_alone _)).
  - split; [|done]. exact (same_opened (ObservedStream chain view inner _) (pattern_ops chain view ops) (observed_stream_alone _)).
Qed.
End stream_alone.

(** A read that is dropped before it is ready gives the stream back as it was, but for what the inner
    read did; no event tells of it. *)
Lemma dropped_read `{Contract} {W T M R} (inner : AsyncStream W T M) (read : Borrowing W (a_state inner) R)
    after env n (st : PatternResponseStream (a_state inner)) w p w' :
  drive (b_poll (observed_read inner read after)) env n (b_start (observed_read inner read after) st) w
  = (None, (p, w')) ->
  exists b, drive (b_poll read) env n (b_start read (stream_inner st)) w = (None, (b, w')) /\
    b_drop (observed_read inner read after) p w'
    = let '(s, w'') := b_drop read b w' in (set_inner st s, w'').
Proof.
  cbn [b_start observed_read]. generalize (b_start read (stream_inner st)). revert w.
  induction n as [|n IH]; intros w b.
  - cbn. intros [= <- <-]. exists b. split; [done|]. unfold bind, ret. by destruct (b_drop read b w).
  - cbn. unfold bind, ret. destruct (b_poll read b w) as [[[r|] b1] w1]; [|apply IH].
    destruct (b_drop read b1 w1) as [s w2]. by destruct (after r _ w2) as [[]].
Qed.

(** Reads that are never polled. *)
Lemma abandoned_observed `{Contract} {W Ch T M} `{!GrpcEgressInterceptorChain W Ch} (chain : Ch)
    (view : MetadataView MetadataError M) (inner : AsyncStream W T M) st0 plan st w :
  abandoned (ObservedStream chain view inner st0) plan st w
  = let '(s, w') := abandoned inner plan (stream_inner st) w in (set_inner st s, w').
Proof.
  revert st w. induction plan as [|[] plan IH]; intros st w; [by destruct st|cbn..]; unfold bind, ret.
  - destruct (b_drop (a_read_trailers inner) _ w) as [s w1]. by rewrite IH.
  - destruct (b_drop (a_read_message inner) _ w) as [s w1]. by rewrite IH.
Qed.

(** ** Properties *)

Section properties.
Context `{Contract} {W T : Type} `{!LoadbalancerSvc W} (ct : ClientType W T).
Context (call_error_to_string : CallError -> string) `{HF : !EngineFutures W T ct}.
Context (parts : EndpointTransport W T * StdGrpcEgressInterceptorChain (W := W)).

Notation client := (client_of ct call_error_to_string parts).
Notation around := (intercepted (endpoint_client ct call_error_to_string parts.1) parts.2).
Notation built := (built_client ct call_error_to_string parts).

(** *** Through the chain and the endpoint *)

Lemma through_alone {R R'} (rel : Result R CallError -> Result R' CallError -> Prop) path send m :
  (forall t, alone rel (send t) (m t)) -> (forall e, rel (Err e) (Err e)) ->
  (forall r r', rel r r' -> judge_outcome call_error_to_string r = judge_outcome call_error_to_string r') ->
  alone rel (through_future call_error_to_string parts.1 path send)
    (through call_error_to_string parts.1 path m).
Proof.
  intros Hm He Hj.
  apply (await_alone _ _ _ _ (fun pick result => report call_error_to_string parts.1 pick result ;;; ret result)
    rel rel (fun p => Hm (pick_client p)) He).
  intros pk r r' w Hr. unfold report, bind, ret. rewrite (Hj _ _ Hr).
  destruct (pool parts.1), (pick_backend pk); [|done..]. by destruct (report_outcome _ _ _ w).
Qed.

(** A message is related to itself. *)
Lemma answered_alone {R M} path kind (view : MetadataView MetadataError M) send m :
  (forall t options, alone Logic.eq (send t options) (m t options)) ->
  forall options,
    alone Logic.eq
      (client_future ct call_error_to_string parts path kind
         (answered ct call_error_to_string parts (R := R) view path kind) send options)
      (let!? options := intercepted_before around path kind options in
       let! r := through call_error_to_string parts.1 path (fun t => m t options) in
       answered ct call_error_to_string parts view path kind r).
Proof.
  intros Hm options. apply (await_alone _ _ _ _ (fun _ => answered ct call_error_to_string parts view path kind)
    Logic.eq Logic.eq); [|done|by intros l r r' w ->].
  intros options'. apply through_alone; [intros t; apply Hm|done|by intros r r' ->].
Qed.

(** A stream to the stream it observes. *)
Definition streamed_op {R M} (view : MetadataView MetadataError M) (path : string) (kind : CallKind)
    (response : Result (ResponseStream W R M) CallError) : eff W (Result (ResponseStream W R M) CallError) :=
  match response with
  | Err error => intercepted_error around path kind error ;;; ret (Err error)
  | Ok stream =>
      let! stream := observe (chain around) view path kind stream in
      ret (Ok stream)
  end.

Lemma streamed_alone {R M} path kind (view : MetadataView MetadataError M) send m :
  (forall t options, alone (same_stream (T := R)) (send t options) (m t options)) ->
  forall options,
    alone same_stream
      (client_future ct call_error_to_string parts path kind
         (streamed ct call_error_to_string parts view path kind) send options)
      (let!? options := intercepted_before around path kind options in
       let! r := through call_error_to_string parts.1 path (fun t => m t options) in
       streamed_op view path kind r).
Proof.
  intros Hm options. apply (await_alone _ _ _ _ (fun _ => streamed_op view path kind) same_stream same_stream).
  - intros options'. apply through_alone; [intros t; apply Hm|constructor|by intros r r' []].
  - constructor.
  - intros _ r r' w [a ops Ha|e]; cbn [streamed streamed_op]; unfold bind, ret.
    + pose proof (observe_alone (chain around) view a ops Ha path kind w) as Ho.
      destruct (observe_async _ _ a path kind w) as [a' w1].
      by destruct (observe _ _ path kind _ w) as [r1 w2].
    + destruct (intercepted_error around path kind e w) as [[] w1]. split; [constructor|done].
Qed.

(** C25: The model of a built client as operations and the one as futures agree: where the engine's futures,
    polled to their end without a break, do what its operations do, so do the client's, through the
    chain and the endpoint, for all eight calls; a stream that is opened is then related to the one
    the operation gives, read by read. *)
Theorem client_futures_alone
    (h1 : forall t M m o, alone Logic.eq (call_future ct t M m o) (ct_call ct t M m o))
    (h2 : forall t M m o, alone same_stream (server_stream_future ct t M m o) (ct_call_server_stream ct t M m o))
    (h3 : forall t M m o, alone Logic.eq (client_stream_future ct t M m o) (ct_call_client_stream ct t M m o))
    (h4 : forall t M m o, alone same_stream (bidi_stream_future ct t M m o) (ct_call_bidi_stream ct t M m o))
    (h5 : forall t p m o, alone Logic.eq (call_raw_future ct t p m o) (cr_call_raw ct t p m o))
    (h6 : forall t p m o, alone same_stream (raw_server_stream_future ct t p m o) (cr_call_raw_server_stream ct t p m o))
    (h7 : forall t p m o, alone Logic.eq (raw_client_stream_future ct t p m o) (cr_call_raw_client_stream ct t p m o))
    (h8 : forall t p m o, alone same_stream (raw_bidi_stream_future ct t p m o) (cr_call_raw_bidi_stream ct t p m o)) :
  (forall M m o, alone Logic.eq (at_call (a_typed built) M m o) (call (typed client) M m o)) /\
  (forall M m o, alone same_stream (at_call_server_stream (a_typed built) M m o) (call_server_stream (typed client) M m o)) /\
  (forall M m o, alone Logic.eq (at_call_client_stream (a_typed built) M m o) (call_client_stream (typed client) M m o)) /\
  (forall M m o, alone same_stream (at_call_bidi_stream (a_typed built) M m o) (call_bidi_stream (typed client) M m o)) /\
  (forall p m o, alone Logic.eq (ar_call_raw (a_raw built) p m o) (call_raw (raw client) p m o)) /\
  (forall p m o, alone same_stream (ar_call_raw_server_stream (a_raw built) p m o) (call_raw_server_stream (raw client) p m o)) /\
  (forall p m o, alone Logic.eq (ar_call_raw_client_stream (a_raw built) p m o) (call_raw_client_stream (raw client) p m o)) /\
  (forall p m o, alone same_stream (ar_call_raw_bidi_stream (a_raw built) p m o) (call_raw_bidi_stream (raw client) p m o)).
Proof.
  split_and!; intros x m o.
  - exact (answered_alone _ _ _ _ _ (fun t => h1 t x m) o).
  - exact (streamed_alone _ _ _ _ _ (fun t => h2 t x m) o).
  - exact (answered_alone _ _ _ _ _ (fun t => h3 t x m) o).
  - exact (streamed_alone _ _ _ _ _ (fun t => h4 t x m) o).
  - exact (answered_alone _ _ _ _ _ (fun t => h5 t x m) o).
  - exact (streamed_alone _ _ _ _ _ (fun t => h6 t x m) o).
  - exact (answered_alone _ _ _ _ _ (fun t => h7 t x m) o).
  - exact (streamed_alone _ _ _ _ _ (fun t => h8 t x m) o).
Qed.

(** C24: A call whose future is dropped half-way, any of the eight: if it was polled and is not ready,
    the chain let it through and has seen it start, the endpoint has picked a client, once each and
    before the first poll of the engine's future; from then on, up to the drop, nothing ran but the
    engine's future and the rest of the world, and the drop is that of the engine's future.  So no
    interceptor sees the call end, by [after_call] or by an event, no stream is observed, and a pool
    gets no report of it. *)
Theorem dropped_call {R} env n path kind after
    (send : T -> CallOptions -> Future W (Result R CallError)) options w p w'
    (pending : drive (f_poll (client_future ct call_error_to_string parts path kind after send options))
                 env (S n) Unpolled w = (None, (p, w'))) :
  exists options' w1 pk w2 s,
    intercepted_before around path kind options w = (Ok options', w1) /\
    pick parts.1 path w1 = (Ok pk, w2) /\
    drive (f_poll (send (pick_client pk) options')) env (S n)
      (f_start (send (pick_client pk) options')) w2 = (None, (s, w')) /\
    f_drop (client_future ct call_error_to_string parts path kind after send options) p w'
    = f_drop (send (pick_client pk) options') s w'.
Proof.
  apply await_pending in pending as (options' & w1 & s1 & Eb & -> & Ed).
  apply await_pending in Ed as (pk & w2 & s & Ep & -> & Ed). by exists options', w1, pk, w2, s.
Qed.
End properties.

(** C26: A stream of a built client, seen through a cancellation view.  Once the signal has fired every
    read fails with [Cancelled], in any order and polled any number of times, and what is observed of
    the stream stays as it is: no interceptor sees those failures, and the inner reads are started
    and dropped only.  The one event is that of the drop: [Cancelled], before the inner stream is
    dropped, where the stream has not ended before the signal, and none where it has. *)
Theorem cancelled_stream_observed `{Contract} {W Ch T M} `{!GrpcEgressInterceptorChain W Ch}
    (chain : Ch) (view : MetadataView MetadataError M) (inner : AsyncStream W T M) st0
    (fired : W -> bool) (env : W -> W) path plan st w
    (stays_fired : forall w, fired w = true ->
       (forall b, fired (b_drop (a_read_message inner) b w).2 = true) /\
       (forall b, fired (b_drop (a_read_trailers inner) b w).2 = true))
    (is_fired : fired w = true) :
  let stream := CancellableResponseStream fired path (ObservedStream chain view inner st0) in
  let '(s, w') := abandoned inner (fst <$> plan) (stream_inner st) w in
  reads env stream plan st w = (Cancelled_read path <$> plan, (set_inner st s, w')) /\
  a_drop stream (set_inner st s) w'
  = (if terminal st then a_drop inner s
     else plain_event chain (Cancelled (identity_of st)) ;;; a_drop inner s) w'.
Proof.
  cbn zeta. assert (forall R (read : Borrowing W (a_state inner) (Result R CallError)) after b v, fired v = true ->
    (forall b, fired (b_drop read b v).2 = true) ->
    fired (b_drop (observed_read inner read after) b v).2 = true) as Hkeep.
  { intros R read after [st1 b|st1] v Hv Hr; [|done]. cbn. unfold bind, ret.
    specialize (Hr b). by destruct (b_drop read b v). }
  pose proof (reads_cancelled env fired path (ObservedStream chain view inner st0)
    (fun v Hv => conj (fun b => Hkeep _ _ _ b v Hv (proj1 (stays_fired v Hv)))
                   (fun b => Hkeep _ _ _ b v Hv (proj2 (stays_fired v Hv)))) plan st w is_fired) as Hr.
  rewrite abandoned_observed in Hr. destruct (abandoned inner (fst <$> plan) (stream_inner st) w) as [s w'].
  split; [exact Hr|]. cbn. unfold async_drop, identity_of. cbn.
  by destruct (terminal st).
Qed.

(** Through an interceptor and a pool of two, to engine clients that are polled in vain: after two
    polls and the drop, the log has no end of the call and no report. *)
#[local] Existing Instance turn_lb.
#[local] Existing Instance list_contract.

Notation Log := (nat * list (string * Outcome))%type.

Definition note (line : string) (w : Log) : Log := (w.1, w.2 ++ [(line, Lb.Success)]).

Definition polled_in_vain {A} : Future Log A := {|
  f_state := unit;
  f_start := tt;
  f_poll s w := ((None, s), note "poll" w);
  f_drop _ w := (tt, note "drop" w);
|}.

Definition silent_clients : ClientType Log nat := {|
  ct_metadata := ListContract.md;
  ct_view := list_view;
  ct_call _ M _ _ := ret (Err (Transport_ (PATH M) Internal ""));
  ct_call_server_stream _ M _ _ := ret (Err (Transport_ (PATH M) Internal ""));
  ct_call_client_stream _ M _ _ := ret (Err (Transport_ (PATH M) Internal ""));
  ct_call_bidi_stream _ M _ _ := ret (Err (Transport_ (PATH M) Internal ""));
  cr_metadata := ListContract.md;
  cr_view := list_view;
  cr_call_raw _ path _ _ := ret (Err (Transport_ path Internal ""));
  cr_call_raw_server_stream _ path _ _ := ret (Err (Transport_ path Internal ""));
  cr_call_raw_client_stream _ path _ _ := ret (Err (Transport_ path Internal ""));
  cr_call_raw_bidi_stream _ path _ _ := ret (Err (Transport_ path Internal ""));
|}.

#[local] Instance silent_futures : EngineFutures Log nat silent_clients := {|
  call_future _ _ _ _ := polled_in_vain;
  server_stream_future _ _ _ _ := polled_in_vain;
  client_stream_future _ _ _ _ := polled_in_vain;
  bidi_stream_future _ _ _ _ := polled_in_vain;
  call_raw_future _ _ _ _ := polled_in_vain;
  raw_server_stream_future _ _ _ _ := polled_in_vain;
  raw_client_stream_future _ _ _ _ := polled_in_vain;
  raw_bidi_stream_future _ _ _ _ := polled_in_vain;
|}.

Definition two_behind_one : EndpointTransport Log nat * StdGrpcEgressInterceptorChain (W := Log) :=
  (endpoint_transport [("http://a", 1%nat); ("http://b", 2%nat)] (Some turn_pool),
   [OrderInterceptor "i" note]).

Lemma dropped_call_witness :
  let options := options_create None metadata_default in
  let call := ar_call_raw_server_stream (a_raw (built_client silent_clients (fun _ => "text") two_behind_one))
                "/s/M" [] options in
  let out := drive (f_poll call) (note "tick") 2 (f_start call) (0%nat, []) in
  out.1 = None /\
  (f_drop call out.2.1 out.2.2).2.2.*1
  = ["before:i"; "event:started:i"; "poll"; "tick"; "poll"; "tick"; "drop"] /\
  exists pk s, f_drop call out.2.1 out.2.2
               = f_drop (raw_server_stream_future silent_clients pk "/s/M" [] options) s out.2.2.
Proof.
  intros options call out. assert (out.1 = None) as Hout by (vm_compute; reflexivity).
  split; [exact Hout|split; [vm_compute; reflexivity|]].
  assert (out = (None, (out.2.1, out.2.2))) as E.
  { transitivity (out.1, (out.2.1, out.2.2)); [by destruct out as [? []]|by rewrite Hout]. }
  destruct (dropped_call silent_clients (fun _ => "text") two_behind_one (note "tick") 1 "/s/M" ServerStream
    (streamed silent_clients (fun _ => "text") two_behind_one (cr_view silent_clients) "/s/M" ServerStream)
    (fun t => raw_server_stream_future silent_clients t "/s/M" []) options (0%nat, []) _ _ E)
    as (o & w1 & pk & w2 & s & _ & _ & _ & Ed).
  by exists (pick_client pk), s.
Defined.

(** A stream that is open and has not ended, and the same one after it has. *)
Definition silent_stream : AsyncStream Log unit ListContract.md := {|
  a_state := unit;
  a_value := tt;
  a_read_message := {| b_state := unit; b_start s := s; b_poll s w := ((None, s), note "poll" w);
    b_drop _ w := (tt, note "read dropped" w) |};
  a_get_headers s := ret (Ok ([], []), s);
  a_read_trailers := {| b_state := unit; b_start s := s; b_poll s w := ((None, s), note "poll" w);
    b_drop _ w := (tt, note "read dropped" w) |};
  a_drop _ w := (tt, note "stream dropped" w);
|}.

Lemma cancelled_stream_observed_witness :
  let fired := fun w : Log => negb (Nat.eqb (length w.2) 0) in
  let chain := [OrderInterceptor "i" note] in
  let opened := pattern_stream tt "/s/M" ServerStream true in
  let stream := CancellableResponseStream fired "/s/M" (ObservedStream chain list_view silent_stream (opened false)) in
  let after (st : PatternResponseStream unit) :=
    let '(out, (st, w)) := reads id stream [(false, 3%nat); (true, 0%nat)] st (0%nat, [("fired", Lb.Success)]) in
    (out, (a_drop stream st w).2.2.*1) in
  let results := [inl (Some (Err (cancelled "/s/M"))); inr (Some (Err (cancelled "/s/M")))] in
  after (opened false) = (results, ["fired"; "read dropped"; "read dropped"; "event:cancelled:i"; "stream dropped"]) /\
  after (opened true) = (results, ["fired"; "read dropped"; "read dropped"; "stream dropped"]).
Proof.
  intros fired chain opened stream after results. subst after. cbv beta.
  assert (forall w : Log, fired w = true ->
    (forall b, fired (b_drop (a_read_message silent_stream) b w).2 = true) /\
    (forall b, fired (b_drop (a_read_trailers silent_stream) b w).2 = true)) as Hstays.
  { intros [k log] _. subst fired. cbn. split; intros _; by destruct log. }
  pose proof (fun st => cancelled_stream_observed chain list_view silent_stream (opened false) fired id "/s/M"
    [(false, 3%nat); (true, 0%nat)] st (0%nat, [("fired", Lb.Success)]) Hstays Logic.eq_refl) as Hc.
  split.
  - destruct (Hc (opened false)) as [Hr Hd]. fold stream in Hr, Hd. rewrite Hr. cbv beta iota. rewrite Hd. reflexivity.
  - destruct (Hc (opened true)) as [Hr Hd]. fold stream in Hr, Hd. rewrite Hr. cbv beta iota. rewrite Hd. reflexivity.
Defined.

(** *** Futures that are ready at the second poll *)

Section second_poll.
Context `{Contract} {W : Type}.

Definition second_poll {A} (m : eff W A) : Future W A := {|
  f_state := bool;
  f_start := false;
  f_poll polled := if polled : bool then let! a := m in ret (Some a, true) else ret (None, true);
  f_drop _ := ret tt;
|}.

Definition second_read {S A} (m : S -> eff W (A * S)) : Borrowing W S A := {|
  b_state := bool * S;
  b_start s := (false, s);
  b_poll '(polled, s) :=
    if polled : bool then let! (a, s) := m s in ret (Some a, (true, s)) else ret (None, (true, s));
  b_drop '(_, s) := ret s;
|}.

Definition slowly {T M} (s : ResponseStream W T M) : AsyncStream W T M := {|
  a_state := stream_state s;
  a_value := stream_value s;
  a_read_message := second_read (read_message (stream_ops s));
  a_get_headers := stream_headers (stream_ops s);
  a_read_trailers := second_read (read_trailers (stream_ops s));
  a_drop := Contract.drop (stream_ops s);
|}.

#[local] Instance second_futures {T} (ct : ClientType W T) : EngineFutures W T ct := {|
  call_future t M m o := second_poll (ct_call ct t M m o);
  server_stream_future t M m o := f_map (rmap slowly) (second_poll (ct_call_server_stream ct t M m o));
  client_stream_future t M m o := second_poll (ct_call_client_stream ct t M m o);
  bidi_stream_future t M m o := f_map (rmap slowly) (second_poll (ct_call_bidi_stream ct t M m o));
  call_raw_future t p m o := second_poll (cr_call_raw ct t p m o);
  raw_server_stream_future t p m o := f_map (rmap slowly) (second_poll (cr_call_raw_server_stream ct t p m o));
  raw_client_stream_future t p m o := second_poll (cr_call_raw_client_stream ct t p m o);
  raw_bidi_stream_future t p m o := f_map (rmap slowly) (second_poll (cr_call_raw_bidi_stream ct t p m o));
|}.

Lemma second_poll_alone {A} (m : eff W A) : alone Logic.eq (second_poll m) m.
Proof. intros w. exists 1%nat, (m w).1, true, (m w).2. cbn. unfold bind, ret. by destruct (m w). Qed.

Lemma second_read_alone {S A} (m : S -> eff W (A * S)) : read_alone (second_read m) m.
Proof.
  intros s w. exists 1%nat, (true, (m s w).1.2), (m s w).2. cbn. unfold bind, ret.
  by destruct (m s w) as [[]].
Qed.

Lemma slowly_alone {T M} (m : eff W (Result (ResponseStream W T M) CallError)) :
  alone same_stream (f_map (rmap slowly) (second_poll m)) m.
Proof.
  intros w. exists 1%nat, (rmap slowly (m w).1), true, (m w).2. cbn. unfold bind, ret.
  destruct (m w) as [[[S s ops]|e] w1]; cbn; (split; [done|split; [|done]]); [|constructor].
  refine (same_opened (slowly (response_stream S s ops)) ops _).
  by split; [apply second_read_alone| |apply second_read_alone|].
Qed.

Lemma opened_alone {T M} (r : Result (AsyncStream W T M) CallError) r' :
  same_stream r r' -> is_ok r' = true -> exists a ops, r = Ok a /\ stream_alone a ops.
Proof. destruct 1; [eauto|done]. Qed.
End second_poll.

(** Two messages of a stream of a client of one endpoint behind an interceptor, each read as a future. *)
Definition counting_ops : StreamOps Log nat (list byte) ListContract.md := {|
  read_message n := ret (Ok (match n with O => None | _ => Some [] end), Nat.pred n);
  stream_headers n := ret (Ok ([], []), n);
  read_trailers n := ret (Ok ([], []), n);
  Contract.drop _ w := (tt, note "stream dropped" w);
|}.

Definition counting_clients : ClientType Log nat := {|
  ct_metadata := ListContract.md;
  ct_view := list_view;
  ct_call _ M _ _ := ret (Err (Transport_ (PATH M) Internal ""));
  ct_call_server_stream _ M _ _ := ret (Err (Transport_ (PATH M) Internal ""));
  ct_call_client_stream _ M _ _ := ret (Err (Transport_ (PATH M) Internal ""));
  ct_call_bidi_stream _ M _ _ := ret (Err (Transport_ (PATH M) Internal ""));
  cr_metadata := ListContract.md;
  cr_view := list_view;
  cr_call_raw _ _ message _ := ret (Ok (call_response message ([], []) ([], [])));
  cr_call_raw_server_stream _ _ _ _ := ret (Ok (response_stream nat 2%nat counting_ops));
  cr_call_raw_client_stream _ path _ _ := ret (Err (Transport_ path Internal ""));
  cr_call_raw_bidi_stream _ _ _ _ := ret (Ok (response_stream nat 2%nat counting_ops));
|}.

#[local] Existing Instance second_futures.

Lemma client_futures_alone_witness :
  let client := built_client counting_clients (fun _ => "text") two_behind_one in
  let options := options_create None metadata_default in
  let opening := ar_call_raw_server_stream (a_raw client) "/s/M" [] options in
  exists n stream ops s w,
    drive (f_poll opening) id (S n) (f_start opening) (0%nat, []) = (Some (Ok stream), (s, w)) /\
    stream_alone stream ops /\
    (f_drop opening s w).2.2.*1 = ["before:i"; "event:started:i"; "http://a"; "event:opened:i"].
Proof.
  intros client options opening.
  destruct (client_futures_alone (HF := second_futures counting_clients) counting_clients (fun _ => "text") two_behind_one
    ltac:(intros; apply second_poll_alone) ltac:(intros; apply slowly_alone)
    ltac:(intros; apply second_poll_alone) ltac:(intros; apply slowly_alone)
    ltac:(intros; apply second_poll_alone) ltac:(intros; apply slowly_alone)
    ltac:(intros; apply second_poll_alone) ltac:(intros; apply slowly_alone))
    as (_ & _ & _ & _ & _ & Hstream & _).
  destruct (Hstream "/s/M" [] options (0%nat, [])) as (n & r & s & w & Ed & Hr & Hw).
  destruct (opened_alone _ _ Hr) as (a & ops & -> & Ha); [reflexivity|].
  exists n, a, ops, s, w. split; [exact Ed|split; [exact Ha|]].
  transitivity ((call_raw_server_stream (raw (client_of counting_clients (fun _ => "text") two_behind_one)) "/s/M" [] options (0%nat, [])).2.2.*1); [exact (f_equal (fun w : Log => w.2.*1) Hw)|vm_compute; reflexivity].
Defined.
