(* ===== verification/EndpointRace.v ===== *)
(** * Calls through one pool at the same time

    [endpoint_transport.rs] asks the pool for a backend, awaits the client's answer, and reports to
    the pool in the poll that has the answer: other calls pick and report in between, and a call
    whose future is dropped while it awaits reports nothing.  Here any number of the futures of
    [AsyncClient.through_future], for calls of any kind and over any futures of the clients, are
    begun, polled and dropped in any order.  The load balancer is the one of the endpoint with a log at
    its interface ([logged]): what the pool is asked and told is read off that log, which only the
    endpoint's own calls of [select] and [report_outcome] write. *)

From S2P Require Import Prelude Text Contract Channel Endpoint Cancellation AsyncClient.
From Stdlib Require Import NArith Lia.
From stdpp Require Import base tactics strings option list.

(** ** A log at the interface of the load balancer *)

Inductive PoolEvent (V : Type) `{LoadbalancerSvc V} :=
| Picked (b : Backend)
| Reported (id : BackendId) (outcome : Outcome).
Arguments Picked {_ _}.
Arguments Reported {_ _}.

(** The same load balancer; what it picks and what it is told is appended to the log. *)
Definition logged {V} `{LoadbalancerSvc V} : LoadbalancerSvc (list (PoolEvent V) * V) := {|
  BackendPoolInstance := @BackendPoolInstance V _;
  BackendId := @BackendId V _;
  Backend := @Backend V _;
  backend_id := backend_id;
  backend_url := backend_url;
  LoadbalancerError := @LoadbalancerError V _;
  loadbalancer_error_to_string := loadbalancer_error_to_string;
  build_pool config := lift (build_pool config);
  select p := fun '(log, v) =>
    match select p v with
    | (Ok b, v) => (Ok b, (log ++ [Picked b], v))
    | (Err e, v) => (Err e, (log, v))
    end;
  report_outcome p id outcome := fun '(log, v) =>
    let '(_, v) := report_outcome p id outcome v in (tt, (log ++ [Reported id outcome], v));
|}.

(** ** Calls under way *)

(** A result without its message, as far as the pool is told of it. *)
Definition forget {R E} (r : Result R E) : Result unit E := rmap (fun _ => tt) r.

Section race.
#[local] Existing Instance logged.
Context `{Contract} {V T : Type} `{!LoadbalancerSvc V}.
Context (call_error_to_string : CallError -> string).
Context (self : EndpointTransport (list (PoolEvent V) * V) T).

Notation judge := (judge_outcome call_error_to_string).
Notation World := (list (PoolEvent V) * V)%type.

(** A call through the endpoint: its path, what it sends, and where its future is. *)
Record Flight := flight {
  flight_result : Type;
  flight_path : string;
  flight_send : T -> Future V (Result flight_result CallError);
  flight_place : Await (fun pick : Pick (W := World) => f_lift (F := list (PoolEvent V)) (flight_send (pick_client pick)));
}.

Definition flight_future (fl : Flight) : Future World (Result (flight_result fl) CallError) :=
  through_future call_error_to_string self (flight_path fl) (fun t => f_lift (flight_send fl t)).

Definition at_place (fl : Flight) p : Flight :=
  flight (flight_result fl) (flight_path fl) (flight_send fl) p.

(** The backend that a call awaits the answer of. *)
Definition out_to (fl : Flight) : option Backend :=
  match flight_place fl with Awaiting pick _ => pick_backend pick | _ => None end.

(** What happens to a call: its future is made, is polled and not ready, is ready with a result, or is
    dropped, when it may have been waiting for a backend; or only the rest of the world moves. *)
Inductive move :=
| Began
| Waits
| Ended (r : Result unit CallError)
| Dropped (waiting : option Backend)
| Rest.

Inductive pool_step : move -> list Flight * World -> list Flight * World -> Prop :=
| pool_began calls s R path (send : T -> Future V (Result R CallError)) :
    pool_step Began (calls, s) (calls ++ [flight R path send Unpolled], s)
| pool_waits l1 fl l2 s p s' :
    f_poll (flight_future fl) (flight_place fl) s = ((None, p), s') ->
    pool_step Waits (l1 ++ fl :: l2, s) (l1 ++ at_place fl p :: l2, s')
| pool_ended l1 fl l2 s r p s' :
    f_poll (flight_future fl) (flight_place fl) s = ((Some r, p), s') ->
    pool_step (Ended (forget r)) (l1 ++ fl :: l2, s) (l1 ++ l2, (f_drop (flight_future fl) p s').2)
| pool_dropped l1 fl l2 s :
    pool_step (Dropped (out_to fl)) (l1 ++ fl :: l2, s)
      (l1 ++ l2, (f_drop (flight_future fl) (flight_place fl) s).2)
| pool_rest calls log v v' : pool_step Rest (calls, (log, v)) (calls, (log, v')).

(** The moves from no calls and an empty log, in order. *)
Inductive runs (v : V) : list move -> list Flight * World -> Prop :=
| runs_start : runs v [] ([], ([], v))
| runs_step ms m p p' : runs v ms p -> pool_step m p p' -> runs v (ms ++ [m]) p'.

(** ** What the moves and the log say *)

Definition result_of (m : move) : option (Result unit CallError) :=
  match m with Ended r => Some r | _ => None end.

Definition dropped_from (m : move) : option Backend :=
  match m with Dropped waiting => waiting | _ => None end.

Definition waiting (calls : list Flight) : list Backend :=
  foldr (fun fl l => option_list (out_to fl) ++ l) [] calls.

(** Whether a backend the pool picks has a client. *)
Definition has_client (b : Backend) : bool :=
  bool_decide (is_Some (find_client (backend_url b) (clients self))).

(** The backends picked that have a client, and the reports. *)
Definition served (e : PoolEvent V) : option Backend :=
  match e with Picked b => if has_client b then Some b else None | _ => None end.

Definition told (e : PoolEvent V) : option (BackendId * Outcome) :=
  match e with Reported id outcome => Some (id, outcome) | _ => None end.

(** A call that ended, with the backend it was sent to, if any; what the pool has to be told of it. *)
Definition sent_to (e : option Backend * Result unit CallError) : option (Backend * Result unit CallError) :=
  (fun b => (b, e.2)) <$> e.1.

Definition due (e : Backend * Result unit CallError) : BackendId * Outcome :=
  (backend_id e.1, judge e.2).

(** A report of a call to a backend: on that backend, a failure with the text of the error exactly when
    the backend is at fault. *)
Definition judges (e : Backend * Result unit CallError) (rep : BackendId * Outcome) : Prop :=
  rep.1 = backend_id e.1 /\
  forall reason, rep.2 = Lb.Failure reason <->
    at_fault e.2 /\ exists error, e.2 = Err error /\ reason = call_error_to_string error.

(** A call that was refused before anything was sent. *)
Definition refused (r : Result unit CallError) : Prop :=
  exists path code reason, r = Err (Transport_ path code reason) /\ (code = Unavailable \/ code = Internal).

(** The calls [ends] that ended, each with the backend it was sent to, explain the log. *)
Definition accounted (ms : list move) (p : list Flight * World)
    (ends : list (option Backend * Result unit CallError)) : Prop :=
  omap result_of ms = ends.*2 /\
  omap told p.2.1 = due <$> omap sent_to ends /\
  omap served p.2.1 ≡ₚ (omap sent_to ends).*1 ++ waiting p.1 ++ omap dropped_from ms /\
  Forall (fun e => e.1 = None -> refused e.2) ends.

(** ** One poll *)

Lemma due_judges e : judges e (due e).
Proof.
  split; [done|]. intros reason. destruct e as [b [a|[path' [] ? ? ?|path' [] ?|?|?]]]; cbn; naive_solver.
Qed.

Lemma judge_forget {R} (r : Result R CallError) : judge (forget r) = judge r.
Proof. by destruct r as [a|[? [] ? ? ?|? [] ?|?|?]]. Qed.

Context (p : BackendPoolInstance) (Hpool : pool self = Some p).

(** A call that waits was sent to a backend. *)
Definition aimed {L} {call : Pick (W := World) (T := T) -> Future World L} (place : Await call) : Prop :=
  match place with Awaiting pick _ => is_Some (pick_backend pick) | _ => True end.

(** The events of a poll: those that take the call from waiting for [before] to where it is after. *)
Definition polled (before : option Backend) {R}
    {send : T -> Future V (Result R CallError)} (log : list (PoolEvent V))
    (out : option (Result R CallError)
           * Await (fun pick : Pick (W := World) => f_lift (F := list (PoolEvent V)) (send (pick_client pick))) * World) : Prop :=
  let '((r, place), (log', v')) := out in exists es,
    log' = log ++ es /\
    match r with
    | None => aimed place /\ omap told es = [] /\
        omap served es ++ option_list before
        = option_list (match place with Awaiting pick _ => pick_backend pick | _ => None end)
    | Some r => place = Finished /\ exists b,
        omap told es = option_list (due <$> sent_to (b, forget r)) /\
        omap served es ++ option_list before = option_list b /\
        (b = None -> refused (forget r))
    end.

(** A call that waits, or comes to wait in this poll: [es] are the events so far. *)
Lemma resume_future_polled {R} (send : T -> Future V (Result R CallError)) log es before
    (pick : Pick (W := World) (T := T)) (b : Backend) s v :
  pick_backend pick = Some b -> omap told es = [] -> omap served es ++ option_list before = [b] ->
  polled before log
    (resume (fun pick : Pick (W := World) => f_lift (F := list (PoolEvent V)) (send (pick_client pick)))
       (fun pick result => report call_error_to_string self pick result ;;; ret result) pick s
       (log ++ es, v)).
Proof.
  intros Hb Ht Hs. unfold resume, bind, ret. cbn [f_lift f_poll f_drop]. unfold lift.
  destruct (f_poll (send (pick_client pick)) s v) as [[[r|] s'] v']; cbn.
  - destruct (f_drop (send (pick_client pick)) s' v') as [[] v2]. unfold report. rewrite Hpool, Hb. cbn.
    destruct (report_outcome p (backend_id b) (judge r) v2) as [[] v3]. cbn.
    exists (es ++ [Reported (backend_id b) (judge r)]). rewrite app_assoc. split; [done|]. split; [done|].
    exists (Some b). rewrite !omap_app, Ht. cbn. unfold due. cbn. rewrite judge_forget, app_nil_r. by split_and!.
  - exists es. rewrite Hb. by split_and!.
Qed.

Lemma poll_polled fl log v :
  aimed (flight_place fl) ->
  polled (out_to fl) log (f_poll (flight_future fl) (flight_place fl) (log, v)).
Proof.
  destruct fl as [R path send place]. unfold flight_future, out_to. cbn [flight_result flight_path flight_send flight_place].
  unfold through_future. cbn [await f_poll]. destruct place as [|pick s|]; cbn [await_poll aimed].
  - intros _. unfold bind at 1, Endpoint.pick. rewrite Hpool. unfold bind at 1. cbn [select logged].
    destruct (select p v) as [[b|e] v1]; cbn [ret].
    + unfold ret. cbn [backend_url logged]. destruct (find_client (backend_url b) (clients self)) as [c|] eqn:Ec; cbn [ok_or rbind].
      * apply (resume_future_polled send log [Picked b] None _ b); [done..|].
        cbn. unfold has_client. rewrite Ec. by rewrite bool_decide_true by eauto.
      * exists [Picked b]. split; [done|]. split; [done|]. exists None. cbn. unfold has_client. rewrite Ec.
        rewrite bool_decide_false by (by intros []). split_and!; [done..|]. intros _. cbn.
        do 3 eexists. split; [done|]. by right.
    + exists []. rewrite app_nil_r. split; [done|]. split; [done|]. exists None. split_and!; [done..|]. intros _. cbn.
      do 3 eexists. split; [done|]. by left.
  - intros [b Hb]. pose proof (resume_future_polled send log [] (Some b) pick b s v Hb eq_refl eq_refl) as Hr.
    rewrite app_nil_r in Hr. by rewrite Hb.
  - intros _. exists []. rewrite app_nil_r. done.
Qed.

(** ** All of them *)

(** Dropping a call tells the pool nothing. *)
Lemma drop_silent fl log v : (f_drop (flight_future fl) (flight_place fl) (log, v)).2.1 = log.
Proof.
  destruct fl as [R path send place]. unfold flight_future. cbn. destruct place as [|pick s|]; cbn; [done| |done].
  unfold lift. by destruct (f_drop (send (pick_client pick)) s v).
Qed.

Lemma waiting_app l1 l2 : waiting (l1 ++ l2) = waiting l1 ++ waiting l2.
Proof. unfold waiting. induction l1 as [|fl l1 IH]; [done|]. cbn. by rewrite IH, app_assoc. Qed.

Lemma waiting_cons fl l : waiting (fl :: l) = option_list (out_to fl) ++ waiting l.
Proof. done. Qed.

(** Every call that waits was sent to a backend. *)
Fixpoint all_aimed (calls : list Flight) : Prop :=
  match calls with [] => True | fl :: l => aimed (flight_place fl) /\ all_aimed l end.

Lemma all_aimed_app l1 l2 : all_aimed (l1 ++ l2) <-> all_aimed l1 /\ all_aimed l2.
Proof. induction l1 as [|fl l1 IH]; cbn; tauto. Qed.

Lemma step_accounted ms m q q' ends :
  all_aimed q.1 -> accounted ms q ends -> pool_step m q q' ->
  all_aimed q'.1 /\ exists ends', accounted (ms ++ [m]) q' ends'.
Proof.
  intros Haim (Hres & Htold & Hserved & Hrefused) Hstep. unfold accounted.
  destruct Hstep as [calls [log v] R path send|l1 fl l2 [log v] place [log' v'] Hp
    |l1 fl l2 [log v] r place [log' v'] Hp|l1 fl l2 [log v]|calls log v v']; cbn [fst snd] in *;
    repeat rewrite ?waiting_app, ?omap_app in *.
  - split; [by apply all_aimed_app|]. exists ends. cbn. by rewrite !app_nil_r.
  - apply all_aimed_app in Haim as [H1 [Hfl H2]].
    pose proof (poll_polled fl log v Hfl) as Hpolled. rewrite Hp in Hpolled.
    destruct Hpolled as (es & -> & Haimed & Ht & Hs).
    split; [by apply all_aimed_app|]. exists ends.
    cbn [omap list_omap result_of dropped_from fst snd].
    rewrite !omap_app, Ht, !app_nil_r. split_and!; [done..| |done].
    change (omap served es ++ option_list (out_to fl) = option_list (out_to (at_place fl place))) in Hs.
    rewrite waiting_cons in Hserved |- *. rewrite Hserved, <- Hs. solve_Permutation.
  - apply all_aimed_app in Haim as [H1 [Hfl H2]].
    pose proof (poll_polled fl log v Hfl) as Hpolled. rewrite Hp in Hpolled.
    destruct Hpolled as (es & -> & -> & b & Ht & Hs & Hb).
    split; [by apply all_aimed_app|]. exists (ends ++ [(b, forget r)]). cbn.
    rewrite !omap_app, !fmap_app, Ht, Hres, Htold, !app_nil_r. cbn [omap list_omap fmap list_fmap].
    split_and!; [done|by destruct b| |by apply Forall_app; split; [|repeat constructor]].
    rewrite waiting_cons in Hserved.
    rewrite Hserved. transitivity ((omap sent_to ends).*1 ++ (omap served es ++ option_list (out_to fl)) ++ waiting l1 ++ waiting l2 ++ omap dropped_from ms); [solve_Permutation|].
    rewrite Hs. destruct b; cbn; solve_Permutation.
  - apply all_aimed_app in Haim as [H1 [Hfl H2]].
    split; [by apply all_aimed_app|]. exists ends. rewrite drop_silent. cbn. rewrite !app_nil_r.
    split_and!; [done..| |done].
    rewrite waiting_cons in Hserved.
    rewrite Hserved. destruct (out_to fl); cbn; solve_Permutation.
  - split; [done|]. exists ends. cbn. by rewrite !app_nil_r.
Qed.

Lemma runs_accounted v ms q :
  runs v ms q -> exists ends, accounted ms q ends.
Proof.
  intros Hr. assert (all_aimed q.1 /\ exists ends, accounted ms q ends) as [_ He]; [|done].
  induction Hr as [|ms m q q' _ [Ha [ends IH]] Hstep].
  - split; [constructor|]. by exists [].
  - by eapply step_accounted.
Qed.

(** ** Schedules *)

(** What happens to the calls, in order; a call is named by its place among those under way. *)
Inductive command :=
| Begin {R : Type} (path : string) (send : T -> Future V (Result R CallError))
| Poll (n : nat)
| Drop (n : nat).

Definition play (c : command) (run : list move * (list Flight * World)) :
    list move * (list Flight * World) :=
  let '(ms, (calls, s)) := run in
  match c with
  | Begin path send => (ms ++ [Began], (calls ++ [flight _ path send Unpolled], s))
  | Poll n =>
      match nth_error calls n with
      | None => run
      | Some fl =>
          match f_poll (flight_future fl) (flight_place fl) s with
          | ((None, place), s) =>
              (ms ++ [Waits], (firstn n calls ++ at_place fl place :: skipn (S n) calls, s))
          | ((Some r, place), s) =>
              (ms ++ [Ended (forget r)],
               (firstn n calls ++ skipn (S n) calls, (f_drop (flight_future fl) place s).2))
          end
      end
  | Drop n =>
      match nth_error calls n with
      | None => run
      | Some fl =>
          (ms ++ [Dropped (out_to fl)],
           (firstn n calls ++ skipn (S n) calls, (f_drop (flight_future fl) (flight_place fl) s).2))
      end
  end.

Lemma play_runs c v run : runs v run.1 run.2 -> runs v (play c run).1 (play c run).2.
Proof.
  destruct run as [ms [calls s]]. cbn [fst snd]. intros Hr. destruct c as [R path send|n|n]; cbn [play].
  - eapply runs_step; [exact Hr|apply pool_began].
  - destruct (nth_error calls n) as [fl|] eqn:E; [|done].
    destruct (f_poll (flight_future fl) (flight_place fl) s) as [[[r|] place] s'] eqn:Ep; cbn [fst snd];
      (eapply runs_step; [exact Hr|]); rewrite <- (firstn_skipn_middle n calls E) at 1.
    + by eapply pool_ended.
    + by eapply pool_waits.
  - destruct (nth_error calls n) as [fl|] eqn:E; [|done]. cbn [fst snd].
    eapply runs_step; [exact Hr|]. rewrite <- (firstn_skipn_middle n calls E) at 1. apply pool_dropped.
Qed.

Definition played (v : V) (cs : list command) : list move * (list Flight * World) :=
  fold_left (fun run c => play c run) cs ([], ([], ([], v))).

Lemma played_runs v cs : runs v (played v cs).1 (played v cs).2.
Proof.
  unfold played. assert (runs v (([], ([], ([], v))) : list move * (list Flight * World)).1
    (([], ([], ([], v))) : list move * (list Flight * World)).2) as Hr by apply runs_start.
  revert Hr. generalize (([], ([], ([], v))) : list move * (list Flight * World)) as run.
  induction cs as [|c cs IH]; intros run Hr; [exact Hr|]. cbn [fold_left]. apply IH, play_runs, Hr.
Qed.
End race.
Arguments Ended {_ _ _} _.

(** ** Properties *)


(** Three backends, of which the third has no client and the second cannot be reached; answers come at
    the second poll. *)
#[local] Existing Instance turn_lb.
#[local] Existing Instance list_contract.

Notation Turns := (nat * list (string * Outcome))%type.

Definition two_of_three : @EndpointTransport (list (PoolEvent Turns) * Turns) nat logged :=
  @endpoint_transport (list (PoolEvent Turns) * Turns) nat logged
    [("http://a", 1%nat); ("http://b", 2%nat)] (Some ["http://a"; "http://b"; "http://c"]).

Definition answer_later (n : nat) : Future Turns (Result nat CallError) := second_poll (send_to n).

(** Two calls wait for the first two backends, a third is refused; then the second ends and the first
    is dropped, while a fourth waits. *)
Definition schedule : list (command (V := Turns)) :=
  [Begin "/s/M" answer_later; Begin "/s/M" answer_later; Poll 0; Poll 1; Begin "/s/M" answer_later;
   Poll 2; Begin "/s/M" answer_later; Poll 2; Poll 1; Drop 0].

