(* ===== verification/Futures.v ===== *)
(** * Futures that await one another

    An [async fn] of a decorator awaits what it wraps, and goes on in the poll in which that is ready
    ([awaiting]).  Here is what such a future has in common with the operation it stands for
    ([ends], [alone]): the rules by which a decorator's file shows that its futures, polled to their
    end without a break, do what its operations do, for a whole client at once ([client_alone]). *)

From S2P Require Import Prelude Text Contract Interceptors Intercepted Channel Endpoint EgressBuilder Cancellation AsyncClient.
From Stdlib Require Import Lia Strings.Byte.
From stdpp Require Import base tactics strings option list.

(** ** Awaiting a future *)

Section awaiting.
Context {W A B S : Type}.

(** A poll of the state [back s], where [f] is awaited: once it is ready it is dropped and the code
    after the [await] runs in the same poll. *)
Definition awaiting (f : Future W A) (back : f_state f -> S) (next : A -> eff W (option B * S))
    (s : f_state f) : eff W (option B * S) :=
  let! (r, s) := f_poll f s in
  match r with
  | None => ret (None, back s)
  | Some a => f_drop f s ;;; next a
  end.

(** From what a poll gave, the future polled by nobody else ends with a result of [Q] and, dropped,
    leaves [v]. *)
Definition ends (poll : S -> eff W (option B * S)) (drop_ : S -> eff W unit) (Q : B -> Prop) (v : W)
    (out : option B * S * W) : Prop :=
  match out with
  | (Some b, s, w) => Q b /\ (drop_ s w).2 = v
  | (None, s, w) => exists n b s' w',
      drive poll id n s w = (Some b, (s', w')) /\ Q b /\ (drop_ s' w').2 = v
  end.

Lemma ends_drive poll drop_ Q v s w :
  ends poll drop_ Q v (poll s w) ->
  exists n b s' w', drive poll id (Datatypes.S n) s w = (Some b, (s', w')) /\ Q b /\ (drop_ s' w').2 = v.
Proof.
  cbn [drive]. destruct (poll s w) as [[[b|] s1] w1].
  - intros [Hb Hv]. by exists O, b, s1, w1.
  - intros (n & b & s' & w' & Hd & Hb & Hv). by exists n, b, s', w'.
Qed.

Lemma ends_later poll drop_ Q v s w :
  ends poll drop_ Q v (poll s w) -> ends poll drop_ Q v ((None, s), w).
Proof. intros (n & H)%ends_drive. by exists (Datatypes.S n). Qed.

(** An awaited future that is ready in the end gives way to what comes after it. *)
Lemma awaiting_ends poll drop_ Q v f back next n s w a s' w' :
  (forall s w, poll (back s) w = awaiting f back next s w) ->
  drive (f_poll f) id n s w = (Some a, (s', w')) ->
  ends poll drop_ Q v (next a (f_drop f s' w').2) ->
  ends poll drop_ Q v (awaiting f back next s w).
Proof.
  intros Hpoll Hd Hends. revert s w Hd. induction n as [|n IH]; intros s w; [done|]. cbn [drive].
  unfold awaiting, bind, ret. destruct (f_poll f s w) as [[[a'|] s2] w2].
  - intros [= -> -> ->]. by destruct (f_drop f s' w') as [[] w3].
  - intros Hd. apply ends_later. rewrite Hpoll. exact (IH s2 w2 Hd).
Qed.

(** The same of a future that stands for an operation [m]. *)
Lemma awaiting_alone {A'} (rel : A -> A' -> Prop) (m : eff W A') poll drop_ Q v f back next w :
  (forall s w, poll (back s) w = awaiting f back next s w) -> alone rel f m ->
  (forall a, rel a (m w).1 -> ends poll drop_ Q v (next a (m w).2)) ->
  ends poll drop_ Q v (awaiting f back next (f_start f) w).
Proof.
  intros Hpoll Hf Hnext. destruct (Hf w) as (n & a & s & w1 & Hd & Ha & Hdrop).
  apply (awaiting_ends _ _ _ _ _ _ _ _ _ _ _ _ _ Hpoll Hd). rewrite Hdrop. by apply Hnext.
Qed.
End awaiting.

Lemma ends_alone {W A B} (rel : A -> B -> Prop) (f : Future W A) (m : eff W B) :
  (forall w, ends (f_poll f) (f_drop f) (fun a => rel a (m w).1) (m w).2 (f_poll f (f_start f) w)) ->
  alone rel f m.
Proof. intros Hf w. exact (ends_drive _ _ _ _ _ _ (Hf w)). Qed.

Lemma alone_ext {W A B} (rel : A -> B -> Prop) f (m m' : eff W B) :
  (forall w, m w = m' w) -> alone rel f m -> alone rel f m'.
Proof. intros E Hf w. rewrite <- E. apply Hf. Qed.

Lemma bind_from {V A} (m : eff V A) v a v' :
  m v = (a, v') -> forall B (k : A -> eff V B), bind m k v = k a v'.
Proof. intros E B k. unfold bind. by rewrite E. Qed.

(** ** Futures that await nothing, and futures of an inner world *)

(** One that is ready at once. *)
Definition ready {W A} (a : A) : Future W A := {|
  f_state := unit;
  f_start := tt;
  f_poll s := ret (Some a, s);
  f_drop _ := ret tt;
|}.

Lemma ready_alone {W A B} (rel : A -> B -> Prop) a b : rel a b -> alone rel (ready (W := W) a) (ret b).
Proof. intros Hab w. by exists O, a, tt, w. Qed.

Lemma lift_drive {F W A} (f : Future W A) n s (x : F) w :
  drive (f_poll (f_lift f)) id n s (x, w)
  = let '(r, (s', w')) := drive (f_poll f) id n s w in (r, (s', (x, w'))).
Proof.
  revert s w. induction n as [|n IH]; intros s w; [done|]. cbn. unfold lift.
  destruct (f_poll f s w) as [[[a|] s'] w']; [done|apply IH].
Qed.

Lemma lift_alone {F W A B} (rel : A -> B -> Prop) (f : Future W A) (m : eff W B) :
  alone rel f m -> alone rel (f_lift (F := F) f) (lift m).
Proof.
  intros Hf [x w]. destruct (Hf w) as (n & a & s & w1 & Ed & Ea & Edrop). exists n, a, s, (x, w1).
  rewrite lift_drive. cbn [f_start f_lift] in *. rewrite Ed. split; [done|]. unfold lift. cbn.
  unfold lift. destruct (f_drop f s w1) as [[] w2], (m w). cbn in *. by subst.
Qed.

Lemma map_drive {W A B} (g : A -> B) (f : Future W A) n s w :
  drive (f_poll (f_map g f)) id n s w
  = let '(r, out) := drive (f_poll f) id n s w in (g <$> r, out).
Proof.
  revert s w. induction n as [|n IH]; intros s w; [done|]. cbn. unfold bind, ret.
  destruct (f_poll f s w) as [[[a|] s'] w']; [done|apply IH].
Qed.

Lemma map_alone {W A A' B B'} (rel : A -> A' -> Prop) (rel' : B -> B' -> Prop) (g : A -> B) (g' : A' -> B')
    (f : Future W A) (m : eff W A') :
  (forall a a', rel a a' -> rel' (g a) (g' a')) -> alone rel f m ->
  alone rel' (f_map g f) (let! a := m in ret (g' a)).
Proof.
  intros Hg Hf w. destruct (Hf w) as (n & a & s & w1 & Ed & Ea & Edrop). exists n, (g a), s, w1.
  rewrite map_drive. cbn [f_start f_map] in *. rewrite Ed. unfold bind, ret. destruct (m w). cbn in *. eauto.
Qed.

(** ** Streams of an inner world *)

Section lift_stream.
Context `{Contract} {F W : Type}.

Definition b_lift {S A} (read : Borrowing W S A) : Borrowing (F * W) S A := {|
  b_state := b_state read;
  b_start := b_start read;
  b_poll b := lift (b_poll read b);
  b_drop b := lift (b_drop read b);
|}.

Definition a_lift {T M} (a : AsyncStream W T M) : AsyncStream (F * W) T M := {|
  a_state := a_state a;
  a_value := a_value a;
  a_read_message := b_lift (a_read_message a);
  a_get_headers s := lift (a_get_headers a s);
  a_read_trailers := b_lift (a_read_trailers a);
  a_drop s := lift (a_drop a s);
|}.

Lemma b_lift_drive {S A} (read : Borrowing W S A) n b (x : F) w :
  drive (b_poll (b_lift read)) id n b (x, w)
  = let '(r, (b', w')) := drive (b_poll read) id n b w in (r, (b', (x, w'))).
Proof.
  revert b w. induction n as [|n IH]; intros b w; [done|]. cbn. unfold lift.
  destruct (b_poll read b w) as [[[a|] b'] w']; [done|apply IH].
Qed.

Lemma b_lift_alone {S A} (read : Borrowing W S A) m :
  read_alone read m -> read_alone (b_lift read) (fun s => lift (m s)).
Proof.
  intros Hm s [x w]. destruct (Hm s w) as (n & b & w1 & Ed & Edrop). exists n, b, (x, w1).
  rewrite b_lift_drive. cbn [b_start b_lift]. rewrite Ed. unfold lift. cbn. unfold lift. rewrite Edrop.
  by destruct (m s w) as [[]].
Qed.

Lemma lift_stream_alone {T M} (a : AsyncStream W T M) ops :
  stream_alone a ops -> stream_alone (a_lift a) (lift_ops ops).
Proof.
  intros [Hm Hh Ht Hd]. split.
  - exact (b_lift_alone _ _ Hm).
  - intros s [x w]. cbn. unfold lift. by rewrite Hh.
  - exact (b_lift_alone _ _ Ht).
  - intros s [x w]. cbn. unfold lift. by rewrite Hd.
Qed.

Lemma same_stream_lift {T M} (r : Result (AsyncStream W T M) CallError) r' :
  same_stream r r' -> same_stream (rmap a_lift r) (rmap (lift_stream (F := F)) r').
Proof. destruct 1 as [a ops Ha|e]; [exact (same_opened (a_lift a) _ (lift_stream_alone a ops Ha))|constructor]. Qed.
End lift_stream.

(** ** A client alone *)

Section client_alone.
Context `{Contract} {W : Type}.

(** A client of futures against one of operations, with the same metadata: all four calls agree. *)
Inductive transport_alone : AsyncTransport W -> Transport W -> Prop :=
| Transport_alone M view f1 f2 f3 f4 m1 m2 m3 m4 :
    (forall Me m o, alone Logic.eq (f1 Me m o) (m1 Me m o)) ->
    (forall Me m o, alone same_stream (f2 Me m o) (m2 Me m o)) ->
    (forall Me m o, alone Logic.eq (f3 Me m o) (m3 Me m o)) ->
    (forall Me m o, alone same_stream (f4 Me m o) (m4 Me m o)) ->
    transport_alone
      {| at_metadata := M; at_call := f1; at_call_server_stream := f2;
         at_call_client_stream := f3; at_call_bidi_stream := f4 |}
      {| t_metadata := M; t_view := view; call := m1; call_server_stream := m2;
         call_client_stream := m3; call_bidi_stream := m4 |}.

Inductive raw_alone : AsyncRawTransport W -> RawTransport W -> Prop :=
| Raw_alone M view f1 f2 f3 f4 m1 m2 m3 m4 :
    (forall p m o, alone Logic.eq (f1 p m o) (m1 p m o)) ->
    (forall p m o, alone same_stream (f2 p m o) (m2 p m o)) ->
    (forall p m o, alone Logic.eq (f3 p m o) (m3 p m o)) ->
    (forall p m o, alone same_stream (f4 p m o) (m4 p m o)) ->
    raw_alone
      {| ar_metadata := M; ar_call_raw := f1; ar_call_raw_server_stream := f2;
         ar_call_raw_client_stream := f3; ar_call_raw_bidi_stream := f4 |}
      {| r_metadata := M; r_view := view; call_raw := m1; call_raw_server_stream := m2;
         call_raw_client_stream := m3; call_raw_bidi_stream := m4 |}.

Record client_alone (a : AsyncClient W) (c : Client W) : Prop := {
  typed_alone : transport_alone (a_typed a) (typed c);
  raws_alone : raw_alone (a_raw a) (raw c);
}.
End client_alone.

(** What a built client relies on of the engine's futures. *)
Record engine_alone `{Contract} {W T} (ct : ClientType W T) (HF : EngineFutures W T ct) : Prop := {
  engine_call : forall t M m o, alone Logic.eq (call_future ct t M m o) (ct_call ct t M m o);
  engine_server_stream : forall t M m o,
    alone same_stream (server_stream_future ct t M m o) (ct_call_server_stream ct t M m o);
  engine_client_stream : forall t M m o,
    alone Logic.eq (client_stream_future ct t M m o) (ct_call_client_stream ct t M m o);
  engine_bidi_stream : forall t M m o,
    alone same_stream (bidi_stream_future ct t M m o) (ct_call_bidi_stream ct t M m o);
  engine_call_raw : forall t p m o, alone Logic.eq (call_raw_future ct t p m o) (cr_call_raw ct t p m o);
  engine_raw_server_stream : forall t p m o,
    alone same_stream (raw_server_stream_future ct t p m o) (cr_call_raw_server_stream ct t p m o);
  engine_raw_client_stream : forall t p m o,
    alone Logic.eq (raw_client_stream_future ct t p m o) (cr_call_raw_client_stream ct t p m o);
  engine_raw_bidi_stream : forall t p m o,
    alone same_stream (raw_bidi_stream_future ct t p m o) (cr_call_raw_bidi_stream ct t p m o);
}.

Lemma built_alone `{Contract} {W T} `{!LoadbalancerSvc W} (ct : ClientType W T) call_error_to_string
    {HF : EngineFutures W T ct} (parts : EndpointTransport W T * StdGrpcEgressInterceptorChain (W := W)) :
  engine_alone ct HF ->
  client_alone (built_client ct call_error_to_string parts) (client_of ct call_error_to_string parts).
Proof.
  intros []. split; constructor; intros x m o.
  1, 3, 5, 7: by apply answered_alone.
  all: by apply streamed_alone.
Qed.

Lemma second_alone `{Contract} {W T} (ct : ClientType W T) : engine_alone ct (second_futures ct).
Proof. split; intros; (apply second_poll_alone || apply slowly_alone). Qed.
