(* ===== verification/RetryConfig.v ===== *)
(** * The retry policy

    [retry-api/src/vo/grpc_retry_config.rs], [retry-spi/src/spi/config/std_grpc_retry_config_builder.rs]
    and [std_grpc_retry_config_provider.rs]: the validated policy value, its builder and its parser.
    Reading TOML text is the crate [toml]'s; what it gives for a text is the parameter
    [toml_from_str], and how it reports an error of the conversion is [toml_custom]. *)

From S2P Require Import Prelude Text Contract F64.
From Stdlib Require Import NArith.
From stdpp Require Import base tactics strings option.

Open Scope N_scope.

(** [RetryError] of the policy crate, by the two variants this repository builds. *)
Inductive RetryError :=
| ParseFailed (text : string)
| InvalidConfig (text : string).

(** ** The value *)

(** [BuildGrpcRetryConfigRequest], [GrpcRetryConfigData] and [GrpcRetryConfig] have the same eight
    fields; the last is only made by [try_new] and [default]. *)
Record RetryFields := {
  max_attempts : N;
  initial_backoff_ms : N;
  backoff_multiplier : f64;
  jitter_factor : f64;
  max_backoff_ms : N;
  rate_limit_max_attempts : N;
  rate_limit_initial_backoff_ms : N;
  rate_limit_max_backoff_ms : N;
}.

Record GrpcRetryConfig := retry_config { fields : RetryFields }.

Definition try_new (input : RetryFields) : Result GrpcRetryConfig RetryError :=
  if max_attempts input =? 0 then Err (InvalidConfig "max_attempts must be >= 1")
  else if rate_limit_max_attempts input =? 0
  then Err (InvalidConfig "rate_limit_max_attempts must be >= 1")
  else if f64_le (backoff_multiplier input) f64_zero || negb (is_finite (backoff_multiplier input))
  then Err (InvalidConfig "backoff_multiplier must be a positive finite number")
  else if negb (in_unit_interval (jitter_factor input)) || negb (is_finite (jitter_factor input))
  then Err (InvalidConfig "jitter_factor must be in [0.0, 1.0]")
  else if max_backoff_ms input <? initial_backoff_ms input
  then Err (InvalidConfig "max_backoff_ms must be >= initial_backoff_ms")
  else if rate_limit_max_backoff_ms input <? rate_limit_initial_backoff_ms input
  then Err (InvalidConfig "rate_limit_max_backoff_ms must be >= rate_limit_initial_backoff_ms")
  else Ok (retry_config input).

(** [TryFrom<GrpcRetryConfigData>]. *)
Definition try_from (data : RetryFields) : Result GrpcRetryConfig RetryError :=
  try_new {|
    max_attempts := max_attempts data;
    initial_backoff_ms := initial_backoff_ms data;
    backoff_multiplier := backoff_multiplier data;
    jitter_factor := jitter_factor data;
    max_backoff_ms := max_backoff_ms data;
    rate_limit_max_attempts := rate_limit_max_attempts data;
    rate_limit_initial_backoff_ms := rate_limit_initial_backoff_ms data;
    rate_limit_max_backoff_ms := rate_limit_max_backoff_ms data;
  |}.

Definition default_fields : RetryFields := {|
  max_attempts := 5;
  initial_backoff_ms := 100;
  backoff_multiplier := f64_two;
  jitter_factor := f64_tenth;
  max_backoff_ms := 5000;
  rate_limit_max_attempts := 2;
  rate_limit_initial_backoff_ms := 1000;
  rate_limit_max_backoff_ms := 10000;
|}.

Definition default : GrpcRetryConfig := retry_config default_fields.

(** The derived [PartialEq]: field by field, IEEE equality on the floats. *)
Definition eq (a b : GrpcRetryConfig) : bool :=
  let a := fields a in
  let b := fields b in
  (max_attempts a =? max_attempts b) && (initial_backoff_ms a =? initial_backoff_ms b)
  && f64_eq (backoff_multiplier a) (backoff_multiplier b)
  && f64_eq (jitter_factor a) (jitter_factor b)
  && (max_backoff_ms a =? max_backoff_ms b)
  && (rate_limit_max_attempts a =? rate_limit_max_attempts b)
  && (rate_limit_initial_backoff_ms a =? rate_limit_initial_backoff_ms b)
  && (rate_limit_max_backoff_ms a =? rate_limit_max_backoff_ms b).

Definition section_name : string := "grpc_retry".

(** What the back-off crate reads of a policy: its traits [BackoffPolicy] and
    [RateLimitBackoffPolicy], which the configuration implements. *)
Record BackoffPolicy := {
  bp_initial_backoff_ms : N;
  bp_max_backoff_ms : N;
  bp_backoff_multiplier : f64;
  bp_jitter_factor : f64;
}.

Record RateLimitBackoffPolicy := {
  rp_max_attempts : N;
  rp_initial_backoff_ms : N;
  rp_max_backoff_ms : N;
}.

Definition backoff_policy (c : GrpcRetryConfig) : BackoffPolicy := {|
  bp_initial_backoff_ms := initial_backoff_ms (fields c);
  bp_max_backoff_ms := max_backoff_ms (fields c);
  bp_backoff_multiplier := backoff_multiplier (fields c);
  bp_jitter_factor := jitter_factor (fields c);
|}.

Definition rate_limit_policy (c : GrpcRetryConfig) : RateLimitBackoffPolicy := {|
  rp_max_attempts := rate_limit_max_attempts (fields c);
  rp_initial_backoff_ms := rate_limit_initial_backoff_ms (fields c);
  rp_max_backoff_ms := rate_limit_max_backoff_ms (fields c);
|}.

(** ** The provider *)

Module Provider.
Definition initial_backoff (c : GrpcRetryConfig) : Duration :=
  from_millis (initial_backoff_ms (fields c)).
Definition max_backoff (c : GrpcRetryConfig) : Duration := from_millis (max_backoff_ms (fields c)).
Definition rate_limit_initial_backoff (c : GrpcRetryConfig) : Duration :=
  from_millis (rate_limit_initial_backoff_ms (fields c)).
Definition rate_limit_max_backoff (c : GrpcRetryConfig) : Duration :=
  from_millis (rate_limit_max_backoff_ms (fields c)).

Definition validate (config : GrpcRetryConfig) : Result unit RetryError :=
  let c := fields config in
  if max_attempts c =? 0 then Err (InvalidConfig "max_attempts must be >= 1")
  else if f64_le (backoff_multiplier c) f64_zero || negb (is_finite (backoff_multiplier c))
  then Err (InvalidConfig "backoff_multiplier must be a positive finite number")
  else if negb (in_unit_interval (jitter_factor c)) || negb (is_finite (jitter_factor c))
  then Err (InvalidConfig "jitter_factor must be in [0.0, 1.0]")
  else if max_backoff_ms c <? initial_backoff_ms c
  then Err (InvalidConfig "max_backoff_ms must be >= initial_backoff_ms")
  else if rate_limit_max_attempts c =? 0
  then Err (InvalidConfig "rate_limit_max_attempts must be >= 1")
  else if rate_limit_max_backoff_ms c <? rate_limit_initial_backoff_ms c
  then Err (InvalidConfig "rate_limit_max_backoff_ms must be >= rate_limit_initial_backoff_ms")
  else Ok tt.

Section parse.
Context (toml_from_str : string -> Result RetryFields string) (toml_custom : RetryError -> string).

(** [toml::from_str::<GrpcRetryConfig>]: the data, then the conversion [serde] is told to make. *)
Definition deserialize (text : string) : Result GrpcRetryConfig string :=
  let? data := toml_from_str text in
  map_err toml_custom (try_from data).

Definition parse_config (text : string) : Result GrpcRetryConfig RetryError :=
  let? cfg := map_err ParseFailed (deserialize text) in
  let? _ := validate cfg in
  Ok cfg.
End parse.
End Provider.

(** ** The builder *)

Module Builder.
(** [StdGrpcRetryConfigBuilder] holds the same eight fields. *)
Definition t : Type := RetryFields.

Definition new : t := {|
  max_attempts := max_attempts (fields default);
  initial_backoff_ms := initial_backoff_ms (fields default);
  backoff_multiplier := backoff_multiplier (fields default);
  jitter_factor := jitter_factor (fields default);
  max_backoff_ms := max_backoff_ms (fields default);
  rate_limit_max_attempts := rate_limit_max_attempts (fields default);
  rate_limit_initial_backoff_ms := rate_limit_initial_backoff_ms (fields default);
  rate_limit_max_backoff_ms := rate_limit_max_backoff_ms (fields default);
|}.

(** One fluent call. *)
Inductive setter :=
| SetMaxAttempts (v : N)
| SetInitialBackoffMs (v : N)
| SetBackoffMultiplier (v : f64)
| SetJitterFactor (v : f64)
| SetMaxBackoffMs (v : N)
| SetRateLimitMaxAttempts (v : N)
| SetRateLimitInitialBackoffMs (v : N)
| SetRateLimitMaxBackoffMs (v : N).

Definition set (b : t) (s : setter) : t :=
  let '(Build_RetryFields a i m j x ra ri rx) := b in
  match s with
  | SetMaxAttempts v => Build_RetryFields v i m j x ra ri rx
  | SetInitialBackoffMs v => Build_RetryFields a v m j x ra ri rx
  | SetBackoffMultiplier v => Build_RetryFields a i v j x ra ri rx
  | SetJitterFactor v => Build_RetryFields a i m v x ra ri rx
  | SetMaxBackoffMs v => Build_RetryFields a i m j v ra ri rx
  | SetRateLimitMaxAttempts v => Build_RetryFields a i m j x v ri rx
  | SetRateLimitInitialBackoffMs v => Build_RetryFields a i m j x ra v rx
  | SetRateLimitMaxBackoffMs v => Build_RetryFields a i m j x ra ri v
  end.

Definition build (b : t) : Result GrpcRetryConfig RetryError :=
  let? config := try_new {|
    max_attempts := max_attempts b;
    initial_backoff_ms := initial_backoff_ms b;
    backoff_multiplier := backoff_multiplier b;
    jitter_factor := jitter_factor b;
    max_backoff_ms := max_backoff_ms b;
    rate_limit_max_attempts := rate_limit_max_attempts b;
    rate_limit_initial_backoff_ms := rate_limit_initial_backoff_ms b;
    rate_limit_max_backoff_ms := rate_limit_max_backoff_ms b;
  |} in
  let? _ := Provider.validate config in
  Ok config.
End Builder.

(** [StdGrpcRetryConfigBuilderFactory::build]. *)
Definition retry_config_builder : Builder.t := Builder.new.

(** ** What a policy promises *)

(** The ranges the documentation of the fields states. *)
Record well_formed (c : RetryFields) : Prop := {
  wf_attempts : 1 <= max_attempts c;
  wf_rate_limit_attempts : 1 <= rate_limit_max_attempts c;
  wf_multiplier : f64_lt f64_zero (backoff_multiplier c) = true;
  wf_multiplier_finite : is_finite (backoff_multiplier c) = true;
  wf_jitter : in_unit_interval (jitter_factor c) = true;
  wf_backoff : initial_backoff_ms c <= max_backoff_ms c;
  wf_rate_limit_backoff : rate_limit_initial_backoff_ms c <= rate_limit_max_backoff_ms c;
}.

Lemma f64_positive x :
  is_finite x = true -> f64_le x f64_zero = negb (f64_lt f64_zero x).
Proof. destruct x as [s|s| |[] m e]; done. Qed.

(** [try_new] accepts exactly the well-formed fields, and keeps them. *)
Lemma retry_try_new_ok input c : try_new input = Ok c <-> well_formed input /\ c = retry_config input.
Proof.
  unfold try_new. split.
  - intros H. repeat case_match; simplify_eq. bool_prop. split; [|done].
    split; try lia; try done. rewrite f64_positive in * by done. by bool_prop.
  - intros [[? ? ? ? Hj ? ?] ->]. pose proof (in_unit_interval_finite _ Hj) as Hf.
    rewrite (proj2 (N.eqb_neq (max_attempts input) 0)) by lia.
    rewrite (proj2 (N.eqb_neq (rate_limit_max_attempts input) 0)) by lia.
    rewrite f64_positive by done.
    rewrite wf_multiplier0, wf_multiplier_finite0, Hj, Hf. cbn [negb orb].
    rewrite (proj2 (N.ltb_ge (max_backoff_ms input) (initial_backoff_ms input))) by done.
    by rewrite (proj2 (N.ltb_ge (rate_limit_max_backoff_ms input) _)) by done.
Qed.

Lemma retry_try_new_err input e : try_new input = Err e -> exists text, e = InvalidConfig text.
Proof. unfold try_new. intros H. repeat case_match; naive_solver. Qed.

Lemma retry_validate_well_formed c : well_formed (fields c) -> Provider.validate c = Ok tt.
Proof.
  intros Hwf. destruct (proj2 (retry_try_new_ok (fields c) (retry_config (fields c))) (conj Hwf eq_refl)).
  destruct Hwf as [? ? ? ? Hj ? ?]. pose proof (in_unit_interval_finite _ Hj) as Hf.
  unfold Provider.validate.
  rewrite (proj2 (N.eqb_neq (max_attempts _) 0)) by lia.
  rewrite f64_positive by done. rewrite wf_multiplier0, wf_multiplier_finite0, Hj, Hf.
  cbn [negb orb].
  rewrite (proj2 (N.ltb_ge (max_backoff_ms _) _)) by done.
  rewrite (proj2 (N.eqb_neq (rate_limit_max_attempts _) 0)) by lia.
  by rewrite (proj2 (N.ltb_ge (rate_limit_max_backoff_ms _) _)) by done.
Qed.

Lemma retry_default_well_formed : well_formed (fields default).
Proof. split; try done; vm_compute; congruence. Qed.

Lemma build_try_new b : Builder.build b = try_new b.
Proof.
  unfold Builder.build. destruct b. cbn. destruct (try_new _) as [c|e] eqn:E; [|done].
  apply retry_try_new_ok in E as [Hwf ->]. cbn [rbind]. by rewrite retry_validate_well_formed.
Qed.

Lemma last_setter_wins b s s' :
  match s, s' with
  | Builder.SetMaxAttempts _, Builder.SetMaxAttempts _
  | Builder.SetInitialBackoffMs _, Builder.SetInitialBackoffMs _
  | Builder.SetBackoffMultiplier _, Builder.SetBackoffMultiplier _
  | Builder.SetJitterFactor _, Builder.SetJitterFactor _
  | Builder.SetMaxBackoffMs _, Builder.SetMaxBackoffMs _
  | Builder.SetRateLimitMaxAttempts _, Builder.SetRateLimitMaxAttempts _
  | Builder.SetRateLimitInitialBackoffMs _, Builder.SetRateLimitInitialBackoffMs _
  | Builder.SetRateLimitMaxBackoffMs _, Builder.SetRateLimitMaxBackoffMs _ =>
      Builder.set (Builder.set b s) s' = Builder.set b s'
  | _, _ => Builder.set (Builder.set b s) s' = Builder.set (Builder.set b s') s
  end.
Proof. by destruct b, s, s'. Qed.

(** ** Properties *)

(** A sequence of fluent calls on a new builder builds a policy exactly when the values it leaves
    are well formed, and then the policy has these values; else the failure is an [InvalidConfig].
    Without a call it builds the default policy. *)
Theorem retry_builder_correct (calls : list Builder.setter) :
  let b := fold_left Builder.set calls Builder.new in
  (forall c, Builder.build b = Ok c <-> well_formed b /\ c = retry_config b) /\
  (~ well_formed b -> exists text, Builder.build b = Err (InvalidConfig text)) /\
  Builder.build Builder.new = Ok default.
Proof.
  intros b. rewrite !build_try_new. split_and!.
  - intros c. apply retry_try_new_ok.
  - intros Hwf. destruct (try_new b) as [c|e] eqn:E; [by apply retry_try_new_ok in E as [? _]|].
    apply retry_try_new_err in E as [text ->]. eauto.
  - done.
Qed.

(** Parsing gives a well-formed policy, equal to itself under the derived equality, or a
    [ParseFailed]: a value out of range is refused by the deserialization, so the [InvalidConfig]
    that the validation after it can give never comes out. *)
Theorem retry_parse_config toml_from_str toml_custom text :
  match Provider.parse_config toml_from_str toml_custom text with
  | Ok c => well_formed (fields c) /\ eq c c = true /\ toml_from_str text = Ok (fields c)
  | Err e => exists why, e = ParseFailed why
  end.
Proof.
  unfold Provider.parse_config, Provider.deserialize.
  destruct (toml_from_str text) as [data|e]; cbn [rbind map_err]; [|eauto].
  destruct (try_from data) as [c|e] eqn:E; cbn [rbind map_err]; [|eauto].
  apply retry_try_new_ok in E as [Hwf ->]. rewrite retry_validate_well_formed by done. cbn [rbind].
  destruct Hwf, data. cbn in *. split_and!; [done| |done].
  unfold eq. cbn. rewrite !N.eqb_refl, !f64_eq_refl; try done.
  by apply in_unit_interval_finite.
Qed.
