(* ===== verification/RetryClassifier.v ===== *)
(** * Which failures are retried

    [retry-api/src/traits/retry_classifier.rs] as the class [RetryClassifier] with the laws its
    documentation states, [retry-api/src/vo/retry_decision.rs] and [resource_exhausted_context.rs] as
    data, and [retry-std/src/std/std_retry_classifier.rs] as the instance [std_retry_classifier]. *)

From S2P Require Import Prelude Text Contract.
From Stdlib Require Import NArith Lia Ascii.
From stdpp Require Import base tactics strings option list.

Open Scope string_scope.

(** ** Data *)

Inductive RetryDecision := Success | Retry | RetryRateLimit | Terminal.

#[export] Instance RetryDecision_eq_dec : EqDecision RetryDecision.
Proof. solve_decision. Defined.

Inductive ResourceExhaustedContext := Capacity | RateLimit | HardQuota.

(** ** The interface *)

Class RetryClassifier `{Contract} := {
  classify : forall {T}, Result T CallError -> RetryDecision;
  classify_resource_exhausted : string -> ResourceExhaustedContext;
  should_retry : RetryDecision -> bool;
  is_rate_limit : RetryDecision -> bool;
  read_retry_after : CallError -> option Duration;
  parse_retry_after_hint : string -> option Duration;
}.

(** What the retry loop relies on: a result is a success exactly when it is a response, and the
    decision does not look into the response. *)
Class RetryClassifierLaws `{Contract} (C : RetryClassifier) : Prop := {
  classify_ok : forall T (r : T), classify (Ok r) = Success;
  classify_err : forall T (e : CallError), classify (Err e : Result T CallError) <> Success;
}.

(** ** The standard classifier *)

Section std.
Context `{Contract}.

Definition RETRY_AFTER_KEYS : list string := ["retry-after"; "x-ratelimit-reset-requests"].

Definition std_classify_resource_exhausted (message : string) : ResourceExhaustedContext :=
  let msg := to_ascii_lowercase message in
  if contains msg "quota" || contains msg "billing" || contains msg "plan limit" then HardQuota
  else if contains msg "rate" || contains msg "too many requests" || contains msg "throttl"
  then RateLimit
  else Capacity.

Definition classify_status (code : StatusCode) (msg : string) : RetryDecision :=
  match code with
  | Unavailable => Retry
  | ResourceExhausted =>
      match std_classify_resource_exhausted msg with
      | HardQuota => Terminal
      | RateLimit => RetryRateLimit
      | Capacity => Retry
      end
  | Unauthenticated | PermissionDenied | DeadlineExceeded | Internal | StatusCancelled | StatusOk
  | StatusUnknown | InvalidArgument | NotFound | AlreadyExists | FailedPrecondition | Aborted
  | OutOfRange | Unimplemented | DataLoss => Terminal
  end.

Definition std_classify {T} (result : Result T CallError) : RetryDecision :=
  match result with
  | Ok _ => Success
  | Err (Status _ code message _ _) => classify_status code message
  | Err (Transport_ _ code _) =>
      match code with Unavailable | StatusUnknown => Retry | _ => Terminal end
  | Err (Encode _) | Err (Decode _) => Terminal
  end.

Definition std_should_retry (decision : RetryDecision) : bool :=
  match decision with Retry | RetryRateLimit => true | _ => false end.

Definition std_is_rate_limit (decision : RetryDecision) : bool :=
  match decision with RetryRateLimit => true | _ => false end.

(** The slices [&message[start..]] and [&rest[..end]] are at indices [find] gave, after and before
    ASCII text, so they do not panic. *)
Definition std_parse_retry_after_hint (message : string) : option Duration :=
  let tag := "[retry-after=" in
  i ← Text.find tag message;
  let rest := drop_bytes (i + str_len tag) message in
  stop ← Text.find "s" rest;
  secs ← parse_u64 (take_bytes stop rest);
  Some (from_secs secs).

(** [iter().find_map]. *)
Fixpoint find_map {A B} (f : A -> option B) (l : list A) : option B :=
  match l with
  | [] => None
  | a :: l' => match f a with Some b => Some b | None => find_map f l' end
  end.

Definition unwrap_or_default {A E} (r : Result (list A) E) : list A :=
  match r with Ok l => l | Err _ => [] end.

Definition std_read_retry_after (error : CallError) : option Duration :=
  match error with
  | Status _ _ message _ trailers =>
      let from_trailers := find_map (fun key =>
        value ← head (unwrap_or_default (get_values metadata_view trailers key));
        parse_u64 (trim value)) RETRY_AFTER_KEYS in
      match from_trailers with
      | Some secs => Some (from_secs secs)
      | None => std_parse_retry_after_hint message
      end
  | _ => None
  end.

#[export] Instance std_retry_classifier : RetryClassifier := {|
  classify T := std_classify;
  classify_resource_exhausted := std_classify_resource_exhausted;
  should_retry := std_should_retry;
  is_rate_limit := std_is_rate_limit;
  read_retry_after := std_read_retry_after;
  parse_retry_after_hint := std_parse_retry_after_hint;
|}.

#[export] Instance std_retry_classifier_laws : RetryClassifierLaws std_retry_classifier.
Proof.
  split; [done|]. intros T [? code ? ? ?|? code ?| |]; cbn; try done; unfold classify_status;
    repeat case_match; done.
Qed.
End std.

(** ** Lemmas *)

(** The text a peer's hint has in a message. *)
Definition retry_after_text (secs : N) : string := "[retry-after=" +:+ decimal secs +:+ "s]".

Lemma lacks_tag pre post :
  lacks "["%char pre -> Text.find "[retry-after=" (pre +:+ "[retry-after=" +:+ post) = Some (str_len pre).
Proof. apply (find_after_lacking "["%char "retry-after="). Qed.

(** A keyword anywhere in the text, in any case, is found by the case-folded search. *)
Lemma contains_lowercase pre key post :
  to_ascii_lowercase key = key -> forall key', to_ascii_lowercase key' = key ->
  contains (to_ascii_lowercase (pre +:+ key' +:+ post)) key = true.
Proof.
  intros Hk key' Hk'. apply contains_spec. rewrite !to_ascii_lowercase_app, Hk'. eauto.
Qed.

(** ** Properties *)

(** The decision the documentation's table gives for a failure. *)
Definition documented_decision `{Contract} (error : CallError) (d : RetryDecision) : Prop :=
  match error with
  | Encode _ | Decode _ => d = Terminal
  | Transport_ _ code _ => d = (if decide (code = Unavailable \/ code = StatusUnknown) then Retry else Terminal)
  | Status _ code message _ _ =>
      if decide (code = Unavailable) then d = Retry
      else if decide (code = ResourceExhausted)
      then d = match std_classify_resource_exhausted message with
               | Capacity => Retry | RateLimit => RetryRateLimit | HardQuota => Terminal
               end
      else d = Terminal
  end.

(** C9: The standard classifier decides as the table in the documentation of [classify]: a response
    is a success, a failure gets the decision of its row, and [should_retry] and [is_rate_limit] name
    the two retry tracks. *)
Theorem classify_table `{Contract} {T} (result : Result T CallError) :
  match result with
  | Ok _ => std_classify result = Success
  | Err e => documented_decision e (std_classify result)
  end /\
  (std_should_retry (std_classify result) = true <->
     std_classify result = Retry \/ std_classify result = RetryRateLimit) /\
  (std_is_rate_limit (std_classify result) = true <-> std_classify result = RetryRateLimit).
Proof.
  split; [|by split; destruct (std_classify result); naive_solver].
  destruct result as [r|[? code ? ? ?|? code ?| |]]; try done; by destruct code.
Qed.

(** A [ResourceExhausted] status whose message mentions a quota, billing or a plan limit, in any
    case and whatever else it says, is terminal. *)
Theorem hard_quota_never_retried `{Contract} {T} path pre key post details trailers :
  to_ascii_lowercase key ∈ ["quota"; "billing"; "plan limit"] ->
  std_classify (Err (Status path ResourceExhausted (pre +:+ key +:+ post) details trailers)
                : Result T CallError) = Terminal.
Proof.
  intros Hkey. unfold std_classify, classify_status, std_classify_resource_exhausted. cbv zeta.
  rewrite !elem_of_cons in Hkey.
  destruct Hkey as [E|[E|[E|[]%elem_of_nil]]];
    rewrite (contains_lowercase pre _ post (eq_trans (f_equal to_ascii_lowercase (eq_sym E))
      (eq_trans (to_ascii_lowercase_idem key) E)) key E), ?orb_true_r; done.
Qed.

Lemma hard_quota_never_retried_witness :
  @std_classify list_contract unit
    (Err (@Status list_contract "/s/M" ResourceExhausted ("Rate limit: " +:+ "QUOTA" +:+ " spent")
            [] ([], []))) = Terminal.
Proof. apply (@hard_quota_never_retried list_contract). apply elem_of_cons. by left. Defined.

(** A hint [[retry-after=Ns]] in the message of a status is read back as [N] seconds, for every
    [N] of 64 bits, when no text before it has a bracket and no trailer gives a usable time. *)
Theorem retry_after_roundtrip `{Contract} path code pre secs post details trailers :
  (secs <= U64_MAX)%N -> lacks "["%char pre ->
  find_map (fun key =>
    value ← head (unwrap_or_default (get_values metadata_view trailers key));
    parse_u64 (trim value)) RETRY_AFTER_KEYS = None ->
  std_read_retry_after
    (Status path code (pre +:+ retry_after_text secs +:+ post) details trailers)
  = Some (from_secs secs).
Proof.
  intros Hsecs Hpre Htr. unfold std_read_retry_after. rewrite Htr.
  unfold std_parse_retry_after_hint, retry_after_text. cbv zeta. rewrite !string_app_assoc.
  rewrite lacks_tag by done. cbn [mbind option_bind].
  rewrite drop_bytes_add, drop_bytes_app.
  rewrite (drop_bytes_app "[retry-after=").
  change ("s]" +:+ post) with (String "s"%char "" +:+ "]" +:+ post).
  rewrite find_after_lacking by (apply decimal_lacks; vm_compute; intros [? ?]; done).
  cbn [mbind option_bind]. rewrite take_bytes_app, parse_u64_decimal by done. done.
Qed.

Lemma retry_after_roundtrip_witness :
  @std_read_retry_after list_contract
    (@Status list_contract "/s/M" ResourceExhausted ("busy " +:+ retry_after_text 30 +:+ "") []
      ([("retry-after", "soon")], [])) = Some (30000000000)%N.
Proof.
  apply (@retry_after_roundtrip list_contract "/s/M" ResourceExhausted "busy " 30 "").
  - vm_compute. congruence.
  - unfold lacks. vm_compute. repeat constructor; discriminate.
  - reflexivity.
Defined.
