(* ===== verification/Retry.v ===== *)
(** * The retry decorator

    [retry-spi/src/spi/decorator/retry_transport.rs] and [grpc_retry_client.rs]: unary calls are
    attempted again as the policy and the classifier say; streaming calls are forwarded.

    The back-off computation and the jitter generator are the crate [edge_transport_retry]'s (class
    [Backoff]).  Reading the clock, sleeping and attempting are effects on a state [V]; log lines are
    left out.  [policy] is the abstract specification: the runs of the loop as sequences of events,
    and [retry_loop_policy] is the refinement. *)

From S2P Require Import Prelude Text Contract F64 RetryConfig RetryClassifier.
From Stdlib Require Import NArith Lia.
From stdpp Require Import base tactics strings option list.

Open Scope N_scope.

(** ** What the loop calls *)

(** [BackoffScheduler] and [DefaultJitterRng]: a back-off is a function of what the policy traits
    show of the configuration, of the number of the attempt and of a random number. *)
Class Backoff := {
  Rng : Type;
  next_unit : Rng -> f64 * Rng;
  next_backoff : BackoffPolicy -> N -> f64 -> Duration;
  rate_limit_backoff : RateLimitBackoffPolicy -> N -> option Duration -> f64 -> Duration;
}.

(** [Instant::now], [tokio::time::sleep] and [DefaultJitterRng::from_clock]; an instant is the
    nanoseconds since some origin. *)
Record Clock `{Backoff} (V : Type) := {
  now : eff V N;
  sleep : Duration -> eff V unit;
  from_clock : eff V Rng;
}.
Arguments now {_ _}.
Arguments sleep {_ _}.
Arguments from_clock {_ _}.

(** The same clock when the state has one more component. *)
Definition lift_clock `{Backoff} {F V} (clk : Clock V) : Clock (F * V) := {|
  now := lift (now clk);
  sleep d := lift (sleep clk d);
  from_clock := lift (from_clock clk);
|}.

Definition result_err {A E} (r : Result A E) : option E :=
  match r with Ok _ => None | Err e => Some e end.

(** ** The loop *)

Section loop.
Context `{Contract} `{Backoff} {RC : RetryClassifier} {V R : Type}.
Context (clk : Clock V) (config : GrpcRetryConfig) (path : string).
Context (total_budget : option Duration) (attempt : option Duration -> eff V (Result R CallError)).

(** [Instant::elapsed], which is zero when the clock has gone back. *)
Definition elapsed (started : N) : eff V Duration := let! t := now clk in ret (t - started).

Definition budget_allows_sleep (started : N) (sleep_for : Duration) : eff V bool :=
  match total_budget with
  | None => ret true
  | Some budget =>
      let! elapsed_after := elapsed started in
      ret (match duration_add elapsed_after sleep_for with
           | Some t => t <? budget
           | None => false
           end)
  end.

(** The timeout of the next attempt; [Err] when the budget is spent. *)
Definition remaining (started : N) : eff V (Result (option Duration) unit) :=
  match total_budget with
  | None => ret (Ok None)
  | Some budget =>
      let! e := elapsed started in
      ret (match duration_sub budget e with
           | Some time => if time =? 0 then Err tt else Ok (Some time)
           | None => Err tt
           end)
  end.

Definition deadline_exhausted : CallError :=
  Transport_ path DeadlineExceeded "deadline exhausted before retry could be issued".
Definition no_recorded_error : CallError :=
  Transport_ path Internal "grpc-retry: exhausted attempts with no recorded error".

(** What is left after the loop. *)
Definition after_loop (last_error : option CallError) : eff V (Result R CallError) :=
  ret (Err (default no_recorded_error last_error)).

(** [for attempt_index in 0..max_attempts]; the first argument counts the turns left. *)
Fixpoint retry_loop (turns : nat) (started standard_attempt rate_lim_attempt : N) (rng : Rng)
    (last_error : option CallError) : eff V (Result R CallError) :=
  match turns with
  | O => after_loop last_error
  | S turns' =>
      let! time := remaining started in
      match time with
      | Err _ => ret (Err (default deadline_exhausted last_error))
      | Ok attempt_timeout =>
          let! result := attempt attempt_timeout in
          match classify result with
          | Success => ret result
          | Terminal => ret result
          | Retry =>
              let last_error := result_err result in
              let next_attempt := standard_attempt + 1 in
              if max_attempts (fields config) <=? next_attempt then after_loop last_error
              else
                let '(unit, rng) := next_unit rng in
                let sleep_for := next_backoff (backoff_policy config) standard_attempt unit in
                let! fits := budget_allows_sleep started sleep_for in
                if fits then
                  sleep clk sleep_for ;;;
                  retry_loop turns' started (standard_attempt + 1) rate_lim_attempt rng last_error
                else after_loop last_error
          | RetryRateLimit =>
              let last_error := result_err result in
              let next_rl := rate_lim_attempt + 1 in
              if rate_limit_max_attempts (fields config) <? next_rl then after_loop last_error
              else
                let hint := error ← last_error; read_retry_after error in
                let '(unit, rng) := next_unit rng in
                let sleep_for := rate_limit_backoff (rate_limit_policy config) rate_lim_attempt hint unit in
                let! fits := budget_allows_sleep started sleep_for in
                if fits then
                  sleep clk sleep_for ;;;
                  retry_loop turns' started standard_attempt (rate_lim_attempt + 1) rng last_error
                else after_loop last_error
          end
      end
  end.

Definition run_with_retry : eff V (Result R CallError) :=
  let! started := now clk in
  let! rng := from_clock clk in
  retry_loop (N.to_nat (max_attempts (fields config))) started 0 0 rng None.
End loop.

(** ** The client *)

Section client.
Context `{Contract} `{Backoff} {RC : RetryClassifier} {W : Type}.
Context (clk : Clock W).

(** [GrpcRetryClient]; the classifier is the instance in scope. *)
Record GrpcRetryClient := grpc_retry_client {
  inner : Client W;
  config : GrpcRetryConfig;
}.

(** [Payload::encode_into] on the empty buffer. *)
Definition encode_message {A} (p : Payload A) (m : A) : Result (list Byte.byte) EncodeError :=
  encode_into p m [].

(** One attempt of a typed call: the state is the message not sent yet ([first.take()]). *)
Definition typed_attempt (self : GrpcRetryClient) (M : Method) (encoded : list Byte.byte)
    (options : CallOptions) (attempt_timeout : option Duration) :
    eff (option (Request M) * W)
      (Result (CallResponse (Response M) (t_metadata (typed (inner self)))) CallError) :=
  fun '(first, w) =>
    let metadata := get_metadata options in
    let message :=
      match first with
      | Some message => Ok message
      | None => map_err Decode (decode (request_payload M) encoded)
      end in
    match message with
    | Err e => (Err e, (None, w))
    | Ok message =>
        let '(result, w') :=
          call (typed (inner self)) M message (options_create attempt_timeout metadata) w in
        (result, (None, w'))
    end.

Definition retry_call (self : GrpcRetryClient) (M : Method) (message : Request M)
    (options : CallOptions) :
    eff W (Result (CallResponse (Response M) (t_metadata (typed (inner self)))) CallError) :=
  if max_attempts (fields (config self)) <=? 1
  then call (typed (inner self)) M message options
  else
    match map_err Encode (encode_message (request_payload M) message) with
    | Err e => ret (Err e)
    | Ok encoded => fun w =>
        let '(result, (_, w')) :=
          run_with_retry (lift_clock clk) (config self) (PATH M) (get_timeout options)
            (typed_attempt self M encoded options) (Some message, w) in
        (result, w')
    end.

Definition raw_attempt (self : GrpcRetryClient) (path : string) (body : list Byte.byte)
    (options : CallOptions) (attempt_timeout : option Duration) :
    eff W (Result (CallResponse (list Byte.byte) (r_metadata (raw (inner self)))) CallError) :=
  call_raw (raw (inner self)) path body (options_create attempt_timeout (get_metadata options)).

Definition retry_call_raw (self : GrpcRetryClient) (path : string) (message : list Byte.byte)
    (options : CallOptions) :
    eff W (Result (CallResponse (list Byte.byte) (r_metadata (raw (inner self)))) CallError) :=
  run_with_retry clk (config self) path (get_timeout options) (raw_attempt self path message options).

Definition retry_typed (self : GrpcRetryClient) : Transport W := {|
  t_metadata := t_metadata (typed (inner self));
  t_view := t_view (typed (inner self));
  call := retry_call self;
  call_server_stream M message options := call_server_stream (typed (inner self)) M message options;
  call_client_stream M requests options := call_client_stream (typed (inner self)) M requests options;
  call_bidi_stream M requests options := call_bidi_stream (typed (inner self)) M requests options;
|}.

Definition retry_raw (self : GrpcRetryClient) : RawTransport W := {|
  r_metadata := r_metadata (raw (inner self));
  r_view := r_view (raw (inner self));
  call_raw := retry_call_raw self;
  call_raw_server_stream path message options :=
    call_raw_server_stream (raw (inner self)) path message options;
  call_raw_client_stream path requests options :=
    call_raw_client_stream (raw (inner self)) path requests options;
  call_raw_bidi_stream path requests options :=
    call_raw_bidi_stream (raw (inner self)) path requests options;
|}.

Definition retry_client (self : GrpcRetryClient) : Client W :=
  client (retry_typed self) (retry_raw self).
End client.

(** [StdGrpcRetryFactory::build]: the standard classifier around the client. *)
Definition retry_build `{Contract} `{Backoff} {W} (clk : Clock W) (config : GrpcRetryConfig)
    (inner : Client W) : Client W :=
  retry_client clk (grpc_retry_client inner config).
