(* ===== verification/RetrySpec.v ===== *)
(** * The retry policy as a specification

    [policy] says which sequences of clock readings, attempts and pauses a retried call may make and
    what it returns; [run_with_retry] refines it ([run_policy]), seen through a log that does not
    change what it does ([run_logged]).  What callers rely on is proved of [policy] by rule
    induction. *)

From S2P Require Import Prelude Text Contract F64 RetryConfig RetryClassifier Retry.
From Stdlib Require Import NArith Lia.
From stdpp Require Import base tactics strings option list.

Open Scope N_scope.

(** ** Events *)

Section policy.
Context `{Contract} `{Backoff} {RC : RetryClassifier} {R : Type}.

Inductive Event :=
| ReadClock (t : N)
| Attempted (timeout : option Duration) (result : Result R CallError)
| Paused (d : Duration).

Definition attempt_of (e : Event) : option (Result R CallError) :=
  match e with Attempted _ r => Some r | _ => None end.

(** The results of the attempts of a run, in order. *)
Definition attempts (evs : list Event) : list (Result R CallError) := omap attempt_of evs.

(** ** The specification *)

Context (max rl_max : N) (path : string) (started : N) (budget : option Duration).

(** The reading before an attempt and the timeout the attempt gets. *)
Inductive admitted : list Event -> option Duration -> Prop :=
| admitted_free : budget = None -> admitted [] None
| admitted_time b t :
    budget = Some b -> t - started < b ->
    admitted [ReadClock t] (Some (b - (t - started))).

(** The reading before a pause of [d]. *)
Inductive pause_allowed (d : Duration) : list Event -> Prop :=
| pause_free : budget = None -> pause_allowed d []
| pause_time b t :
    budget = Some b -> t - started + d < b -> pause_allowed d [ReadClock t].

(** The tries used on each track after one more failed attempt, when another attempt is allowed. *)
Definition next_try (d : RetryDecision) (standard rate_limited : N) : option (N * N) :=
  match d with
  | Retry => if max <=? standard + 1 then None else Some (standard + 1, rate_limited)
  | RetryRateLimit =>
      if rl_max <? rate_limited + 1 then None else Some (standard, rate_limited + 1)
  | Success | Terminal => None
  end.

Inductive policy : nat -> N -> N -> option CallError -> list Event -> Result R CallError -> Prop :=
| policy_out a b last :
    policy O a b last [] (Err (default (no_recorded_error path) last))
| policy_deadline n a b last t B :
    budget = Some B -> B <= t - started ->
    policy (S n) a b last [ReadClock t] (Err (default (deadline_exhausted path) last))
| policy_stop n a b last pre time r :
    admitted pre time -> next_try (classify r) a b = None ->
    policy (S n) a b last (pre ++ [Attempted time r]) r
| policy_no_time n a b last pre time e a' b' t :
    is_Some budget -> admitted pre time -> next_try (classify (Err e : Result R _)) a b = Some (a', b') ->
    policy (S n) a b last (pre ++ [Attempted time (Err e); ReadClock t]) (Err e)
| policy_again n a b last pre time e a' b' read d evs res :
    admitted pre time -> next_try (classify (Err e : Result R _)) a b = Some (a', b') ->
    pause_allowed d read -> policy n a' b' (Some e) evs res ->
    policy (S n) a b last (pre ++ Attempted time (Err e) :: read ++ Paused d :: evs) res.
End policy.
Arguments Event {_} R.

(** ** The log *)

Section logged.
Context `{Contract} `{Backoff} {RC : RetryClassifier} {V R : Type}.

Definition log (e : Event R) : eff (list (Event R) * V) unit := fun '(l, v) => (tt, (l ++ [e], v)).

Definition logged_clock (clk : Clock V) : Clock (list (Event R) * V) := {|
  now := let! t := lift (now clk) in log (ReadClock t) ;;; ret t;
  sleep d := lift (sleep clk d) ;;; log (Paused d);
  from_clock := lift (from_clock clk);
|}.

Definition logged_attempt (attempt : option Duration -> eff V (Result R CallError))
    (time : option Duration) : eff (list (Event R) * V) (Result R CallError) :=
  let! r := lift (attempt time) in log (Attempted time r) ;;; ret r.

(** The events of a run and its result, from the state [v]. *)
Definition run_log (clk : Clock V) (config : GrpcRetryConfig) (path : string)
    (budget : option Duration) (attempt : option Duration -> eff V (Result R CallError)) (v : V) :
    Result R CallError * list (Event R) :=
  let '(r, (l, _)) :=
    run_with_retry (logged_clock clk) config path budget (logged_attempt attempt) ([], v) in
  (r, l).

End logged.

(** ** Simulation

    An operation on a larger state that does what another does on the part they share, and keeps an
    invariant of its own part. *)

Section simulation.
Context `{Contract} `{Backoff} {RC : RetryClassifier} {F V R : Type} (I : F -> Prop).

Definition simulates {A} (m' : eff (F * V) A) (m : eff V A) : Prop :=
  forall f v, I f -> exists f', I f' /\ m' (f, v) = ((m v).1, (f', (m v).2)).

Lemma simulates_ret {A} (a : A) : simulates (ret a) (ret a).
Proof. intros f v Hf. by exists f. Qed.

Lemma simulates_bind {A B} (m' : eff (F * V) A) m (k' : A -> eff _ B) k :
  simulates m' m -> (forall a, simulates (k' a) (k a)) -> simulates (bind m' k') (bind m k).
Proof.
  intros Hm Hk f v Hf. unfold bind. destruct (Hm f v Hf) as (f1 & Hf1 & ->).
  destruct (m v) as [a v1]. exact (Hk a f1 v1 Hf1).
Qed.

Lemma simulates_lift {A} (m : eff V A) : simulates (lift m) m.
Proof. intros f v Hf. exists f. unfold lift. by destruct (m v). Qed.

Record simulates_clock (clk' : Clock (F * V)) (clk : Clock V) : Prop := {
  sim_now : simulates (now clk') (now clk);
  sim_sleep : forall d, simulates (sleep clk' d) (sleep clk d);
  sim_from_clock : simulates (from_clock clk') (from_clock clk);
}.

Hint Resolve simulates_ret simulates_bind sim_now sim_sleep sim_from_clock : egress.

Context (clk' : Clock (F * V)) (clk : Clock V) (Hclk : simulates_clock clk' clk).
Context (attempt' : option Duration -> eff (F * V) (Result R CallError)).
Context (attempt : option Duration -> eff V (Result R CallError)).
Context (Hattempt : forall time, simulates (attempt' time) (attempt time)).
Context (config : GrpcRetryConfig) (path : string) (budget : option Duration).

Lemma simulates_remaining started :
  simulates (remaining clk' budget started) (remaining clk budget started).
Proof. unfold remaining, elapsed. destruct budget; auto 6 with egress. Qed.

Lemma simulates_budget started d :
  simulates (budget_allows_sleep clk' budget started d) (budget_allows_sleep clk budget started d).
Proof. unfold budget_allows_sleep, elapsed. destruct budget; auto 6 with egress. Qed.

Hint Resolve simulates_remaining simulates_budget Hattempt : egress.

Lemma simulates_loop turns started a b rng last :
  simulates (retry_loop clk' config path budget attempt' turns started a b rng last)
    (retry_loop clk config path budget attempt turns started a b rng last).
Proof.
  revert a b rng last. induction turns as [|turns IH]; intros a b rng last; cbn [retry_loop];
    unfold after_loop; [auto with egress|].
  apply simulates_bind; [auto with egress|]. intros [time|]; [|auto with egress].
  apply simulates_bind; [auto with egress|]. intros r.
  destruct (classify r); [auto with egress| | |auto with egress].
  - destruct (_ <=? _); [auto with egress|]. destruct (next_unit rng) as [u rng'].
    apply simulates_bind; [auto with egress|]. intros []; auto with egress.
  - destruct (_ <? _); [auto with egress|]. destruct (next_unit rng) as [u rng'].
    apply simulates_bind; [auto with egress|]. intros []; auto with egress.
Qed.

Lemma simulates_run :
  simulates (run_with_retry clk' config path budget attempt')
    (run_with_retry clk config path budget attempt).
Proof.
  unfold run_with_retry. apply simulates_bind; [auto with egress|]. intros started.
  apply simulates_bind; [auto with egress|]. intros rng. apply simulates_loop.
Qed.
End simulation.

Lemma lift_clock_simulates `{Backoff} {F V} (I : F -> Prop) (clk : Clock V) :
  simulates_clock I (lift_clock clk) clk.
Proof. split; intros; apply simulates_lift. Qed.

(** A run with the log has the result and the final state of the run without it. *)
Lemma run_logged `{Contract} `{Backoff} {RC : RetryClassifier} {V R} (clk : Clock V) config path budget
    (attempt : option Duration -> eff V (Result R CallError)) :
  simulates (fun _ => True)
    (run_with_retry (logged_clock clk) config path budget (logged_attempt attempt))
    (run_with_retry clk config path budget attempt).
Proof.
  assert (forall A (m : eff V A) (e : A -> Event R),
            simulates (fun _ => True) (let! a := lift m in log (e a) ;;; ret a) m) as Hlog.
  { intros A m e l v _. unfold lift, log, ret, bind. destruct (m v) as [a v']. by eexists. }
  apply simulates_run; [split|].
  - apply Hlog.
  - intros d l v _. unfold logged_clock, lift, log, ret, bind. cbn.
    destruct (sleep clk d v) as [[] ?]. by eexists.
  - apply simulates_lift.
  - intros time. apply Hlog.
Qed.

(** ** Refinement *)

Section refinement.
Context `{Contract} `{Backoff} {RC : RetryClassifier} `{!RetryClassifierLaws RC} {V R : Type}.
Context (clk : Clock V) (config : GrpcRetryConfig) (path : string).
Context (budget : option Duration) (attempt : option Duration -> eff V (Result R CallError)).
Context (P : Result R CallError -> Prop) (HP : forall time v, P (attempt time v).1).

Lemma now_log l v :
  now (logged_clock (R := R) clk) (l, v)
  = ((now clk v).1, (l ++ [ReadClock (now clk v).1], (now clk v).2)).
Proof. unfold logged_clock, lift, log, ret, bind. cbn. by destruct (now clk v). Qed.

Lemma sleep_log d l v :
  sleep (logged_clock (R := R) clk) d (l, v) = (tt, (l ++ [Paused d], (sleep clk d v).2)).
Proof. unfold logged_clock, lift, log, ret, bind. cbn. by destruct (sleep clk d v) as [[] ?]. Qed.

Lemma attempt_log time l v :
  logged_attempt attempt time (l, v)
  = ((attempt time v).1, (l ++ [Attempted time (attempt time v).1], (attempt time v).2)).
Proof. unfold logged_attempt, lift, log, ret, bind. by destruct (attempt time v). Qed.

Lemma remaining_log started l v :
  exists r evs v', remaining (logged_clock (R := R) clk) budget started (l, v) = (r, (l ++ evs, v')) /\
    match r with
    | Ok time => admitted started budget evs time
    | Err _ => exists b t, evs = [ReadClock t] /\ budget = Some b /\ b <= t - started
    end.
Proof.
  unfold remaining, elapsed. destruct budget as [b|] eqn:Eb.
  - unfold bind at 1 2, ret. rewrite now_log. set (t := (now clk v).1).
    do 3 eexists. split; [reflexivity|]. unfold duration_sub.
    destruct (N.leb_spec (t - started) b); [|exists b, t; split_and!; [done|done|lia]].
    destruct (N.eqb_spec (b - (t - started)) 0); [exists b, t; split_and!; [done|done|lia]|].
    constructor; [done|lia].
  - exists (Ok None), [], v. rewrite app_nil_r. split; [done|by constructor].
Qed.

Lemma budget_allows_log started d l v :
  exists fits evs v',
    budget_allows_sleep (logged_clock (R := R) clk) budget started d (l, v) = (fits, (l ++ evs, v')) /\
    if fits then pause_allowed started budget d evs
    else is_Some budget /\ exists t, evs = [ReadClock t].
Proof.
  unfold budget_allows_sleep, elapsed. destruct budget as [b|] eqn:Eb.
  - unfold bind at 1 2, ret. rewrite now_log. set (t := (now clk v).1).
    do 3 eexists. split; [reflexivity|]. unfold duration_add.
    destruct (_ <? DURATION_LIMIT); [|eauto].
    destruct (N.ltb_spec (t - started + d) b); [by econstructor|eauto].
  - exists true, [], v. rewrite app_nil_r. split; [done|by constructor].
Qed.

Lemma attempts_admitted started evs time :
  admitted (R := R) started budget evs time -> attempts evs = [].
Proof. by intros []. Qed.

Lemma attempts_pause started d evs :
  pause_allowed (R := R) started budget d evs -> attempts evs = [].
Proof. by intros []. Qed.

Lemma retry_is_error (r : Result R CallError) a b p :
  next_try (max_attempts (fields config)) (rate_limit_max_attempts (fields config))
    (classify r) a b = Some p -> exists e, r = Err e.
Proof. destruct r as [r|e]; [|eauto]. by rewrite classify_ok. Qed.

Definition refines (turns : nat) (started a b : N) (rng : Rng) (last : option CallError) : Prop :=
  forall l v, exists r evs v',
    retry_loop (logged_clock clk) config path budget (logged_attempt attempt)
      turns started a b rng last (l, v) = (r, (l ++ evs, v')) /\
    policy (max_attempts (fields config)) (rate_limit_max_attempts (fields config)) path started
      budget turns a b last evs r /\
    Forall P (attempts evs).

(** The pause after a failed attempt, then the next turn. *)
Lemma pause_refines turns started a b a' b' rng last pre time r d l v :
  (forall l v, exists res evs v',
     retry_loop (logged_clock clk) config path budget (logged_attempt attempt)
       turns started a' b' rng (result_err r) (l, v) = (res, (l ++ evs, v')) /\
     policy (max_attempts (fields config)) (rate_limit_max_attempts (fields config)) path started
       budget turns a' b' (result_err r) evs res /\
     Forall P (attempts evs)) ->
  admitted started budget pre time -> P r ->
  next_try (max_attempts (fields config)) (rate_limit_max_attempts (fields config))
    (classify r) a b = Some (a', b') ->
  exists res evs v',
    bind (budget_allows_sleep (logged_clock clk) budget started d) (fun fits =>
      if fits : bool then
        sleep (logged_clock clk) d ;;;
        retry_loop (logged_clock clk) config path budget (logged_attempt attempt)
          turns started a' b' rng (result_err r)
      else after_loop path (result_err r)) (((l ++ pre) ++ [Attempted time r]), v)
    = (res, (l ++ evs, v')) /\
    policy (max_attempts (fields config)) (rate_limit_max_attempts (fields config)) path started
      budget (S turns) a b last evs res /\
    Forall P (attempts evs).
Proof.
  intros IH Hpre HPr Hnext. destruct (retry_is_error _ _ _ _ Hnext) as [e ->].
  destruct (budget_allows_log started d ((l ++ pre) ++ [Attempted time (Err e)]) v)
    as (fits & read & v1 & E & Hfits).
  erewrite bind_run by exact E. destruct fits.
  - unfold bind. rewrite sleep_log. cbn [result_err] in IH.
    destruct (IH ((((l ++ pre) ++ [Attempted time (Err e)]) ++ read) ++ [Paused d]) (sleep clk d v1).2)
      as (res & evs & v2 & E2 & Hpol & HF).
    cbn [result_err]. rewrite E2.
    exists res, (pre ++ Attempted time (Err e) :: read ++ Paused d :: evs), v2. split_and!.
    + rewrite <-!app_assoc. done.
    + by eapply policy_again.
    + unfold attempts in *. rewrite omap_app. cbn. rewrite omap_app. cbn.
      pose proof (attempts_admitted _ _ _ Hpre) as E3. pose proof (attempts_pause _ _ _ Hfits) as E4.
      unfold attempts in E3, E4. rewrite E3, E4. by constructor.
  - destruct Hfits as (HB & t & ->). cbn. exists (Err e), (pre ++ [Attempted time (Err e); ReadClock t]), v1.
    split_and!.
    + rewrite <-!app_assoc. done.
    + by eapply policy_no_time.
    + unfold attempts. rewrite omap_app. cbn.
      pose proof (attempts_admitted _ _ _ Hpre) as E3. unfold attempts in E3. rewrite E3.
      by repeat constructor.
Qed.

(** An attempt after which the loop stops with the attempt's own result. *)
Lemma stop_refines turns started a b last pre time r res l (v : V) :
  admitted started budget pre time -> P r -> res = r ->
  next_try (max_attempts (fields config)) (rate_limit_max_attempts (fields config))
    (classify r) a b = None ->
  exists evs, (res, ((l ++ pre) ++ [Attempted time r], v)) = (res, (l ++ evs, v)) /\
    policy (max_attempts (fields config)) (rate_limit_max_attempts (fields config)) path started
      budget (S turns) a b last evs res /\
    Forall P (attempts evs).
Proof.
  intros Hpre HPr -> Hnext. exists (pre ++ [Attempted time r]). rewrite <-app_assoc.
  split_and!; [done|by apply policy_stop|].
  unfold attempts. rewrite omap_app. cbn.
  pose proof (attempts_admitted _ _ _ Hpre) as E3. unfold attempts in E3. rewrite E3.
  by repeat constructor.
Qed.

Lemma after_loop_error (e : CallError) (r : Result R CallError) :
  classify r <> Success ->
  (after_loop path (result_err r) : eff V (Result R CallError)) = ret r.
Proof. destruct r as [r|e']; [by rewrite classify_ok|done]. Qed.

Lemma loop_refines turns started a b rng last : refines turns started a b rng last.
Proof.
  revert a b rng last. induction turns as [|turns IH]; intros a b rng last l v.
  { exists (Err (default (no_recorded_error path) last)), [], v. rewrite app_nil_r.
    split_and!; [done|constructor|constructor]. }
  cbn [retry_loop].
  destruct (remaining_log started l v) as (t & pre & v1 & E & Ht).
  erewrite bind_run by exact E. destruct t as [time|[]].
  2:{ destruct Ht as (B & t & -> & HB & Ht). do 3 eexists.
      split_and!; [done|by eapply policy_deadline|constructor]. }
  unfold bind at 1. rewrite attempt_log.
  pose proof (HP time v1) as HPr. set (r := (attempt time v1).1) in *.
  set (v2 := (attempt time v1).2) in *.
  destruct (classify r) eqn:Ed.
  - destruct (stop_refines turns started a b last pre time r r l v2) as (evs & ? & ?);
      [done..|by rewrite Ed|]. eauto.
  - destruct (_ <=? _) eqn:Em.
    + destruct (stop_refines turns started a b last pre time r r l v2) as (evs & ? & ?);
        [done..|by rewrite Ed; cbn; rewrite Em|].
      destruct r as [r'|e]; [by rewrite classify_ok in Ed|]. eauto.
    + destruct (next_unit rng) as [u rng']. apply pause_refines with (a' := a + 1) (b' := b);
        [apply IH|done|done|by rewrite Ed; cbn; rewrite Em].
  - destruct (_ <? _) eqn:Em.
    + destruct (stop_refines turns started a b last pre time r r l v2) as (evs & ? & ?);
        [done..|by rewrite Ed; cbn; rewrite Em|].
      destruct r as [r'|e]; [by rewrite classify_ok in Ed|]. eauto.
    + destruct (next_unit rng) as [u rng']. apply pause_refines with (a' := a) (b' := b + 1);
        [apply IH|done|done|by rewrite Ed; cbn; rewrite Em].
  - destruct (stop_refines turns started a b last pre time r r l v2) as (evs & ? & ?);
      [done..|by rewrite Ed|]. eauto.
Qed.

(** The whole run: the reading of the start, then a run of the policy. *)
Lemma run_refines v :
  exists started evs r,
    run_log clk config path budget attempt v = (r, ReadClock started :: evs) /\
    policy (max_attempts (fields config)) (rate_limit_max_attempts (fields config)) path started
      budget (N.to_nat (max_attempts (fields config))) 0 0 None evs r /\
    Forall P (attempts evs).
Proof.
  unfold run_log, run_with_retry. unfold bind at 1. rewrite now_log. unfold bind at 1.
  unfold logged_clock at 1, lift. cbn [from_clock].
  destruct (from_clock clk (now clk v).2) as [rng v1].
  destruct (loop_refines (N.to_nat (max_attempts (fields config))) (now clk v).1 0 0 rng None
    ([] ++ [ReadClock (now clk v).1]) v1) as (r & evs & v' & E & Hp & HF).
  rewrite E. do 3 eexists. split; [reflexivity|]. done.
Qed.
End refinement.

(** ** What a run of the policy is, by rule induction *)

Section policy_facts.
Context `{Contract} `{Backoff} {RC : RetryClassifier} `{!RetryClassifierLaws RC} {R : Type}.
Context (max rl_max : N) (path : string) (started : N) (budget : option Duration).
Implicit Types (evs : list (Event R)) (r : Result R CallError).

Lemma attempts_app evs evs' : attempts (evs ++ evs') = attempts evs ++ attempts evs'.
Proof. apply omap_app. Qed.

Lemma attempts_again pre time r read d evs :
  admitted started budget pre time -> pause_allowed started budget d read ->
  attempts (pre ++ Attempted time r :: read ++ Paused d :: evs) = r :: attempts evs.
Proof.
  intros Hpre Hread. rewrite attempts_app, (attempts_admitted budget _ _ _ Hpre). cbn.
  change (omap attempt_of ?l) with (attempts l).
  by rewrite attempts_app, (attempts_pause budget _ _ _ Hread).
Qed.

Lemma attempts_stop pre time r evs :
  admitted started budget pre time -> attempts evs = [] ->
  attempts (pre ++ Attempted time r :: evs) = [r].
Proof.
  intros Hpre Hevs. rewrite attempts_app, (attempts_admitted budget _ _ _ Hpre). cbn.
  change (omap attempt_of ?l) with (attempts l). by rewrite Hevs.
Qed.

Lemma policy_attempts_le n a b last evs r :
  policy max rl_max path started budget n a b last evs r -> (length (attempts evs) <= n)%nat.
Proof.
  induction 1; [simpl; lia|simpl; lia| | |].
  - rewrite attempts_stop by done. simpl. lia.
  - rewrite attempts_stop by done. simpl. lia.
  - erewrite attempts_again by done. simpl. lia.
Qed.

(** A run returns the result of its last attempt. *)
Lemma policy_result n a b last0 evs r :
  policy max rl_max path started budget n a b last0 evs r ->
  last (attempts evs) = Some r \/
  attempts evs = [] /\
    (n = O /\ r = Err (default (no_recorded_error path) last0) \/
     is_Some budget /\ r = Err (default (deadline_exhausted path) last0)).
Proof.
  induction 1; [auto|naive_solver| | |].
  - left. by rewrite attempts_stop.
  - left. by rewrite attempts_stop.
  - left. erewrite attempts_again by done. destruct IHpolicy as [E|[E Hr]].
    + destruct (attempts evs) as [|x l]; done.
    + rewrite E. naive_solver.
Qed.

Lemma policy_retryable n a b last evs r :
  policy max rl_max path started budget n a b last evs r ->
  Forall (fun x => classify x = Retry \/ classify x = RetryRateLimit)
    (take (pred (length (attempts evs))) (attempts evs)).
Proof.
  induction 1; [constructor|constructor| | |].
  - rewrite attempts_stop by done. constructor.
  - rewrite attempts_stop by done. constructor.
  - erewrite attempts_again by done. cbn [length pred].
    destruct (attempts evs) as [|x l] eqn:E; [constructor|]. cbn [take length] in *.
    constructor; [|exact IHpolicy].
    destruct (classify (Err e : Result R CallError)); cbn in *; naive_solver.
Qed.

Definition rate_limited r : bool :=
  match classify r with RetryRateLimit => true | _ => false end.

Lemma policy_rate_limited n a b last evs r :
  policy max rl_max path started budget n a b last evs r -> b <= rl_max ->
  N.of_nat (length (List.filter rate_limited (attempts evs))) + b <= rl_max + 1.
Proof.
  induction 1 as [| |n a b last pre time r Hpre Hn|n a b last pre time e a' b' t HB' Hpre Hn
    |n a b last pre time e a' b' read d evs res Hpre Hn Hread Hpol IH]; intros Hb; [cbn; lia..| | |].
  - rewrite attempts_stop by done. cbn [List.filter]. case_match; cbn; lia.
  - rewrite attempts_stop by done. cbn [List.filter]. case_match; cbn; lia.
  - erewrite attempts_again by done. cbn [List.filter]. unfold rate_limited at 1.
    destruct (classify (Err e : Result R CallError)) eqn:Ed; cbn in Hn; try done.
    + case_match; simplify_eq. auto.
    + case_match; simplify_eq. cbn [length]. bool_prop.
      specialize (IH ltac:(lia)). lia.
Qed.

(** Every attempt and every pause follows a reading of the clock, and fits in the budget by it. *)
Fixpoint within_budget (B : Duration) (reading : option N) (evs : list (Event R)) : Prop :=
  match evs with
  | [] => True
  | ReadClock t :: evs' => within_budget B (Some t) evs'
  | Attempted time _ :: evs' =>
      match reading, time with
      | Some t, Some rest => t - started + rest = B /\ 0 < rest
      | _, _ => False
      end /\ within_budget B None evs'
  | Paused d :: evs' =>
      match reading with Some t => t - started + d < B | None => False end /\
      within_budget B None evs'
  end.

Lemma policy_budget n a b last evs r B :
  policy max rl_max path started budget n a b last evs r -> budget = Some B ->
  forall reading, within_budget B reading evs.
Proof.
  induction 1 as [| |n a b last pre time r Hpre Hn|n a b last pre time e a' b' t HB' Hpre Hn
    |n a b last pre time e a' b' read d evs res Hpre Hn Hread Hpol IH]; intros HB reading;
    [done|done| | |].
  1-3: destruct Hpre as [?|B' t0 ? Ht]; simplify_eq; cbn; split; [lia|].
  - done.
  - done.
  - destruct Hread as [?|B' t1 ? ?]; simplify_eq. cbn. auto.
Qed.

(** Without a budget, a run whose every attempt fails the same way makes as many as its track has. *)
Lemma policy_all_retry n a b last evs r :
  policy max rl_max path started budget n a b last evs r -> budget = None ->
  Forall (fun x => classify x = Retry) (attempts evs) -> a < max ->
  N.of_nat (length (attempts evs)) = N.min (N.of_nat n) (max - a).
Proof.
  induction 1 as [|n a b last t B|n a b last pre time r Hpre Hn|n a b last pre time e a' b' t HB' Hpre Hn
    |n a b last pre time e a' b' read d evs res Hpre Hn Hread Hpol IH]; intros HB HF Ha.
  - cbn. lia.
  - by simplify_eq.
  - rewrite attempts_stop in * by done. apply Forall_cons_1 in HF as [Hc _].
    rewrite Hc in Hn. cbn in Hn. case_match; simplify_eq. bool_prop. simpl. lia.
  - subst. by destruct HB'.
  - erewrite attempts_again in * by done. apply Forall_cons_1 in HF as [Hc HF].
    rewrite Hc in Hn. cbn in Hn. case_match; simplify_eq. bool_prop. cbn [length].
    specialize (IH eq_refl HF ltac:(lia)). lia.
Qed.

Lemma policy_all_rate_limited n a b last evs r :
  policy max rl_max path started budget n a b last evs r -> budget = None ->
  Forall (fun x => classify x = RetryRateLimit) (attempts evs) -> b <= rl_max ->
  N.of_nat (length (attempts evs)) = N.min (N.of_nat n) (rl_max + 1 - b).
Proof.
  induction 1 as [|n a b last t B|n a b last pre time r Hpre Hn|n a b last pre time e a' b' t HB' Hpre Hn
    |n a b last pre time e a' b' read d evs res Hpre Hn Hread Hpol IH]; intros HB HF Hb.
  - cbn. lia.
  - by simplify_eq.
  - rewrite attempts_stop in * by done. apply Forall_cons_1 in HF as [Hc _].
    rewrite Hc in Hn. cbn in Hn. case_match; simplify_eq. bool_prop. simpl. lia.
  - subst. by destruct HB'.
  - erewrite attempts_again in * by done. apply Forall_cons_1 in HF as [Hc HF].
    rewrite Hc in Hn. cbn in Hn. case_match; simplify_eq. bool_prop. cbn [length].
    specialize (IH eq_refl HF ltac:(lia)). lia.
Qed.
End policy_facts.

(** ** Properties of the loop *)

(** A concrete surrounding for the witnesses: the state is the time, an attempt takes a second and
    fails as the script says, a pause takes its length, the back-off is the initial one. *)
Module Example.
#[export] Instance backoff : Backoff := {|
  Rng := unit;
  next_unit r := (f64_tenth, r);
  next_backoff p _ _ := from_millis (bp_initial_backoff_ms p);
  rate_limit_backoff p _ hint _ := default (from_millis (rp_initial_backoff_ms p)) hint;
|}.

Definition clock : Clock N := {|
  now t := (t, t);
  sleep d t := (tt, t + d);
  from_clock t := (tt, t);
|}.

Definition failure (code : StatusCode) (text : string) : @CallError list_contract :=
  @Status list_contract "/s/M" code text [] ([], []).

Definition unavailable (_ : option Duration) : eff N (Result unit (@CallError list_contract)) :=
  fun t => (Err (failure Unavailable "down"), t + from_secs 1).

Definition limited (_ : option Duration) : eff N (Result unit (@CallError list_contract)) :=
  fun t => (Err (failure ResourceExhausted "rate limit"), t + from_secs 1).

(** Limited once, then down. *)
Definition mixed (_ : option Duration) : eff N (Result unit (@CallError list_contract)) :=
  fun t => if t =? 0 then limited None t else unavailable None t.
End Example.

Section properties.
Context `{Contract} `{Backoff} {RC : RetryClassifier} `{!RetryClassifierLaws RC} {V R : Type}.
Context (clk : Clock V) (config : GrpcRetryConfig) (path : string).
Context (budget : option Duration) (attempt : option Duration -> eff V (Result R CallError)).

Lemma run_facts v r l :
  run_log clk config path budget attempt v = (r, l) ->
  exists started evs, l = ReadClock started :: evs /\
    policy (max_attempts (fields config)) (rate_limit_max_attempts (fields config)) path started
      budget (N.to_nat (max_attempts (fields config))) 0 0 None evs r /\
    Forall (fun x => exists time v', x = (attempt time v').1) (attempts evs).
Proof.
  intros E.
  destruct (run_refines clk config path budget attempt
    (fun x => exists time v', x = (attempt time v').1)
    (fun time v' => ex_intro _ time (ex_intro _ v' eq_refl)) v)
    as (started & evs & r' & E' & Hp & HF).
  rewrite E in E'. simplify_eq. eauto.
Qed.

Lemma attempts_started t (evs : list (Event R)) : attempts (ReadClock t :: evs) = attempts evs.
Proof. reflexivity. Qed.
End properties.

(** C1: The retry loop implements the policy: its result is that of a run the policy allows, from the
    first reading of the clock, and logging the run changes neither its result nor its effects. *)
Theorem retry_refines_policy `{Contract} `{Backoff} {RC : RetryClassifier}
    `{!RetryClassifierLaws RC} {V R} (clk : Clock V) config path budget
    (attempt : option Duration -> eff V (Result R CallError)) v :
  exists started evs v' l,
    run_with_retry (logged_clock clk) config path budget (logged_attempt attempt) ([], v)
    = ((run_with_retry clk config path budget attempt v).1, (l, v')) /\
    v' = (run_with_retry clk config path budget attempt v).2 /\
    l = ReadClock started :: evs /\
    policy (max_attempts (fields config)) (rate_limit_max_attempts (fields config)) path started
      budget (N.to_nat (max_attempts (fields config))) 0 0 None evs
      (run_with_retry clk config path budget attempt v).1.
Proof.
  destruct (run_logged clk config path budget attempt [] v I) as (l & _ & E).
  destruct (run_facts clk config path budget attempt v
    (run_with_retry clk config path budget attempt v).1 l) as (t & evs & -> & Hp & _).
  { unfold run_log. by rewrite E. }
  do 4 eexists. split_and!; [exact E|done..|exact Hp].
Qed.

Lemma retry_refines_policy_witness :
  exists started evs v' l,
    run_with_retry (logged_clock Example.clock) RetryConfig.default "/s/M" None
      (logged_attempt Example.mixed) ([], 0)
    = ((run_with_retry Example.clock RetryConfig.default "/s/M" None Example.mixed 0).1, (l, v')) /\
    v' = (run_with_retry Example.clock RetryConfig.default "/s/M" None Example.mixed 0).2 /\
    l = ReadClock started :: evs /\
    policy 5 2 "/s/M" started None 5%nat 0 0 None evs
      (run_with_retry Example.clock RetryConfig.default "/s/M" None Example.mixed 0).1.
Proof.
  apply (retry_refines_policy (RC := std_retry_classifier) Example.clock RetryConfig.default).
Defined.

(** C2: A retried call returns the result of its last attempt; without an attempt, which takes a
    budget that was spent at once, it returns the deadline failure. The failure for attempts that
    recorded no error never comes out of a well-formed policy. *)
Theorem retry_returns_last_attempt `{Contract} `{Backoff} {RC : RetryClassifier}
    `{!RetryClassifierLaws RC} {V R} (clk : Clock V) config path budget
    (attempt : option Duration -> eff V (Result R CallError)) v r l :
  well_formed (fields config) ->
  run_log clk config path budget attempt v = (r, l) ->
  last (attempts l) = Some r \/
  attempts l = [] /\ is_Some budget /\ r = Err (deadline_exhausted path).
Proof.
  intros Hwf E. apply run_facts in E as (t & evs & -> & Hp & _).
  rewrite attempts_started. apply policy_result in Hp as [?|[? [[Hz _]|[? ->]]]]; [auto| |auto].
  destruct Hwf. lia.
Qed.

Lemma retry_returns_last_attempt_witness :
  let run := run_log Example.clock RetryConfig.default "/s/M" (Some (from_secs 60)) Example.mixed 0 in
  last (attempts run.2) = Some run.1 \/
  attempts run.2 = [] /\ is_Some (Some (from_secs 60)) /\ run.1 = Err (deadline_exhausted "/s/M").
Proof.
  intros run. apply (retry_returns_last_attempt (RC := std_retry_classifier) Example.clock
    RetryConfig.default "/s/M" (Some (from_secs 60)) Example.mixed 0).
  - apply retry_default_well_formed.
  - unfold run. by destruct run_log.
Defined.

(** C3: A retried call makes at most [max_attempts] attempts, at most one more rate-limited attempt
    than [rate_limit_max_attempts], and makes another attempt only after one that the classifier
    says to retry. *)
Theorem retry_attempts_bounded `{Contract} `{Backoff} {RC : RetryClassifier}
    `{!RetryClassifierLaws RC} {V R} (clk : Clock V) config path budget
    (attempt : option Duration -> eff V (Result R CallError)) v r l :
  run_log clk config path budget attempt v = (r, l) ->
  N.of_nat (length (attempts l)) <= max_attempts (fields config) /\
  N.of_nat (length (List.filter rate_limited (attempts l)))
    <= rate_limit_max_attempts (fields config) + 1 /\
  Forall (fun x => classify x = Retry \/ classify x = RetryRateLimit)
    (take (pred (length (attempts l))) (attempts l)).
Proof.
  intros E. apply run_facts in E as (t & evs & -> & Hp & _). rewrite attempts_started. split_and!.
  - apply policy_attempts_le in Hp. lia.
  - apply policy_rate_limited in Hp; lia.
  - by apply policy_retryable in Hp.
Qed.

Lemma retry_attempts_bounded_witness :
  let run := run_log Example.clock RetryConfig.default "/s/M" None Example.mixed 0 in
  N.of_nat (length (attempts run.2)) <= 5 /\
  N.of_nat (length (List.filter rate_limited (attempts run.2))) <= 3 /\
  Forall (fun x => classify x = Retry \/ classify x = RetryRateLimit)
    (take (pred (length (attempts run.2))) (attempts run.2)).
Proof.
  intros run. apply (retry_attempts_bounded (RC := std_retry_classifier) Example.clock
    RetryConfig.default "/s/M" None Example.mixed 0 run.1).
  unfold run. by destruct run_log.
Defined.

(** C4: A call with a timeout keeps to it as one budget: an attempt starts only while time is left
    and is given exactly the time left, and a pause starts only when it ends within the budget, by
    the reading of the clock directly before it. *)
Theorem retry_within_budget `{Contract} `{Backoff} {RC : RetryClassifier}
    `{!RetryClassifierLaws RC} {V R} (clk : Clock V) config path B
    (attempt : option Duration -> eff V (Result R CallError)) v r l :
  run_log clk config path (Some B) attempt v = (r, l) ->
  exists started evs, l = ReadClock started :: evs /\ within_budget started B None evs.
Proof.
  intros E. apply run_facts in E as (t & evs & -> & Hp & _). exists t, evs. split; [done|].
  by eapply policy_budget.
Qed.

Lemma retry_within_budget_witness :
  let run := run_log Example.clock RetryConfig.default "/s/M" (Some (from_secs 3)) Example.mixed 0 in
  exists started evs, run.2 = ReadClock started :: evs /\
    within_budget started (from_secs 3) None evs.
Proof.
  intros run. apply (retry_within_budget (RC := std_retry_classifier) Example.clock
    RetryConfig.default "/s/M" (from_secs 3) Example.mixed 0 run.1).
  unfold run. by destruct run_log.
Defined.

(** C5: Without a timeout, a call whose every attempt fails on the standard track makes exactly
    [max_attempts] attempts, and one whose every attempt is rate-limited makes one more than
    [rate_limit_max_attempts], or [max_attempts] if that is less. *)
Theorem retry_persistent_failure `{Contract} `{Backoff} {RC : RetryClassifier}
    `{!RetryClassifierLaws RC} {V R} (clk : Clock V) config path
    (attempt : option Duration -> eff V (Result R CallError)) v r l d :
  well_formed (fields config) ->
  (forall time v, classify (attempt time v).1 = d) ->
  run_log clk config path None attempt v = (r, l) ->
  (d = Retry -> N.of_nat (length (attempts l)) = max_attempts (fields config)) /\
  (d = RetryRateLimit ->
     N.of_nat (length (attempts l))
     = N.min (max_attempts (fields config)) (rate_limit_max_attempts (fields config) + 1)).
Proof.
  intros Hwf Hd E. apply run_facts in E as (t & evs & -> & Hp & HF). rewrite attempts_started.
  assert (Forall (fun x => classify x = d) (attempts evs)) as HF'.
  { eapply Forall_impl; [exact HF|]. by intros x (time & v' & ->). }
  destruct Hwf. split; intros ->.
  - eapply policy_all_retry in Hp; [lia|done|done|lia].
  - eapply policy_all_rate_limited in Hp; [lia|done|done|lia].
Qed.

Lemma retry_persistent_failure_witness :
  (RetryRateLimit = Retry ->
     N.of_nat (length (attempts
       (run_log Example.clock RetryConfig.default "/s/M" None Example.limited 0).2)) = 5) /\
  (RetryRateLimit = RetryRateLimit ->
     N.of_nat (length (attempts
       (run_log Example.clock RetryConfig.default "/s/M" None Example.limited 0).2)) = 3).
Proof.
  apply (retry_persistent_failure (RC := std_retry_classifier) Example.clock RetryConfig.default
    "/s/M" Example.limited 0
    (run_log Example.clock RetryConfig.default "/s/M" None Example.limited 0).1).
  - apply retry_default_well_formed.
  - intros time v. vm_compute. reflexivity.
  - by destruct run_log.
Defined.

(** A run can end with a pause after its last attempt: with the default policy, one rate-limited
    attempt and four unavailable ones leave room on both tracks, so the loop sleeps once more before
    it returns the failure it already had. *)
Theorem retry_pauses_after_last_attempt :
  exists log, run_log Example.clock RetryConfig.default "/s/M" None Example.mixed 0
    = (Err (Example.failure Unavailable "down"),
       log ++ [Attempted None (Err (Example.failure Unavailable "down"));
               Paused (from_millis 100)]) /\
    length (attempts log) = 4%nat.
Proof.
  set (down := [Attempted None (Err (Example.failure Unavailable "down")); Paused (from_millis 100)]).
  exists (ReadClock 0
       :: Attempted None (Err (Example.failure ResourceExhausted "rate limit"))
       :: Paused (from_secs 1) :: down ++ down ++ down).
  split; [|reflexivity]. vm_cast_no_check (eq_refl (run_log Example.clock RetryConfig.default "/s/M" None
    Example.mixed 0)).
Qed.
