(* ===== verification/RetrySteady.v ===== *)
(** * Retried calls on a steady clock

    What a run of the retry loop does, exactly, when whether an attempt is to be repeated depends
    only on how many there were: how many attempts it makes, which result it returns, and how long it
    takes.  The examples and the scenarios are such runs. *)

From S2P Require Import Prelude Text Contract F64 RetryConfig RetryClassifier Retry RetrySpec.
From Stdlib Require Import NArith Lia.
From stdpp Require Import base tactics strings option list.

Open Scope N_scope.

(** A clock whose readings are of [time] and whose operations take no more than [slack] on top of
    what is slept. *)
Record steady `{Backoff} {V} (clk : Clock V) (time : V -> N) (slack : N) : Prop := {
  steady_now v : time v <= (now clk v).1 <= time (now clk v).2 /\ time (now clk v).2 <= time v + slack;
  steady_sleep d v : time v + d <= time (sleep clk d v).2 <= time v + d + slack;
  steady_rng v : time v <= time (from_clock clk v).2 <= time v + slack;
}.

(** The clock leaves a number alone. *)
Record keeps `{Backoff} {V} (clk : Clock V) (calls : V -> N) : Prop := {
  keeps_now v : calls (now clk v).2 = calls v;
  keeps_sleep d v : calls (sleep clk d v).2 = calls v;
  keeps_rng v : calls (from_clock clk v).2 = calls v;
}.

(** Nor does it end what holds of the world. *)
Record preserves `{Backoff} {V} (clk : Clock V) (ok : V -> Prop) : Prop := {
  preserves_now v : ok v -> ok (now clk v).2;
  preserves_sleep d v : ok v -> ok (sleep clk d v).2;
  preserves_rng v : ok v -> ok (from_clock clk v).2;
}.

Lemma preserves_true `{Backoff} {V} (clk : Clock V) : preserves clk (fun _ => True).
Proof. done. Qed.

Lemma steady_lift `{Backoff} {F V} (clk : Clock V) time slack :
  steady clk time slack -> steady (lift_clock (F := F) clk) (fun w => time w.2) slack.
Proof.
  intros [Hn Hs Hr]. split.
  - intros [f v]. specialize (Hn v). cbn. by destruct (now clk v).
  - intros d [f v]. specialize (Hs d v). cbn. by destruct (sleep clk d v).
  - intros [f v]. specialize (Hr v). cbn. by destruct (from_clock clk v).
Qed.

Lemma keeps_lift `{Backoff} {V} (clk : Clock V) : keeps (lift_clock (F := N) clk) fst.
Proof.
  split.
  - intros [f v]. cbn. by destruct (now clk v).
  - intros d [f v]. cbn. by destruct (sleep clk d v).
  - intros [f v]. cbn. by destruct (from_clock clk v).
Qed.

Section run.
Context `{Contract} `{Backoff} {RC : RetryClassifier} `{!RetryClassifierLaws RC} {V R : Type}.
Context (clk : Clock V) (time : V -> N) (slack : N) (Hclk : steady clk time slack).
Context (calls : V -> N) (Hkeeps : keeps clk calls).
Context (config : GrpcRetryConfig) (path : string) (budget : option Duration).
Context (low high : Duration).
Context (Hlow : forall a u, low <= next_backoff (backoff_policy config) a u)
        (Hhigh : forall a u, next_backoff (backoff_policy config) a u <= high).

(** What holds while the attempts are made, what the outcome of the [k]th call is, and the attempts
    that make them, each with more time than it takes. *)
Context (ok : V -> Prop) (Hok : preserves clk ok).
Context (outcome : N -> Result R CallError -> Prop).
Context (attempt : option Duration -> eff V (Result R CallError)).
Context (Hattempt : forall t v, ok v -> (forall d, t = Some d -> slack < d) -> exists r v',
   attempt t v = (r, v') /\ outcome (calls v + 1) r /\ ok v' /\ calls v' = calls v + 1 /\
   time v <= time v' <= time v + slack).

(** There were [base] calls before, and the run is to end with the [final]th of its own. *)
Context (base final : N) (Hfinal : 1 <= final <= max_attempts (fields config)).
Context (Hagain : forall k r, 1 <= k < final -> outcome (base + k) r -> classify r = Retry).
Context (Hend : forall r, outcome (base + final) r -> classify r = Success \/
   classify r = Terminal \/ classify r = Retry /\ final = max_attempts (fields config)).

(** What a turn of the loop takes at most. *)
Definition turn_time : N := high + 4 * slack.

Context (Hbudget : forall B, budget = Some B -> final * turn_time + slack < B /\ B < DURATION_LIMIT).

Lemma remaining_fits a started v :
  a < final -> started <= time v <= started + a * turn_time + 2 * slack -> ok v ->
  exists timeout v', remaining clk budget started v = (Ok timeout, v') /\
    (forall d, timeout = Some d -> slack < d) /\ ok v' /\ calls v' = calls v /\ time v <= time v' <= time v + slack.
Proof.
  intros Ha Hv Hokv. unfold remaining, elapsed, bind, ret. destruct budget as [B|] eqn:EB.
  - destruct (Hbudget B eq_refl) as [HB _]. pose proof (steady_now _ _ _ Hclk v) as Hn.
    pose proof (keeps_now _ _ Hkeeps v) as Hk. pose proof (preserves_now _ _ Hok v Hokv) as Hp.
    destruct (now clk v) as [t v1]. cbn [fst snd] in Hn, Hk, Hp.
    assert (t - started < B) by (unfold turn_time in *; nia).
    unfold duration_sub. rewrite (proj2 (N.leb_le _ _)) by lia.
    assert (slack < B - (t - started)) by (unfold turn_time in *; nia).
    rewrite (proj2 (N.eqb_neq _ _)) by lia. do 2 eexists. split; [reflexivity|].
    split_and!; [by intros d [= <-]|done|done|lia|lia].
  - do 2 eexists. split; [reflexivity|]. split_and!; (done || lia).
Qed.

Lemma pause_fits a started d v :
  a < final -> started <= time v <= started + a * turn_time + 4 * slack -> d <= high -> ok v ->
  exists v', budget_allows_sleep clk budget started d v = (true, v') /\
    ok v' /\ calls v' = calls v /\ time v <= time v' <= time v + slack.
Proof.
  intros Ha Hv Hd Hokv. unfold budget_allows_sleep, elapsed, bind, ret. destruct budget as [B|] eqn:EB.
  - destruct (Hbudget B eq_refl) as [HB HL]. pose proof (steady_now _ _ _ Hclk v) as Hn.
    pose proof (keeps_now _ _ Hkeeps v) as Hk. pose proof (preserves_now _ _ Hok v Hokv) as Hp.
    destruct (now clk v) as [t v1]. cbn [fst snd] in Hn, Hk, Hp.
    assert (t - started + d < B) by (unfold turn_time in *; nia).
    unfold duration_add. rewrite (proj2 (N.ltb_lt _ DURATION_LIMIT)) by lia.
    rewrite (proj2 (N.ltb_lt _ B)) by lia. eexists. split; [reflexivity|]. split_and!; (done || lia).
  - eexists. split; [reflexivity|]. split_and!; (done || lia).
Qed.

Lemma steady_loop turns a started rl rng last v :
  a < final -> final <= a + N.of_nat turns -> calls v = base + a -> ok v ->
  started <= time v <= started + a * turn_time + 2 * slack ->
  exists r v', retry_loop clk config path budget attempt turns started a rl rng last v = (r, v') /\
    outcome (base + final) r /\ ok v' /\ calls v' = base + final /\
    time v + (final - 1 - a) * low <= time v' <= started + final * turn_time + 2 * slack.
Proof.
  revert a rng last v. induction turns as [|turns IH]; intros a rng last v Ha Hturns Hc Hokv Hv; [lia|].
  cbn [retry_loop]. unfold bind at 1.
  destruct (remaining_fits a started v Ha Hv Hokv) as (timeout & v1 & -> & Hlong & Hok1 & Hc1 & Hv1).
  unfold bind at 1. destruct (Hattempt timeout v1 Hok1 Hlong) as (r & v2 & -> & Ho & Hok2 & Hc2 & Hv2).
  assert (calls v1 + 1 = base + (a + 1)) as Ek by lia. rewrite Ek in *.
  destruct (decide (a + 1 = final)) as [Hf|Hf].
  - rewrite Hf in *. assert (time v + (final - 1 - a) * low <= time v2 <=
      started + final * turn_time + 2 * slack) by (unfold turn_time in *; nia).
    destruct (Hend r Ho) as [E|[E|[E Hm]]]; rewrite E; [exists r, v2; split_and!; (done || lia)..|].
    destruct r as [r|e]; [by rewrite classify_ok in E|].
    rewrite (proj2 (N.leb_le _ _)) by lia.
    exists (Err e), v2. split_and!; (done || lia).
  - pose proof (Hagain (a + 1) r ltac:(lia) Ho) as E. rewrite E.
    destruct r as [r|e]; [by rewrite classify_ok in E|].
    cbn [result_err]. rewrite (proj2 (N.leb_gt _ _)) by lia. destruct (next_unit rng) as [u rng'].
    destruct (pause_fits a started (next_backoff (backoff_policy config) a u) v2 Ha) as (v3 & Hfit & Hok3 & Hc3 & Hv3);
      [lia|apply Hhigh|done|].
    unfold bind at 1. rewrite Hfit. unfold bind at 1.
    pose proof (steady_sleep _ _ _ Hclk (next_backoff (backoff_policy config) a u) v3) as Hs.
    pose proof (keeps_sleep _ _ Hkeeps (next_backoff (backoff_policy config) a u) v3) as Hk.
    pose proof (preserves_sleep _ _ Hok (next_backoff (backoff_policy config) a u) v3 Hok3) as Hp.
    destruct (sleep clk (next_backoff (backoff_policy config) a u) v3) as [[] v4]. cbn [fst snd] in Hs, Hk, Hp.
    pose proof (Hlow a u). pose proof (Hhigh a u).
    destruct (IH (a + 1) rng' (Some e) v4) as (r' & v' & -> & Ho' & Hok' & Hc' & Hv'); [lia..|done| |].
    { unfold turn_time in *. nia. }
    exists r', v'. split_and!; [done|done|done|done| |lia].
    assert (final - 1 - a = final - 1 - (a + 1) + 1) as -> by lia. nia.
Qed.

(** The whole run makes [final] attempts and returns the last one's result, after the pauses between
    them. *)
Lemma steady_run v :
  calls v = base -> ok v ->
  exists r v', run_with_retry clk config path budget attempt v = (r, v') /\
    outcome (base + final) r /\ ok v' /\ calls v' = base + final /\
    time v + (final - 1) * low <= time v' <= time v + final * turn_time + 3 * slack.
Proof.
  intros Hc Hokv. unfold run_with_retry, bind.
  pose proof (steady_now _ _ _ Hclk v) as Hn. pose proof (keeps_now _ _ Hkeeps v) as Hkn.
  pose proof (preserves_now _ _ Hok v Hokv) as Hpn.
  destruct (now clk v) as [started v1]. cbn [fst snd] in Hn, Hkn, Hpn.
  pose proof (steady_rng _ _ _ Hclk v1) as Hr. pose proof (keeps_rng _ _ Hkeeps v1) as Hkr.
  pose proof (preserves_rng _ _ Hok v1 Hpn) as Hpr.
  destruct (from_clock clk v1) as [rng v2]. cbn [fst snd] in Hr, Hkr, Hpr.
  destruct (steady_loop (N.to_nat (max_attempts (fields config))) 0 started 0 rng None v2)
    as (r & v' & -> & Ho & Hok' & Hc' & Hv'); [lia..|done|lia|].
  exists r, v'. split_and!; [done..|lia|lia].
Qed.
End run.
