(* ===== verification/RetryClient.v ===== *)
(** * Retried calls

    What a typed call of the retry decorator sends on each attempt. *)

From S2P Require Import Prelude Text Bytes HealthCodec Contract HealthMethod F64 RetryConfig RetryClassifier Retry RetrySpec.
From Stdlib Require Import NArith Lia.
From stdpp Require Import base tactics strings option list.

Open Scope N_scope.

Section typed.
Context `{Contract} `{Backoff} {RC : RetryClassifier} {W : Type} (clk : Clock W).
Context (self : GrpcRetryClient (W := W)) (M : Method) (m : Request M) (options : CallOptions).

(** An attempt that sends [m] itself. *)
Definition send_again (time : option Duration) :
    eff W (Result (CallResponse (Response M) (t_metadata (typed (inner self)))) CallError) :=
  call (typed (inner self)) M m (options_create time (get_metadata options)).

(** The first attempt sends the message and the later ones what its encoding decodes to. *)
Lemma typed_attempt_simulates encoded time :
  decode (request_payload M) encoded = Ok m ->
  simulates (fun first => first = Some m \/ first = None)
    (typed_attempt self M encoded options time) (send_again time).
Proof.
  intros Hd first w Hfirst. exists None. split; [auto|]. unfold typed_attempt, send_again.
  assert (match first with
          | Some message => Ok message
          | None => map_err Decode (decode (request_payload M) encoded)
          end = Ok m) as ->.
  { destruct Hfirst as [->| ->]; [done|]. by rewrite Hd. }
  by destruct (call _ _ _ _ w).
Qed.

Lemma typed_run encoded w :
  decode (request_payload M) encoded = Ok m ->
  exists first,
    run_with_retry (lift_clock clk) (config self) (PATH M) (get_timeout options)
      (typed_attempt self M encoded options) (Some m, w)
    = ((run_with_retry clk (config self) (PATH M) (get_timeout options) send_again w).1,
       (first, (run_with_retry clk (config self) (PATH M) (get_timeout options) send_again w).2)).
Proof.
  intros Hd.
  destruct (simulates_run (fun first => first = Some m \/ first = None) (lift_clock clk) clk
    (lift_clock_simulates _ clk) (typed_attempt self M encoded options) send_again
    (fun time => typed_attempt_simulates encoded time Hd)
    (config self) (PATH M) (get_timeout options) (Some m) w (or_introl eq_refl)) as (first & _ & E).
  eauto.
Qed.
End typed.

(** C8: A typed call is forwarded as it is, unencoded, when the policy allows one attempt. Else a
    message that cannot be encoded is the call's failure and nothing is sent; and a message that
    decodes from its encoding is what every attempt sends, with the metadata of the call and the
    timeout the loop gives. *)
Theorem retry_call_sends_message `{Contract} `{Backoff} {RC : RetryClassifier} {W}
    (clk : Clock W) (self : GrpcRetryClient) (M : Method) (m : Request M) (options : CallOptions) w :
  (max_attempts (fields (config self)) <= 1 ->
     retry_call clk self M m options w = call (typed (inner self)) M m options w) /\
  (1 < max_attempts (fields (config self)) ->
     match encode_into (request_payload M) m [] with
     | Err e => retry_call clk self M m options w = (Err (Encode e), w)
     | Ok encoded =>
         decode (request_payload M) encoded = Ok m ->
         retry_call clk self M m options w
         = run_with_retry clk (config self) (PATH M) (get_timeout options)
             (send_again self M m options) w
     end).
Proof.
  unfold retry_call, encode_message. split; intros Hmax.
  - by rewrite (proj2 (N.leb_le _ _)) by done.
  - rewrite (proj2 (N.leb_gt _ _)) by done.
    destruct (encode_into (request_payload M) m []) as [encoded|e]; cbn [map_err]; [|done].
    intros Hd. destruct (typed_run clk self M m options encoded w Hd) as [first ->].
    by destruct (run_with_retry _ _ _ _ _ w).
Qed.

(** A client that counts the calls it gets and fails them all. *)
Module Example.
#[local] Existing Instance list_contract.

Definition down {A} : eff N (Result A CallError) := fun t =>
  (Err (Example.failure Unavailable "down"), t + from_secs 1).

Definition typed_down : Transport N := {|
  t_metadata := ListContract.md;
  t_view := ListContract.view;
  call _ _ _ := down;
  call_server_stream _ _ _ := down;
  call_client_stream _ _ _ := down;
  call_bidi_stream _ _ _ := down;
|}.

Definition raw_down : RawTransport N := {|
  r_metadata := ListContract.md;
  r_view := ListContract.view;
  call_raw _ _ _ := down;
  call_raw_server_stream _ _ _ := down;
  call_raw_client_stream _ _ _ := down;
  call_raw_bidi_stream _ _ _ := down;
|}.

Definition retrying : GrpcRetryClient (W := N) :=
  grpc_retry_client (client typed_down raw_down) RetryConfig.default.
End Example.

Lemma retry_call_sends_message_witness :
  retry_call RetrySpec.Example.clock Example.retrying HealthCheck "pkg.Svc" (None, ([], [])) 0
  = run_with_retry RetrySpec.Example.clock RetryConfig.default "/grpc.health.v1.Health/Check" None
      (fun time => call Example.typed_down HealthCheck "pkg.Svc" (time, ([], []))) 0.
Proof.
  apply (retry_call_sends_message (H := list_contract) (RC := std_retry_classifier)
    RetrySpec.Example.clock Example.retrying
    HealthCheck "pkg.Svc" (None, ([], [])) 0); reflexivity.
Defined.
