(* ===== verification/RetryFuture.v ===== *)
(** * The retry decorator as futures

    [retry_transport.rs] awaits its attempts and its pauses, and whoever holds the future of a call
    may poll it late or drop it.  Here [run_with_retry] is a future of four states, its locals those
    that live across an [await]; that one polled by nobody else to its end does what [Retry] says
    ([retry_alone]); and what one has done when it is interrupted ([interrupted_retry]). *)

From S2P Require Import Prelude Text Contract F64 Interceptors Intercepted RetryConfig RetryClassifier Retry RetrySpec Channel Endpoint EgressBuilder Cancellation AsyncClient Futures.
From Stdlib Require Import NArith Lia Strings.Byte.
From stdpp Require Import base tactics strings option list.

Open Scope N_scope.

(** ** The loop *)

Section future.
Context `{Contract} `{Backoff} {RC : RetryClassifier} {V R : Type}.
Context (clk : Clock V) (config : GrpcRetryConfig) (path : string) (total_budget : option Duration).

(** [tokio::time::sleep], and the closure that makes an attempt. *)
Context (sleeping : Duration -> Future V unit).
Context (attempt : option Duration -> Future V (Result R CallError)).

(** What is alive across an [await]; the turns that are left are kept beside it. *)
Record Locals := locals {
  started_at : N;
  standard_attempt : N;
  rate_lim_attempt : N;
  rng : Rng;
  last_error : option CallError;
}.

Inductive RetryState :=
| Initial
| Attempting (turns : nat) (l : Locals) (time : option Duration) (s : f_state (attempt time))
| Pausing (turns : nat) (l : Locals) (d : Duration) (s : f_state (sleeping d))
| Returned.

Notation Poll := (eff V (option (Result R CallError) * RetryState)).

Definition returns (r : Result R CallError) : Poll := ret (Some r, Returned).

(** From the result of an attempt to the [sleep], or to the end of the loop. *)
Definition pause_or_stop (l : Locals) (sleep_for : Duration) :
    eff V (Result R CallError + Duration * Locals) :=
  let! fits := budget_allows_sleep clk total_budget (started_at l) sleep_for in
  if fits then ret (inr (sleep_for, l))
  else let! r := after_loop path (last_error l) in ret (inl r).

Definition after_attempt (l : Locals) (result : Result R CallError) :
    eff V (Result R CallError + Duration * Locals) :=
  let last_error := result_err result in
  match classify result with
  | Success | Terminal => ret (inl result)
  | Retry =>
      if max_attempts (fields config) <=? standard_attempt l + 1
      then let! r := after_loop path last_error in ret (inl r)
      else
        let '(unit, rng) := next_unit (rng l) in
        pause_or_stop
          (locals (started_at l) (standard_attempt l + 1) (rate_lim_attempt l) rng last_error)
          (next_backoff (backoff_policy config) (standard_attempt l) unit)
  | RetryRateLimit =>
      if rate_limit_max_attempts (fields config) <? rate_lim_attempt l + 1
      then let! r := after_loop path last_error in ret (inl r)
      else
        let hint := error ← last_error; read_retry_after error in
        let '(unit, rng) := next_unit (rng l) in
        pause_or_stop
          (locals (started_at l) (standard_attempt l) (rate_lim_attempt l + 1) rng last_error)
          (rate_limit_backoff (rate_limit_policy config) (rate_lim_attempt l) hint unit)
  end.

(** A poll of the pause and of the attempt. *)
Definition poll_pause (again : Locals -> Poll) (turns : nat) (l : Locals) (d : Duration) :
    f_state (sleeping d) -> Poll :=
  awaiting (sleeping d) (Pausing turns l d) (fun _ => again l).

Definition poll_attempt (again : Locals -> Poll) (turns : nat) (l : Locals) (time : option Duration) :
    f_state (attempt time) -> Poll :=
  awaiting (attempt time) (Attempting turns l time) (fun result =>
    let! next := after_attempt l result in
    match next with
    | inl r => returns r
    | inr (d, l) => poll_pause again turns l d (f_start (sleeping d))
    end).

Fixpoint turn (turns : nat) (l : Locals) : Poll :=
  match turns with
  | O => let! r := after_loop path (last_error l) in returns r
  | S turns =>
      let! time := remaining clk total_budget (started_at l) in
      match time with
      | Err _ => returns (Err (default (deadline_exhausted path) (last_error l)))
      | Ok time => poll_attempt (turn turns) turns l time (f_start (attempt time))
      end
  end.

Definition retry_poll (p : RetryState) : Poll :=
  match p with
  | Initial =>
      let! started := now clk in
      let! rng := from_clock clk in
      turn (N.to_nat (max_attempts (fields config))) (locals started 0 0 rng None)
  | Attempting turns l time s => poll_attempt (turn turns) turns l time s
  | Pausing turns l d s => poll_pause (turn turns) turns l d s
  | Returned => ret (None, Returned)
  end.

Definition retry_drop (p : RetryState) : eff V unit :=
  match p with
  | Attempting _ _ time s => f_drop (attempt time) s
  | Pausing _ _ d s => f_drop (sleeping d) s
  | _ => ret tt
  end.

(** [run_with_retry]. *)
Definition retry_future : Future V (Result R CallError) := {|
  f_state := RetryState;
  f_start := Initial;
  f_poll := retry_poll;
  f_drop := retry_drop;
|}.
End future.
Arguments Initial {_ _ _ _ _ _}.
Arguments Attempting {_ _ _ _ _ _}.
Arguments Pausing {_ _ _ _ _ _}.
Arguments Returned {_ _ _ _ _ _}.

(** ** The client *)

(** A future with a variable of its own. *)
Definition with_local {F W A} (x : F) (f : Future (F * W) A) : Future W A := {|
  f_state := F * f_state f;
  f_start := (x, f_start f);
  f_poll '(x, s) w := let '((r, s), (x, w)) := f_poll f s (x, w) in ((r, (x, s)), w);
  f_drop '(x, s) w := let '(_, (_, w)) := f_drop f s (x, w) in (tt, w);
|}.

Section client.
Context `{Contract} `{Backoff} {RC : RetryClassifier} {W : Type}.
Context (clk : Clock W) (sleeping : Duration -> Future W unit).
Context (inner : AsyncClient W) (config : GrpcRetryConfig).

(** [first.take()], or the message made again of its encoding. *)
Definition take_message (M : Method) (encoded : list byte) :
    eff (option (Request M) * W) (Result (Request M) CallError) := fun '(first, w) =>
  (match first with
   | Some message => Ok message
   | None => map_err Decode (decode (request_payload M) encoded)
   end, (None, w)).

Definition typed_attempt_future (M : Method) (encoded : list byte) (options : CallOptions)
    (attempt_timeout : option Duration) :
    Future (option (Request M) * W) (Result (CallResponse (Response M) (at_metadata (a_typed inner))) CallError) :=
  await (take_message M encoded)
    (fun message => f_lift (at_call (a_typed inner) M message (options_create attempt_timeout (get_metadata options))))
    (fun _ result => ret result).

Definition retry_call_future (M : Method) (message : Request M) (options : CallOptions) :
    Future W (Result (CallResponse (Response M) (at_metadata (a_typed inner))) CallError) :=
  if max_attempts (fields config) <=? 1
  then at_call (a_typed inner) M message options
  else
    match map_err Encode (encode_message (request_payload M) message) with
    | Err e => ready (Err e)
    | Ok encoded =>
        with_local (Some message)
          (retry_future (lift_clock clk) config (PATH M) (get_timeout options)
             (fun d => f_lift (sleeping d)) (typed_attempt_future M encoded options))
    end.

Definition retry_call_raw_future (path : string) (message : list byte) (options : CallOptions) :
    Future W (Result (CallResponse (list byte) (ar_metadata (a_raw inner))) CallError) :=
  retry_future clk config path (get_timeout options) sleeping
    (fun time => ar_call_raw (a_raw inner) path message (options_create time (get_metadata options))).

Definition retry_async : AsyncClient W := async_client
  {| at_metadata := at_metadata (a_typed inner);
     at_call := retry_call_future;
     at_call_server_stream := at_call_server_stream (a_typed inner);
     at_call_client_stream := at_call_client_stream (a_typed inner);
     at_call_bidi_stream := at_call_bidi_stream (a_typed inner) |}
  {| ar_metadata := ar_metadata (a_raw inner);
     ar_call_raw := retry_call_raw_future;
     ar_call_raw_server_stream := ar_call_raw_server_stream (a_raw inner);
     ar_call_raw_client_stream := ar_call_raw_client_stream (a_raw inner);
     ar_call_raw_bidi_stream := ar_call_raw_bidi_stream (a_raw inner) |}.
End client.

(** ** Alone *)

Section alone.
Context `{Contract} `{Backoff} {RC : RetryClassifier} {V R : Type}.
Context (clk : Clock V) (config : GrpcRetryConfig) (path : string) (total_budget : option Duration).
Context (sleeping : Duration -> Future V unit).
Context (attempt : option Duration -> Future V (Result R CallError)).
Context (op : option Duration -> eff V (Result R CallError)).
Context (Hsleep : forall d, alone Logic.eq (sleeping d) (sleep clk d)).
Context (Hattempt : forall time, alone Logic.eq (attempt time) (op time)).

Notation poll := (retry_poll clk config path total_budget sleeping attempt).
Notation turn := (turn clk config path total_budget sleeping attempt).
Notation poll_attempt := (poll_attempt clk config path total_budget sleeping attempt).
Notation poll_pause := (poll_pause sleeping attempt).

(** What follows an attempt in the same poll. *)
Definition goes_on (turns : nat) (next : Result R CallError + Duration * Locals) :
    eff V (option (Result R CallError) * RetryState sleeping attempt) :=
  match next with
  | inl r => returns sleeping attempt r
  | inr (d, l) => poll_pause (turn turns) turns l d (f_start (sleeping d))
  end.

(** The end of the loop: with the result and the world of the operation. *)
Notation ends_as m v := (ends poll (retry_drop sleeping attempt) (fun a => a = (m v).1) (m v).2).

(** The loop of [Retry] from a state of the locals. *)
Notation loop turns l :=
  (retry_loop clk config path total_budget op turns (started_at l) (standard_attempt l)
     (rate_lim_attempt l) (rng l) (last_error l)).

Definition runs_to (turns : nat) : Prop := forall l v, ends_as (loop turns l) v (turn turns l v).

(** A pause, if there is time for it, and the turns after it. *)
Lemma pause_ends turns l d v :
  runs_to turns ->
  let m := let! fits := budget_allows_sleep clk total_budget (started_at l) d in
           if fits then sleep clk d ;;; loop turns l else after_loop path (last_error l) in
  ends_as m v ((let! next := pause_or_stop clk path total_budget l d in goes_on turns next) v).
Proof.
  intros Hruns m. unfold m, pause_or_stop, bind, ret.
  destruct (budget_allows_sleep clk total_budget (started_at l) d v) as [[] v1]; [|done].
  cbn [goes_on]. apply (awaiting_alone Logic.eq (sleep clk d)); [done|apply Hsleep|].
  intros _ _. destruct (sleep clk d v1) as [[] v3]. apply Hruns.
Qed.

Lemma turn_runs turns : runs_to turns.
Proof.
  induction turns as [|turns IH]; intros l v; [done|]. cbn [RetryFuture.turn retry_loop].
  destruct (remaining clk total_budget (started_at l) v) as [time v1] eqn:Et.
  rewrite !(bind_from _ _ _ _ Et). destruct time as [time|]; [|done].
  apply (awaiting_alone Logic.eq (op time)); [done|apply Hattempt|]. intros r Hr.
  destruct (op time v1) as [r' v3] eqn:Eo. cbn [fst snd] in *. subst r'.
  rewrite !(bind_from _ _ _ _ Eo). unfold after_attempt.
  destruct (classify r); [done| | |done].
  - destruct (_ <=? _); [done|]. destruct (next_unit (rng l)) as [u g].
    exact (pause_ends turns (locals _ _ _ g _) _ v3 IH).
  - destruct (_ <? _); [done|]. destruct (next_unit (rng l)) as [u g].
    exact (pause_ends turns (locals _ _ _ g _) _ v3 IH).
Qed.

(** The future polled to its end does what [run_with_retry] does. *)
Lemma retry_future_alone :
  alone Logic.eq (retry_future clk config path total_budget sleeping attempt)
    (run_with_retry clk config path total_budget op).
Proof.
  apply ends_alone. intros v. unfold run_with_retry. cbn [f_poll f_start f_drop retry_future retry_poll].
  destruct (now clk v) as [started v1] eqn:En. rewrite !(bind_from _ _ _ _ En).
  destruct (from_clock clk v1) as [g v2] eqn:Eg. rewrite !(bind_from _ _ _ _ Eg).
  exact (turn_runs (N.to_nat (max_attempts (fields config))) (locals started 0 0 g None) v2).
Qed.
End alone.

(** ** The client alone *)

Lemma local_drive {F W A} (x0 : F) (f : Future (F * W) A) n s x w :
  drive (f_poll (with_local x0 f)) id n (x, s) w
  = let '(r, (s', (x', w'))) := drive (f_poll f) id n s (x, w) in (r, ((x', s'), w')).
Proof.
  revert s x w. induction n as [|n IH]; intros s x w; [done|]. cbn.
  destruct (f_poll f s (x, w)) as [[[a|] s'] [x' w']]; [done|apply IH].
Qed.

Lemma local_alone {F W A} (x : F) (f : Future (F * W) A) (m : eff (F * W) A) :
  alone Logic.eq f m ->
  alone Logic.eq (with_local x f) (fun w => let '(r, (_, w')) := m (x, w) in (r, w')).
Proof.
  intros Hf w. destruct (Hf (x, w)) as (n & a & s & [x1 w1] & Ed & Ea & Edrop).
  exists n, a, (x1, s), w1. cbn [f_start with_local]. rewrite local_drive, Ed. split; [done|].
  cbn. destruct (f_drop f s (x1, w1)) as [[] [x2 w2]], (m (x, w)) as [r [x3 w3]]. cbn in *.
  by simplify_eq.
Qed.

Section client_alone.
Context `{Contract} `{Backoff} {RC : RetryClassifier} {W : Type}.
Context (clk : Clock W) (sleeping : Duration -> Future W unit) (config : GrpcRetryConfig).
Context (sleep_alone : forall d, alone Logic.eq (sleeping d) (sleep clk d)).

Lemma typed_attempt_alone {T view f1 f2 f3 f4 m1 m2 m3 m4} ar r M encoded options time :
  (forall message options, alone Logic.eq (f1 M message options) (m1 M message options)) ->
  alone Logic.eq
    (typed_attempt_future (async_client (Build_AsyncTransport _ W T f1 f2 f3 f4) ar) M encoded options time)
    (typed_attempt (grpc_retry_client (client (Build_Transport _ W T view m1 m2 m3 m4) r) config) M encoded options time).
Proof.
  intros Hc. eapply alone_ext; [|apply (await_alone (take_message M encoded) _ (fun _ result => ret result)
    (fun message => lift (m1 M message (options_create time (get_metadata options))))
    (fun _ result => ret result) Logic.eq Logic.eq)].
  - intros [first w]. unfold bindr, bind, ret, take_message, typed_attempt. cbn [inner].
    destruct first as [message|]; [|destruct (decode (request_payload M) encoded); [cbn [map_err]|done]];
      unfold lift; cbn; by destruct (m1 _ _ _ w).
  - intros message. apply lift_alone, Hc.
  - done.
  - by intros l r' r'' w ->.
Qed.

(** The decorator keeps the agreement of futures and operations. *)
Lemma retry_alone (a : AsyncClient W) (c : Client W) :
  client_alone a c ->
  client_alone (retry_async clk sleeping a config) (retry_client clk (grpc_retry_client c config)).
Proof.
  destruct a as [a ar], c as [t r]. intros [Ht Hr]. cbn in Ht, Hr. split.
  - destruct Ht as [T view f1 f2 f3 f4 m1 m2 m3 m4 H1 H2 H3 H4].
    constructor; [|done..]. intros M message options. unfold retry_call_future, retry_call. cbn [inner Retry.config].
    destruct (_ <=? 1); [apply H1|]. destruct (map_err Encode _) as [encoded|e]; [|by apply ready_alone].
    apply local_alone, retry_future_alone; intros; [apply lift_alone, sleep_alone|].
    apply typed_attempt_alone, H1.
  - destruct Hr as [T view f1 f2 f3 f4 m1 m2 m3 m4 H1 H2 H3 H4].
    constructor; [|done..]. intros path message options. apply retry_future_alone; [exact sleep_alone|].
    intros time. apply H1.
Qed.
End client_alone.

(** ** Interrupted *)

(** A future that counts once when it is polled first. *)
Definition counted {V A} (f : Future V A) : Future (N * V) A := {|
  f_state := bool * f_state f;
  f_start := (false, f_start f);
  f_poll '(polled, s) '(k, v) :=
    let '((r, s), v) := f_poll f s v in ((r, (true, s)), (if polled : bool then k else k + 1, v));
  f_drop '(_, s) := lift (f_drop f s);
|}.

Section interrupted.
Context `{Contract} `{Backoff} {RC : RetryClassifier} `{!RetryClassifierLaws RC} {V R : Type}.
Context (clk : Clock V) (config : GrpcRetryConfig) (path : string) (total_budget : option Duration).
Context (sleeping : Duration -> Future V unit).
Context (attempt : option Duration -> Future V (Result R CallError)).

Notation max := (max_attempts (fields config)).
Notation rl_max := (rate_limit_max_attempts (fields config)).

(** The loop, and how many attempts it has begun. *)
Definition counted_retry : Future (N * V) (Result R CallError) :=
  retry_future (lift_clock clk) config path total_budget
    (fun d => f_lift (sleeping d)) (fun time => counted (attempt time)).

Notation State := (RetryState (fun d => f_lift (F := N) (sleeping d)) (fun time => counted (attempt time))).

(** An error after which the loop goes on. *)
Definition retried_error (e : CallError) : Prop :=
  classify (Err e : Result R CallError) = Retry \/
  classify (Err e : Result R CallError) = RetryRateLimit.

(** What the locals say after [k] attempts, with [turns] left. *)
Record after (k : N) (turns : nat) (l : Locals) : Prop := {
  after_tries : standard_attempt l + rate_lim_attempt l = k;
  after_turns : k + N.of_nat turns = max;
  after_rate : rate_lim_attempt l <= rl_max;
  after_error : if k =? 0 then last_error l = None else exists e, last_error l = Some e /\ retried_error e;
}.

Definition holding (p : State) (k : N) : Prop :=
  match p with
  | Initial => k = 0
  | Attempting turns l _ s => s.1 = true /\ 0 < k /\ after (k - 1) (S turns) l
  | Pausing turns l _ _ => 0 < k /\ after k turns l
  | Returned => k <= max
  end.

Definition poll_holds (out : option (Result R CallError) * State * (N * V)) : Prop :=
  let '((r, p), (k, _)) := out in
  holding p k /\ match r with Some _ => p = Returned | None => p <> Returned /\ p <> Initial end.

Lemma lift_remaining started (k : N) v :
  remaining (lift_clock clk) total_budget started (k, v)
  = let '(r, v') := remaining clk total_budget started v in (r, (k, v')).
Proof.
  unfold remaining, elapsed, bind, ret, lift_clock, lift. destruct total_budget; [|done]. cbn.
  by destruct (now clk v).
Qed.

Lemma lift_budget started d (k : N) v :
  budget_allows_sleep (lift_clock clk) total_budget started d (k, v)
  = let '(r, v') := budget_allows_sleep clk total_budget started d v in (r, (k, v')).
Proof.
  unfold budget_allows_sleep, elapsed, bind, ret, lift_clock, lift. destruct total_budget; [|done]. cbn.
  by destruct (now clk v).
Qed.

Lemma retried_is_error (r : Result R CallError) :
  classify r = Retry \/ classify r = RetryRateLimit ->
  exists e, result_err r = Some e /\ retried_error e.
Proof.
  destruct r as [r|e]; [rewrite classify_ok; intros [|]; done|]. intros Hc. exists e. by split.
Qed.

Lemma pause_holds l d (k : N) v :
  match pause_or_stop (R := R) (lift_clock clk) path total_budget l d (k, v) with
  | (inl _, (k', _)) => k' = k
  | (inr (_, l'), (k', _)) => k' = k /\ l' = l
  end.
Proof.
  unfold pause_or_stop, bind. rewrite lift_budget.
  by destruct (budget_allows_sleep clk total_budget (started_at l) d v) as [[] v'].
Qed.

(** After an attempt the loop is done, or its locals count one more try. *)
Lemma attempt_holds turns l (r : Result R CallError) (k : N) v :
  after k (S turns) l ->
  match after_attempt (lift_clock clk) config path total_budget l r (k + 1, v) with
  | (inl _, (k', _)) => k' = k + 1
  | (inr (_, l'), (k', _)) => k' = k + 1 /\ after (k + 1) turns l'
  end.
Proof.
  intros [Ht Hn Hr _]. unfold after_attempt, bind, ret. destruct (classify r) eqn:Ec; [done| | |done].
  - destruct (N.leb_spec max (standard_attempt l + 1)); [done|]. destruct (next_unit (rng l)) as [u g].
    match goal with |- context [pause_or_stop _ _ _ ?l' ?d] => pose proof (pause_holds l' d (k + 1) v) as Hp end.
    destruct (pause_or_stop _ _ _ _ _ _) as [[|[d l']] [k' v']]; [done|]. destruct Hp as [-> ->].
    split; [done|]. destruct (retried_is_error r) as (e & Ee & He); [by left|].
    split; cbn; [lia|lia|lia|]. destruct (N.eqb_spec (k + 1) 0); [lia|]. by exists e.
  - destruct (N.ltb_spec rl_max (rate_lim_attempt l + 1)); [done|]. destruct (next_unit (rng l)) as [u g].
    match goal with |- context [pause_or_stop _ _ _ ?l' ?d] => pose proof (pause_holds l' d (k + 1) v) as Hp end.
    destruct (pause_or_stop _ _ _ _ _ _) as [[|[d l']] [k' v']]; [done|]. destruct Hp as [-> ->].
    split; [done|]. destruct (retried_is_error r) as (e & Ee & He); [by right|].
    split; cbn; [lia|lia|lia|]. destruct (N.eqb_spec (k + 1) 0); [lia|]. by exists e.
Qed.

Notation turn := (turn (lift_clock clk) config path total_budget
  (fun d => f_lift (sleeping d)) (fun time => counted (attempt time))).

Definition turn_holds (turns : nat) : Prop := forall l k v, after k turns l -> poll_holds (turn turns l (k, v)).

Lemma pause_poll_holds turns l d s k v :
  turn_holds turns -> 0 < k -> after k turns l ->
  poll_holds (poll_pause (fun d => f_lift (sleeping d)) (fun time => counted (attempt time)) (turn turns) turns l d s (k, v)).
Proof.
  intros Hturn Hk Ha. unfold poll_pause, awaiting, bind, ret. cbn [f_poll f_lift f_drop]. unfold lift.
  destruct (f_poll (sleeping d) s v) as [[[[]|] s'] v'].
  - destruct (f_drop (sleeping d) s' v') as [[] v'']. by apply Hturn.
  - by split.
Qed.

Lemma attempt_poll_holds turns l time polled s k v :
  turn_holds turns -> after k (S turns) l ->
  poll_holds (poll_attempt (lift_clock clk) config path total_budget (fun d => f_lift (sleeping d))
    (fun time => counted (attempt time)) (turn turns) turns l time (polled, s)
    (if polled : bool then k + 1 else k, v)).
Proof.
  intros Hturn Ha. unfold poll_attempt, awaiting, bind, ret. cbn [f_poll counted f_drop].
  destruct (f_poll (attempt time) s v) as [[r s'] v'].
  assert ((if polled then (if polled then k + 1 else k) else (if polled then k + 1 else k) + 1) = k + 1) as ->
    by by destruct polled.
  destruct r as [r|].
  - unfold lift. destruct (f_drop (attempt time) s' v') as [[] v2].
    pose proof (attempt_holds turns l r k v2 Ha) as Hr.
    destruct (after_attempt _ _ _ _ _ _ _) as [[r'|[d l']] [k' v3]].
    + subst k'. split; [|done]. destruct Ha. cbn. lia.
    + destruct Hr as [-> Ha']. apply pause_poll_holds; [done|lia|done].
  - split; [|done]. cbn. split_and!; [done|lia|]. by replace (k + 1 - 1) with k by lia.
Qed.

Lemma turns_hold turns : turn_holds turns.
Proof.
  induction turns as [|turns IH]; intros l k v Ha.
  - split; [|done]. destruct Ha. cbn. lia.
  - cbn [RetryFuture.turn]. unfold bind. rewrite lift_remaining.
    destruct (remaining clk total_budget (started_at l) v) as [[time|] v'].
    + exact (attempt_poll_holds turns l time false (f_start (attempt time)) k v' IH Ha).
    + split; [|done]. destruct Ha. cbn. lia.
Qed.

Lemma poll_keeps p k v : holding p k -> p <> Returned -> poll_holds (f_poll counted_retry p (k, v)).
Proof.
  intros Hp Hnot. destruct p as [|turns l time [polled s]|turns l d s|]; [| | |done].
  - cbn in Hp. subst k. cbn [f_poll counted_retry retry_future retry_poll]. unfold bind, lift_clock, lift. cbn [now from_clock].
    destruct (now clk v) as [started v1]. destruct (from_clock clk v1) as [g v2].
    apply turns_hold. split; cbn; [done|lia|lia|done].
  - destruct Hp as (Hpolled & Hk & Ha). cbn in Hpolled. subst polled.
    pose proof (attempt_poll_holds turns l time true s (k - 1) v (turns_hold turns) Ha) as H1.
    by replace (k - 1 + 1) with k in H1 by lia.
  - destruct Hp as [Hk Ha]. by apply pause_poll_holds; [apply turns_hold| |].
Qed.

(** C6: An interrupted retry: polled any number of times while the rest of the world moves, bound to a
    signal or not, a call has begun at most [max_attempts] attempts, and as many as its locals say:
    while it awaits an attempt or pauses after one the two tracks together count those that failed,
    each with an error the classifier retries, and what is left of [max_attempts] is left.  Dropped
    there, it drops the one future it awaits and begins no attempt; where the signal had fired before
    the first poll it has begun none. *)
Theorem interrupted_retry (fired : V -> bool) (env : V -> V) p n v :
  let out := drive (f_poll (race (fun w => fired w.2) p counted_retry)) (fun '(k, v) => (k, env v)) n
               Initial (0, v) in
  let '(r, (s, (k, v'))) := out in
  k <= max /\ holding s k /\ ((0 < n)%nat -> r = None -> s <> Initial /\ s <> Returned) /\
  (let '(_, (k', v'')) := f_drop counted_retry s (k, v') in
   k' = k /\
   v'' = match s with
         | Attempting _ _ time (_, s) => (f_drop (attempt time) s v').2
         | Pausing _ _ d s => (f_drop (sleeping d) s v').2
         | _ => v'
         end) /\
  (fired v = true -> (0 < n)%nat -> out = (Some (Err (cancelled p)), (Initial, (0, v)))).
Proof.
  cbn zeta. assert (forall k (s : State) v, holding s k -> s <> Returned ->
    let '(r, (s', (k', _))) := drive (f_poll (race (fun w => fired w.2) p counted_retry))
      (fun '(k, v) => (k, env v)) n s (k, v) in
    holding s' k' /\ ((0 < n)%nat -> r = None -> s' <> Initial /\ s' <> Returned)) as Hdrive.
  { clear v. induction n as [|n IH]; intros k s v Hh Hs; [split; [done|lia]|]. cbn [drive].
    cbn [f_poll race]. unfold select_poll at 1. cbn [snd]. destruct (fired v); [done|].
    pose proof (poll_keeps s k v Hh Hs) as Hp. destruct (f_poll counted_retry s (k, v)) as [[[r|] s'] [k' v']].
    - by destruct Hp.
    - destruct Hp as [Hh' [Hr Hi]]. specialize (IH k' s' (env v') Hh' Hr).
      destruct (drive (f_poll (race (fun w => fired w.2) p counted_retry)) (fun '(k, v) => (k, env v)) n s'
        (k', env v')) as [r [s2 [k2 v2]]] eqn:Ed. destruct IH as [Hh2 Hn].
      change (select_poll (fun w : N * V => fired w.2) p (f_poll counted_retry))
        with (f_poll (race (fun w : N * V => fired w.2) p counted_retry)). rewrite Ed.
      split; [done|]. intros _ Hr0. destruct n as [|n]; [|apply Hn; [lia|done]].
      cbn in Ed. by simplify_eq. }
  specialize (Hdrive 0 Initial v Logic.eq_refl ltac:(done)).
  destruct (drive (f_poll (race (fun w => fired w.2) p counted_retry)) (fun '(k, v) => (k, env v)) n Initial (0, v))
    as [r [s [k v']]] eqn:Ed. destruct Hdrive as [Hh Hn].
  split_and!; [|done|done| |].
  - destruct s as [|turns l time s|turns l d s|]; cbn in Hh; [lia| | |done].
    + destruct Hh as (_ & ? & []). lia.
    + destruct Hh as (? & []). lia.
  - destruct s as [|turns l time [b s]|turns l d s|]; cbn; unfold lift; [done| | |done].
    + by destruct (f_drop (attempt time) s v').
    + by destruct (f_drop (sleeping d) s v').
  - intros Hf Hpos. rewrite <- Ed. destruct n as [|n]; [lia|]. cbn [drive f_poll race].
    unfold select_poll at 1. cbn [snd]. by rewrite Hf.
Qed.
End interrupted.

(** Pauses and attempts that are ready at the second poll, an upstream that is down: after three polls
    the second attempt is under way. *)
#[local] Existing Instance list_contract.
#[local] Existing Instance RetrySpec.Example.backoff.

Lemma interrupted_retry_witness :
  let sleeping := fun d => second_poll (sleep RetrySpec.Example.clock d) in
  let attempt := fun time => second_poll (RetrySpec.Example.unavailable time) in
  let call := counted_retry RetrySpec.Example.clock RetryConfig.default "/s/M" None sleeping attempt in
  let out := drive (f_poll (race (fun w : N * N => from_secs 9 <? w.2) "/s/M" call)) (fun '(k, t) => (k, t + 1)) 3
               Initial (0, 0) in
  out.1 = None /\ out.2.2 = (2, 1000000003 + from_millis 100) /\
  out.2.2.1 <= max_attempts (fields RetryConfig.default) /\
  (f_drop call out.2.1 out.2.2).2.1 = out.2.2.1.
Proof.
  intros sleeping attempt call out.
  pose proof (interrupted_retry (RC := std_retry_classifier) RetrySpec.Example.clock RetryConfig.default "/s/M" None
    sleeping attempt (fun t => from_secs 9 <? t) (fun t => t + 1) "/s/M" 3 0) as Hi. cbv zeta in Hi.
  split; [vm_compute; reflexivity|]. split; [vm_compute; reflexivity|].
  fold call in Hi. change (drive _ _ 3 _ (0, 0)) with out in Hi.
  destruct out as [r [s [k t]]]. destruct Hi as (Hk & _ & _ & Hd & _). split; [exact Hk|]. cbn [fst snd].
  destruct (f_drop call s (k, t)) as [? [k' t']]. by destruct Hd.
Defined.
