(* ===== verification/BreakerConfig.v ===== *)
(** * The circuit-breaker policy

    [breaker-api/src/vo/grpc_breaker_config.rs] and
    [breaker-spi/src/spi/config/std_grpc_breaker_config_provider.rs]. *)

From S2P Require Import Prelude Text Contract.
From Stdlib Require Import NArith Lia.
From stdpp Require Import base tactics strings option.

Open Scope N_scope.

(** [BreakerError] of the policy crate, by the two variants this repository builds. *)
Inductive BreakerError :=
| ParseFailed (text : string)
| InvalidConfig (text : string).

Record GrpcBreakerConfig := breaker_config {
  enabled : bool;
  failure_threshold : N;
  cool_down_seconds : N;
  half_open_probe_count : N;
}.

Definition default : GrpcBreakerConfig := breaker_config true 5 30 1.

(** [GrpcBreakerConfigData]: what the text may say; a field it leaves out is the default's. *)
Record GrpcBreakerConfigData := {
  data_enabled : option bool;
  data_failure_threshold : option N;
  data_cool_down_seconds : option N;
  data_half_open_probe_count : option N;
}.

Definition try_new (enabled : bool) (failure_threshold cool_down_seconds half_open_probe_count : N) :
    Result GrpcBreakerConfig BreakerError :=
  if failure_threshold =? 0 then Err (InvalidConfig "failure_threshold must be >= 1")
  else if half_open_probe_count =? 0 then Err (InvalidConfig "half_open_probe_count must be >= 1")
  else Ok (breaker_config enabled failure_threshold cool_down_seconds half_open_probe_count).

(** [TryFrom<GrpcBreakerConfigData>], with [serde(default)] filling the fields left out. *)
Definition try_from (data : GrpcBreakerConfigData) : Result GrpcBreakerConfig BreakerError :=
  try_new
    (option.default (enabled default) (data_enabled data))
    (option.default (failure_threshold default) (data_failure_threshold data))
    (option.default (cool_down_seconds default) (data_cool_down_seconds data))
    (option.default (half_open_probe_count default) (data_half_open_probe_count data)).

Definition section_name : string := "grpc_breaker".

(** [edge_transport_breaker_policy::BreakerConfig], by the fields the conversion sets. *)
Record BreakerConfig := {
  bc_failure_threshold : N;
  bc_cool_down_seconds : N;
  bc_half_open_probe_count : N;
}.

Definition to_breaker_policy (cfg : GrpcBreakerConfig) : BreakerConfig := {|
  bc_failure_threshold := failure_threshold cfg;
  bc_cool_down_seconds := cool_down_seconds cfg;
  bc_half_open_probe_count := half_open_probe_count cfg;
|}.

(** ** The provider *)

Module Provider.
Definition cool_down (config : GrpcBreakerConfig) : Duration := from_secs (cool_down_seconds config).

Definition validate (config : GrpcBreakerConfig) : Result unit BreakerError :=
  if failure_threshold config =? 0 then Err (InvalidConfig "failure_threshold must be >= 1")
  else if half_open_probe_count config =? 0
  then Err (InvalidConfig "half_open_probe_count must be >= 1")
  else Ok tt.

Section parse.
Context (toml_from_str : string -> Result GrpcBreakerConfigData string).
Context (toml_custom : BreakerError -> string).

(** [toml::from_str::<GrpcBreakerConfig>]. *)
Definition deserialize (text : string) : Result GrpcBreakerConfig string :=
  let? data := toml_from_str text in
  map_err toml_custom (try_from data).

Definition parse_config (text : string) : Result GrpcBreakerConfig BreakerError :=
  let? cfg := map_err ParseFailed (deserialize text) in
  let? _ := validate cfg in
  Ok cfg.
End parse.
End Provider.

(** ** What a policy promises *)

Definition well_formed (c : GrpcBreakerConfig) : Prop :=
  1 <= failure_threshold c /\ 1 <= half_open_probe_count c.

Lemma breaker_try_new_ok e f s p c :
  try_new e f s p = Ok c <-> 1 <= f /\ 1 <= p /\ c = breaker_config e f s p.
Proof.
  unfold try_new. destruct (N.eqb_spec f 0), (N.eqb_spec p 0); split; naive_solver lia.
Qed.

Lemma breaker_validate_well_formed c : Provider.validate c = Ok tt <-> well_formed c.
Proof.
  unfold Provider.validate, well_formed.
  destruct (N.eqb_spec (failure_threshold c) 0), (N.eqb_spec (half_open_probe_count c) 0);
    split; naive_solver lia.
Qed.

Lemma breaker_default_well_formed : well_formed default.
Proof. split; vm_compute; congruence. Qed.

Lemma breaker_try_new_err e f s p err : try_new e f s p = Err err -> exists text, err = InvalidConfig text.
Proof. unfold try_new. intros H. repeat case_match; naive_solver. Qed.

(** ** Properties *)

(** Parsing gives a policy that can work, with the values of the text and the default's for what
    the text leaves out, or a [ParseFailed]; an empty text is the default policy. *)
Theorem breaker_parse_config toml_from_str toml_custom text :
  match Provider.parse_config toml_from_str toml_custom text with
  | Ok c =>
      well_formed c /\ exists data, toml_from_str text = Ok data /\
        try_from data = Ok c /\
        (data = Build_GrpcBreakerConfigData None None None None -> c = default)
  | Err e => exists why, e = ParseFailed why
  end.
Proof.
  unfold Provider.parse_config, Provider.deserialize.
  destruct (toml_from_str text) as [data|e]; cbn [rbind map_err]; [|eauto].
  destruct (try_from data) as [c|e] eqn:E; cbn [rbind map_err]; [|eauto].
  pose proof E as E'. apply breaker_try_new_ok in E' as (? & ? & Hc).
  assert (well_formed c) as Hwf by (rewrite Hc; done).
  rewrite (proj2 (breaker_validate_well_formed c)) by done. cbn [rbind]. split; [done|].
  exists data. split_and!; [done|done|]. intros ->. by injection E.
Qed.
