(* ===== verification/Breaker.v ===== *)
(** * The circuit-breaker decorator

    [breaker-spi/src/spi/decorator/]: [grpc_breaker_client.rs], [std_failure_classifier.rs] and
    [breaker_egress.rs], and the factory [saf/std_grpc_breaker_factory.rs].

    The state machine is the crate [edge_transport_breaker]'s (class [BreakerTransition]); it reads
    the clock, so its operations are effects on the inner world.  The state of the decorator is its
    node next to the inner world; here a call runs alone, and [BreakerRace] interleaves calls. *)

From S2P Require Import Prelude Text Contract BreakerConfig.
From Stdlib Require Import NArith Lia Strings.Byte.
From stdpp Require Import base tactics strings option list.

Open Scope N_scope.

(** ** The state machine *)

Inductive Admission := Proceed | RejectOpen.
Inductive Outcome := OutcomeSuccess | OutcomeFailure.

(** [BreakerNode]; [S] is [BreakerState]. *)
Record BreakerNode (S : Type) := breaker_node {
  state : S;
  consecutive_failures : N;
  consecutive_successes : N;
}.
Arguments breaker_node {_}.
Arguments state {_}.
Arguments consecutive_failures {_}.
Arguments consecutive_successes {_}.

(** [DefaultBreakerTransition]: a request carries the fields of the node and the policy, a response
    the fields of the next node. *)
Class BreakerTransition (W : Type) := {
  BreakerState : Type;
  Closed : BreakerState;
  TransitionError : Type;
  transition_error_to_string : TransitionError -> string;
  transition_admit :
    BreakerNode BreakerState -> BreakerConfig ->
    eff W (Result (Admission * BreakerNode BreakerState) TransitionError);
  transition_record :
    BreakerNode BreakerState -> BreakerConfig -> Outcome ->
    eff W (Result (BreakerNode BreakerState) TransitionError);
}.

Notation "'Node'" := (BreakerNode BreakerState).

(** The same state machine when the state has one more component. *)
Definition lift_transition {F V} (T : BreakerTransition V) : BreakerTransition (F * V) := {|
  BreakerState := @BreakerState V T;
  Closed := Closed;
  TransitionError := @TransitionError V T;
  transition_error_to_string := transition_error_to_string;
  transition_admit n c := lift (transition_admit n c);
  transition_record n c o := lift (transition_record n c o);
|}.

(** ** The failure classifier *)

Definition classify_result `{Contract} {T} (result : Result T CallError) : Outcome :=
  let is_breaker_failure :=
    match result with
    | Ok _ => false
    | Err (Transport_ _ code _) =>
        match code with Unavailable | StatusUnknown | Internal => true | _ => false end
    | Err (Status _ code _ _ _) =>
        match code with Unavailable | Internal => true | _ => false end
    | Err (Decode _) => true
    | Err (Encode _) => false
    end in
  if is_breaker_failure then OutcomeFailure else OutcomeSuccess.

(** ** The decorator *)

Section breaker.
Context `{Contract} {W : Type} `{!BreakerTransition W}.

(** [GrpcBreakerClient]; its [node] is in the state of its operations. *)
Record GrpcBreakerClient := grpc_breaker_client {
  inner : Client W;
  config : GrpcBreakerConfig;
}.

(** The node of a new client. *)
Definition new_node : Node := breaker_node Closed 0 0.

Definition BREAKER_EGRESS_LOG_PREFIX : string := "grpc-breaker".

(** [*self.node.lock().await], and the three assignments under the lock. *)
Definition read_node : eff (Node * W) Node := fun '(node, w) => (node, (node, w)).
Definition write_node (n : Node) : eff (Node * W) unit := fun '(node, w) =>
  (tt, (breaker_node (state n) (consecutive_failures n) (consecutive_successes n), w)).

Definition refuse (path : string) (code : StatusCode) (reason : string) : CallError :=
  Transport_ path code reason.

Definition admit_unexpected (path : string) (e : TransitionError) : CallError :=
  refuse path Internal
    (BREAKER_EGRESS_LOG_PREFIX +:+ ": admit failed unexpectedly: " +:+ transition_error_to_string e).

Definition circuit_open (path : string) : CallError :=
  refuse path Unavailable (BREAKER_EGRESS_LOG_PREFIX +:+ ": circuit open, request short-circuited").

Definition admission_of (self : GrpcBreakerClient) (path : string) :
    eff (Node * W) (Result unit CallError) :=
  let! snapshot := read_node in
  let! r := lift (transition_admit snapshot (to_breaker_policy (config self))) in
  match r with
  | Err e => ret (Err (admit_unexpected path e))
  | Ok (admission, admitted) =>
      write_node admitted ;;;
      ret (match admission with
           | RejectOpen => Err (circuit_open path)
           | Proceed => Ok tt
           end)
  end.

Definition record_outcome (self : GrpcBreakerClient) (outcome : Outcome) : eff (Node * W) unit :=
  let! snapshot := read_node in
  let! r := lift (transition_record snapshot (to_breaker_policy (config self)) outcome) in
  match r with
  | Ok recorded => write_node recorded
  | Err _ => ret tt
  end.

Definition guard {R} (self : GrpcBreakerClient) (path : string)
    (call : eff (Node * W) (Result R CallError)) : eff (Node * W) (Result R CallError) :=
  if negb (enabled (config self)) then call
  else
    let!? _ := admission_of self path in
    let! result := call in
    let outcome := classify_result result in
    record_outcome self outcome ;;;
    ret result.

(** A streaming call of the inner client, from the state of the decorator. *)
Definition lift_streaming {T M} (m : eff W (Result (ResponseStream W T M) CallError)) :
    eff (Node * W) (Result (ResponseStream (Node * W) T M) CallError) :=
  let! r := lift m in ret (rmap lift_stream r).

Definition breaker_typed (self : GrpcBreakerClient) : Transport (Node * W) := {|
  t_metadata := t_metadata (typed (inner self));
  t_view := t_view (typed (inner self));
  call M message options := guard self (PATH M) (lift (call (typed (inner self)) M message options));
  call_server_stream M message options :=
    guard self (PATH M) (lift_streaming (call_server_stream (typed (inner self)) M message options));
  call_client_stream M requests options :=
    guard self (PATH M) (lift (call_client_stream (typed (inner self)) M requests options));
  call_bidi_stream M requests options :=
    guard self (PATH M) (lift_streaming (call_bidi_stream (typed (inner self)) M requests options));
|}.

(** The raw calls do not go through [guard]: each asks [enabled] twice. *)
Definition breaker_call_raw (self : GrpcBreakerClient) (path : string) (message : list byte)
    (options : CallOptions) :
    eff (Node * W) (Result (CallResponse (list byte) (r_metadata (raw (inner self)))) CallError) :=
  let!? _ := (if enabled (config self) then admission_of self path else ret (Ok tt)) in
  let! result := lift (call_raw (raw (inner self)) path message options) in
  (if enabled (config self) then record_outcome self (classify_result result) else ret tt) ;;;
  ret result.

Definition breaker_call_raw_server_stream (self : GrpcBreakerClient) (path : string)
    (message : list byte) (options : CallOptions) :
    eff (Node * W)
      (Result (ResponseStream (Node * W) (list byte) (r_metadata (raw (inner self)))) CallError) :=
  let!? _ := (if enabled (config self) then admission_of self path else ret (Ok tt)) in
  let! result := lift_streaming (call_raw_server_stream (raw (inner self)) path message options) in
  (if enabled (config self) then record_outcome self (classify_result result) else ret tt) ;;;
  ret result.

Definition breaker_call_raw_client_stream (self : GrpcBreakerClient) (path : string)
    (requests : RequestStream (list byte)) (options : CallOptions) :
    eff (Node * W) (Result (CallResponse (list byte) (r_metadata (raw (inner self)))) CallError) :=
  let!? _ := (if enabled (config self) then admission_of self path else ret (Ok tt)) in
  let! result := lift (call_raw_client_stream (raw (inner self)) path requests options) in
  (if enabled (config self) then record_outcome self (classify_result result) else ret tt) ;;;
  ret result.

Definition breaker_call_raw_bidi_stream (self : GrpcBreakerClient) (path : string)
    (requests : RequestStream (list byte)) (options : CallOptions) :
    eff (Node * W)
      (Result (ResponseStream (Node * W) (list byte) (r_metadata (raw (inner self)))) CallError) :=
  let!? _ := (if enabled (config self) then admission_of self path else ret (Ok tt)) in
  let! result := lift_streaming (call_raw_bidi_stream (raw (inner self)) path requests options) in
  (if enabled (config self) then record_outcome self (classify_result result) else ret tt) ;;;
  ret result.

Definition breaker_raw (self : GrpcBreakerClient) : RawTransport (Node * W) := {|
  r_metadata := r_metadata (raw (inner self));
  r_view := r_view (raw (inner self));
  call_raw := breaker_call_raw self;
  call_raw_server_stream := breaker_call_raw_server_stream self;
  call_raw_client_stream := breaker_call_raw_client_stream self;
  call_raw_bidi_stream := breaker_call_raw_bidi_stream self;
|}.

Definition breaker_client (self : GrpcBreakerClient) : Client (Node * W) :=
  client (breaker_typed self) (breaker_raw self).

(** [BreakerObservable::state]. *)
Definition observe_state : eff (Node * W) BreakerState :=
  let! node := read_node in ret (state node).

(** [StdGrpcBreakerFactory::build]: the client and the node it starts with. *)
Definition breaker_build (config : GrpcBreakerConfig) (inner : Client W) :
    Result (Client (Node * W) * Node) BreakerError :=
  let? _ := Provider.validate config in
  Ok (breaker_client (grpc_breaker_client inner config), new_node).
End breaker.
