(* ===== verification/BreakerSpec.v ===== *)
(** * What the circuit breaker does

    The whole behaviour of a guarded call, the equivalence of the raw calls with it, and when the
    circuit opens and closes under the laws documented for the state machine ([TransitionLaws]). *)

From S2P Require Import Prelude Text Contract BreakerConfig Breaker.
From Stdlib Require Import NArith Lia Strings.Byte.
From stdpp Require Import base tactics strings option list.

Open Scope N_scope.

Lemma node_eta {S} (n : BreakerNode S) :
  breaker_node (state n) (consecutive_failures n) (consecutive_successes n) = n.
Proof. by destruct n. Qed.

(** ** A guarded call *)

Section guarded.
Context `{Contract} {W : Type} `{!BreakerTransition W}.
Implicit Types (self : GrpcBreakerClient (W := W)) (node : Node) (w : W).

Definition policy_of self : BreakerConfig := to_breaker_policy (config self).

(** What a guarded call does, case by case: [call] runs only on [Proceed], and its result stands
    whatever the state machine says afterwards. *)
Definition guarded {R} self (path : string) (call : eff (Node * W) (Result R CallError)) node w :
    Result R CallError * (Node * W) :=
  match transition_admit node (policy_of self) w with
  | (Err e, w1) => (Err (admit_unexpected path e), (node, w1))
  | (Ok (RejectOpen, n1), w1) => (Err (circuit_open path), (n1, w1))
  | (Ok (Proceed, n1), w1) =>
      let '(r, (n2, w2)) := call (n1, w1) in
      match transition_record n2 (policy_of self) (classify_result r) w2 with
      | (Ok n3, w3) => (r, (n3, w3))
      | (Err _, w3) => (r, (n2, w3))
      end
  end.

Lemma admission_run self path node w :
  admission_of self path (node, w)
  = match transition_admit node (policy_of self) w with
    | (Err e, w1) => (Err (admit_unexpected path e), (node, w1))
    | (Ok (RejectOpen, n1), w1) => (Err (circuit_open path), (n1, w1))
    | (Ok (Proceed, n1), w1) => (Ok tt, (n1, w1))
    end.
Proof.
  unfold admission_of, read_node, write_node, lift, bind, ret, policy_of.
  destruct (transition_admit _ _ _) as [[[[] n1]|e] w1]; by rewrite ?node_eta.
Qed.

Lemma record_run self outcome node w :
  record_outcome self outcome (node, w)
  = match transition_record node (policy_of self) outcome w with
    | (Ok n3, w3) => (tt, (n3, w3))
    | (Err _, w3) => (tt, (node, w3))
    end.
Proof.
  unfold record_outcome, read_node, write_node, lift, bind, ret, policy_of.
  destruct (transition_record _ _ _ _) as [[n3|e] w3]; by rewrite ?node_eta.
Qed.

Lemma guard_run {R} self path (call : eff (Node * W) (Result R CallError)) node w :
  Breaker.guard self path call (node, w)
  = if enabled (config self) then guarded self path call node w else call (node, w).
Proof.
  unfold Breaker.guard, guarded. destruct (enabled (config self)); cbn [negb]; [|done].
  unfold bindr at 1, bind. rewrite admission_run.
  destruct (transition_admit _ _ _) as [[[[] n1]|e] w1]; [|done|done].
  destruct (call (n1, w1)) as [r [n2 w2]]. rewrite record_run.
  by destruct (transition_record _ _ _ _) as [[n3|e] w3].
Qed.

(** The shape the four raw calls share. *)
Lemma raw_guard {R} self path (call : eff (Node * W) (Result R CallError)) s :
  (let!? _ := (if enabled (config self) then admission_of self path else ret (Ok tt)) in
   let! result := call in
   (if enabled (config self) then record_outcome self (classify_result result) else ret tt) ;;;
   ret result) s
  = Breaker.guard self path call s.
Proof.
  unfold Breaker.guard. destruct (enabled (config self)); cbn [negb]; [done|].
  unfold bindr, bind, ret. by destruct (call s) as [r s'].
Qed.
End guarded.

(** ** When the circuit opens and closes *)

(** The documented state machine ([breaker-spi/src/lib.rs]): a closed circuit admits, counts
    consecutive failures and opens at the threshold; an open circuit refuses while it cools down, and
    the next call after that makes it half-open; a half-open one admits, closes after enough
    consecutive successes and opens again on a failure.  [cooling] and [cooled] are the state machine's own
    notions of an open node whose cool-down has not, or has, passed. *)
Class TransitionLaws {W} (T : BreakerTransition W) := {
  cooling : BreakerConfig -> Node -> W -> Prop;
  cooled : BreakerConfig -> Node -> W -> Prop;
  half_open : Node -> Prop;
  admit_closed : forall c n w, state n = Closed ->
    exists w', transition_admit n c w = (Ok (Proceed, n), w');
  record_counts : forall c n w, state n = Closed ->
    consecutive_failures n + 1 < bc_failure_threshold c ->
    exists n' w', transition_record n c OutcomeFailure w = (Ok n', w') /\
      state n' = Closed /\ consecutive_failures n' = consecutive_failures n + 1;
  record_trips : forall c n w, state n = Closed -> 0 < bc_cool_down_seconds c ->
    bc_failure_threshold c <= consecutive_failures n + 1 ->
    exists n' w', transition_record n c OutcomeFailure w = (Ok n', w') /\ cooling c n' w';
  admit_cooling : forall c n w, cooling c n w ->
    exists n' w', transition_admit n c w = (Ok (RejectOpen, n'), w');
  admit_cooled : forall c n w, cooled c n w ->
    exists n' w', transition_admit n c w = (Ok (Proceed, n'), w') /\
      half_open n' /\ consecutive_successes n' = 0;
  admit_half_open : forall c n w, half_open n ->
    exists w', transition_admit n c w = (Ok (Proceed, n), w');
  record_probe : forall c n w, half_open n ->
    consecutive_successes n + 1 < bc_half_open_probe_count c ->
    exists n' w', transition_record n c OutcomeSuccess w = (Ok n', w') /\
      half_open n' /\ consecutive_successes n' = consecutive_successes n + 1;
  record_closes : forall c n w, half_open n ->
    bc_half_open_probe_count c <= consecutive_successes n + 1 ->
    exists n' w', transition_record n c OutcomeSuccess w = (Ok n', w') /\
      state n' = Closed /\ consecutive_failures n' = 0;
  record_reopens : forall c n w, half_open n -> 0 < bc_cool_down_seconds c ->
    exists n' w', transition_record n c OutcomeFailure w = (Ok n', w') /\ cooling c n' w';
}.

Section trips.
Context `{Contract} {W R : Type} (T : BreakerTransition W) (L : TransitionLaws T).
Implicit Types (self : GrpcBreakerClient (W := W)) (node : Node) (w : W).

(** Calls made one after the other; their results are dropped. *)
Fixpoint run_calls self (path : string) (calls : list (eff (Node * W) (Result R CallError)))
    (s : Node * W) : Node * W :=
  match calls with
  | [] => s
  | call :: calls' => run_calls self path calls' (Breaker.guard self path call s).2
  end.

(** A call of the inner client that ends in a breaker failure whatever happens. *)
Definition always_fails (call : eff (Node * W) (Result R CallError)) : Prop :=
  forall node w, exists r w', call (node, w) = (r, (node, w')) /\ classify_result r = OutcomeFailure.

Lemma guard_failing self path call node w :
  enabled (config self) = true -> always_fails call -> state node = Closed ->
  (consecutive_failures node + 1 < failure_threshold (config self) ->
     state (Breaker.guard self path call (node, w)).2.1 = Closed /\
     consecutive_failures (Breaker.guard self path call (node, w)).2.1 = consecutive_failures node + 1) /\
  (0 < cool_down_seconds (config self) ->
     failure_threshold (config self) <= consecutive_failures node + 1 ->
     cooling (policy_of self) (Breaker.guard self path call (node, w)).2.1
       (Breaker.guard self path call (node, w)).2.2).
Proof.
  intros He Hcall Hnode. rewrite guard_run, He. unfold guarded.
  destruct (admit_closed (policy_of self) node w Hnode) as [w1 ->]. cbv beta iota.
  destruct (Hcall node w1) as (r & w2 & -> & ->). split; [intros Hc|intros Hcd Hc].
  - destruct (record_counts (policy_of self) node w2 Hnode Hc) as (n' & w3 & -> & ? & ?). done.
  - destruct (record_trips (policy_of self) node w2 Hnode Hcd Hc) as (n' & w3 & -> & ?). done.
Qed.

Lemma failing_calls_count self path calls node w :
  enabled (config self) = true -> Forall always_fails calls -> state node = Closed ->
  consecutive_failures node + N.of_nat (length calls) < failure_threshold (config self) ->
  state (run_calls self path calls (node, w)).1 = Closed /\
  consecutive_failures (run_calls self path calls (node, w)).1
  = consecutive_failures node + N.of_nat (length calls).
Proof.
  intros He HF. revert node w.
  induction HF as [|call calls Hcall HF IH]; intros node w Hnode Hlt; cbn [run_calls length].
  - cbn. split; [done|lia].
  - cbn [length] in Hlt. destruct (guard_failing self path call node w He Hcall Hnode) as [Hg _].
    destruct Hg as [Hs Hf]; [lia|].
    destruct (Breaker.guard self path call (node, w)) as [r [n1 w1]] eqn:E. cbn [fst snd] in *.
    destruct (IH n1 w1 Hs) as [? ->]; [lia|]. split; [done|lia].
Qed.

Lemma run_calls_app self path calls calls' s :
  run_calls self path (calls ++ calls') s = run_calls self path calls' (run_calls self path calls s).
Proof. revert s. induction calls as [|c calls IH]; intros s; [done|]. apply IH. Qed.

(** A call of the inner client that is a breaker success whatever happens. *)
Definition always_succeeds (call : eff (Node * W) (Result R CallError)) : Prop :=
  forall node w, exists r w', call (node, w) = (r, (node, w')) /\ classify_result r = OutcomeSuccess.

(** The next call is a probe: the first after the cool-down, or one after [k] that succeeded. *)
Definition probing self node w (k : N) : Prop :=
  cooled (policy_of self) node w /\ k = 0 \/ half_open node /\ k = consecutive_successes node.

Lemma guard_probe self path (call : eff (Node * W) (Result R CallError)) node w k :
  enabled (config self) = true -> probing self node w k ->
  exists n1 w1, half_open n1 /\ consecutive_successes n1 = k /\
    Breaker.guard self path call (node, w)
    = let '(r, (n2, w2)) := call (n1, w1) in
      match transition_record n2 (policy_of self) (classify_result r) w2 with
      | (Ok n3, w3) => (r, (n3, w3))
      | (Err _, w3) => (r, (n2, w3))
      end.
Proof.
  intros He Hp. rewrite guard_run, He. unfold guarded. destruct Hp as [[Hc ->]|[Hh ->]].
  - destruct (admit_cooled (policy_of self) node w Hc) as (n1 & w1 & -> & Hh & Hs).
    by exists n1, w1.
  - destruct (admit_half_open (policy_of self) node w Hh) as [w1 ->]. by exists node, w1.
Qed.

(** An open circuit that cools down asks the state machine once and does nothing else: no call is run,
    whatever it is and whatever it gives. *)
Definition refuses self (path : string) (s : Node * W) : Prop :=
  exists node w, transition_admit s.1 (policy_of self) s.2 = (Ok (RejectOpen, node), w) /\
    forall R' (call : eff (Node * W) (Result R' CallError)),
      Breaker.guard self path call s = (Err (circuit_open path), (node, w)).

Lemma guard_cooling self path node w :
  enabled (config self) = true -> cooling (policy_of self) node w -> refuses self path (node, w).
Proof.
  intros He Hc. destruct (admit_cooling (policy_of self) node w Hc) as (n' & w' & E).
  exists n', w'. split; [exact E|]. intros R' call. rewrite guard_run, He. unfold guarded. by rewrite E.
Qed.

(** Probes that succeed, fewer than the circuit asks for. *)
Lemma succeeding_probes self path calls node w k :
  enabled (config self) = true -> Forall always_succeeds calls -> probing self node w k ->
  k + N.of_nat (length calls) < half_open_probe_count (config self) ->
  probing self (run_calls self path calls (node, w)).1 (run_calls self path calls (node, w)).2
    (k + N.of_nat (length calls)).
Proof.
  intros He HF. revert node w k.
  induction HF as [|call calls Hcall HF IH]; intros node w k Hp Hlt; cbn [run_calls length].
  { cbn. by rewrite N.add_0_r. }
  cbn [length] in Hlt. destruct (guard_probe self path call node w k He Hp) as (n1 & w1 & Hh & Hs & ->).
  destruct (Hcall n1 w1) as (r & w2 & -> & ->).
  destruct (record_probe (policy_of self) n1 w2 Hh) as (n' & w3 & -> & Hh' & Hs'); [cbn; lia|]. cbn [snd].
  replace (k + N.of_nat (S (length calls))) with (k + 1 + N.of_nat (length calls)) by lia.
  apply IH; [right; split; [done|lia]|lia].
Qed.
End trips.

(** ** A concrete state machine, for the witnesses

    The three documented states; an open one says since when, and the world is the time in seconds. *)
Module Example.
Inductive machine := IsClosed | IsOpen (since : N) | IsHalfOpen.

#[export] Instance transition : BreakerTransition N := {|
  BreakerState := machine;
  Closed := IsClosed;
  TransitionError := unit;
  transition_error_to_string _ := "unreachable"%string;
  transition_admit n c t :=
    (Ok (match state n with
         | IsOpen since =>
             if t <? since + bc_cool_down_seconds c then (RejectOpen, n)
             else (Proceed, breaker_node IsHalfOpen 0 0)
         | _ => (Proceed, n)
         end), t);
  transition_record n c outcome t :=
    (Ok (match outcome, state n with
         | OutcomeSuccess, IsHalfOpen =>
             if consecutive_successes n + 1 <? bc_half_open_probe_count c
             then breaker_node IsHalfOpen 0 (consecutive_successes n + 1)
             else breaker_node IsClosed 0 0
         | OutcomeSuccess, s => breaker_node s 0 0
         | OutcomeFailure, IsClosed =>
             if consecutive_failures n + 1 <? bc_failure_threshold c
             then breaker_node IsClosed (consecutive_failures n + 1) 0
             else breaker_node (IsOpen t) 0 0
         | OutcomeFailure, IsHalfOpen => breaker_node (IsOpen t) 0 0
         | OutcomeFailure, IsOpen since => n
         end), t);
|}.

#[export] Instance laws : TransitionLaws transition.
Proof.
  refine {|
    cooling c (n : BreakerNode (@BreakerState N transition)) t :=
      match state n with IsOpen since => t < since + bc_cool_down_seconds c | _ => False end;
    cooled c n t :=
      match state n with IsOpen since => since + bc_cool_down_seconds c <= t | _ => False end;
    half_open n := state n = IsHalfOpen |};
  intros c [s f k] t; cbn.
  - intros ->. by exists t.
  - intros -> Hf. rewrite (proj2 (N.ltb_lt _ _)) by done. eauto.
  - intros -> Hc Hf. rewrite (proj2 (N.ltb_ge _ _)) by done. do 2 eexists. split; [done|]. cbn. lia.
  - destruct s as [|since|]; try done. intros Hn. rewrite (proj2 (N.ltb_lt _ _)) by done. eauto.
  - destruct s as [|since|]; try done. intros Hn. rewrite (proj2 (N.ltb_ge _ _)) by done. eauto.
  - intros ->. by exists t.
  - intros -> Hk. rewrite (proj2 (N.ltb_lt _ _)) by done. eauto.
  - intros -> Hk. rewrite (proj2 (N.ltb_ge _ _)) by done. eauto.
  - intros -> Hc. do 2 eexists. split; [done|]. cbn. lia.
Defined.

Definition failing : eff (Node * N) (Result unit (@CallError list_contract)) :=
  fun '(node, t) => (Err (@Status list_contract "/s/M" Unavailable "down" [] ([], [])), (node, t)).

Definition succeeding : eff (Node * N) (Result unit (@CallError list_contract)) :=
  fun '(node, t) => (Ok tt, (node, t)).

Section client.
#[local] Existing Instance list_contract.

Definition no_client : Client N := {|
  typed := {|
    t_metadata := ListContract.md;
    t_view := ListContract.view;
    call _ _ _ := ret (Err (Transport_ "" Internal ""));
    call_server_stream _ _ _ := ret (Err (Transport_ "" Internal ""));
    call_client_stream _ _ _ := ret (Err (Transport_ "" Internal ""));
    call_bidi_stream _ _ _ := ret (Err (Transport_ "" Internal ""));
  |};
  raw := {|
    r_metadata := ListContract.md;
    r_view := ListContract.view;
    call_raw _ _ _ := ret (Err (Transport_ "" Internal ""));
    call_raw_server_stream _ _ _ := ret (Err (Transport_ "" Internal ""));
    call_raw_client_stream _ _ _ := ret (Err (Transport_ "" Internal ""));
    call_raw_bidi_stream _ _ _ := ret (Err (Transport_ "" Internal ""));
  |};
|}.

Definition guarding : GrpcBreakerClient (W := N) :=
  grpc_breaker_client no_client BreakerConfig.default.
End client.
End Example.

(** ** Properties *)

(** C10: After its cool-down an open circuit lets calls through as probes. Fewer successful ones than
    the probe count leave it probing; as many close it, with no failures counted; and a probe that
    fails opens it again, so that the next call, whatever it is, is refused with the circuit's error
    and is not run: all that happens is the question to the state machine. *)
Theorem breaker_recovers `{Contract} {W R} (T : BreakerTransition W) (L : TransitionLaws T)
    (self : GrpcBreakerClient (W := W)) (path : string)
    (calls : list (eff (Node * W) (Result R CallError)))
    (final : eff (Node * W) (Result R CallError)) node w
    (on : enabled (config self) = true) (wait : 0 < cool_down_seconds (config self))
    (open : cooled (policy_of self) node w)
    (up : Forall (always_succeeds T) calls)
    (fewer : N.of_nat (length calls) < half_open_probe_count (config self)) :
  let s := run_calls T self path calls (node, w) in
  (always_succeeds T final ->
     N.of_nat (length calls) + 1 = half_open_probe_count (config self) ->
     let closed := (Breaker.guard self path final s).2.1 in
     state closed = Closed /\ consecutive_failures closed = 0) /\
  (always_fails T final -> refuses T self path (Breaker.guard self path final s).2) /\
  exists n1 w1 s', Breaker.guard self path final s = ((final (n1, w1)).1, s') /\ half_open n1.
Proof.
  intros s. pose proof (succeeding_probes T L self path calls node w 0 on up) as Hp.
  specialize (Hp ltac:(by left) fewer). fold s in Hp. destruct s as [ns ws]. cbn [fst snd] in Hp.
  destruct (guard_probe T L self path final ns ws _ on Hp) as (n1 & w1 & Hh & Hs & E).
  split_and!.
  - intros Hf Hlen. destruct (Hf n1 w1) as (r & w2 & Ef & Ec). rewrite E, Ef, Ec.
    destruct (record_closes (policy_of self) n1 w2 Hh) as (n' & w3 & -> & ? & ?); [cbn in *; lia|]. done.
  - intros Hf. destruct (Hf n1 w1) as (r & w2 & Ef & Ec). rewrite E, Ef, Ec.
    destruct (record_reopens (policy_of self) n1 w2 Hh wait) as (n' & w3 & -> & Hcool).
    exact (guard_cooling T L self path n' w3 on Hcool).
  - exists n1, w1. rewrite E. destruct (final (n1, w1)) as [r [n2 w2]].
    destruct (transition_record _ _ _ _) as [[n3|e] w3]; eauto.
Qed.

(** The example's circuit, with three probes asked for. *)
Definition patient : GrpcBreakerClient (W := N) :=
  grpc_breaker_client Example.no_client (breaker_config true 5 30 3).

Lemma breaker_recovers_witness :
  let s := run_calls Example.transition patient "/s/M" (repeat Example.succeeding 2)
             (breaker_node (Example.IsOpen 100) 0 0, 130) in
  state (Breaker.guard patient "/s/M" Example.succeeding s).2.1 = Closed /\
  refuses Example.transition patient "/s/M" (Breaker.guard patient "/s/M" Example.failing s).2.
Proof.
  assert (Forall (always_succeeds Example.transition) (repeat Example.succeeding 2)) as Hup
    by (repeat constructor; intros n w; by do 2 eexists).
  split.
  - apply (breaker_recovers Example.transition Example.laws patient "/s/M"
      (repeat Example.succeeding 2) Example.succeeding
      (breaker_node (Example.IsOpen 100) 0 0) 130 eq_refl eq_refl); [|exact Hup|reflexivity| |reflexivity].
    + vm_compute. congruence.
    + intros n w. by do 2 eexists.
  - apply (breaker_recovers Example.transition Example.laws patient "/s/M"
      (repeat Example.succeeding 2) Example.failing
      (breaker_node (Example.IsOpen 100) 0 0) 130 eq_refl eq_refl); [|exact Hup|reflexivity|].
    + vm_compute. congruence.
    + intros n w. by do 2 eexists.
Defined.

(** The raw calls, which ask whether the breaker is enabled before and after the call instead of
    going through [guard], do the same as it. *)
Theorem breaker_raw_is_guard `{Contract} {W} `{!BreakerTransition W}
    (self : GrpcBreakerClient (W := W)) path message requests options node w :
  call_raw (breaker_raw self) path message options (node, w)
  = (if enabled (config self)
     then guarded self path (lift (call_raw (raw (inner self)) path message options)) node w
     else lift (call_raw (raw (inner self)) path message options) (node, w)) /\
  call_raw_server_stream (breaker_raw self) path message options (node, w)
  = Breaker.guard self path
      (lift_streaming (call_raw_server_stream (raw (inner self)) path message options)) (node, w) /\
  call_raw_client_stream (breaker_raw self) path requests options (node, w)
  = Breaker.guard self path
      (lift (call_raw_client_stream (raw (inner self)) path requests options)) (node, w) /\
  call_raw_bidi_stream (breaker_raw self) path requests options (node, w)
  = Breaker.guard self path
      (lift_streaming (call_raw_bidi_stream (raw (inner self)) path requests options)) (node, w).
Proof. rewrite <-guard_run. split_and!; apply raw_guard. Qed.

(** C11: From a closed circuit with no failures, fewer failing calls than the threshold leave it
    closed with their number counted; as many as the threshold open it, and while it cools down the
    next call, whatever it is, is refused with the circuit's error and is not run: all that happens
    is the question to the state machine. *)
Theorem breaker_trips `{Contract} {W R} (T : BreakerTransition W) (L : TransitionLaws T)
    (self : GrpcBreakerClient (W := W)) (path : string)
    (calls : list (eff (Node * W) (Result R CallError))) w :
  enabled (config self) = true -> 0 < cool_down_seconds (config self) ->
  well_formed (config self) -> Forall (always_fails T) calls ->
  (N.of_nat (length calls) < failure_threshold (config self) ->
     let node := (run_calls T self path calls (new_node, w)).1 in
     state node = Closed /\ consecutive_failures node = N.of_nat (length calls)) /\
  (N.of_nat (length calls) = failure_threshold (config self) ->
     refuses T self path (run_calls T self path calls (new_node, w))).
Proof.
  intros He Hcd [Hth _] HF. split; intros Hlen.
  - destruct (failing_calls_count T L self path calls new_node w He HF eq_refl) as [? E];
      [cbn; lia|]. split; [done|]. cbn in E. lia.
  - destruct (exists_last (l := calls)) as (front & final & ->); [by destruct calls; [cbn in *; lia|]|].
    rewrite length_app in Hlen. cbn [length] in Hlen. apply Forall_app in HF as [HF Hfinal].
    apply Forall_cons_1 in Hfinal as [Hfinal _].
    destruct (failing_calls_count T L self path front new_node w He HF eq_refl) as [Hs Hf];
      [cbn; lia|].
    rewrite run_calls_app. cbn [run_calls].
    destruct (run_calls T self path front (new_node, w)) as [n1 w1]. cbn [fst] in *.
    destruct (guard_failing T L self path final n1 w1 He Hfinal Hs) as [_ Hcool].
    specialize (Hcool Hcd). rewrite Hf in Hcool. specialize (Hcool ltac:(cbn; lia)).
    destruct (Breaker.guard self path final (n1, w1)).2 as [n2 w2]. cbn [fst snd] in Hcool.
    exact (guard_cooling T L self path n2 w2 He Hcool).
Qed.

Lemma breaker_trips_witness :
  refuses Example.transition Example.guarding "/s/M"
    (run_calls Example.transition Example.guarding "/s/M" (repeat Example.failing 5) (new_node, 0)).
Proof.
  apply (breaker_trips Example.transition Example.laws Example.guarding "/s/M"
    (repeat Example.failing 5) 0).
  - reflexivity.
  - reflexivity.
  - apply breaker_default_well_formed.
  - repeat constructor; intros node w; by do 2 eexists.
  - reflexivity.
Defined.
