(* ===== verification/BreakerRace.v ===== *)
(** * Calls through one breaker at the same time

    [breaker_egress.rs] reads the node under its lock, releases the lock, asks the state machine, and
    takes the lock again to write: other calls run in between.  Here the calls are tasks of a step
    relation over one shared node, with a step per lock acquisition and per question; one whose future
    is dropped ends where it awaits, without the steps it had left.  A call that
    runs alone is a sequence of these steps ([guard_is_steps]); in no interleaving does the circuit
    open before as many calls failed as its threshold asks ([trips_need_failures]); but a write can
    undo the writes made since its read ([stale_admit_closes]). *)

From S2P Require Import Prelude Text Contract BreakerConfig Breaker BreakerSpec.
From Stdlib Require Import NArith Lia.
From stdpp Require Import base tactics strings option list gmap relations.

Open Scope N_scope.

(** ** Tasks *)

Section race.
Context {W : Type} `{!BreakerTransition W}.

(** Where a call is. *)
Inductive phase :=
| Idle
| AdmitRead (snapshot : Node)
| AdmitAsked (answer : Admission) (admitted : Node)
| InFlight
| RecordRead (snapshot : Node) (outcome : Outcome)
| RecordAsked (recorded : Node).

Record Shared := shared {
  node : Node;
  world : W;
  tasks : nat -> phase;
}.

Definition set_task (t : nat) (p : phase) (tasks : nat -> phase) : nat -> phase :=
  fun t' => if decide (t = t') then p else tasks t'.

(** Where the future of a call can be dropped: at the second lock of [admit] and of [record], and
    while the inner call is out. *)
Definition awaits (p : phase) : bool :=
  match p with AdmitAsked _ _ | InFlight | RecordAsked _ => true | _ => false end.

Context (policy : BreakerConfig).

(** One step of task [t]; in the last one only the rest of the world moves. *)
Inductive step (t : nat) : Shared -> Shared -> Prop :=
| step_admit_read n w ts :
    ts t = Idle ->
    step t (shared n w ts) (shared n w (set_task t (AdmitRead n) ts))
| step_admit_ask n w ts s answer admitted w' :
    ts t = AdmitRead s -> transition_admit s policy w = (Ok (answer, admitted), w') ->
    step t (shared n w ts) (shared n w' (set_task t (AdmitAsked answer admitted) ts))
| step_admit_fail n w ts s e w' :
    ts t = AdmitRead s -> transition_admit s policy w = (Err e, w') ->
    step t (shared n w ts) (shared n w' (set_task t Idle ts))
| step_admit_write n w ts answer admitted :
    ts t = AdmitAsked answer admitted ->
    step t (shared n w ts)
      (shared admitted w
         (set_task t (match answer with Proceed => InFlight | RejectOpen => Idle end) ts))
| step_call n w ts w' outcome :
    ts t = InFlight ->
    step t (shared n w ts) (shared n w' (set_task t (RecordRead n outcome) ts))
| step_record_ask n w ts s outcome recorded w' :
    ts t = RecordRead s outcome -> transition_record s policy outcome w = (Ok recorded, w') ->
    step t (shared n w ts) (shared n w' (set_task t (RecordAsked recorded) ts))
| step_record_fail n w ts s outcome e w' :
    ts t = RecordRead s outcome -> transition_record s policy outcome w = (Err e, w') ->
    step t (shared n w ts) (shared n w' (set_task t Idle ts))
| step_record_write n w ts recorded :
    ts t = RecordAsked recorded ->
    step t (shared n w ts) (shared recorded w (set_task t Idle ts))
| step_drop n w ts w' :
    awaits (ts t) = true ->
    step t (shared n w ts) (shared n w' (set_task t Idle ts))
| step_rest n w ts w' : step t (shared n w ts) (shared n w' ts).

(** A step of some task. *)
Definition any_step (c c' : Shared) : Prop := exists t, step t c c'.

Definition start (n : Node) (w : W) : Shared := shared n w (fun _ => Idle).

Definition reachable (n : Node) (w : W) (c : Shared) : Prop := rtc any_step (start n w) c.

(** The outcome of the call of task [t] that came back in a step from [c] to [c'], if one did. *)
Definition came_back (t : nat) (c c' : Shared) : list Outcome :=
  match tasks c t, tasks c' t with
  | InFlight, RecordRead _ outcome => [outcome]
  | _, _ => []
  end.

(** The states that interleavings of calls reach from a node, with the outcomes of the inner calls that
    came back on the way, in their order. *)
Inductive history (n : Node) (w : W) : list Outcome -> Shared -> Prop :=
| history_start : history n w [] (start n w)
| history_step os t c c' :
    history n w os c -> step t c c' -> history n w (os ++ came_back t c c') c'.

(** ** The shared tasks *)

Lemma set_task_same t p ts : set_task t p ts t = p.
Proof. unfold set_task. by rewrite decide_True. Qed.

Lemma set_task_other t t' p ts : t <> t' -> set_task t p ts t' = ts t'.
Proof. intros Hne. unfold set_task. by rewrite decide_False. Qed.

(** A step of a history whose outcomes are known. *)
Lemma history_next n w os os' t c c' :
  history n w os c -> step t c c' -> os' = os ++ came_back t c c' -> history n w os' c'.
Proof. intros Hh Hstep ->. by eapply history_step. Qed.

Lemma history_reachable n w os c : history n w os c -> reachable n w c.
Proof.
  induction 1 as [|os t c c' _ IH Hstep]; [apply rtc_refl|].
  eapply rtc_r; [exact IH|by exists t].
Qed.
End race.

(** ** A call alone *)

Section alone.
Context `{Contract} {W : Type} `{!BreakerTransition W}.

(** Consume the next step of task [t], whose phase is known. *)
Lemma step_then policy (t : nat) (c1 c2 c3 : Shared (W := W)) :
  step policy t c1 c2 -> rtc (step policy t) c2 c3 -> rtc (step policy t) c1 c3.
Proof. apply rtc_l. Qed.

Lemma guard_steps {R} (self : GrpcBreakerClient (W := W)) (path : string)
    (m : eff W (Result R CallError)) n w r n' w' t ts :
  enabled (config self) = true -> Breaker.guard self path (lift m) (n, w) = (r, (n', w')) ->
  ts t = Idle ->
  exists ts', rtc (step (policy_of self) t) (shared n w ts) (shared n' w' ts') /\ ts' t = Idle.
Proof.
  intros He Hg Ht. rewrite guard_run, He in Hg. unfold guarded in Hg.
  destruct (transition_admit n _ w) as [[[a n1]|e] w1] eqn:Ea.
  2:{ simplify_eq. eexists. split; [|apply set_task_same].
      eapply step_then; [by apply step_admit_read|].
      eapply step_then; [by eapply step_admit_fail; [apply set_task_same|]|]. reflexivity. }
  assert (forall c, rtc (step (policy_of self) t)
    (shared n1 w1 (set_task t (match a with Proceed => InFlight | RejectOpen => Idle end)
       (set_task t (AdmitAsked a n1) (set_task t (AdmitRead n) ts)))) c ->
    rtc (step (policy_of self) t) (shared n w ts) c) as Hadmit.
  { intros c Hc. eapply step_then; [by apply step_admit_read|].
    eapply step_then; [by eapply step_admit_ask; [apply set_task_same|]|].
    eapply step_then; [by eapply step_admit_write; apply set_task_same|]. exact Hc. }
  destruct a.
  2:{ simplify_eq. eexists. split; [apply Hadmit; reflexivity|apply set_task_same]. }
  unfold lift in Hg. destruct (m w1) as [r2 w2]. cbv beta iota in Hg.
  destruct (transition_record n1 _ _ w2) as [[n3|e] w3] eqn:Er; simplify_eq.
  - eexists. split; [|apply set_task_same]. apply Hadmit.
    eapply step_then; [by eapply step_call; apply set_task_same|].
    eapply step_then; [by eapply step_record_ask; [apply set_task_same|]|].
    eapply step_then; [by eapply step_record_write; apply set_task_same|]. reflexivity.
  - eexists. split; [|apply set_task_same]. apply Hadmit.
    eapply step_then; [by eapply step_call; apply set_task_same|].
    eapply step_then; [by eapply step_record_fail; [apply set_task_same|]|]. reflexivity.
Qed.
End alone.

(** ** Counting in every interleaving *)

(** What the documented state machine ([breaker-spi/src/lib.rs]) counts: only failures take the count of
    a closed circuit up, and one that closes again has none counted. *)
Class CountingLaws {W} (T : BreakerTransition W) := {
  record_success : forall c n w n' w', state n = Closed ->
    transition_record n c OutcomeSuccess w = (Ok n', w') ->
    state n' = Closed /\ consecutive_failures n' <= consecutive_failures n;
  record_closes_fresh : forall c n o w n' w', state n <> Closed ->
    transition_record n c o w = (Ok n', w') -> state n' = Closed -> consecutive_failures n' = 0;
  admit_closes_fresh : forall c n a w n' w', state n <> Closed ->
    transition_admit n c w = (Ok (a, n'), w') -> state n' = Closed -> consecutive_failures n' = 0;
}.

Definition is_failure (o : Outcome) : bool :=
  match o with OutcomeFailure => true | OutcomeSuccess => false end.

Definition failures (os : list Outcome) : N := N.of_nat (length (filter is_failure os)).

Lemma failures_app os os' : failures (os ++ os') = failures os + failures os'.
Proof. unfold failures. rewrite filter_app, length_app. lia. Qed.

Section counting.
Context {W : Type} (T : BreakerTransition W) (L : TransitionLaws T) (C : CountingLaws T).
Context (policy : BreakerConfig) (wait : 0 < bc_cool_down_seconds policy).
Notation threshold := (bc_failure_threshold policy).

(** A node that [f] failed calls explain. *)
Definition explained (f : N) (n : Node) : Prop :=
  (state n = Closed -> consecutive_failures n <= f) /\ (state n <> Closed -> threshold <= f).

Definition phase_explained (f : N) (p : phase) : Prop :=
  match p with
  | Idle | InFlight => True
  | AdmitRead n | RecordRead n OutcomeSuccess | RecordAsked n => explained f n
  | AdmitAsked answer n => explained f n /\ (answer = RejectOpen -> threshold <= f)
  | RecordRead n OutcomeFailure => exists f', f' + 1 = f /\ explained f' n
  end.

Lemma explained_mono f f' n : f <= f' -> explained f n -> explained f' n.
Proof. intros Hle [H1 H2]. split; intros H; [specialize (H1 H)|specialize (H2 H)]; lia. Qed.

Lemma phase_explained_mono f f' p : f <= f' -> phase_explained f p -> phase_explained f' p.
Proof.
  intros Hle. assert (forall n, explained f n -> explained f' n) as Hn
    by (intros n; by apply explained_mono).
  destruct p as [|n|a n| |n []|n]; cbn; eauto.
  - intros [H1 H2]. split; [by apply Hn|]. intros H. specialize (H2 H). lia.
  - intros (g & Hg & He). exists (f' - 1). split; [lia|]. eapply explained_mono; [|exact He]. lia.
Qed.

(** Whether a node is closed can be asked where the answer is an inequality. *)
Lemma closed_or_not n (a b : N) :
  (state n = Closed -> a <= b) -> (state n <> Closed -> a <= b) -> a <= b.
Proof.
  intros H1 H2. apply dec_stable. intros Hn. apply Hn, H2. intros Hc. by apply Hn, H1.
Qed.

Lemma cooling_not_closed n w : cooling policy n w -> state n <> Closed.
Proof.
  intros Hc Hs. destruct (admit_cooling policy n w Hc) as (n' & w' & E).
  destruct (admit_closed policy n w Hs) as (w2 & E2). congruence.
Qed.

Lemma explained_admit f n w a n' w' :
  explained f n -> transition_admit n policy w = (Ok (a, n'), w') ->
  explained f n' /\ (a = RejectOpen -> threshold <= f).
Proof.
  intros [Hcl Hop] E.
  assert (state n = Closed -> a = Proceed /\ n' = n) as Hkeep.
  { intros Hs. destruct (admit_closed policy n w Hs) as (w2 & E2). by rewrite E in E2; simplify_eq. }
  split; [split|].
  - intros Hs'. apply (closed_or_not n); intros Hs.
    + destruct (Hkeep Hs) as [_ ->]. by apply Hcl.
    + rewrite (admit_closes_fresh _ _ _ _ _ _ Hs E Hs'). lia.
  - intros Hs'. apply (closed_or_not n); intros Hs; [|by apply Hop].
    by destruct (Hkeep Hs) as [_ ->].
  - intros ->. apply (closed_or_not n); intros Hs; [|by apply Hop]. by destruct (Hkeep Hs).
Qed.

Lemma explained_success f n w n' w' :
  explained f n -> transition_record n policy OutcomeSuccess w = (Ok n', w') -> explained f n'.
Proof.
  intros [Hcl Hop] E. split; intros Hs'; apply (closed_or_not n); intros Hs.
  - destruct (record_success _ _ _ _ _ Hs E) as [_ Hf]. specialize (Hcl Hs). lia.
  - rewrite (record_closes_fresh _ _ _ _ _ _ Hs E Hs'). lia.
  - by destruct (record_success _ _ _ _ _ Hs E).
  - by apply Hop.
Qed.

Lemma explained_failure f n w n' w' :
  explained f n -> transition_record n policy OutcomeFailure w = (Ok n', w') -> explained (f + 1) n'.
Proof.
  intros [Hcl Hop] E.
  assert (state n = Closed ->
    state n' = Closed /\ consecutive_failures n' = consecutive_failures n + 1 \/
    state n' <> Closed /\ threshold <= consecutive_failures n + 1) as Hcount.
  { intros Hs. destruct (N.lt_ge_cases (consecutive_failures n + 1) threshold) as [Hlt|Hge].
    - destruct (record_counts policy n w Hs Hlt) as (n2 & w2 & E2 & ? & ?).
      rewrite E in E2. simplify_eq. by left.
    - destruct (record_trips policy n w Hs wait Hge) as (n2 & w2 & E2 & Hc).
      rewrite E in E2. simplify_eq. right. split; [by eapply cooling_not_closed|done]. }
  split; intros Hs'; apply (closed_or_not n); intros Hs.
  - specialize (Hcl Hs). destruct (Hcount Hs) as [[_ ?]|[? _]]; [lia|done].
  - rewrite (record_closes_fresh _ _ _ _ _ _ Hs E Hs'). lia.
  - specialize (Hcl Hs). destruct (Hcount Hs) as [[? _]|[_ ?]]; [done|lia].
  - specialize (Hop Hs). lia.
Qed.

Definition all_explained (f : N) (c : Shared) : Prop :=
  explained f (node c) /\ forall t, phase_explained f (tasks c t).

Lemma set_task_explained f t p ts :
  (forall t', phase_explained f (ts t')) -> phase_explained f p ->
  forall t', phase_explained f (set_task t p ts t').
Proof.
  intros Hts Hp t'. destruct (decide (t = t')) as [->|Hne].
  - by rewrite set_task_same.
  - by rewrite set_task_other.
Qed.

Lemma step_explained f t c c' :
  step policy t c c' -> all_explained f c -> all_explained (f + failures (came_back t c c')) c'.
Proof.
  intros Hstep [Hn Ht]. pose proof (Ht t) as Htt. unfold came_back.
  destruct Hstep as [n w ts E|n w ts s a n' w' E Hask|n w ts s e w' E Hask|n w ts a n' E
    |n w ts w' o E|n w ts s o n' w' E Hask|n w ts s o e w' E Hask|n w ts n' E|n w ts w' E|n w ts w'];
    cbn [node tasks] in *; try rewrite E in Htt |- *; cbn [phase_explained] in Htt;
    rewrite ?set_task_same.
  5:{ assert (forall t', phase_explained (f + failures [o]) (ts t')) as Hts
        by (intros t'; apply (phase_explained_mono f); [lia|done]).
      split; [by apply (explained_mono f); [lia|]|]. cbn [node tasks].
      apply set_task_explained; [done|]. destruct o; cbn.
      - by apply (explained_mono f); [lia|].
      - by exists f. }
  all: replace (f + failures _) with f by (unfold failures; repeat case_match; cbn; lia).
  all: split; cbn [node tasks]; try done; try apply set_task_explained; try done; cbn.
  - by eapply explained_admit.
  - by destruct Htt.
  - by destruct a.
  - destruct o; [by eapply explained_success|]. destruct Htt as (f' & <- & He).
    by eapply explained_failure.
Qed.

Lemma history_explained w os c :
  history policy new_node w os c -> all_explained (failures os) c.
Proof.
  induction 1 as [|os t c c' _ IH Hstep].
  - split; [|done]. split; [by cbn|]. intros Hs. by destruct Hs.
  - rewrite failures_app. by apply step_explained.
Qed.

(** A call in flight that fails and is left to record its failure. *)
Lemma failure_recorded w os c t :
  history policy new_node w os c -> tasks c t = InFlight -> state (node c) = Closed ->
  exists c', history policy new_node w (os ++ [OutcomeFailure]) c' /\
    rtc (step policy t) c c' /\ tasks c' t = Idle /\
    (consecutive_failures (node c) + 1 < threshold ->
       state (node c') = Closed /\ consecutive_failures (node c') = consecutive_failures (node c) + 1) /\
    (threshold <= consecutive_failures (node c) + 1 -> cooling policy (node c') (world c')).
Proof.
  intros Hh Ht Hs. destruct c as [n v ts]. cbn in *.
  assert (exists n' v', transition_record n policy OutcomeFailure v = (Ok n', v') /\
    (consecutive_failures n + 1 < threshold ->
       state n' = Closed /\ consecutive_failures n' = consecutive_failures n + 1) /\
    (threshold <= consecutive_failures n + 1 -> cooling policy n' v')) as (n' & v' & E & Hlt & Hge).
  { destruct (N.lt_ge_cases (consecutive_failures n + 1) threshold) as [Hlt|Hge].
    - destruct (record_counts policy n v Hs Hlt) as (n' & v' & E & ? & ?). exists n', v'.
      split_and!; [done..|lia].
    - destruct (record_trips policy n v Hs wait Hge) as (n' & v' & E & Hc). exists n', v'.
      split_and!; [done|lia|done]. }
  set (c1 := shared n v (set_task t (RecordRead n OutcomeFailure) ts)).
  set (c2 := shared n v' (set_task t (RecordAsked n') (tasks c1))).
  set (c3 := shared n' v' (set_task t Idle (tasks c2))).
  assert (step policy t (shared n v ts) c1) as H1 by by apply step_call.
  assert (step policy t c1 c2) as H2 by by eapply step_record_ask; [apply set_task_same|].
  assert (step policy t c2 c3) as H3 by by apply step_record_write, set_task_same.
  exists c3. split_and!; [| |apply set_task_same|done..].
  - pose proof (history_step _ _ _ _ _ _ _ (history_step _ _ _ _ _ _ _ (history_step _ _ _ _ _ _ _ Hh H1) H2) H3)
      as Hh3. revert Hh3. unfold came_back, c3, c2, c1. cbn [tasks].
    by rewrite Ht, !set_task_same, !app_nil_r.
  - eapply rtc_l; [exact H1|]. eapply rtc_l; [exact H2|]. by apply rtc_once.
Qed.
End counting.

#[local] Instance example_counts : CountingLaws BreakerSpec.Example.transition.
Proof.
  split; intros c [s f k] *; cbn; intros Hs; repeat case_match; simplify_eq; intros [= <- <-]; cbn;
    try done; split; [done|lia].
Qed.

(** ** Properties *)

#[local] Existing Instance BreakerSpec.Example.transition.
#[local] Existing Instance BreakerSpec.Example.laws.

(** A call guarded by an enabled breaker is a sequence of steps of one task: from the node and
    the world before it to those after it, idle at both ends. *)
Theorem guard_is_steps `{Contract} {W R} `{!BreakerTransition W}
    (self : GrpcBreakerClient (W := W)) (path : string) (m : eff W (Result R CallError)) n w t ts :
  enabled (config self) = true -> ts t = Idle ->
  exists ts',
    rtc (step (policy_of self) t) (shared n w ts)
      (shared (Breaker.guard self path (lift m) (n, w)).2.1
         (Breaker.guard self path (lift m) (n, w)).2.2 ts') /\
    ts' t = Idle.
Proof.
  intros He Ht. destruct (Breaker.guard self path (lift m) (n, w)) as [r [n' w']] eqn:E.
  by apply (guard_steps self path m n w r n' w').
Qed.

Lemma guard_is_steps_witness :
  exists ts',
    rtc (step (policy_of BreakerSpec.Example.guarding) 1)
      (shared new_node 7 (fun _ => Idle)) (shared (breaker_node BreakerSpec.Example.IsClosed 1 0) 7 ts') /\
    ts' 1%nat = Idle.
Proof.
  exact (guard_is_steps BreakerSpec.Example.guarding "/s/M"
    (ret (Err (@Transport_ list_contract "/s/M" Unavailable "down")) : eff N (Result unit _))
    new_node 7 1%nat (fun _ => Idle) eq_refl eq_refl).
Defined.

(** C12: However the calls through a breaker that starts closed interleave, some of them dropped
    half-way, the circuit opens for failures only. As long as it is closed, the failures it counts are
    at most the inner calls that failed; it is not closed, and a call is refused, only when as many
    failed as the threshold asks. And in every such state a call whose failure comes back to a closed
    circuit, left to record it without another's write in between, takes the count up by one, or
    opens the circuit where that reaches the threshold. *)
Theorem trips_need_failures {W} (T : BreakerTransition W) (L : TransitionLaws T)
    (C : CountingLaws T) (policy : BreakerConfig) w os c
    (wait : 0 < bc_cool_down_seconds policy) (run : history policy new_node w os c) :
  (state (node c) = Closed -> consecutive_failures (node c) <= failures os) /\
  (state (node c) <> Closed -> bc_failure_threshold policy <= failures os) /\
  (forall t n', tasks c t = AdmitAsked RejectOpen n' -> bc_failure_threshold policy <= failures os) /\
  (forall t, tasks c t = InFlight -> state (node c) = Closed ->
     exists c', history policy new_node w (os ++ [OutcomeFailure]) c' /\
       rtc (step policy t) c c' /\ tasks c' t = Idle /\
       (consecutive_failures (node c) + 1 < bc_failure_threshold policy ->
          state (node c') = Closed /\
          consecutive_failures (node c') = consecutive_failures (node c) + 1) /\
       (bc_failure_threshold policy <= consecutive_failures (node c) + 1 ->
          cooling policy (node c') (world c'))).
Proof.
  destruct (history_explained T L C policy wait w os c run) as [[Hcl Hop] Ht]. split_and!; [done..| |].
  - intros t n' Hn. specialize (Ht t). rewrite Hn in Ht. by apply Ht.
  - intros t. by apply failure_recorded.
Qed.

(** One call is admitted and fails, on a circuit that opens at the first failure; another is refused. *)
Lemma trips_need_failures_witness :
  exists c n', history (Build_BreakerConfig 1 30 1) (new_node (W := N)) 0 [OutcomeFailure] c /\
    state (node c) <> Closed /\ tasks c 2%nat = AdmitAsked RejectOpen n' /\
    1 <= failures [OutcomeFailure].
Proof.
  pose proof (history_start (Build_BreakerConfig 1 30 1) (new_node (W := N)) 0) as Hh.
  eapply (history_next _ _ _ _ [] 1) in Hh; [|by apply step_admit_read|done].
  eapply (history_next _ _ _ _ [] 1) in Hh; [|by eapply step_admit_ask; [apply set_task_same|]|done].
  eapply (history_next _ _ _ _ [] 1) in Hh; [|by eapply step_admit_write; apply set_task_same|done].
  eapply (history_next _ _ _ _ [OutcomeFailure] 1) in Hh;
    [|by apply (step_call _ _ _ _ _ 0 OutcomeFailure)|done].
  eapply (history_next _ _ _ _ [OutcomeFailure] 1) in Hh;
    [|by eapply step_record_ask; [apply set_task_same|]|done].
  eapply (history_next _ _ _ _ [OutcomeFailure] 1) in Hh;
    [|by eapply step_record_write; apply set_task_same|done].
  eapply (history_next _ _ _ _ [OutcomeFailure] 2) in Hh; [|by apply step_admit_read|done].
  eapply (history_next _ _ _ _ [OutcomeFailure] 2) in Hh;
    [|by eapply step_admit_ask; [apply set_task_same|]|done].
  do 2 eexists. split_and!; [exact Hh|by cbn|reflexivity|].
  apply (trips_need_failures BreakerSpec.Example.transition BreakerSpec.Example.laws example_counts
    (Build_BreakerConfig 1 30 1) 0 [OutcomeFailure] _ eq_refl Hh). by cbn.
Defined.

(** C13: The circuit can close again the moment it opened: while one call's failure trips it, the
    write of a call that was admitted before replaces the open node by the closed one it had read,
    though the cool-down has not passed and no call succeeded. *)
Theorem stale_admit_closes {W} (T : BreakerTransition W) (L : TransitionLaws T)
    (policy : BreakerConfig) n w :
  state n = Closed -> 0 < bc_cool_down_seconds policy ->
  bc_failure_threshold policy <= consecutive_failures n + 1 ->
  exists c1 c2, reachable policy n w c1 /\ cooling policy (node c1) (world c1) /\
    any_step policy c1 c2 /\ node c2 = n.
Proof.
  intros Hn Hcd Hth.
  destruct (admit_closed policy n w Hn) as [w1 E1].
  destruct (admit_closed policy n w1 Hn) as [w2 E2].
  destruct (record_trips policy n w2 Hn Hcd Hth) as (n' & w3 & E3 & Hcool).
  do 2 eexists. split_and!.
  - unfold reachable, start.
    eapply rtc_l; [exists 1%nat; by apply step_admit_read|].
    eapply rtc_l; [exists 1%nat; by eapply step_admit_ask; [apply set_task_same|]|].
    eapply rtc_l; [exists 1%nat; by eapply step_admit_write; apply set_task_same|].
    eapply rtc_l; [exists 2%nat; by apply step_admit_read|].
    eapply rtc_l; [exists 2%nat; by eapply step_admit_ask; [apply set_task_same|]|].
    eapply rtc_l; [exists 1%nat; eapply (step_call _ _ _ _ _ w2 OutcomeFailure); reflexivity|].
    eapply rtc_l; [exists 1%nat; by eapply step_record_ask; [apply set_task_same|]|].
    eapply rtc_l; [exists 1%nat; by eapply step_record_write; apply set_task_same|].
    apply rtc_refl.
  - exact Hcool.
  - exists 2%nat. by eapply step_admit_write.
  - done.
Qed.

Lemma stale_admit_closes_witness :
  exists c1 c2,
    reachable (Build_BreakerConfig 1 30 1) (new_node (W := N)) 0 c1 /\
    cooling (Build_BreakerConfig 1 30 1) (node c1) (world c1) /\
    any_step (Build_BreakerConfig 1 30 1) c1 c2 /\ node c2 = new_node.
Proof.
  apply (stale_admit_closes BreakerSpec.Example.transition BreakerSpec.Example.laws
    (Build_BreakerConfig 1 30 1) new_node 0); vm_compute; congruence.
Defined.
