(* ===== verification/BreakerFuture.v ===== *)
(** * The breaker decorator as futures

    [breaker_egress.rs] awaits the lock of its node four times and the call it guards once, and
    whoever holds the future of a call may drop it at any of the five.  Here [guard] is a future of
    seven states over the lock, which is [tokio]'s; polls of any number of such futures, interleaved
    and dropped at will, are steps of [BreakerRace] ([futures_are_steps]), so what holds there holds
    of them; and calls that are dropped before they end move neither a closed circuit nor one that is
    half-open ([dropped_calls_unrecorded]). *)

From S2P Require Import Prelude Text Contract BreakerConfig Breaker BreakerSpec BreakerRace Interceptors Intercepted Channel Endpoint EgressBuilder Cancellation AsyncClient Futures.
From Stdlib Require Import NArith Lia Strings.Byte.
From stdpp Require Import base tactics strings option list gmap relations.

Open Scope N_scope.

(** ** The guard *)

Section guard.
Context `{Contract} {W : Type} `{!BreakerTransition W}.
Context (config : GrpcBreakerConfig) (path : string).

(** [self.node.lock()], of [tokio]: the guard it gives is dropped in the same poll. *)
Context (lock : Future W unit).

Notation locking := (f_lift (F := Node) lock).

(** Where a call is: the five places it awaits at. *)
Inductive Guarding {R} (call : Future (Node * W) (Result R CallError)) :=
| Entering
| AdmitReading (s : f_state locking)
| AdmitWriting (admission : Admission) (admitted : Node) (s : f_state locking)
| Calling (s : f_state call)
| RecordReading (result : Result R CallError) (s : f_state locking)
| RecordWriting (result : Result R CallError) (recorded : Node) (s : f_state locking)
| Left.
Arguments Entering {_ _}.
Arguments AdmitReading {_ _}.
Arguments AdmitWriting {_ _}.
Arguments Calling {_ _}.
Arguments RecordReading {_ _}.
Arguments RecordWriting {_ _}.
Arguments Left {_ _}.

Section polls.
Context {R : Type} (call : Future (Node * W) (Result R CallError)).

Notation Poll := (eff (Node * W) (option (Result R CallError) * Guarding call)).

Definition leave (r : Result R CallError) : Poll := ret (Some r, Left).

(** [record], from its second lock back to its first. *)
Definition poll_record_write (result : Result R CallError) (recorded : Node) : f_state locking -> Poll :=
  awaiting locking (RecordWriting result recorded) (fun _ => write_node recorded ;;; leave result).

Definition poll_record_read (result : Result R CallError) : f_state locking -> Poll :=
  awaiting locking (RecordReading result) (fun _ =>
    let! snapshot := read_node in
    let! r := lift (transition_record snapshot (to_breaker_policy config) (classify_result result)) in
    match r with
    | Ok recorded => poll_record_write result recorded (f_start locking)
    | Err _ => leave result
    end).

Definition poll_call : f_state call -> Poll :=
  awaiting call Calling (fun result => poll_record_read result (f_start locking)).

(** [admit], likewise. *)
Definition poll_admit_write (admission : Admission) (admitted : Node) : f_state locking -> Poll :=
  awaiting locking (AdmitWriting admission admitted) (fun _ =>
    write_node admitted ;;;
    match admission with
    | RejectOpen => leave (Err (circuit_open path))
    | Proceed => poll_call (f_start call)
    end).

Definition poll_admit_read : f_state locking -> Poll :=
  awaiting locking AdmitReading (fun _ =>
    let! snapshot := read_node in
    let! r := lift (transition_admit snapshot (to_breaker_policy config)) in
    match r with
    | Err e => leave (Err (admit_unexpected path e))
    | Ok (admission, admitted) => poll_admit_write admission admitted (f_start locking)
    end).

Definition guard_poll (p : Guarding call) : Poll :=
  match p with
  | Entering => poll_admit_read (f_start locking)
  | AdmitReading s => poll_admit_read s
  | AdmitWriting admission admitted s => poll_admit_write admission admitted s
  | Calling s => poll_call s
  | RecordReading result s => poll_record_read result s
  | RecordWriting result recorded s => poll_record_write result recorded s
  | Left => ret (None, Left)
  end.

Definition guard_drop (p : Guarding call) : eff (Node * W) unit :=
  match p with
  | AdmitReading s | AdmitWriting _ _ s | RecordReading _ s | RecordWriting _ _ s => f_drop locking s
  | Calling s => f_drop call s
  | Entering | Left => ret tt
  end.

(** What [guard] is for an enabled breaker. *)
Definition guarded_future : Future (Node * W) (Result R CallError) := {|
  f_state := Guarding call;
  f_start := Entering;
  f_poll := guard_poll;
  f_drop := guard_drop;
|}.

Definition guard_future : Future (Node * W) (Result R CallError) :=
  if negb (enabled config) then call else guarded_future.
End polls.
End guard.
Arguments Entering {_ _ _ _ _ _}.
Arguments AdmitReading {_ _ _ _ _ _}.
Arguments AdmitWriting {_ _ _ _ _ _}.
Arguments Calling {_ _ _ _ _ _}.
Arguments RecordReading {_ _ _ _ _ _}.
Arguments RecordWriting {_ _ _ _ _ _}.
Arguments Left {_ _ _ _ _ _}.

(** ** The client *)

Section client.
Context `{Contract} {W : Type} `{!BreakerTransition W}.
Context (lock : Future W unit) (inner : AsyncClient W) (config : GrpcBreakerConfig).

(** A streaming call of the inner client, from the state of the decorator. *)
Definition lift_opening {T M} (call : Future W (Result (AsyncStream W T M) CallError)) :
    Future (Node * W) (Result (AsyncStream (Node * W) T M) CallError) :=
  f_map (rmap a_lift) (f_lift call).

(** The raw calls spell [guard] out, and so they await what it awaits. *)
Definition breaker_async : AsyncClient (Node * W) := async_client
  {| at_metadata := at_metadata (a_typed inner);
     at_call M message options :=
       guard_future config (PATH M) lock (f_lift (at_call (a_typed inner) M message options));
     at_call_server_stream M message options :=
       guard_future config (PATH M) lock (lift_opening (at_call_server_stream (a_typed inner) M message options));
     at_call_client_stream M requests options :=
       guard_future config (PATH M) lock (f_lift (at_call_client_stream (a_typed inner) M requests options));
     at_call_bidi_stream M requests options :=
       guard_future config (PATH M) lock (lift_opening (at_call_bidi_stream (a_typed inner) M requests options)) |}
  {| ar_metadata := ar_metadata (a_raw inner);
     ar_call_raw path message options :=
       guard_future config path lock (f_lift (ar_call_raw (a_raw inner) path message options));
     ar_call_raw_server_stream path message options :=
       guard_future config path lock (lift_opening (ar_call_raw_server_stream (a_raw inner) path message options));
     ar_call_raw_client_stream path requests options :=
       guard_future config path lock (f_lift (ar_call_raw_client_stream (a_raw inner) path requests options));
     ar_call_raw_bidi_stream path requests options :=
       guard_future config path lock (lift_opening (ar_call_raw_bidi_stream (a_raw inner) path requests options)) |}.
End client.

(** ** Alone *)

Section alone.
Context `{Contract} {W : Type} `{!BreakerTransition W}.
Context (lock : Future W unit) (lock_alone : alone Logic.eq lock (ret tt)).

Section guard_alone.
Context (self : GrpcBreakerClient (W := W)) (path : string) {R R' : Type}.
Context (call : Future (Node * W) (Result R CallError)) (m : eff (Node * W) (Result R' CallError)).
Context (rel : Result R CallError -> Result R' CallError -> Prop) (call_alone : alone rel call m).
Context (rel_err : forall e, rel (Err e) (Err e)).
Context (rel_class : forall r r', rel r r' -> classify_result r = classify_result r').

Notation guarded_call := (guarded_future (config self) path lock call).
Notation ends_in r s := (ends (f_poll guarded_call) (f_drop guarded_call) (fun a => rel a r) s).

(** The lock is had in the end, and changes nothing. *)
Lemma locked_ends back next Q v s :
  (forall p s, f_poll guarded_call (back p) s = awaiting (f_lift (F := Node) lock) back next p s) ->
  ends (f_poll guarded_call) (f_drop guarded_call) Q v (next tt s) ->
  ends (f_poll guarded_call) (f_drop guarded_call) Q v
    (awaiting (f_lift (F := Node) lock) back next (f_start (f_lift (F := Node) lock)) s).
Proof.
  intros Hback Hnext. destruct s as [n w].
  apply (awaiting_alone Logic.eq (lift (ret tt)) _ _ _ _ _ _ _ _ Hback); [by apply lift_alone|].
  intros a ->. exact Hnext.
Qed.

Lemma record_ends r r' s :
  rel r r' ->
  ends_in r' (record_outcome self (classify_result r') s).2
    (poll_record_read (config self) lock call r (f_start (f_lift (F := Node) lock)) s).
Proof.
  intros Hr. apply locked_ends; [done|]. rewrite (rel_class _ _ Hr). unfold record_outcome, bind, read_node.
  destruct s as [n w]. unfold lift. destruct (transition_record n _ _ w) as [[recorded|e] w1]; [|done].
  by apply locked_ends.
Qed.

Lemma guarded_alone :
  alone rel (guard_future (config self) path lock call) (Breaker.guard self path m).
Proof.
  unfold guard_future, Breaker.guard. destruct (negb (enabled (config self))); [exact call_alone|].
  apply ends_alone. intros [n w]. apply locked_ends; [done|].
  unfold bindr, admission_of, bind, read_node, lift.
  destruct (transition_admit n _ w) as [[[admission admitted]|e] w1]; [|by split].
  apply locked_ends; [done|]. unfold bind. cbn [write_node]. destruct admission; [|by split].
  unfold ret at 3. cbv beta iota. apply (awaiting_alone rel m); [done|exact call_alone|]. intros r Hr.
  unfold ret. destruct (m _) as [r' s] eqn:Em. cbn [fst snd] in Hr |- *.
  pose proof (record_ends r r' s Hr) as He. by destruct (record_outcome self (classify_result r') s).
Qed.
End guard_alone.

(** The decorator keeps the agreement of futures and operations. *)
Lemma breaker_alone (a : AsyncClient W) (c : Client W) (config : GrpcBreakerConfig) :
  client_alone a c ->
  client_alone (breaker_async lock a config) (breaker_client (grpc_breaker_client c config)).
Proof.
  destruct a as [a ar], c as [t r]. intros [Ht Hr]. cbn in Ht, Hr.
  assert (forall T M (f : Future W (Result (AsyncStream W T M) CallError)) m, alone same_stream f m ->
    alone same_stream (lift_opening f) (lift_streaming m)) as Hopen.
  { intros T M f m Hf. apply (map_alone same_stream same_stream); [apply same_stream_lift|by apply lift_alone]. }
  assert (forall T M (x : Result (AsyncStream (Node * W) T M) CallError) y, same_stream x y ->
    classify_result x = classify_result y) as Hclass by by destruct 1.
  split.
  - destruct Ht as [T view f1 f2 f3 f4 m1 m2 m3 m4 H1 H2 H3 H4]. constructor; intros M message options.
    1, 3: apply (guarded_alone (grpc_breaker_client _ config)); [by apply lift_alone|done|by intros ?? ->].
    all: apply (guarded_alone (grpc_breaker_client _ config)); [by apply Hopen|constructor|apply Hclass].
  - destruct Hr as [T view f1 f2 f3 f4 m1 m2 m3 m4 H1 H2 H3 H4]. constructor; intros path message options;
      (eapply alone_ext; [intros s; symmetry; apply (raw_guard (grpc_breaker_client _ config) path)|]).
    1, 3: apply (guarded_alone (grpc_breaker_client _ config)); [by apply lift_alone|done|by intros ?? ->].
    all: apply (guarded_alone (grpc_breaker_client _ config)); [by apply Hopen|constructor|apply Hclass].
Qed.
End alone.

(** ** Many calls at once *)

Section pool.
Context `{Contract} {W : Type} `{!BreakerTransition W}.
Context (config : GrpcBreakerConfig) (lock : Future W unit).

(** A future of the decorator's world that leaves the node alone, as those of the inner client do. *)
Definition leaves_node {A} (f : Future (Node * W) A) : Prop := forall s n w,
  (f_poll f s (n, w)).2.1 = n /\ (f_drop f s (n, w)).2.1 = n.

Lemma lift_leaves {A} (f : Future W A) : leaves_node (f_lift f).
Proof. intros s n w. cbn. unfold lift. by destruct (f_poll f s w), (f_drop f s w). Qed.

Lemma opening_leaves {T M} (f : Future W (Result (AsyncStream W T M) CallError)) :
  leaves_node (lift_opening f).
Proof. intros s n w. cbn. unfold bind, ret, lift. by destruct (f_poll f s w) as [[] ?], (f_drop f s w). Qed.

(** A guarded call that is under way. *)
Record Flight := flight {
  flight_result : Type;
  flight_path : string;
  flight_call : Future (Node * W) (Result flight_result CallError);
  flight_place : Guarding lock flight_call;
}.

Definition at_place (fl : Flight) (p : Guarding lock (flight_call fl)) : Flight :=
  flight (flight_result fl) (flight_path fl) (flight_call fl) p.

Definition flight_future (fl : Flight) : Future (Node * W) (Result (flight_result fl) CallError) :=
  guarded_future config (flight_path fl) lock (flight_call fl).

Notation Calls := (nat -> option Flight).
Notation Pool := (Calls * (Node * W))%type.

Definition set_flight (t : nat) (fl : option Flight) (calls : Calls) : Calls :=
  fun t' => if decide (t = t') then fl else calls t'.

Inductive move := Began | Waits | Ended | Dropped | Rest.

(** Tasks begin calls, poll them and drop them, in any order, and the rest of the world moves. *)
Inductive pool_step : move -> Pool -> Pool -> Prop :=
| pool_began (calls : Calls) s (t : nat) R path (call : Future (Node * W) (Result R CallError)) :
    calls t = None -> leaves_node call ->
    pool_step Began (calls, s) (set_flight t (Some (flight R path call Entering)) calls, s)
| pool_waits calls s (t : nat) fl p s' :
    calls t = Some fl -> f_poll (flight_future fl) (flight_place fl) s = ((None, p), s') ->
    pool_step Waits (calls, s) (set_flight t (Some (at_place fl p)) calls, s')
| pool_ended calls s (t : nat) fl r p s' :
    calls t = Some fl -> f_poll (flight_future fl) (flight_place fl) s = ((Some r, p), s') ->
    pool_step Ended (calls, s) (set_flight t None calls, (f_drop (flight_future fl) p s').2)
| pool_dropped calls s (t : nat) fl :
    calls t = Some fl ->
    pool_step Dropped (calls, s) (set_flight t None calls, (f_drop (flight_future fl) (flight_place fl) s).2)
| pool_rest calls n w w' : pool_step Rest (calls, (n, w)) (calls, (n, w')).

Definition pool_moves (p p' : Pool) : Prop := exists e, pool_step e p p'.

(** No call ends: each is under way still or was dropped. *)
Definition pool_waits_or_drops (p p' : Pool) : Prop := exists e, pool_step e p p' /\ e <> Ended.

(** ** As steps of [BreakerRace] *)

Definition phase_of {R} {call : Future (Node * W) (Result R CallError)} (p : Guarding lock call) : phase :=
  match p with
  | Entering | AdmitReading _ | Left => Idle
  | AdmitWriting admission admitted _ => AdmitAsked admission admitted
  | Calling _ | RecordReading _ _ => InFlight
  | RecordWriting _ recorded _ => RecordAsked recorded
  end.

Notation policy := (to_breaker_policy config).
Notation steps t := (rtc (step policy t)).

Section polls.
Context {R : Type} (path : string) (call : Future (Node * W) (Result R CallError)).
Context (Hcall : leaves_node call) (t : nat).

(** What a poll gave was reached by steps of the task, which end in the phase of the place; a call
    that has ended is idle. *)
Definition stepped (n : Node) (w : W) (ts : nat -> phase)
    (out : option (Result R CallError) * Guarding lock call * (Node * W)) : Prop :=
  let '((r, p), (n', w')) := out in exists ts',
    steps t (shared n w ts) (shared n' w' ts') /\ ts' t = phase_of p /\
    (forall t', t <> t' -> ts' t' = ts t') /\ (is_Some r -> p = Left).

Lemma stepped_left r n w ts : ts t = Idle -> stepped n w ts (leave lock call r (n, w)).
Proof. intros Ht. exists ts. by split; [reflexivity|]. Qed.

(** A step that changes the phase of the task, and what follows it. *)
Lemma stepped_step n1 w1 n2 w2 ph ts out :
  step policy t (shared n1 w1 ts) (shared n2 w2 (set_task t ph ts)) ->
  stepped n2 w2 (set_task t ph ts) out -> stepped n1 w1 ts out.
Proof.
  destruct out as [[r p] [n' w']]. intros Hstep (ts' & Hs & Hp & Ho & Hr). exists ts'.
  split_and!; [by eapply rtc_l|done| |done].
  intros t' Ht. rewrite (Ho t' Ht). by apply set_task_other.
Qed.

Lemma stepped_rest n w w' ts out : stepped n w' ts out -> stepped n w ts out.
Proof.
  destruct out as [[r p] [n2 w2]]. intros (ts' & Hs & ?). exists ts'.
  split; [by eapply rtc_l; [apply step_rest|]|done].
Qed.

(** An awaited future that leaves the node alone moves the rest of the world. *)
Lemma awaiting_stepped {A} (f : Future (Node * W) A) back next s n w ts ph :
  leaves_node f -> ts t = ph -> (forall s, phase_of (back s) = ph) ->
  (forall a w, stepped n w ts (next a (n, w))) ->
  stepped n w ts (awaiting f back next s (n, w)).
Proof.
  intros Hf Ht Hback Hnext. unfold awaiting, bind, ret. pose proof (proj1 (Hf s n w)) as Hn.
  destruct (f_poll f s (n, w)) as [[[a|] s'] [n' w']]; cbn in Hn; subst n'.
  - pose proof (proj2 (Hf s' n w')) as Hn. destruct (f_drop f s' (n, w')) as [[] [n' w2]]. cbn in Hn. subst n'.
    by apply (stepped_rest _ _ w2).
  - apply (stepped_rest _ _ w'). exists ts. by split_and!; [reflexivity|rewrite Hback| |intros []].
Qed.
Lemma record_write_stepped result recorded s n w ts :
  ts t = RecordAsked recorded -> stepped n w ts (poll_record_write lock call result recorded s (n, w)).
Proof.
  intros Ht. apply (awaiting_stepped _ _ _ _ _ _ _ _ (lift_leaves lock) Ht); [done|]. intros a w1.
  unfold bind, write_node. rewrite node_eta.
  eapply stepped_step; [by apply step_record_write|]. apply stepped_left, set_task_same.
Qed.

Lemma record_read_stepped result s n w ts :
  ts t = InFlight -> stepped n w ts (poll_record_read config lock call result s (n, w)).
Proof.
  intros Ht. apply (awaiting_stepped _ _ _ _ _ _ _ _ (lift_leaves lock) Ht); [done|]. intros a w1.
  unfold bind, read_node, lift.
  eapply stepped_step; [by apply (step_call _ _ _ _ _ w1 (classify_result result))|].
  destruct (transition_record n policy (classify_result result) w1) as [[recorded|e] w2] eqn:E.
  - eapply stepped_step; [eapply step_record_ask; [apply set_task_same|exact E]|].
    apply record_write_stepped, set_task_same.
  - eapply stepped_step; [eapply step_record_fail; [apply set_task_same|exact E]|].
    apply stepped_left, set_task_same.
Qed.

Lemma call_stepped s n w ts : ts t = InFlight -> stepped n w ts (poll_call config lock call s (n, w)).
Proof.
  intros Ht. apply (awaiting_stepped _ _ _ _ _ _ _ _ Hcall Ht); [done|]. intros result w1.
  by apply record_read_stepped.
Qed.

Lemma admit_write_stepped admission admitted s n w ts :
  ts t = AdmitAsked admission admitted ->
  stepped n w ts (poll_admit_write config path lock call admission admitted s (n, w)).
Proof.
  intros Ht. apply (awaiting_stepped _ _ _ _ _ _ _ _ (lift_leaves lock) Ht); [done|]. intros a w1.
  unfold bind, write_node. rewrite node_eta.
  eapply stepped_step; [by apply step_admit_write|].
  destruct admission; [apply call_stepped, set_task_same|apply stepped_left, set_task_same].
Qed.

Lemma admit_read_stepped s n w ts :
  ts t = Idle -> stepped n w ts (poll_admit_read config path lock call s (n, w)).
Proof.
  intros Ht. apply (awaiting_stepped _ _ _ _ _ _ _ _ (lift_leaves lock) Ht); [done|]. intros a w1.
  unfold bind, read_node, lift. eapply stepped_step; [by apply step_admit_read|].
  destruct (transition_admit n policy w1) as [[[admission admitted]|e] w2] eqn:E.
  - eapply stepped_step; [eapply step_admit_ask; [apply set_task_same|exact E]|].
    apply admit_write_stepped, set_task_same.
  - eapply stepped_step; [eapply step_admit_fail; [apply set_task_same|exact E]|].
    apply stepped_left, set_task_same.
Qed.

(** A poll of a guarded call, and its drop. *)
Lemma poll_stepped p n w ts :
  ts t = phase_of p -> stepped n w ts (guard_poll config path lock call p (n, w)).
Proof.
  destruct p; cbn [phase_of guard_poll]; intros Ht.
  - by apply admit_read_stepped.
  - by apply admit_read_stepped.
  - by apply admit_write_stepped.
  - by apply call_stepped.
  - by apply record_read_stepped.
  - by apply record_write_stepped.
  - exists ts. by split_and!; [reflexivity| |intros []|intros []].
Qed.

Lemma drop_leaves p n w : (guard_drop lock call p (n, w)).2.1 = n.
Proof.
  destruct p; cbn [guard_drop]; try done.
  all: (apply (proj2 (lift_leaves lock _ n w)) || apply (proj2 (Hcall _ n w))).
Qed.

Lemma drop_stepped p n w ts :
  ts t = phase_of p -> exists ts',
    steps t (shared n w ts) (shared n (guard_drop lock call p (n, w)).2.2 ts') /\
    ts' t = Idle /\ forall t', t <> t' -> ts' t' = ts t'.
Proof.
  intros Ht. destruct (decide (awaits (phase_of p) = true)) as [Ha|Ha].
  - exists (set_task t Idle ts). split_and!.
    + apply rtc_once, step_drop. by rewrite Ht.
    + apply set_task_same.
    + intros t' Hne. by apply set_task_other.
  - exists ts. split_and!; [apply rtc_once, step_rest| |done].
    rewrite Ht. by destruct p.
Qed.
End polls.

(** The tasks of a pool, phase by phase. *)
Definition mirrors (calls : Calls) (ts : nat -> phase) : Prop := forall t,
  ts t = match calls t with Some fl => phase_of (flight_place fl) | None => Idle end.

Definition inner_leave (calls : Calls) : Prop := forall t fl,
  calls t = Some fl -> leaves_node (flight_call fl).

Lemma set_flight_same t fl (calls : Calls) : set_flight t fl calls t = fl.
Proof. unfold set_flight. by rewrite decide_True. Qed.

Lemma set_flight_other t t' fl (calls : Calls) : t <> t' -> set_flight t fl calls t' = calls t'.
Proof. intros Hne. unfold set_flight. by rewrite decide_False. Qed.

Lemma mirrors_set t fl (calls : Calls) ts ts' :
  mirrors calls ts ->
  ts' t = match fl with Some fl => phase_of (flight_place fl) | None => Idle end ->
  (forall t', t <> t' -> ts' t' = ts t') -> mirrors (set_flight t fl calls) ts'.
Proof.
  intros Hm Ht Ho t'. destruct (decide (t = t')) as [<-|Hne].
  - by rewrite set_flight_same.
  - rewrite set_flight_other, Ho by done. apply Hm.
Qed.

Lemma inner_leave_set t fl (calls : Calls) :
  inner_leave calls -> (forall fl', fl = Some fl' -> leaves_node (flight_call fl')) ->
  inner_leave (set_flight t fl calls).
Proof.
  intros Hc Hfl t' fl'. destruct (decide (t = t')) as [<-|Hne].
  - rewrite set_flight_same. apply Hfl.
  - rewrite set_flight_other by done. apply Hc.
Qed.

Lemma steps_any t c c' : steps t c c' -> rtc (any_step policy) c c'.
Proof. induction 1 as [|c c1 c' Hs _ IH]; [reflexivity|]. eapply rtc_l; [by exists t|exact IH]. Qed.

(** One move of the pool, as steps of [BreakerRace]. *)
Lemma pool_step_mirrored e calls n w calls' n' w' ts :
  pool_step e (calls, (n, w)) (calls', (n', w')) -> mirrors calls ts -> inner_leave calls ->
  exists ts', rtc (any_step policy) (shared n w ts) (shared n' w' ts') /\ mirrors calls' ts' /\ inner_leave calls'.
Proof.
  intros Hstep Hm Hc. inversion Hstep as [c s t R path call Hno Hl|c s t fl p s' Hfl Hp|c s t fl r p s' Hfl Hp
    |c s t fl Hfl|c n0 w0 w1]; subst.
  - exists ts. split_and!; [reflexivity| |].
    + apply (mirrors_set t _ calls ts); [done| |done]. by rewrite (Hm t), Hno.
    + apply inner_leave_set; [done|]. by intros fl' [= <-].
  - pose proof (poll_stepped (flight_path fl) (flight_call fl) (Hc t fl Hfl) t (flight_place fl) n w ts
      ltac:(by rewrite (Hm t), Hfl)) as Hs.
    cbn [flight_future guarded_future f_poll] in Hp. rewrite Hp in Hs. destruct Hs as (ts' & Hs & Ht & Ho & _).
    exists ts'. split_and!; [by eapply steps_any|by eapply mirrors_set|].
    apply inner_leave_set; [done|]. intros fl' [= <-]. exact (Hc t fl Hfl).
  - pose proof (poll_stepped (flight_path fl) (flight_call fl) (Hc t fl Hfl) t (flight_place fl) n w ts
      ltac:(by rewrite (Hm t), Hfl)) as Hs.
    cbn [flight_future guarded_future f_poll] in Hp. rewrite Hp in Hs. destruct s' as [n2 w2].
    destruct Hs as (ts' & Hs & Ht & Ho & Hleft). specialize (Hleft ltac:(done)). subst p.
    cbn in Ht. simplify_eq/=. exists ts'.
    split_and!; [by eapply steps_any|by eapply mirrors_set|by apply inner_leave_set].
  - destruct (drop_stepped (flight_call fl) t (flight_place fl) n w ts
      ltac:(by rewrite (Hm t), Hfl)) as (ts' & Hs & Ht & Ho).
    pose proof (drop_leaves (flight_call fl) (Hc t fl Hfl) (flight_place fl) n w) as Hn.
    cbn [flight_future guarded_future f_drop] in *.
    match goal with H : (guard_drop _ _ _ _).2 = _ |- _ => rewrite H in Hn, Hs end. cbn [fst snd] in *. subst n'.
    exists ts'. split_and!; [by eapply steps_any|by eapply mirrors_set|by apply inner_leave_set].
  - exists ts. split_and!; [|done|done]. apply rtc_once. exists O. apply step_rest.
Qed.

(** C14: However the futures of guarded calls are begun, polled and dropped, with the rest of the world
    moving in between, every state they reach is one of [BreakerRace], task by task: a poll is a
    sequence of its steps, as many as the locks and the inner future let it take, and a drop one. *)
Theorem futures_are_steps n w calls n' w' :
  rtc pool_moves ((fun _ => None), (n, w)) (calls, (n', w')) ->
  exists ts, reachable policy n w (shared n' w' ts) /\
    forall t, ts t = match calls t with Some fl => phase_of (flight_place fl) | None => Idle end.
Proof.
  intros Hr. assert (exists ts, rtc (any_step policy) (start n w) (shared n' w' ts) /\ mirrors calls ts /\ inner_leave calls)
    as (ts & ? & ? & _); [|by exists ts].
  assert (mirrors (fun _ => None) (fun _ => Idle) /\ inner_leave (fun _ => None)) as [Hm Hc] by done.
  unfold start. revert Hm Hc. generalize (fun _ : nat => Idle (W := W)) as ts.
  remember ((fun _ => None), (n, w)) as p eqn:Ep. remember (calls, (n', w')) as p' eqn:Ep'.
  revert n w Ep. generalize (fun _ : nat => None (A := Flight)).
  induction Hr as [p|p [c1 [n1 w1]] p' [e Hs] _ IH]; intros c n w -> ts Hm Hc.
  - simplify_eq. by exists ts.
  - destruct (pool_step_mirrored e c n w c1 n1 w1 ts Hs Hm Hc) as (ts1 & Hr1 & Hm1 & Hc1).
    destruct (IH Ep' c1 n1 w1 Logic.eq_refl ts1 Hm1 Hc1) as (ts' & Hr' & ? & ?). exists ts'.
    split; [by etrans|done].
Qed.

(** ** Calls that are dropped *)

Section dropped.
Context (L : TransitionLaws (W := W) _) (n : Node) (Hn : state n = Closed \/ half_open n).

Lemma admits w : exists w', transition_admit n policy w = (Ok (Proceed, n), w').
Proof. destruct Hn as [Hs|Hs]; [by apply admit_closed|by apply admit_half_open]. Qed.

(** What a call that waits has of the node. *)
Definition kept {R} {call : Future (Node * W) (Result R CallError)} (p : Guarding lock call) : Prop :=
  match p with AdmitWriting admission admitted _ => admission = Proceed /\ admitted = n | _ => True end.

Section quiet.
Context {R : Type} (path : string) (call : Future (Node * W) (Result R CallError)).
Context (Hcall : leaves_node call).

(** A poll after which the call waits has left the node alone. *)
Definition quiet (out : option (Result R CallError) * Guarding lock call * (Node * W)) : Prop :=
  match out with ((None, p), (n', _)) => n' = n /\ kept p | _ => True end.

Lemma awaiting_quiet {A} (f : Future (Node * W) A) back next s w :
  leaves_node f -> (forall s, kept (back s)) -> (forall a w, quiet (next a (n, w))) ->
  quiet (awaiting f back next s (n, w)).
Proof.
  intros Hf Hback Hnext. unfold awaiting, bind, ret. pose proof (proj1 (Hf s n w)) as H1.
  destruct (f_poll f s (n, w)) as [[[a|] s'] [n' w']]; cbn in H1; subst n'; [|by split].
  pose proof (proj2 (Hf s' n w')) as H2. destruct (f_drop f s' (n, w')) as [[] [n' w2]]. cbn in H2. by subst n'.
Qed.

Lemma poll_quiet p w : kept p -> quiet (guard_poll config path lock call p (n, w)).
Proof.
  assert (forall result recorded s w, quiet (poll_record_write lock call result recorded s (n, w))) as H1.
  { intros. by apply awaiting_quiet; [apply lift_leaves| |]. }
  assert (forall result s w, quiet (poll_record_read config lock call result s (n, w))) as H2.
  { intros. apply awaiting_quiet; [apply lift_leaves|done|]. intros a w1. unfold bind, read_node, lift.
    by destruct (transition_record n policy _ w1) as [[recorded|e] w2]. }
  assert (forall s w, quiet (poll_call config lock call s (n, w))) as H3.
  { intros. by apply awaiting_quiet; [apply Hcall| |]. }
  assert (forall s w, quiet (poll_admit_write config path lock call Proceed n s (n, w))) as H4.
  { intros. apply awaiting_quiet; [apply lift_leaves|done|]. intros a w1. unfold bind, write_node.
    by rewrite node_eta. }
  assert (forall s w, quiet (poll_admit_read config path lock call s (n, w))) as H5.
  { intros. apply awaiting_quiet; [apply lift_leaves|done|]. intros a w1. unfold bind, read_node, lift.
    by destruct (admits w1) as [w2 ->]. }
  destruct p; cbn [kept guard_poll]; intros Hk; auto; [by destruct Hk as [-> ->]|by split].
Qed.
End quiet.

Definition all_kept (calls : Calls) : Prop := forall t fl, calls t = Some fl -> kept (flight_place fl).

Lemma all_kept_set t fl (calls : Calls) :
  all_kept calls -> (forall fl', fl = Some fl' -> kept (flight_place fl')) -> all_kept (set_flight t fl calls).
Proof.
  intros Hc Hfl t' fl'. destruct (decide (t = t')) as [<-|Hne].
  - rewrite set_flight_same. apply Hfl.
  - rewrite set_flight_other by done. apply Hc.
Qed.

Lemma waits_or_drops_quiet calls w calls' n' w' :
  pool_waits_or_drops (calls, (n, w)) (calls', (n', w')) -> inner_leave calls -> all_kept calls ->
  n' = n /\ inner_leave calls' /\ all_kept calls'.
Proof.
  intros (e & Hstep & He) Hc Hk. inversion Hstep as [c s t R path call Hno Hl|c s t fl p s' Hfl Hp|c s t fl r p s' Hfl Hp
    |c s t fl Hfl|c n0 w0 w1]; subst; [| |done| |done].
  - split_and!; [done|apply inner_leave_set|apply all_kept_set]; try done; by intros fl' [= <-].
  - pose proof (poll_quiet (flight_path fl) (flight_call fl) (Hc t fl Hfl) (flight_place fl) w (Hk t fl Hfl)) as Hq.
    cbn [flight_future guarded_future f_poll] in Hp. rewrite Hp in Hq. destruct Hq as [-> Hq].
    split_and!; [done|apply inner_leave_set|apply all_kept_set]; try done; intros fl' [= <-]; [exact (Hc t fl Hfl)|exact Hq].
  - pose proof (drop_leaves (flight_call fl) (Hc t fl Hfl) (flight_place fl) n w) as Hd.
    cbn [flight_future guarded_future f_drop] in *.
    match goal with H : (guard_drop _ _ _ _).2 = _ |- _ => rewrite H in Hd end.
    split_and!; [exact Hd|by apply inner_leave_set|by apply all_kept_set].
Qed.

(** C15: Calls that are dropped before they end are never recorded: from a closed circuit, or one that is
    half-open, any number of calls that are begun, polled and dropped at any of their awaits, at the
    same time, with the rest of the world moving in between, leave the node as it is, as long as none of them ends.  So calls that a
    caller gives up on, or a signal ends, do not trip a circuit, even when the upstream they were
    waiting for is down, and a probe that is dropped is neither counted nor held against it. *)
Theorem dropped_calls_unrecorded w calls n' w' :
  rtc pool_waits_or_drops ((fun _ => None), (n, w)) (calls, (n', w')) -> n' = n.
Proof.
  assert (inner_leave (fun _ => None) /\ all_kept (fun _ => None)) as [Hc Hk] by done. revert Hc Hk.
  generalize (fun _ : nat => None (A := Flight)) as c. intros c Hc Hk Hr.
  remember (c, (n, w)) as p eqn:Ep. remember (calls, (n', w')) as p' eqn:Ep'.
  revert c w Ep Hc Hk. induction Hr as [p|p [c1 [n1 w1]] p' Hs _ IH]; intros c w -> Hc Hk; [by simplify_eq|].
  destruct (waits_or_drops_quiet c w c1 n1 w1 Hs Hc Hk) as (-> & Hc1 & Hk1).
  by apply (IH Ep' c1 w1).
Qed.
End dropped.

(** ** Schedules *)

(** What the tasks do, in order; a call that is begun is one of the inner client's. *)
Inductive command :=
| Begin (t : nat) {T : Type} (path : string) (call : Future W (Result T CallError))
| Poll (t : nat)
| Drop (t : nat)
| Move (f : W -> W).

(** What one of them does to a pool, and whether a call ends by it. *)
Definition play (c : command) (p : Pool) : bool * Pool :=
  let '(calls, s) := p in
  match c with
  | Begin t path call =>
      (false, match calls t with
              | None => (set_flight t (Some (flight _ path (f_lift call) Entering)) calls, s)
              | Some _ => p
              end)
  | Poll t =>
      match calls t with
      | None => (false, p)
      | Some fl =>
          match f_poll (flight_future fl) (flight_place fl) s with
          | ((None, place), s') => (false, (set_flight t (Some (at_place fl place)) calls, s'))
          | ((Some _, place), s') => (true, (set_flight t None calls, (f_drop (flight_future fl) place s').2))
          end
      end
  | Drop t =>
      match calls t with
      | None => (false, p)
      | Some fl => (false, (set_flight t None calls, (f_drop (flight_future fl) (flight_place fl) s).2))
      end
  | Move f => (false, (calls, (s.1, f s.2)))
  end.

Fixpoint play_all (cs : list command) (p : Pool) : bool * Pool :=
  match cs with
  | [] => (false, p)
  | c :: cs =>
      let '(ended, p) := play c p in
      let '(ended', p) := play_all cs p in (ended || ended', p)
  end.

Lemma play_step c p :
  (play c p).2 = p \/
  exists e, pool_step e p (play c p).2 /\ (e = Ended -> (play c p).1 = true).
Proof.
  destruct p as [calls [n w]]. destruct c as [t T path call|t|t|f]; cbn.
  - destruct (calls t) eqn:E; [by left|]. right. exists Began. split; [by apply pool_began, lift_leaves|done].
  - destruct (calls t) as [fl|] eqn:E; [|by left]. right.
    destruct (guard_poll _ _ _ _ (flight_place fl) (n, w)) as [[[r|] place] s'] eqn:Ep.
    + exists Ended. split; [by eapply pool_ended|done].
    + exists Waits. split; [by eapply pool_waits|done].
  - destruct (calls t) as [fl|] eqn:E; [|by left]. right. exists Dropped. split; [by apply pool_dropped|done].
  - right. exists Rest. split; [apply pool_rest|done].
Qed.

Lemma play_moves cs p : rtc pool_moves p (play_all cs p).2.
Proof.
  revert p. induction cs as [|c cs IH]; intros p; [apply rtc_refl|]. cbn.
  specialize (IH (play c p).2). pose proof (play_step c p) as Hs.
  destruct (play c p) as [ended p1]. cbn [fst snd] in *. destruct (play_all cs p1) as [ended' p2]. cbn in *.
  destruct Hs as [<-|(e & Hs & _)]; [done|]. eapply rtc_l; [by exists e|done].
Qed.

Lemma play_waits cs p : (play_all cs p).1 = false -> rtc pool_waits_or_drops p (play_all cs p).2.
Proof.
  revert p. induction cs as [|c cs IH]; intros p; [intros _; apply rtc_refl|]. cbn.
  specialize (IH (play c p).2). pose proof (play_step c p) as Hs.
  destruct (play c p) as [ended p1]. cbn [fst snd] in *. destruct (play_all cs p1) as [ended' p2]. cbn in *.
  intros [-> ->]%orb_false_iff. destruct Hs as [<-|(e & Hs & He)]; [by apply IH|].
  eapply rtc_l; [exists e; split; [done|by intros ?%He]|by apply IH].
Qed.
End pool.
Arguments Begin {_ _} _ {_} _ _.
Arguments Poll {_ _} _.
Arguments Drop {_ _} _.
Arguments Move {_ _} _.

(** Two calls on a lock that is free at the second poll, to an upstream that never answers and one that
    is down, on a circuit one failure from its threshold. *)
#[local] Existing Instance list_contract.
#[local] Existing Instance BreakerSpec.Example.transition.
#[local] Existing Instance BreakerSpec.Example.laws.

Definition silent : Future N (Result unit CallError) := {|
  f_state := unit;
  f_start := tt;
  f_poll s := ret (None, s);
  f_drop _ := ret tt;
|}.

Definition down : Future N (Result unit CallError) :=
  second_poll (ret (Err (Transport_ "/s/M" Unavailable "down"))).

Definition busy_lock : Future N unit := second_poll (ret tt).

Definition nearly_open : BreakerNode (@BreakerState N BreakerSpec.Example.transition) :=
  breaker_node BreakerSpec.Example.IsClosed 4 0.

Definition played (cs : list (command (W := N))) : bool * ((nat -> option (Flight busy_lock)) * (BreakerNode _ * N)) :=
  play_all BreakerConfig.default busy_lock cs ((fun _ => None), (nearly_open, 0)).

Definition phase_at (calls : nat -> option (Flight busy_lock)) (t : nat) : phase :=
  match calls t with Some fl => phase_of busy_lock (flight_place busy_lock fl) | None => Idle end.

(** The second call trips the circuit while the first one is out. *)
Lemma futures_are_steps_witness :
  let p := played [Begin 1 "/s/M" silent; Poll 1; Poll 1; Poll 1; Begin 2 "/s/M" down; Poll 2; Poll 2; Poll 2;
                   Poll 1; Move (fun w => w + 9); Poll 2; Poll 2; Poll 2] in
  p.1 = true /\ p.2.2 = (breaker_node (BreakerSpec.Example.IsOpen 9) 0 0, 9) /\
  exists ts, reachable (to_breaker_policy BreakerConfig.default) nearly_open 0 (shared p.2.2.1 p.2.2.2 ts) /\
    ts 1%nat = InFlight.
Proof.
  intros p. split; [vm_compute; reflexivity|]. split; [vm_compute; reflexivity|].
  assert (rtc (pool_moves BreakerConfig.default busy_lock) ((fun _ => None), (nearly_open, 0)) p.2) as Hr
    by apply play_moves.
  assert (phase_at p.2.1 1 = InFlight) as Hp by (vm_compute; reflexivity).
  destruct p.2 as [calls [n w]] eqn:E.
  destruct (futures_are_steps (W := N) BreakerConfig.default busy_lock nearly_open 0 calls n w Hr) as (ts & Hts & Hphase).
  exists ts. split; [exact Hts|]. rewrite Hphase. exact Hp.
Defined.

(** The same calls, dropped: one while it is out, the other when its failure is not yet written. *)
Lemma dropped_calls_unrecorded_witness :
  let p := played [Begin 1 "/s/M" silent; Poll 1; Poll 1; Poll 1; Begin 2 "/s/M" down; Poll 2; Poll 2; Poll 2;
                   Move (fun w => w + 9); Poll 2; Poll 2; Drop 1; Drop 2] in
  phase_at (played [Begin 2 "/s/M" down; Poll 2; Poll 2; Poll 2; Move (fun w => w + 9); Poll 2; Poll 2]).2.1 2
  = RecordAsked (breaker_node (BreakerSpec.Example.IsOpen 9) 0 0) /\
  p.1 = false /\ p.2.2.1 = nearly_open.
Proof.
  intros p. split; [vm_compute; reflexivity|]. assert (p.1 = false) as Hq by (vm_compute; reflexivity).
  split; [exact Hq|].
  assert (rtc (pool_waits_or_drops BreakerConfig.default busy_lock) ((fun _ => None), (nearly_open, 0)) p.2) as Hr
    by by apply play_waits.
  destruct p.2 as [calls [n w]].
  exact (dropped_calls_unrecorded (W := N) BreakerConfig.default busy_lock BreakerSpec.Example.laws nearly_open
    (or_introl Logic.eq_refl) 0 calls n w Hr).
Defined.
