(* ===== verification/Stack.v ===== *)
(** * A built client and what is put around it

    The client of one endpoint that [EgressBuilder] builds, without interceptors or with the trace
    context, and the whole composition: the identity view over the breaker over the retry decorator
    over such a client.  The engine's client is arbitrary; what it is given is recorded. *)

From S2P Require Import Prelude Text Contract Metadata Interceptors Intercepted InterceptedSpec Identity Channel Endpoint EgressBuilder F64 RetryConfig RetryClassifier Retry RetrySpec BreakerConfig Breaker BreakerSpec.
From Stdlib Require Import NArith Lia Strings.Byte.
From stdpp Require Import base tactics strings option list.

Open Scope N_scope.

(** What the contract crate promises of call options. *)
Class OptionsLaws `{Contract} := {
  options_timeout : forall t m, get_timeout (options_create t m) = t;
  options_metadata : forall t m, get_metadata (options_create t m) = m;
}.

(** ** One endpoint *)

Section one.
Context `{Contract} {W T : Type} `{!LoadbalancerSvc W} (ct : ClientType W T).
Context (call_error_to_string : CallError -> string) (url : string) (t : T).

(** What [build] gives for one target. *)
Definition single (chain : list (GrpcEgressInterceptor W)) : Client W :=
  client_of ct call_error_to_string (endpoint_transport [(url, t)] None, chain).

Lemma through_one {R} path (send : T -> eff W (Result R CallError)) w :
  through call_error_to_string (endpoint_transport [(url, t)] None) path send w = send t w.
Proof. unfold through, pick, report, bindr, bind, ret. cbn. by destruct (send t w). Qed.

Lemma endpoint_call_raw path message options w :
  call_raw (raw (endpoint_client ct call_error_to_string (endpoint_transport [(url, t)] None)))
    path message options w
  = cr_call_raw ct t path message options w.
Proof. exact (through_one path (fun c => cr_call_raw ct c path message options) w). Qed.

(** A client without interceptors does what the engine's client does. *)
Lemma bare_call_raw path message options w :
  call_raw (raw (single [])) path message options w = cr_call_raw ct t path message options w.
Proof.
  cbn [single client_of intercepted_client raw intercepted_raw call_raw].
  unfold intercepted_call_raw, intercepted_before, intercepted_after, run_after_egress,
    intercepted_error, plain_event, adapter_on_event, bindr, bind, ret. cbn. unfold bind, ret.
  destruct (cr_call_raw ct t path message options w) as [[[m h ts]|e] w']; [|done].
  cbn. destruct (copy _ ts); [|done]. by destruct (copy _ h).
Qed.

Lemma bare_call M message options w :
  call (typed (single [])) M message options w = ct_call ct t M message options w.
Proof.
  cbn [single client_of intercepted_client typed intercepted_typed call].
  unfold intercepted_call, intercepted_before, intercepted_after, run_after_egress,
    intercepted_error, plain_event, adapter_on_event, bindr, bind, ret. cbn. unfold bind, ret.
  destruct (ct_call ct t M message options w) as [[[m h ts]|e] w']; [|done].
  cbn. destruct (copy _ ts); [|done]. by destruct (copy _ h).
Qed.
End one.

(** [build] for one plaintext endpoint that is allowed. *)
Lemma build_parts_single `{Contract} `{TransportOptions} {W T} `{!Engine W T} `{!LoadbalancerSvc W}
    fs_read (self : GrpcEgressBuilderImpl (W := W)) (t : T) w w' :
  check_values self = Ok tt -> loadbalancer self = None -> tls self = None ->
  plaintext_allowed self = true ->
  cuts_character (endpoint self) = false -> plaintext (endpoint self) = true ->
  engine_build (factory_for self (endpoint self) (tls_create None [] None) true) w = (Ok t, w') ->
  build_parts fs_read self w
  = (Some (Ok (endpoint_transport [(endpoint self, t)] None, interceptors self)), w').
Proof.
  intros Hc Hl Ht Ha Hcut Hp Hb. unfold build_parts.
  unfold bindp, bind, pure_result, no_panic, ret. rewrite Hc. unfold list_targets. rewrite Hl.
  unfold reject_plaintext. rewrite Ha. cbn [negb]. unfold pure_result, ret.
  unfold reject_tls_option, name_tls_option. rewrite Ht. unfold pure_result, ret.
  unfold resolve_tls. rewrite Ht. unfold ret. cbn [create_clients].
  unfold bindp, bind, pure_result, ret, create_client. rewrite plaintext_endpoint_spec, Hcut, Hp.
  unfold no_panic, bind, ret. rewrite Hb. cbn [map_err].
  unfold endpoint_try_from, bindr, bind, ret. do 3 f_equal. exact (f_equal (pair _) (fold_push (interceptors self) [])).
Qed.

Lemma build_single `{Contract} `{TransportOptions} {W T} `{!Engine W T} `{!LoadbalancerSvc W}
    (ct : ClientType W T) fs_read call_error_to_string (self : GrpcEgressBuilderImpl (W := W)) t w w' :
  check_values self = Ok tt -> loadbalancer self = None -> tls self = None ->
  plaintext_allowed self = true ->
  cuts_character (endpoint self) = false -> plaintext (endpoint self) = true ->
  engine_build (factory_for self (endpoint self) (tls_create None [] None) true) w = (Ok t, w') ->
  build ct fs_read call_error_to_string self w
  = (Some (Ok (single ct call_error_to_string (endpoint self) t (interceptors self))), w').
Proof.
  intros. unfold build, bindp, bind. by rewrite (build_parts_single _ self t w w').
Qed.

(** A raw call through a chain that lets it through, to an engine client that answers. *)
Lemma single_call_raw `{Contract} {W T} `{!LoadbalancerSvc W} (ct : ClientType W T) call_error_to_string
    url (t : T) i (chain : list (GrpcEgressInterceptor W)) path message options w c w1 response w2 h ts w3 :
  std_run_before (i :: chain) PendingCall (pending_from path options, w) = (Ok tt, (c, w1)) ->
  cr_call_raw ct t path message (options_from c)
    (std_run_event (i :: chain) (Started (path, Unary)) w1).2 = (Ok response, w2) ->
  copy (cr_view ct) (headers response) = Ok h -> copy (cr_view ct) (trailers response) = Ok ts ->
  std_run_after (i :: chain) (inbound_reply path h ts) w2 = (Ok tt, w3) ->
  call_raw (raw (single ct call_error_to_string url t (i :: chain))) path message options w
  = (Ok response, (std_run_event (i :: chain) (Completed (path, Unary) (Some h) ts) w3).2).
Proof.
  intros Hb Hcall Hh Ht Ha.
  set (self := intercepted (endpoint_client ct call_error_to_string (endpoint_transport [(url, t)] None))
                 (i :: chain : StdGrpcEgressInterceptorChain)).
  assert (intercepted_before self path Unary options w
          = (Ok (options_from c), (std_run_event (i :: chain) (Started (path, Unary)) w1).2)) as Hbefore.
  { exact (before_run self path Unary options w c w1 eq_refl Hb). }
  etransitivity; [exact (raw_call_run self path message options w _ _ Hbefore)|].
  cbn [self Intercepted.inner]. rewrite endpoint_call_raw, Hcall.
  match goal with |- context [intercepted_after ?self ?view ?p ?k ?hs ?ts ?w] =>
    pose proof (after_run self view p k hs ts h _ w w3 eq_refl Hh Ht Ha) as Haf end.
  rewrite Haf. reflexivity.
Qed.

(** ** What the engine is given *)

Record Sent `{Contract} := sent {
  sent_path : string;
  sent_message : list byte;
  sent_options : CallOptions;
}.
Arguments sent {_}.

Section tapped.
Context `{Contract} {V T : Type} (ct : ClientType V T).

(** A streaming call, from the state with the record. *)
Definition lift_streams {F A M} (m : eff V (Result (ResponseStream V A M) CallError)) :
    eff (F * V) (Result (ResponseStream (F * V) A M) CallError) :=
  let! r := lift m in ret (rmap lift_stream r).

(** The engine's clients, with the raw unary calls they get recorded. *)
Definition tapped : ClientType (list Sent * V) T := {|
  ct_metadata := ct_metadata ct;
  ct_view := ct_view ct;
  ct_call t M message options := lift (ct_call ct t M message options);
  ct_call_server_stream t M message options :=
    lift_streams (ct_call_server_stream ct t M message options);
  ct_call_client_stream t M requests options := lift (ct_call_client_stream ct t M requests options);
  ct_call_bidi_stream t M requests options :=
    lift_streams (ct_call_bidi_stream ct t M requests options);
  cr_metadata := cr_metadata ct;
  cr_view := cr_view ct;
  cr_call_raw t path message options :=
    act (fun '(l, v) => (l ++ [sent path message options], v)) ;;;
    lift (cr_call_raw ct t path message options);
  cr_call_raw_server_stream t path message options :=
    lift_streams (cr_call_raw_server_stream ct t path message options);
  cr_call_raw_client_stream t path requests options :=
    lift (cr_call_raw_client_stream ct t path requests options);
  cr_call_raw_bidi_stream t path requests options :=
    lift_streams (cr_call_raw_bidi_stream ct t path requests options);
|}.
End tapped.

(** ** The trace context on metadata *)

Section trace.
Context `{HC : Contract} `{HL : !MetadataLaws} `{HO : !OptionsLaws}.

(** What the interceptor adds to metadata with these entries. *)
Definition trace_entries (source : TraceContextSource) (entries : list (string * string)) :
    list (string * string) :=
  match source with
  | PassThrough => []
  | Static traceparent tracestate =>
      if decide (snd <$> filter (fun e => e.1 = norm TRACEPARENT) entries = [])
      then (norm TRACEPARENT, traceparent) ::
           match tracestate with Some state => [(norm TRACESTATE, state)] | None => [] end
      else []
  end.

Definition trace_valid (source : TraceContextSource) : Prop :=
  match source with
  | PassThrough => True
  | Static traceparent tracestate =>
      valid TRACEPARENT traceparent = true /\
      forall state, tracestate = Some state -> valid TRACESTATE state = true
  end.

Lemma pending_append (c : PendingCall) k v :
  built (pending_metadata c) -> valid k v = true -> exists c',
    add_header c k v = Ok c' /\ pending_timeout c' = pending_timeout c /\
    text (pending_metadata c') = text (pending_metadata c) ++ [(norm k, v)] /\
    binary (pending_metadata c') = binary (pending_metadata c) /\ built (pending_metadata c').
Proof.
  intros Hc Hv. destruct (append_spec (pending_metadata c) k v Hc Hv) as (m & E & Ht & Hb & Hm).
  cbn. unfold pending_add_header. rewrite E. cbn. eexists. split; [done|]. done.
Qed.

Lemma pending_lacks (c : PendingCall) k :
  built (pending_metadata c) -> valid_key k = true ->
  has_header c k = negb (is_nil (values (pending_metadata c) k)).
Proof.
  intros Hc Hk. cbn. unfold pending_has_header, pending_header_values.
  rewrite built_values by done. change (snd <$> _) with (values (pending_metadata c) k).
  by destruct (values (pending_metadata c) k).
Qed.

Lemma trace_before_text {W} source (c : PendingCall) (w : W) :
  built (pending_metadata c) -> trace_valid source -> exists c',
    trace_before_call source PendingCall (c, w) = (Ok tt, (c', w)) /\
    pending_timeout c' = pending_timeout c /\
    text (pending_metadata c') = text (pending_metadata c) ++ trace_entries source (text (pending_metadata c)) /\
    binary (pending_metadata c') = binary (pending_metadata c).
Proof.
  intros Hc Hs. unfold trace_before_call. destruct source as [|traceparent tracestate]; cbn [trace_entries].
  { exists c. rewrite app_nil_r. by destruct (has_header c TRACEPARENT). }
  destruct Hs as [Hp Hst]. rewrite pending_lacks by eauto using valid_valid_key.
  change (snd <$> _) with (values (pending_metadata c) TRACEPARENT).
  destruct (values (pending_metadata c) TRACEPARENT) as [|x l]; cbn [is_nil negb].
  2:{ exists c. by rewrite app_nil_r. }
  rewrite decide_True by done.
  destruct (pending_append c _ _ Hc Hp) as (c1 & E1 & Ht1 & Hx1 & Hb1 & Hc1).
  unfold bindr, bind, add_header_to, ret. rewrite E1. destruct tracestate as [state|].
  - destruct (pending_append c1 _ _ Hc1 (Hst _ eq_refl)) as (c2 & -> & Ht2 & Hx2 & Hb2 & _).
    exists c2. rewrite Hx2, Hx1, <-app_assoc. split_and!; [done|congruence|done|congruence].
  - exists c1. by rewrite Hx1.
Qed.
End trace.

(** ** The identity view on metadata *)

Lemma view_options `{HC : Contract} `{HL : !MetadataLaws} `{HO : !OptionsLaws} {W} (inner : Client W)
    identity path options :
  built (get_metadata options) ->
  Forall (fun e => valid e.1 e.2 = true) (context_headers identity) ->
  exists options',
    add_headers (context_from inner identity) path options = Ok options' /\
    get_timeout options' = get_timeout options /\ built (get_metadata options') /\
    text (get_metadata options')
    = text (get_metadata options) ++ missing (get_metadata options) (context_headers identity) /\
    binary (get_metadata options') = binary (get_metadata options).
Proof.
  intros Hm Hv. unfold add_headers. cbn [context context_from].
  destruct (extend_spec (get_metadata options) (context_headers identity) Hm) as (m & E & Ht & Hb & Hbuilt).
  { eapply Forall_impl; [exact Hv|]. intros e He. split; [exact (valid_valid_key _ _ He)|done]. }
  destruct (context_headers identity) as [|e l] eqn:El.
  - exists options. unfold missing. by rewrite app_nil_r.
  - rewrite E. cbn. eexists. split; [done|]. by rewrite options_timeout, !options_metadata.
Qed.

(** A raw call through the view is one through the client, with those options. *)
Lemma view_call_raw `{HC : Contract} {W} (inner : Client W) identity path message options options' w :
  add_headers (context_from inner identity) path options = Ok options' ->
  call_raw (raw (context_client (context_from inner identity))) path message options w
  = call_raw (raw inner) path message options' w.
Proof. intros E. cbn. unfold bindr, bind, ret. by rewrite E. Qed.

(** ** A client with the trace context *)

Section traced.
Context `{HC : Contract} `{HL : !MetadataLaws} `{HO : !OptionsLaws}.
Context {W T : Type} `{!LoadbalancerSvc W} (ct : ClientType W T).
Context (call_error_to_string : CallError -> string) (url : string) (t : T).
Context (source : TraceContextSource) (Hsource : trace_valid source).

Notation traced := (single ct call_error_to_string url t [TraceContextGrpcEgressInterceptor source]).

(** Options for which the engine's call is that of a call through the client. *)
Definition traced_options (options options' : CallOptions) : Prop :=
  get_timeout options' = get_timeout options /\
  text (get_metadata options')
  = text (get_metadata options) ++ trace_entries source (text (get_metadata options)) /\
  binary (get_metadata options') = binary (get_metadata options).

(** The interceptor changes nothing but the call. *)
Lemma traced_after self {M} (view : MetadataView MetadataError M) path kind hs ts w :
  chain (W := W) self = [TraceContextGrpcEgressInterceptor source] ->
  (intercepted_after self view path kind hs ts w).2 = w.
Proof.
  intros E. unfold intercepted_after, run_after_egress, bind, ret. rewrite E. cbn.
  destruct (copy view hs), (copy view ts); done.
Qed.

(** What a raw call does to the world is what the engine's client does to it. *)
Lemma traced_call_raw path message options w :
  built (get_metadata options) -> exists options', traced_options options options' /\
    (call_raw (raw traced) path message options w).2 = (cr_call_raw ct t path message options' w).2.
Proof.
  intros Hm. destruct (trace_before_text source (pending_from path options) w Hm Hsource)
    as (c & E & Ht & Hx & Hb).
  exists (options_from c). split.
  { unfold traced_options, options_from. by rewrite options_timeout, options_metadata. }
  set (self := intercepted (endpoint_client ct call_error_to_string (endpoint_transport [(url, t)] None))
                 [TraceContextGrpcEgressInterceptor (W := W) source]).
  assert (intercepted_before self path Unary options w = (Ok (options_from c), w)) as Hbefore.
  { etransitivity; [apply before_run with (pending := c) (w1 := w)|]; [done| |reflexivity].
    cbn [self chain run_before std_chain std_run_before before_call TraceContextGrpcEgressInterceptor].
    unfold bindr, bind, ret. by rewrite E. }
  etransitivity; [exact (f_equal snd (raw_call_run self path message options w _ _ Hbefore))|].
  cbn [self Intercepted.inner]. rewrite endpoint_call_raw.
  destruct (cr_call_raw ct t path message (options_from c) w) as [[response|e] w2]; [|done].
  match goal with |- context [intercepted_after ?self ?view ?p ?k ?hs ?ts ?w] =>
    pose proof (traced_after self view p k hs ts w eq_refl) as Ha;
    destruct (intercepted_after self view p k hs ts w) as [[[]|e] w3] end; by cbn in Ha; subst.
Qed.
End traced.

(** ** Runs of the retry loop that keep an invariant *)

(** A timeout the loop may give an attempt. *)
Definition within (budget timeout : option Duration) : Prop :=
  match budget, timeout with
  | Some b, Some time => 0 < time <= b
  | None, None => True
  | _, _ => False
  end.

Section keeps.
Context `{Contract} `{Backoff} {RC : RetryClassifier} {V R : Type} (clk : Clock V).
Context (config : GrpcRetryConfig) (path : string) (budget : option Duration).
Context (attempt : option Duration -> eff V (Result R CallError)).

(** The invariant may count the attempts. *)
Context (I : nat -> V -> Prop).
Context (Hnow : forall k v, I k v -> I k (now clk v).2)
        (Hsleep : forall k d v, I k v -> I k (sleep clk d v).2)
        (Hrng : forall k v, I k v -> I k (from_clock clk v).2)
        (Hattempt : forall k time v, within budget time -> I k v -> I (S k) (attempt time v).2).

Lemma remaining_keeps started k v :
  I k v -> match remaining clk budget started v with
           | (Ok time, v') => within budget time /\ I k v'
           | (Err _, v') => I k v'
           end.
Proof.
  intros Hv. unfold remaining, elapsed, bind, ret. destruct budget as [b|]; [|done].
  pose proof (Hnow k v Hv) as Hn. destruct (now clk v) as [t v']. unfold duration_sub.
  destruct (N.leb_spec (t - started) b); [|done]. destruct (N.eqb_spec (b - (t - started)) 0); [done|].
  split; [cbn; lia|done].
Qed.

Lemma budget_keeps started d k v : I k v -> I k (budget_allows_sleep clk budget started d v).2.
Proof.
  intros Hv. unfold budget_allows_sleep, elapsed, bind, ret. destruct budget; [|done].
  pose proof (Hnow k v Hv) as Hn. by destruct (now clk v).
Qed.

Lemma loop_keeps turns started a b rng last k v :
  I k v -> exists k', (k' <= k + turns)%nat /\
    I k' (retry_loop clk config path budget attempt turns started a b rng last v).2.
Proof.
  revert a b rng last k v. induction turns as [|turns IH]; intros a b rng last k v Hv; cbn [retry_loop].
  { exists k. split; [lia|done]. }
  unfold bind at 1. pose proof (remaining_keeps started k v Hv) as Hr.
  destruct (remaining clk budget started v) as [[time|[]] v1]; [|exists k; split; [lia|done]].
  destruct Hr as [Htime Hv1]. unfold bind at 1. pose proof (Hattempt k time v1 Htime Hv1) as Hat.
  destruct (attempt time v1) as [r v2]. cbn [snd] in Hat.
  assert (forall m : eff V (Result R CallError), (m v2).2 = v2 ->
    exists k', (k' <= k + S turns)%nat /\ I k' (m v2).2) as Hstop.
  { intros m ->. exists (S k). split; [lia|done]. }
  assert (forall d a b rng last, exists k', (k' <= k + S turns)%nat /\
    I k' ((let! fits := budget_allows_sleep clk budget started d in
           if fits then sleep clk d ;;; retry_loop clk config path budget attempt turns started a b rng last
           else after_loop path last) v2).2) as Hagain.
  { intros d a' b' rng' last'. unfold bind at 1. pose proof (budget_keeps started d (S k) v2 Hat) as Hb.
    destruct (budget_allows_sleep clk budget started d v2) as [[] v3]; cbn [snd] in Hb;
      [|exists (S k); split; [lia|done]].
    unfold bind. pose proof (Hsleep (S k) d v3 Hb) as Hs. destruct (sleep clk d v3) as [[] v4].
    destruct (IH a' b' rng' last' (S k) v4 Hs) as (k' & Hk & HI). exists k'. split; [lia|done]. }
  destruct (classify r); [by apply (Hstop (ret r))| | |by apply (Hstop (ret r))].
  - destruct (_ <=? _); [by apply (Hstop (after_loop path (result_err r)))|].
    destruct (next_unit rng) as [u rng']. apply Hagain.
  - destruct (_ <? _); [by apply (Hstop (after_loop path (result_err r)))|].
    destruct (next_unit rng) as [u rng']. apply Hagain.
Qed.

Lemma run_keeps v :
  I 0%nat v -> exists k, (k <= N.to_nat (max_attempts (fields config)))%nat /\
    I k (run_with_retry clk config path budget attempt v).2.
Proof.
  intros Hv. unfold run_with_retry, bind. pose proof (Hnow 0%nat v Hv) as Hn.
  destruct (now clk v) as [started v1]. pose proof (Hrng 0%nat v1 Hn) as Hr.
  destruct (from_clock clk v1) as [rng v2]. exact (loop_keeps _ _ _ _ _ _ 0%nat v2 Hr).
Qed.
End keeps.

(** ** The whole composition *)

Section stack.
Context `{HC : Contract} `{HL : !MetadataLaws} `{HO : !OptionsLaws} `{HB : Backoff}.
Context {V T : Type} `{!LoadbalancerSvc (list Sent * V)} (ct : ClientType V T).
Context (call_error_to_string : CallError -> string) (url : string) (t : T).
Context (clk : Clock V) (Tr : BreakerTransition V).
Context (policy : GrpcRetryConfig) (breaker : GrpcBreakerConfig).
Context (source : TraceContextSource) (identity : CallerIdentity).

#[local] Existing Instance lift_transition.

(** The built client, the retry decorator around it, the breaker around that, and the view. *)
Definition stack_retry : Client (list Sent * V) :=
  retry_build (lift_clock clk) policy
    (single (tapped ct) call_error_to_string url t [TraceContextGrpcEgressInterceptor source]).

Definition stack_breaker : GrpcBreakerClient (W := list Sent * V) :=
  grpc_breaker_client stack_retry breaker.

Notation StackNode := (BreakerNode (@BreakerState (list Sent * V) (lift_transition Tr))).

Definition stack : Client (StackNode * (list Sent * V)) :=
  context_client (context_from (breaker_client stack_breaker) identity).

(** What each of the calls the engine gets is. *)
Definition carries (path : string) (message : list byte) (budget : option Duration)
    (entries : list (string * string)) (binaries : list (string * list byte)) (s : Sent) : Prop :=
  sent_path s = path /\ sent_message s = message /\
  within budget (get_timeout (sent_options s)) /\
  text (get_metadata (sent_options s)) = entries ++ trace_entries source entries /\
  binary (get_metadata (sent_options s)) = binaries.

Context (Hsource : trace_valid source).

Lemma retry_sends path message options v :
  built (get_metadata options) ->
  let '(_, (l, _)) := call_raw (raw stack_retry) path message options ([], v) in
  N.of_nat (length l) <= max_attempts (fields policy) /\
  Forall (carries path message (get_timeout options) (text (get_metadata options))
            (binary (get_metadata options))) l.
Proof.
  intros Hm. pose proof (run_keeps (lift_clock clk) policy path (get_timeout options)
    (raw_attempt (grpc_retry_client (single (tapped ct) call_error_to_string url t
        [TraceContextGrpcEgressInterceptor source]) policy) path message options)
    (fun k '(l, _) => length l = k /\ Forall (carries path message (get_timeout options)
       (text (get_metadata options)) (binary (get_metadata options))) l)) as Hrun.
  assert (forall A (m : eff V A) k s, (let '(l, _) := s in length l = k /\ Forall (carries path message
      (get_timeout options) (text (get_metadata options)) (binary (get_metadata options))) l) ->
    let '(l, _) := (lift (F := list Sent) m s).2 in length l = k /\ Forall (carries path message
      (get_timeout options) (text (get_metadata options)) (binary (get_metadata options))) l) as Hlift.
  { intros A m k [l w] Hl. cbn. by destruct (m w). }
  destruct (Hrun (fun k => Hlift _ (now clk) k) (fun k d => Hlift _ (sleep clk d) k)
    (fun k => Hlift _ (from_clock clk) k)) with (v := ([] : list Sent, v)) as (k & Hk & Hend).
  - intros k time [l w] Htime [Hlen HF]. unfold raw_attempt. cbn [inner].
    destruct (traced_call_raw (tapped ct) call_error_to_string url t source Hsource path message
      (options_create time (get_metadata options)) (l, w)) as (o & (Ho1 & Ho2 & Ho3) & Eo).
    { by rewrite options_metadata. }
    rewrite options_timeout in Ho1. rewrite options_metadata in Ho2, Ho3.
    match goal with |- let '(_, _) := ?x in _ => replace x with (cr_call_raw (tapped ct) t path message o (l, w)).2
      by (symmetry; exact Eo) end.
    cbn. unfold bind, act, lift. destruct (cr_call_raw ct t path message o w) as [r w']. cbn.
    rewrite length_app, Hlen. split; [cbn; lia|]. apply Forall_app. split; [done|].
    repeat constructor; cbn; by rewrite ?Ho1.
  - by split.
  - cbn [stack_retry retry_build retry_client raw retry_raw call_raw]. unfold retry_call_raw. cbn [config].
    destruct (run_with_retry _ _ _ _ _ _) as [r [l w]]. destruct Hend as [Hlen HF].
    split; [rewrite Hlen; lia|done].
Qed.

(** What the state machine does is not the record's concern. *)
Lemma lifted_transition_record n c o l (v : V) :
  exists r v', transition_record (BreakerTransition := lift_transition (F := list Sent) Tr) n c o (l, v)
    = (r, (l, v')).
Proof. cbn. unfold lift. destruct (@transition_record V Tr n c o v) as [r v']. by exists r, v'. Qed.

(** C27: A raw call through the identity view over the breaker over the retry decorator over a built
    client with the trace context reaches the engine at most as often as the policy allows attempts,
    and not at all when the breaker does not admit it.  Every time the engine is given the path and
    the message of the call, a timeout within the call's own, the call's headers followed by the
    identity headers the call does not set and then the trace context, unless one of these is a
    trace parent already, and the call's binary headers: no header is added twice, however often
    the call is retried. *)
Theorem stack_sends path message options node v :
  built (get_metadata options) ->
  Forall (fun e => valid e.1 e.2 = true) (context_headers identity) ->
  let '(_, (_, (sents, _))) := call_raw (raw stack) path message options (node, ([], v)) in
  N.of_nat (length sents) <= max_attempts (fields policy) /\
  Forall (carries path message (get_timeout options)
            (text (get_metadata options) ++ missing (get_metadata options) (context_headers identity))
            (binary (get_metadata options))) sents /\
  (enabled breaker = true ->
   (forall n, (@transition_admit V Tr node (to_breaker_policy breaker) v).1 <> Ok (Proceed, n)) ->
   sents = []).
Proof.
  intros Hm Hv. destruct (view_options (breaker_client stack_breaker) identity path options Hm Hv)
    as (o & Eo & Ht & Hbuilt & Hx & Hb).
  unfold stack. rewrite (view_call_raw _ _ _ _ _ _ _ Eo). cbn [breaker_client raw breaker_raw call_raw].
  unfold breaker_call_raw. rewrite raw_guard, guard_run. cbn [config stack_breaker].
  assert (forall n l w, l = [] -> let '(_, (_, (sents, _))) := lift (F := StackNode)
            (call_raw (raw stack_retry) path message o) (n, (l, w)) in
    N.of_nat (length sents) <= max_attempts (fields policy) /\
    Forall (carries path message (get_timeout options)
      (text (get_metadata options) ++ missing (get_metadata options) (context_headers identity))
      (binary (get_metadata options))) sents) as Hretry.
  { intros n l w ->. pose proof (retry_sends path message o w Hbuilt) as Hr. rewrite Ht, Hx, Hb in Hr.
    unfold lift. by destruct (call_raw (raw stack_retry) path message o ([], w)) as [r [l w']]. }
  destruct (enabled breaker) eqn:Een.
  2:{ specialize (Hretry node [] v eq_refl). cbn [Breaker.inner stack_breaker].
      destruct (lift _ _) as [r [n [l w]]]. destruct Hretry. by split_and!. }
  unfold guarded, policy_of. cbn [config stack_breaker transition_admit lift_transition]. unfold lift at 1.
  destruct (@transition_admit V Tr node (to_breaker_policy breaker) v) as [[[[] n1]|e] v1] eqn:Ea.
  - specialize (Hretry n1 [] v1 eq_refl). cbn [Breaker.inner stack_breaker].
    destruct (lift _ _) as [r [n2 [l2 v2]]].
    destruct (lifted_transition_record n2 (to_breaker_policy breaker) (classify_result r) l2 v2)
      as ([n3|e] & v3 & ->); destruct Hretry; (split_and!; [done|done|]); intros _ Hno;
      exfalso; by apply (Hno n1).
  - split_and!; [cbn; lia|constructor|done].
  - split_and!; [cbn; lia|constructor|done].
Qed.
End stack.

(** ** An engine for the example: it takes a second and cannot reach its peer. *)
Module Example.
#[local] Existing Instance list_contract.

#[export] Instance options_laws : OptionsLaws.
Proof. by split. Defined.

#[export] Instance no_pools {W} : LoadbalancerSvc W := {|
  BackendPoolInstance := unit;
  BackendId := unit;
  Backend := unit;
  backend_id := id;
  backend_url _ := ""%string;
  LoadbalancerError := unit;
  loadbalancer_error_to_string _ := ""%string;
  build_pool _ := ret (Err tt);
  select _ := ret (Err tt);
  report_outcome _ _ _ := ret tt;
|}.

Definition unreachable {A} : eff N (Result A CallError) := fun now =>
  (Err (Transport_ "/s/M" Unavailable "refused"), now + from_secs 1).

Definition engine : ClientType N unit := {|
  ct_metadata := ListContract.md;
  ct_view := list_view;
  ct_call _ _ _ _ := unreachable;
  ct_call_server_stream _ _ _ _ := unreachable;
  ct_call_client_stream _ _ _ _ := unreachable;
  ct_call_bidi_stream _ _ _ _ := unreachable;
  cr_metadata := ListContract.md;
  cr_view := list_view;
  cr_call_raw _ _ _ _ := unreachable;
  cr_call_raw_server_stream _ _ _ _ := unreachable;
  cr_call_raw_client_stream _ _ _ _ := unreachable;
  cr_call_raw_bidi_stream _ _ _ _ := unreachable;
|}.

Definition source : TraceContextSource := Static "00-ab-cd-01" None.
Definition identity : CallerIdentity := {|
  trace_id := Some "trace-1"%string;
  tenant_id := None;
  bearer_token := None;
  identity_headers := [];
|}.
End Example.

#[local] Existing Instance list_contract.
#[local] Existing Instance RetrySpec.Example.backoff.
#[local] Existing Instance Example.options_laws.
#[local] Existing Instance Example.no_pools.

(** The example's call: its world is the time. *)
Definition example_sends (options : CallOptions) : list Sent :=
  (call_raw (raw (stack Example.engine (fun _ => "text"%string) "http://h" tt RetrySpec.Example.clock
      BreakerSpec.Example.transition RetryConfig.default BreakerConfig.default Example.source
      Example.identity))
    "/s/M" [x70] options (new_node, ([], 7))).2.2.1.

(** Every one of the five attempts carries the same headers. *)
Lemma stack_sends_witness :
  let sents := example_sends (Some (from_secs 60), ([("x-a", "1")], [])) in
  length sents = 5%nat /\
  Forall (carries Example.source "/s/M" [x70] (Some (from_secs 60))
            [("x-a", "1"); ("x-trace-id", "trace-1")] []) sents.
Proof.
  assert (trace_valid Example.source) as Hsource by (split; [reflexivity|discriminate]).
  intros sents. split; [vm_compute; reflexivity|].
  pose proof (stack_sends Example.engine (fun _ => "text"%string) "http://h" tt RetrySpec.Example.clock
    BreakerSpec.Example.transition RetryConfig.default BreakerConfig.default Example.source
    Example.identity Hsource "/s/M" [x70] (Some (from_secs 60), ([("x-a", "1")], []))
    new_node 7) as Hs.
  unfold sents, example_sends. destruct (call_raw _ _ _ _ _) as [r [n [l v]]].
  apply Hs; [cbn; split; by repeat constructor|by repeat constructor].
Defined.
