(* ===== verification/StackFuture.v ===== *)
(** * The whole stack as futures

    The identity view as futures ([context_transport.rs]), and with it every layer of [Stack]: a call
    through the cancellation view, the identity view, the breaker, the retry decorator, the chain and
    the endpoint is one future, which ends, if those of the engine, the lock and the timers do, with
    what the operations of those layers say ([stack_futures_alone]). *)

From S2P Require Import Prelude Text Contract Metadata Interceptors Intercepted Identity Channel Endpoint EgressBuilder Cancellation AsyncClient Futures RetryConfig RetryClassifier Retry RetrySpec RetryFuture BreakerConfig Breaker BreakerSpec BreakerFuture.
From Stdlib Require Import NArith Lia Strings.Byte.
From stdpp Require Import base tactics strings option list.

Open Scope N_scope.

(** ** The identity view *)

Section context.
Context `{Contract} {W : Type}.

(** A call with the headers of the view added; where they cannot be, it ends at once. *)
Definition headed {R} (self : ContextTransport (W := W)) (path : string) (options : CallOptions)
    (call : CallOptions -> Future W (Result R CallError)) : Future W (Result R CallError) :=
  match add_headers self path options with
  | Ok options => call options
  | Err e => ready (Err e)
  end.

(** Of [self] its headers are used; the client it wraps is [inner], as futures. *)
Definition context_async (self : ContextTransport (W := W)) (inner : AsyncClient W) : AsyncClient W := async_client
  {| at_metadata := at_metadata (a_typed inner);
     at_call M message options :=
       headed self (PATH M) options (fun options => at_call (a_typed inner) M message options);
     at_call_server_stream M message options :=
       headed self (PATH M) options (fun options => at_call_server_stream (a_typed inner) M message options);
     at_call_client_stream M requests options :=
       headed self (PATH M) options (fun options => at_call_client_stream (a_typed inner) M requests options);
     at_call_bidi_stream M requests options :=
       headed self (PATH M) options (fun options => at_call_bidi_stream (a_typed inner) M requests options) |}
  {| ar_metadata := ar_metadata (a_raw inner);
     ar_call_raw path message options :=
       headed self path options (fun options => ar_call_raw (a_raw inner) path message options);
     ar_call_raw_server_stream path message options :=
       headed self path options (fun options => ar_call_raw_server_stream (a_raw inner) path message options);
     ar_call_raw_client_stream path requests options :=
       headed self path options (fun options => ar_call_raw_client_stream (a_raw inner) path requests options);
     ar_call_raw_bidi_stream path requests options :=
       headed self path options (fun options => ar_call_raw_bidi_stream (a_raw inner) path requests options) |}.

Lemma headed_alone {R R'} (rel : Result R CallError -> Result R' CallError -> Prop) self path options call m :
  (forall options, alone rel (call options) (m options)) -> (forall e, rel (Err e) (Err e)) ->
  alone rel (headed self path options call) (let!? options := ret (add_headers self path options) in m options).
Proof.
  intros Hcall He. unfold headed. destruct (add_headers self path options) as [options'|e].
  - exact (Hcall options').
  - by apply (ready_alone rel).
Qed.

Lemma context_alone (a : AsyncClient W) (c : Client W) (identity : CallerIdentity) :
  client_alone a c ->
  client_alone (context_async (context_from c identity) a) (context_client (context_from c identity)).
Proof.
  destruct a as [a ar], c as [t r]. intros [Ht Hr]. cbn in Ht, Hr. split.
  - destruct Ht as [T view f1 f2 f3 f4 m1 m2 m3 m4 H1 H2 H3 H4].
    constructor; intros; apply headed_alone; intros; (done || constructor || auto).
  - destruct Hr as [T view f1 f2 f3 f4 m1 m2 m3 m4 H1 H2 H3 H4].
    constructor; intros; apply headed_alone; intros; (done || constructor || auto).
Qed.
End context.

(** ** The cancellation view, while its signal does not fire *)

Section unfired.
Context `{Contract} {W : Type} (fired : W -> bool) (unfired : forall w, fired w = false).

Lemma select_unfired {S R} path (poll : S -> eff W (option (Result R CallError) * S)) n s w :
  drive (select_poll fired path poll) id n s w = drive poll id n s w.
Proof.
  revert s w. induction n as [|n IH]; intros s w; [done|]. cbn [drive]. unfold select_poll at 1.
  rewrite unfired. by destruct (poll s w) as [[[r|] s'] w'].
Qed.

Lemma race_alone {R R'} (rel : Result R CallError -> Result R' CallError -> Prop) path call m :
  alone rel call m -> alone rel (race fired path call) m.
Proof.
  intros Hc w. destruct (Hc w) as (n & r & s & w1 & Ed & ?). exists n, r, s, w1.
  cbn [f_poll f_start race]. by rewrite select_unfired.
Qed.

Lemma unfired_read_alone {S R} path (read : Borrowing W S (Result R CallError)) m :
  read_alone read m -> read_alone (cancellable_read fired path read) m.
Proof.
  intros Hm s w. destruct (Hm s w) as (n & b & w1 & Ed & ?). exists n, b, w1.
  cbn [b_poll b_start cancellable_read]. by rewrite select_unfired.
Qed.

Lemma race_stream_alone {T M} path (call : Future W (Result (AsyncStream W T M) CallError)) m :
  alone same_stream call m -> alone same_stream (race_stream fired path call) m.
Proof.
  intros Hc. eapply (alone_ext same_stream _ (let! r := m in ret (id r))).
  { intros w. unfold bind, ret. by destruct (m w). }
  apply (map_alone same_stream same_stream); [|by apply race_alone].
  destruct 1 as [a ops []|e]; [|constructor].
  apply (same_opened (CancellableResponseStream fired path a) ops).
  split; [by apply unfired_read_alone|done|by apply unfired_read_alone|done].
Qed.

Lemma cancellable_alone (a : AsyncClient W) (c : Client W) :
  client_alone a c -> client_alone (cancellation_build a fired) c.
Proof.
  destruct a as [a ar], c as [t r]. intros [Ht Hr]. cbn in Ht, Hr. split.
  - destruct Ht as [T view f1 f2 f3 f4 m1 m2 m3 m4 H1 H2 H3 H4].
    constructor; intros; first [by apply race_alone|by apply race_stream_alone].
  - destruct Hr as [T view f1 f2 f3 f4 m1 m2 m3 m4 H1 H2 H3 H4].
    constructor; intros; first [by apply race_alone|by apply race_stream_alone].
Qed.
End unfired.

(** ** The stack *)

Section stack.
Context `{Contract} `{Backoff} {RC : RetryClassifier} {W T : Type}.
Context `{!LoadbalancerSvc W} `{!BreakerTransition W}.
Context (ct : ClientType W T) (call_error_to_string : CallError -> string) {HF : EngineFutures W T ct}.
Context (parts : EndpointTransport W T * StdGrpcEgressInterceptorChain (W := W)).
Context (clk : Clock W) (sleeping : Duration -> Future W unit) (lock : Future W unit).
Context (retrying : GrpcRetryConfig) (breaking : GrpcBreakerConfig) (identity : CallerIdentity).

(** The layers over a built client, as operations and as futures. *)
Definition stack_ops : Client (BreakerNode BreakerState * W) :=
  context_client (context_from (breaker_client (grpc_breaker_client
    (retry_client clk (grpc_retry_client (client_of ct call_error_to_string parts) retrying)) breaking)) identity).

Definition stack_async (fired : BreakerNode BreakerState * W -> bool) : AsyncClient (BreakerNode BreakerState * W) :=
  cancellation_build
    (context_async
       (context_from (breaker_client (grpc_breaker_client
          (retry_client clk (grpc_retry_client (client_of ct call_error_to_string parts) retrying)) breaking)) identity)
       (breaker_async lock (retry_async clk sleeping (built_client ct call_error_to_string parts) retrying) breaking))
    fired.

(** C7: A call through the whole stack ends: where the futures of the engine, polled to their end without
    a break, do what its operations do, timers run out, and the breaker's lock is had in the end, each of the
    eight calls through the cancellation view, the identity view, the breaker, the retry decorator,
    the chain and the endpoint is ready after finitely many polls, with the result and the effects
    that the operations of these layers have together, as long as the signal does not fire. *)
Theorem stack_futures_alone (fired : BreakerNode BreakerState * W -> bool) :
  engine_alone ct HF -> (forall d, alone Logic.eq (sleeping d) (sleep clk d)) ->
  alone Logic.eq lock (ret tt) -> (forall s, fired s = false) ->
  client_alone (stack_async fired) stack_ops.
Proof.
  intros He Hs Hl Hf. apply cancellable_alone; [exact Hf|]. apply context_alone, breaker_alone; [exact Hl|].
  apply retry_alone; [exact Hs|]. by apply built_alone.
Qed.
End stack.

(** The stack over a client of two endpoints whose upstream is down for the first call, on a lock and
    timers that are ready at the second poll. *)
#[local] Existing Instance turn_lb.
#[local] Existing Instance list_contract.
#[local] Existing Instance second_futures.
#[local] Existing Instance RetrySpec.Example.backoff.
#[local] Existing Instance std_retry_classifier.

Notation Log := (nat * list (string * Lb.Outcome))%type.

Definition down_once : ClientType Log nat := {|
  ct_metadata := ListContract.md;
  ct_view := list_view;
  ct_call _ M _ _ := ret (Err (Transport_ (PATH M) Internal ""));
  ct_call_server_stream _ M _ _ := ret (Err (Transport_ (PATH M) Internal ""));
  ct_call_client_stream _ M _ _ := ret (Err (Transport_ (PATH M) Internal ""));
  ct_call_bidi_stream _ M _ _ := ret (Err (Transport_ (PATH M) Internal ""));
  cr_metadata := ListContract.md;
  cr_view := list_view;
  cr_call_raw _ path message options w :=
    (if existsb (fun l => String.eqb l.1 "call") w.2 then Ok (call_response message ([], []) ([], []))
     else Err (Status path Unavailable "down" [] ([], [])), note "call" w);
  cr_call_raw_server_stream _ path _ _ := ret (Err (Transport_ path Internal ""));
  cr_call_raw_client_stream _ path _ _ := ret (Err (Transport_ path Internal ""));
  cr_call_raw_bidi_stream _ path _ _ := ret (Err (Transport_ path Internal ""));
|}.

Definition noted_clock : Clock Log := {|
  now w := (N.of_nat (length w.2), w);
  sleep _ w := (tt, note "pause" w);
  from_clock := ret tt;
|}.

(** The state machine of [BreakerSpec], in a world whose time stands still; it notes what it is asked. *)
#[local] Instance noted_transition : BreakerTransition Log := {|
  BreakerState := BreakerSpec.Example.machine;
  Closed := BreakerSpec.Example.IsClosed;
  TransitionError := unit;
  transition_error_to_string _ := "unreachable"%string;
  transition_admit n c w := ((@transition_admit N BreakerSpec.Example.transition n c 0).1, note "admit" w);
  transition_record n c o w := ((@transition_record N BreakerSpec.Example.transition n c o 0).1, note "record" w);
|}.

Definition anyone : CallerIdentity :=
  {| trace_id := Some "t1"; tenant_id := None; bearer_token := None; identity_headers := [] |}.

Lemma stack_futures_alone_witness :
  let fired := fun _ : BreakerNode BreakerState * Log => false in
  let sleeping := fun d => second_poll (sleep noted_clock d) in
  let lock := second_poll (ret tt) in
  let layers := stack_async (RC := std_retry_classifier) down_once (fun _ => "text"%string) two_behind_one noted_clock
    sleeping lock RetryConfig.default BreakerConfig.default anyone fired in
  let call := ar_call_raw (a_raw layers) "/s/M"%string [x61] (options_create None metadata_default) in
  let out := drive (f_poll call) id 20 (f_start call) (breaker_node BreakerSpec.Example.IsClosed 4 0, (0%nat, [])) in
  client_alone layers
    (stack_ops (RC := std_retry_classifier) down_once (fun _ => "text"%string) two_behind_one noted_clock
       RetryConfig.default BreakerConfig.default anyone) /\
  is_ok <$> out.1 = Some true /\ out.2.2.1 = breaker_node BreakerSpec.Example.IsClosed 0 0 /\
  out.2.2.2.2.*1
  = ["admit"; "before:i"; "event:started:i"; "call"; "http://a"; "event:failed:i"; "pause";
     "before:i"; "event:started:i"; "call"; "http://b"; "after:i"; "event:completed:i"; "record"]%string.
Proof.
  intros fired sleeping lock layers call out. split; [|split; [|split]]; [|vm_compute; reflexivity..].
  apply stack_futures_alone; [apply second_alone|intros; apply second_poll_alone|apply second_poll_alone|reflexivity].
Defined.
