(* ===== verification/Resilience.v ===== *)
(** * Retry inside a circuit breaker

    [resilient-api/src/vo/resilience_config.rs] and [error/resilient_transport_error.rs],
    [resilient-spi/src/spi/config/std_resilience_config_provider.rs] and
    [saf/std_grpc_resilient_factory.rs]: one policy for both decorators, its projections, and the
    client that has the retry decorator inside the breaker. *)

From S2P Require Import Prelude Text Contract HealthMethod F64 RetryConfig RetryClassifier Retry RetrySpec BreakerConfig Breaker BreakerSpec.
From Stdlib Require Import NArith Lia.
From stdpp Require Import base tactics strings option.

Open Scope N_scope.

(** ** The policy *)

Record ResilienceConfig := resilience_config {
  max_attempts : N;
  initial_backoff_ms : N;
  backoff_multiplier : f64;
  jitter_factor : f64;
  max_backoff_ms : N;
  rate_limit_max_attempts : N;
  rate_limit_initial_backoff_ms : N;
  rate_limit_max_backoff_ms : N;
  breaker_enabled : bool;
  failure_threshold : N;
  cool_down_seconds : N;
  half_open_probe_count : N;
}.

(** [ResilienceConfigData] has the same fields; one the text leaves out is the default's, which is
    the work of [serde] and part of the parameter [toml_from_str] below. *)
Definition ResilienceConfigData : Type := ResilienceConfig.

(** [ResilientTransportError]. *)
Inductive ResilientTransportError :=
| InvalidResilience (text : string)
| BreakerFailed (error : BreakerError).

Definition default : ResilienceConfig := {|
  max_attempts := 5;
  initial_backoff_ms := 100;
  backoff_multiplier := f64_two;
  jitter_factor := f64_tenth;
  max_backoff_ms := 5000;
  rate_limit_max_attempts := 2;
  rate_limit_initial_backoff_ms := 1000;
  rate_limit_max_backoff_ms := 10000;
  breaker_enabled := true;
  failure_threshold := 5;
  cool_down_seconds := 30;
  half_open_probe_count := 1;
|}.

Definition section_name : string := "grpc_resilience".

Definition from_policies (retry : GrpcRetryConfig) (breaker : GrpcBreakerConfig) :
    ResilienceConfig := {|
  max_attempts := RetryConfig.max_attempts (fields retry);
  initial_backoff_ms := RetryConfig.initial_backoff_ms (fields retry);
  backoff_multiplier := RetryConfig.backoff_multiplier (fields retry);
  jitter_factor := RetryConfig.jitter_factor (fields retry);
  max_backoff_ms := RetryConfig.max_backoff_ms (fields retry);
  rate_limit_max_attempts := RetryConfig.rate_limit_max_attempts (fields retry);
  rate_limit_initial_backoff_ms := RetryConfig.rate_limit_initial_backoff_ms (fields retry);
  rate_limit_max_backoff_ms := RetryConfig.rate_limit_max_backoff_ms (fields retry);
  breaker_enabled := enabled breaker;
  failure_threshold := BreakerConfig.failure_threshold breaker;
  cool_down_seconds := BreakerConfig.cool_down_seconds breaker;
  half_open_probe_count := BreakerConfig.half_open_probe_count breaker;
|}.

(** [BuildGrpcRetryConfigRequest] of a policy, as [try_from] and [to_retry_config] fill it. *)
Definition retry_request (v : ResilienceConfig) : RetryFields := {|
  RetryConfig.max_attempts := max_attempts v;
  RetryConfig.initial_backoff_ms := initial_backoff_ms v;
  RetryConfig.backoff_multiplier := backoff_multiplier v;
  RetryConfig.jitter_factor := jitter_factor v;
  RetryConfig.max_backoff_ms := max_backoff_ms v;
  RetryConfig.rate_limit_max_attempts := rate_limit_max_attempts v;
  RetryConfig.rate_limit_initial_backoff_ms := rate_limit_initial_backoff_ms v;
  RetryConfig.rate_limit_max_backoff_ms := rate_limit_max_backoff_ms v;
|}.

(** The texts of the two crates' errors, and [{:.4}] of a double. *)
Class Display := {
  retry_error_to_string : RetryError -> string;
  breaker_error_to_string : BreakerError -> string;
  resilient_error_to_string : ResilientTransportError -> string;
  fixed4 : f64 -> string;
}.

Section provider.
Context `{Display}.

(** [TryFrom<ResilienceConfigData>]. *)
Definition try_from (v : ResilienceConfigData) : Result ResilienceConfig ResilientTransportError :=
  let? retry :=
    map_err (fun e => InvalidResilience (retry_error_to_string e))
      (RetryConfig.try_new (retry_request v)) in
  let? breaker :=
    map_err (fun e => InvalidResilience (breaker_error_to_string e))
      (BreakerConfig.try_new (breaker_enabled v) (failure_threshold v) (cool_down_seconds v)
         (half_open_probe_count v)) in
  Ok (from_policies retry breaker).

(** ** The provider *)

Definition validate (config : ResilienceConfig) : Result unit ResilientTransportError :=
  if max_attempts config =? 0 then Err (InvalidResilience "max_attempts must be >= 1")
  else if rate_limit_max_attempts config =? 0
  then Err (InvalidResilience "rate_limit_max_attempts must be >= 1")
  else if f64_lt (jitter_factor config) f64_zero || f64_lt f64_one (jitter_factor config)
  then Err (InvalidResilience
              ("jitter_factor must be in [0.0, 1.0], got " +:+ fixed4 (jitter_factor config)))
  else if half_open_probe_count config =? 0
  then Err (InvalidResilience "half_open_probe_count must be >= 1")
  else if rate_limit_max_backoff_ms config <? rate_limit_initial_backoff_ms config
  then Err (InvalidResilience
              ("rate_limit_max_backoff_ms (" +:+ decimal (rate_limit_max_backoff_ms config)
               +:+ ") must be >= rate_limit_initial_backoff_ms ("
               +:+ decimal (rate_limit_initial_backoff_ms config) +:+ ")"))
  else Ok tt.

Definition parse_config (toml_from_str : string -> Result ResilienceConfigData string)
    (text : string) : Result ResilienceConfig ResilientTransportError :=
  let? cfg := map_err (fun e => InvalidResilience ("parse failed: " +:+ e))
    (let? data := toml_from_str text in map_err resilient_error_to_string (try_from data)) in
  let? _ := validate cfg in
  Ok cfg.

Definition to_retry_config (config : ResilienceConfig) :
    Result GrpcRetryConfig ResilientTransportError :=
  map_err (fun e => InvalidResilience (retry_error_to_string e))
    (RetryConfig.try_new (retry_request config)).

Definition to_breaker_config (config : ResilienceConfig) :
    Result GrpcBreakerConfig ResilientTransportError :=
  map_err (fun e => InvalidResilience (breaker_error_to_string e))
    (BreakerConfig.try_new (breaker_enabled config) (failure_threshold config)
       (cool_down_seconds config) (half_open_probe_count config)).

(** ** The factory *)

Context `{Contract} `{Backoff} {W : Type} `{!BreakerTransition W} (clk : Clock W).

Definition resilient_build (config : ResilienceConfig) (inner : Client W) :
    Result (Client (Node * W) * Node) ResilientTransportError :=
  let? _ := validate config in
  let? retry := to_retry_config config in
  let with_retry := retry_build clk retry inner in
  let? breaker := to_breaker_config config in
  map_err BreakerFailed (breaker_build breaker with_retry).
End provider.

(** ** Lemmas *)

Lemma retry_request_from_policies retry breaker :
  retry_request (from_policies retry breaker) = fields retry.
Proof. by destruct retry as [[]]. Qed.

Lemma unit_interval_bounds x :
  in_unit_interval x = true -> f64_lt x f64_zero || f64_lt f64_one x = false.
Proof.
  unfold in_unit_interval. intros [H0 H1]%andb_prop.
  by rewrite (f64_le_not_lt _ _ H0), (f64_le_not_lt _ _ H1).
Qed.

Lemma validate_from_policies `{Display} retry breaker :
  RetryConfig.well_formed (fields retry) -> BreakerConfig.well_formed breaker ->
  validate (from_policies retry breaker) = Ok tt.
Proof.
  intros [? ? ? ? Hj ? ?] [? ?]. unfold validate. cbn [from_policies max_attempts
    rate_limit_max_attempts jitter_factor half_open_probe_count rate_limit_max_backoff_ms
    rate_limit_initial_backoff_ms].
  rewrite (proj2 (N.eqb_neq _ _)) by lia. rewrite (proj2 (N.eqb_neq _ _)) by lia.
  rewrite unit_interval_bounds by done. rewrite (proj2 (N.eqb_neq _ _)) by lia.
  by rewrite (proj2 (N.ltb_ge _ _)) by done.
Qed.

Lemma to_retry_from_policies `{Display} retry breaker :
  RetryConfig.well_formed (fields retry) ->
  to_retry_config (from_policies retry breaker) = Ok retry.
Proof.
  intros Hr. unfold to_retry_config. rewrite retry_request_from_policies.
  rewrite (proj2 (RetryConfig.retry_try_new_ok (fields retry) retry)); [done|].
  by destruct retry.
Qed.

Lemma to_breaker_from_policies `{Display} retry breaker :
  BreakerConfig.well_formed breaker ->
  to_breaker_config (from_policies retry breaker) = Ok breaker.
Proof.
  intros [? ?]. unfold to_breaker_config. cbn.
  rewrite (proj2 (BreakerConfig.breaker_try_new_ok _ _ _ _ breaker)); [done|]. by destruct breaker.
Qed.

Lemma breaker_build_ok `{Contract} {W} `{!BreakerTransition W} breaker (inner : Client W) :
  BreakerConfig.well_formed breaker ->
  breaker_build breaker inner
  = Ok (breaker_client (grpc_breaker_client inner breaker), new_node).
Proof.
  intros Hb. unfold breaker_build. by rewrite (proj2 (BreakerConfig.breaker_validate_well_formed _)).
Qed.

Lemma resilient_build_ok `{Display} `{Contract} `{Backoff} {W} `{!BreakerTransition W}
    (clk : Clock W) retry breaker (inner : Client W) :
  RetryConfig.well_formed (fields retry) -> BreakerConfig.well_formed breaker ->
  resilient_build clk (from_policies retry breaker) inner
  = Ok (breaker_client (grpc_breaker_client (retry_build clk retry inner) breaker), new_node).
Proof.
  intros Hr Hb. unfold resilient_build.
  rewrite validate_from_policies, to_retry_from_policies, to_breaker_from_policies by done.
  cbn [rbind]. by rewrite breaker_build_ok.
Qed.

(** ** Properties *)

(** A resilience policy loses nothing of the two policies it is made of: it passes validation and
    projects back to both. Converting deserialized data succeeds exactly when both parts are well
    formed, and then keeps every value. *)
Theorem resilience_projections `{Display} (data : ResilienceConfigData) :
  (forall retry breaker,
     RetryConfig.well_formed (fields retry) -> BreakerConfig.well_formed breaker ->
     validate (from_policies retry breaker) = Ok tt /\
     to_retry_config (from_policies retry breaker) = Ok retry /\
     to_breaker_config (from_policies retry breaker) = Ok breaker) /\
  (forall c, try_from data = Ok c <->
     c = data /\ RetryConfig.well_formed (retry_request data) /\
     1 <= failure_threshold data /\ 1 <= half_open_probe_count data).
Proof.
  split.
  - intros retry breaker Hr Hb. split_and!;
      [by apply validate_from_policies|by apply to_retry_from_policies
      |by apply to_breaker_from_policies].
  - intros c. unfold try_from.
    destruct (RetryConfig.try_new (retry_request data)) as [r|e] eqn:Er; cbn [map_err rbind].
    + apply RetryConfig.retry_try_new_ok in Er as [Hr ->].
      destruct (BreakerConfig.try_new _ _ _ _) as [b|e] eqn:Eb; cbn [map_err rbind].
      * apply BreakerConfig.breaker_try_new_ok in Eb as (? & ? & ->). destruct data. cbn in *.
        unfold from_policies. cbn. naive_solver.
      * split; [done|]. intros (-> & _ & Hf & Hp).
        pose proof (proj2 (BreakerConfig.breaker_try_new_ok (breaker_enabled data) _ (cool_down_seconds data)
          _ _) (conj Hf (conj Hp eq_refl))) as E. congruence.
    + split; [done|]. intros (-> & Hr & _).
      by rewrite (proj2 (RetryConfig.retry_try_new_ok _ _) (conj Hr eq_refl)) in Er.
Qed.

#[local] Instance no_display : Display := {|
  retry_error_to_string _ := "retry"%string;
  breaker_error_to_string _ := "breaker"%string;
  resilient_error_to_string _ := "resilient"%string;
  fixed4 _ := ""%string;
|}.

Lemma resilience_projections_witness :
  validate (from_policies RetryConfig.default BreakerConfig.default) = Ok tt /\
  to_retry_config (from_policies RetryConfig.default BreakerConfig.default)
  = Ok RetryConfig.default /\
  to_breaker_config (from_policies RetryConfig.default BreakerConfig.default)
  = Ok BreakerConfig.default.
Proof.
  apply (resilience_projections default);
    [apply RetryConfig.retry_default_well_formed|apply BreakerConfig.breaker_default_well_formed].
Defined.

(** C16: The resilient client of well-formed policies always builds, and puts the retries inside the
    breaker: a typed unary call is one guarded call whose body is the whole retried call, so the
    circuit admits and records once per call, whatever the number of attempts, and a refused call
    makes none. *)
Theorem resilient_call `{Display} `{Contract} `{Backoff} {W} `{!BreakerTransition W}
    (clk : Clock W) retry breaker (inner : Client W) (M : Method) (m : Request M) options node w :
  RetryConfig.well_formed (fields retry) -> BreakerConfig.well_formed breaker ->
  let self := grpc_breaker_client (retry_build clk retry inner) breaker in
  resilient_build clk (from_policies retry breaker) inner = Ok (breaker_client self, new_node) /\
  call (typed (breaker_client self)) M m options (node, w)
  = let retried := lift (retry_call clk (grpc_retry_client inner retry) M m options) in
    if enabled breaker then guarded self (PATH M) retried node w else retried (node, w).
Proof.
  intros Hr Hb self. split; [by apply resilient_build_ok|].
  exact (guard_run self (PATH M) (lift (retry_call clk (grpc_retry_client inner retry) M m options))
           node w).
Qed.

#[local] Existing Instance BreakerSpec.Example.transition.
#[local] Existing Instance RetrySpec.Example.backoff.

Lemma resilient_call_witness :
  let self := grpc_breaker_client
    (retry_build RetrySpec.Example.clock RetryConfig.default BreakerSpec.Example.no_client)
    BreakerConfig.default in
  resilient_build RetrySpec.Example.clock (from_policies RetryConfig.default BreakerConfig.default)
    BreakerSpec.Example.no_client = Ok (breaker_client self, new_node) /\
  call (typed (breaker_client self)) HealthMethod.HealthCheck "pkg.Svc"%string (None, ([], []))
    (new_node, 0)
  = guarded self "/grpc.health.v1.Health/Check"
      (lift (retry_call RetrySpec.Example.clock
               (grpc_retry_client BreakerSpec.Example.no_client RetryConfig.default)
               HealthMethod.HealthCheck "pkg.Svc"%string (None, ([], [])))) new_node 0.
Proof.
  exact (resilient_call RetrySpec.Example.clock RetryConfig.default BreakerConfig.default
    BreakerSpec.Example.no_client HealthMethod.HealthCheck "pkg.Svc"%string (None, ([], []))
    new_node 0 RetryConfig.retry_default_well_formed BreakerConfig.breaker_default_well_formed).
Defined.
