(* ===== verification/Providers.v ===== *)
(** * The readers of policies, and their factories

    The traits of the api crates a caller reads configurations through ([retry-api/src/traits/],
    [breaker-api/src/traits/], [resilient-api/src/traits/], [transport-api/src/loadbalancer/traits/],
    [transport-api/src/channel/traits/], [auth-bearer-api/src/traits/]) as records of operations,
    what a reader of policies promises as a class ([ReaderLaws]), and the factories that hand out the
    standard implementations.  A policy that was read builds its client ([read_policies_build]). *)

From S2P Require Import Prelude Text Contract F64 Bearer Channel RetryConfig RetryClassifier Retry RetrySpec BreakerConfig Breaker BreakerSpec Resilience.
From Stdlib Require Import NArith Lia Strings.Byte.
From stdpp Require Import base tactics strings option list.

Open Scope N_scope.

(** ** The traits *)

(** [GrpcRetryConfigProvider]. *)
Record GrpcRetryConfigProvider := {
  retry_parse_config : string -> Result GrpcRetryConfig RetryError;
  retry_initial_backoff : GrpcRetryConfig -> Duration;
  retry_max_backoff : GrpcRetryConfig -> Duration;
  retry_rate_limit_initial_backoff : GrpcRetryConfig -> Duration;
  retry_rate_limit_max_backoff : GrpcRetryConfig -> Duration;
  retry_validate : GrpcRetryConfig -> Result unit RetryError;
}.

(** [GrpcBreakerConfigProvider]. *)
Record GrpcBreakerConfigProvider := {
  breaker_parse_config : string -> Result GrpcBreakerConfig BreakerError;
  breaker_cool_down : GrpcBreakerConfig -> Duration;
  breaker_validate : GrpcBreakerConfig -> Result unit BreakerError;
}.

(** [ResilienceConfigProvider]. *)
Record ResilienceConfigProvider := {
  resilience_parse_config : string -> Result ResilienceConfig ResilientTransportError;
  resilience_validate : ResilienceConfig -> Result unit ResilientTransportError;
  resilience_to_retry_config : ResilienceConfig -> Result GrpcRetryConfig ResilientTransportError;
  resilience_to_breaker_config : ResilienceConfig -> Result GrpcBreakerConfig ResilientTransportError;
}.

(** [LoadbalancerSettingsProvider]. *)
Record LoadbalancerSettingsProvider := {
  loadbalancer_parse : string -> Result Loadbalancer.LoadbalancerSettings GrpcChannelConfigError;
}.

(** [TlsSettingsResolver]; [ResolveTlsSettingsRequest] is its two fields. *)
Record TlsSettingsResolver `{TransportOptions} (W : Type) := {
  resolve_settings : option Mtls.MtlsConfig -> option string ->
    eff W (Result TlsSettings GrpcChannelConfigError);
}.

(** [BearerSecretGuard]. *)
Record BearerSecretGuard := {
  guard_ct_eq_hs256 : BearerSecret -> BearerSecret -> bool;
}.

(** ** The standard implementations and the factories *)

Section factories.
Context (retry_toml : string -> Result RetryFields string) (retry_custom : RetryError -> string).
Context (breaker_toml : string -> Result GrpcBreakerConfigData string) (breaker_custom : BreakerError -> string).
Context `{Display} (resilience_toml : string -> Result ResilienceConfigData string).
Context (loadbalancer_toml : string -> Result (BalancingStrategy * list (string * N)) string).
Context (loadbalancer_custom : string -> string).
Context `{TransportOptions} {W : Type} (fs_read : string -> eff W (Result (list byte) string)).

Definition StdGrpcRetryConfigProvider : GrpcRetryConfigProvider := {|
  retry_parse_config := RetryConfig.Provider.parse_config retry_toml retry_custom;
  retry_initial_backoff := RetryConfig.Provider.initial_backoff;
  retry_max_backoff := RetryConfig.Provider.max_backoff;
  retry_rate_limit_initial_backoff := RetryConfig.Provider.rate_limit_initial_backoff;
  retry_rate_limit_max_backoff := RetryConfig.Provider.rate_limit_max_backoff;
  retry_validate := RetryConfig.Provider.validate;
|}.

Definition StdGrpcBreakerConfigProvider : GrpcBreakerConfigProvider := {|
  breaker_parse_config := BreakerConfig.Provider.parse_config breaker_toml breaker_custom;
  breaker_cool_down := BreakerConfig.Provider.cool_down;
  breaker_validate := BreakerConfig.Provider.validate;
|}.

Definition StdResilienceConfigProvider : ResilienceConfigProvider := {|
  resilience_parse_config := Resilience.parse_config resilience_toml;
  resilience_validate := Resilience.validate;
  resilience_to_retry_config := to_retry_config;
  resilience_to_breaker_config := to_breaker_config;
|}.

Definition StdLoadbalancerSettingsProvider : LoadbalancerSettingsProvider := {|
  loadbalancer_parse := Loadbalancer.parse_config loadbalancer_toml loadbalancer_custom;
|}.

Definition StdTlsSettingsResolver : TlsSettingsResolver W := {|
  resolve_settings := Tls.resolve fs_read;
|}.

Definition StdBearerSecretGuard : BearerSecretGuard := {| guard_ct_eq_hs256 := ct_eq_hs256 |}.

(** The [build] of each factory. *)
Definition retry_config_provider_build : GrpcRetryConfigProvider := StdGrpcRetryConfigProvider.
Definition breaker_config_provider_build : GrpcBreakerConfigProvider := StdGrpcBreakerConfigProvider.
Definition resilience_config_provider_build : ResilienceConfigProvider := StdResilienceConfigProvider.
Definition loadbalancer_settings_provider_build : LoadbalancerSettingsProvider := StdLoadbalancerSettingsProvider.
Definition tls_settings_resolver_build : TlsSettingsResolver W := StdTlsSettingsResolver.
Definition bearer_secret_guard_build : BearerSecretGuard := StdBearerSecretGuard.
Definition retry_classifier_build `{Contract} : RetryClassifier := std_retry_classifier.
End factories.

(** ** What a reader promises *)

(** A policy that is read is one that is valid. *)
Class ReaderLaws {C E} (parse : string -> Result C E) (validate : C -> Result unit E) : Prop :=
  read_is_valid : forall text c, parse text = Ok c -> validate c = Ok tt.

(** A reader whose last step is its own validation. *)
Lemma validated {C E} (read : Result C E) (validate : C -> Result unit E) c :
  (let? d := read in let? _ := validate d in Ok d) = Ok c -> validate c = Ok tt.
Proof.
  destruct read as [d|e]; [|done]. cbn. destruct (validate d) as [[]|e] eqn:Ev; [|done].
  by intros [= <-].
Qed.

#[export] Instance retry_reader toml custom :
  ReaderLaws (retry_parse_config (StdGrpcRetryConfigProvider toml custom))
    (retry_validate (StdGrpcRetryConfigProvider toml custom)).
Proof. intros text c. exact (validated _ _ c). Qed.

#[export] Instance breaker_reader toml custom :
  ReaderLaws (breaker_parse_config (StdGrpcBreakerConfigProvider toml custom))
    (breaker_validate (StdGrpcBreakerConfigProvider toml custom)).
Proof. intros text c. exact (validated _ _ c). Qed.

#[export] Instance resilience_reader `{Display} toml :
  ReaderLaws (resilience_parse_config (StdResilienceConfigProvider toml))
    (resilience_validate (StdResilienceConfigProvider toml)).
Proof. intros text c. exact (validated _ _ c). Qed.

(** ** From a text to a client *)

(** A resilience policy that is read is made of two policies that are well formed. *)
Lemma read_resilience `{Display} toml text c :
  resilience_parse_config (StdResilienceConfigProvider toml) text = Ok c ->
  exists retry breaker,
    RetryConfig.well_formed (fields retry) /\ BreakerConfig.well_formed breaker /\
    c = from_policies retry breaker.
Proof.
  cbn. unfold Resilience.parse_config. destruct (toml text) as [data|e]; [|done]. cbn [rbind].
  destruct (try_from data) as [c'|e] eqn:E; [|done]. cbn [rbind map_err].
  destruct (Resilience.validate c'); [|done]. cbn [rbind]. intros [= <-]. revert E. unfold try_from.
  destruct (RetryConfig.try_new _) as [retry|e] eqn:Er; [|done]. cbn [rbind map_err].
  destruct (BreakerConfig.try_new _ _ _ _) as [breaker|e] eqn:Eb; [|done]. cbn [rbind map_err].
  intros [= <-]. apply RetryConfig.retry_try_new_ok in Er as [Hr ->].
  apply BreakerConfig.breaker_try_new_ok in Eb as (? & ? & ->). eexists (RetryConfig.retry_config _), _.
  split; [exact Hr|]. split; [|reflexivity]. by split.
Qed.

(** C17: Whatever text a policy was read from, the factories build a client with it: the breaker's wraps
    the client, with a closed circuit, and the resilient one has the retry decorator inside the
    breaker, on the two policies the provider projects to. *)
Theorem read_policies_build `{Display} `{Contract} `{Backoff} {W} `{!BreakerTransition W} (clk : Clock W)
    breaker_toml breaker_custom resilience_toml text (inner : Client W) :
  (forall c,
     breaker_parse_config (breaker_config_provider_build breaker_toml breaker_custom) text = Ok c ->
     breaker_build c inner = Ok (breaker_client (grpc_breaker_client inner c), new_node)) /\
  (forall c (provider := resilience_config_provider_build resilience_toml),
     resilience_parse_config provider text = Ok c ->
     exists retry breaker,
       resilience_to_retry_config provider c = Ok retry /\
       resilience_to_breaker_config provider c = Ok breaker /\
       resilient_build clk c inner
       = Ok (breaker_client (grpc_breaker_client (retry_build clk retry inner) breaker), new_node)).
Proof.
  split.
  - intros c Hc%read_is_valid. by apply breaker_build_ok, BreakerConfig.breaker_validate_well_formed.
  - intros c provider (retry & breaker & Hr & Hb & ->)%read_resilience. exists retry, breaker.
    split_and!; [by apply to_retry_from_policies|by apply to_breaker_from_policies|by apply resilient_build_ok].
Qed.

#[local] Existing Instance list_contract.
#[local] Existing Instance BreakerSpec.Example.transition.
#[local] Existing Instance RetrySpec.Example.backoff.
#[local] Existing Instance std_retry_classifier.
#[local] Existing Instance no_display.

(** A reader of texts that all say the defaults. *)
Lemma read_policies_build_witness :
  let defaults := from_policies RetryConfig.default BreakerConfig.default in
  let provider := resilience_config_provider_build (fun _ => Ok defaults) in
  resilience_parse_config provider "" = Ok defaults /\
  exists retry breaker,
    resilience_to_retry_config provider defaults = Ok retry /\
    resilience_to_breaker_config provider defaults = Ok breaker /\
    resilient_build RetrySpec.Example.clock defaults BreakerSpec.Example.no_client
    = Ok (breaker_client (grpc_breaker_client
            (retry_build RetrySpec.Example.clock retry BreakerSpec.Example.no_client) breaker), new_node).
Proof.
  intros defaults provider. assert (resilience_parse_config provider "" = Ok defaults) as Hp by (vm_compute; reflexivity).
  split; [exact Hp|].
  exact (proj2 (read_policies_build RetrySpec.Example.clock (fun _ => Err ""%string) (fun _ => ""%string)
    (fun _ => Ok defaults) "" BreakerSpec.Example.no_client) defaults Hp).
Defined.
