(* ===== verification/Fixtures.v ===== *)
(** * What a test sets up

    [test-support/src/setup/]: the path and the request of a raw call, a client built from a
    configuration, and a second implementation of the call an interceptor sees, which is shown to be
    the same as the library's own; and the errors an example's [main] hands on.

    A method path is the text it was made from; what makes a text one is the contract crate's
    (class [MethodPaths]). *)

From S2P Require Import Prelude Text Contract Metadata Interceptors Channel Endpoint EgressBuilder RetryConfig BreakerConfig Resilience.
From Stdlib Require Import NArith Lia Strings.Byte.
From stdpp Require Import base tactics strings option list.

(** ** Paths, requests and clients *)

Class MethodPaths := {
  PathError : Type;
  method_path_create : string -> Result string PathError;
}.

(** [trim_start_matches('/')]. *)
Fixpoint trim_slashes (s : string) : string :=
  match s with
  | String c s' => if (code c =? 47)%N then trim_slashes s' else s
  | EmptyString => EmptyString
  end.

Module CallFixture.
Section fixture.
Context `{Contract} `{MethodPaths}.

(** [None] is the panic of a path that is not one. *)
Definition path (method : string) : option string :=
  ok_option (method_path_create ("/" +:+ trim_slashes method)).

(** A request is the message and the options it is made of. *)
Definition request_with (body : list byte) (timeout : Duration) (metadata : Metadata) :
    list byte * CallOptions :=
  (body, options_create (Some timeout) metadata).

Definition request (body : list byte) (timeout : Duration) : list byte * CallOptions :=
  request_with body timeout metadata_default.
End fixture.
End CallFixture.

(** [ClientFixture::from_config]. *)
Definition from_config `{Contract} `{TransportOptions} {W T} `{!Engine W T} `{!LoadbalancerSvc W}
    (ct : ClientType W T) (fs_read : string -> eff W (Result (list byte) string))
    (call_error_to_string : CallError -> string) (config : GrpcChannelConfig) :
    may_panic W (Client W) GrpcChannelConfigError :=
  build ct fs_read call_error_to_string
    (with_option (builder_from (ChannelConfig.endpoint config)) (WithChannelConfig config)).

(** ** Errors *)

(** [Box<dyn Error>], by where the error came from. *)
Inductive BoxError `{Contract} `{MethodPaths} :=
| FromCall (e : CallError)
| FromPath (e : PathError)
| FromChannel (e : GrpcChannelConfigError)
| FromRetry (e : RetryError)
| FromBreaker (e : BreakerError)
| FromResilient (e : ResilientTransportError)
| FromText (text : string).

(** ** A call that has not been sent *)

Record OutboundCallFixture `{Contract} := call_fixture {
  fixture_path : string;
  fixture_timeout : option Duration;
  fixture_metadata : Metadata;
}.
Arguments call_fixture {_}.

Section fixture.
Context `{Contract}.
Implicit Types (self : OutboundCallFixture).

Definition fixture_create (path : string) : OutboundCallFixture :=
  call_fixture path None metadata_default.
Definition fixture_with_timeout self (timeout : option Duration) : OutboundCallFixture :=
  call_fixture (fixture_path self) timeout (fixture_metadata self).
Definition fixture_with_metadata self (metadata : Metadata) : OutboundCallFixture :=
  call_fixture (fixture_path self) (fixture_timeout self) metadata.

Definition fixture_header_values self (key : string) : list string :=
  default [] (ok_option (get_values metadata_view (fixture_metadata self) key)).

Definition fixture_has_header self (key : string) : bool := negb (is_nil (fixture_header_values self key)).

(** [let _ = builder.append(..)]: an entry that is refused is left out. *)
Definition append_lenient (builder : MetadataBuilder) (entry : string * string) : MetadataBuilder :=
  default builder (ok_option (builder_append builder entry.1 entry.2)).

(** The binary entries that can be read ([flatten]), likewise. *)
Definition append_binary_lenient (builder : MetadataBuilder)
    (entry : Result (string * list byte) MetadataError) : MetadataBuilder :=
  match entry with
  | Ok (key, value) => default builder (ok_option (builder_append_binary builder key value))
  | Err _ => builder
  end.

Definition invalid_header self (e : MetadataError) : CallError :=
  Transport_ (fixture_path self) InvalidArgument (metadata_error_to_string e).

Definition fixture_add_header self (key value : string) : Result OutboundCallFixture CallError :=
  let builder := builder_create in
  let? entries := map_err (invalid_header self) (get_entries metadata_view (fixture_metadata self)) in
  let builder := fold_left append_lenient entries builder in
  let? binary :=
    map_err (invalid_header self) (get_binary_entries metadata_view (fixture_metadata self)) in
  let builder := fold_left append_binary_lenient binary builder in
  let? builder := map_err (invalid_header self) (builder_append builder key value) in
  Ok (fixture_with_metadata self (builder_build builder)).

#[export] Instance fixture_outbound : OutboundCall OutboundCallFixture := {|
  path := fixture_path;
  timeout := fixture_timeout;
  set_timeout := fixture_with_timeout;
  has_header := fixture_has_header;
  header_values := fixture_header_values;
  add_header := fixture_add_header;
|}.

(** The library's own call with the same contents. *)
Definition pending_of self : PendingCall :=
  pending_call (fixture_path self) (fixture_timeout self) (fixture_metadata self).
Definition fixture_of (c : PendingCall) : OutboundCallFixture :=
  call_fixture (pending_path c) (pending_timeout c) (pending_metadata c).
End fixture.

(** ** Lemmas *)

Section lemmas.
Context `{HC : Contract} `{HL : !MetadataLaws}.

(** Where no entry is refused, leaving out refused ones changes nothing. *)
Lemma lenient_append_all builder entries b :
  append_all builder entries = Ok b -> fold_left append_lenient entries builder = b.
Proof.
  revert builder. induction entries as [|[k v] entries IH]; intros builder; cbn; [by intros [= <-]|].
  unfold append_lenient at 2. cbn. destruct (builder_append builder k v); cbn; [apply IH|done].
Qed.

Lemma lenient_append_binary builder entries b :
  append_all_binary builder entries = Ok b -> fold_left append_binary_lenient entries builder = b.
Proof.
  revert builder. induction entries as [|[[k v]|e] entries IH]; intros builder; cbn; [by intros [= <-]| |done].
  destruct (builder_append_binary builder k v); cbn; [apply IH|done].
Qed.

(** The header a fixture adds is the one the library's call adds. *)
Lemma fixture_add_header_pending (self : OutboundCallFixture) key value :
  built (fixture_metadata self) ->
  fixture_add_header self key value = rmap fixture_of (pending_add_header (pending_of self) key value).
Proof.
  intros Hm. destruct (start_built _ Hm) as (b & E & _ & _).
  unfold fixture_add_header, pending_add_header, extender_append. cbn [pending_of pending_metadata pending_path].
  rewrite E. unfold start in E. cbn [rbind].
  destruct (get_entries metadata_view (fixture_metadata self)) as [es|]; cbn [rbind map_err] in *; [|done].
  destruct (append_all builder_create es) as [b1|] eqn:E1; cbn [rbind] in E; [|done].
  rewrite (lenient_append_all _ _ _ E1).
  destruct (get_binary_entries metadata_view (fixture_metadata self)) as [bs|];
    cbn [rbind map_err] in *; [|done].
  rewrite (lenient_append_binary _ _ _ E). destruct (builder_append b key value); done.
Qed.

Lemma pending_of_sound (self : OutboundCallFixture) :
  built (fixture_metadata self) -> sound (pending_of self).
Proof. done. Qed.

(** So the fixture keeps what the interface promises. *)
#[export] Instance fixture_laws : OutboundCallLaws OutboundCallFixture.
Proof.
  refine {| Interceptors.sound (c : OutboundCallFixture) := built (fixture_metadata c) |}.
  - intros c k. cbn. unfold fixture_has_header. destruct (fixture_header_values c k); cbn; naive_solver.
  - done.
  - intros c k v Hc Hv. cbn in *. rewrite fixture_add_header_pending by done.
    destruct (add_header_ok (pending_of c) k v (pending_of_sound c Hc) Hv) as (c' & E & Hc' & Hp & Ht & Hv').
    cbn [add_header pending_outbound] in E. rewrite E. cbn [rmap]. eexists. split; [done|].
    cbn in *. split_and!; try done. intros k' Hk'. specialize (Hv' k' Hk').
    unfold fixture_header_values, pending_header_values in *. cbn in *.
    by destruct (get_values _ (pending_metadata c') k'), (get_values _ (fixture_metadata c) k').
  - intros c k v Hc Hv. cbn in *. rewrite fixture_add_header_pending by done.
    destruct (add_header_invalid (pending_of c) k v (pending_of_sound c Hc) Hv) as [reason E].
    cbn [add_header pending_outbound] in E. rewrite E. by exists reason.
Defined.
End lemmas.

(** ** Properties *)

(** A test that runs an interceptor on the fixture sees what the library's own call would do: on
    metadata that a builder made, each operation of the interface gives the same answer and leads
    to the same call, refused headers and their failures included, although the fixture ignores
    entries it cannot copy where the library stops. *)
Theorem fixture_agrees `{HC : Contract} `{HL : !MetadataLaws} (self : OutboundCallFixture) :
  built (fixture_metadata self) ->
  let own := pending_of self in
  fixture_of own = self /\
  path self = path own /\ timeout self = timeout own /\
  (forall t, set_timeout self t = fixture_of (set_timeout own t)) /\
  (forall k, header_values self k = header_values own k) /\
  (forall k, has_header self k = has_header own k) /\
  forall k v,
    match add_header self k v, add_header own k v with
    | Ok c, Ok own' => c = fixture_of own' /\ built (fixture_metadata c)
    | Err e, Err e' => e = e' /\ valid k v = false
    | _, _ => False
    end.
Proof.
  intros Hm own. assert (forall k, header_values self k = header_values own k) as Hv.
  { intros k. cbn. unfold fixture_header_values, pending_header_values. cbn.
    by destruct (get_values _ _ k). }
  split_and!; try done.
  - by destruct self.
  - intros k. cbn. unfold fixture_has_header, pending_has_header. specialize (Hv k). cbn in Hv.
    rewrite Hv. by destruct (pending_header_values own k).
  - intros k v. cbn. rewrite fixture_add_header_pending by done. fold own.
    destruct (valid k v) eqn:Ev.
    + destruct (add_header_ok own k v (pending_of_sound self Hm) Ev) as (c' & E & Hc' & _). cbn in E. rewrite E. by cbn.
    + destruct (add_header_invalid own k v (pending_of_sound self Hm) Ev) as [reason E]. cbn in E. rewrite E. by cbn.
Qed.

#[local] Existing Instance list_contract.

Lemma fixture_agrees_witness :
  let self := call_fixture "/s/M" None ([("x-a", "1")], []) in
  match add_header self "x-b" "2", add_header (pending_of self) "x-b" "2" with
  | Ok c, Ok own' => c = fixture_of own' /\ built (fixture_metadata c)
  | Err e, Err e' => e = e' /\ valid "x-b" "2" = false
  | _, _ => False
  end /\
  header_values self "x-a" = header_values (pending_of self) "x-a".
Proof.
  intros self. assert (built (fixture_metadata self)) as Hm by (cbn; split; by repeat constructor).
  destruct (fixture_agrees self Hm) as (_ & _ & _ & _ & Hv & _ & Ha).
  split; [exact (Ha "x-b" "2")|apply Hv].
Defined.
