(* ===== verification/Flaky.v ===== *)
(** * The retry examples: an upstream that recovers

    [retry-spi/examples/grpc_retry.rs] and [resilient-spi/examples/resilient.rs]: an upstream that
    fails its first calls and then answers, behind the retry decorator, and behind retry inside the
    breaker; and that the examples' [main] reach their end.

    The state of the upstream is the number of calls it got.  How long things take is bounded as
    [RetrySteady] says. *)

From S2P Require Import Prelude Text Contract F64 RetryConfig RetryClassifier Retry RetrySpec RetrySteady BreakerConfig Breaker BreakerSpec Resilience Fixtures.
From Stdlib Require Import NArith Lia Strings.Byte.
From stdpp Require Import base tactics strings option list.

Open Scope N_scope.

(** ** The upstream *)

Section upstream.
Context `{Contract} {V : Type}.

Definition refusal (path : string) : CallError :=
  Transport_ path Unimplemented "this example only makes raw unary calls".

Definition still_down (path : string) (attempt : N) : CallError :=
  Transport_ path Unavailable ("upstream still down (attempt " +:+ decimal attempt +:+ ")").

Definition recovered (attempt : N) : CallResponse (list byte) Metadata :=
  call_response (String.list_byte_of_string ("ok on attempt " +:+ decimal attempt))
    metadata_default metadata_default.

(** [FlakyUpstream::call_raw]. *)
Definition flaky_call_raw (fail_until : N) (path : string) :
    eff (N * V) (Result (CallResponse (list byte) Metadata) CallError) := fun '(calls, v) =>
  let attempt := calls + 1 in
  (if attempt <=? fail_until then Err (still_down path attempt) else Ok (recovered attempt),
   (attempt, v)).

Definition flaky_raw (fail_until : N) : RawTransport (N * V) := {|
  r_metadata := Metadata;
  r_view := metadata_view;
  call_raw path _ _ := flaky_call_raw fail_until path;
  call_raw_server_stream path _ _ := ret (Err (refusal path));
  call_raw_client_stream path _ _ := ret (Err (refusal path));
  call_raw_bidi_stream path _ _ := ret (Err (refusal path));
|}.

Definition flaky_typed : Transport (N * V) := {|
  t_metadata := Metadata;
  t_view := metadata_view;
  call M _ _ := ret (Err (refusal (PATH M)));
  call_server_stream M _ _ := ret (Err (refusal (PATH M)));
  call_client_stream M _ _ := ret (Err (refusal (PATH M)));
  call_bidi_stream M _ _ := ret (Err (refusal (PATH M)));
|}.

Definition FlakyUpstream (fail_until : N) : Client (N * V) :=
  client flaky_typed (flaky_raw fail_until).

(** [NoStream]: its headers, no message and no trailers; the refused calls only name its type. *)
Definition NoStream {T} (headers : Metadata) : ResponseStream (N * V) T Metadata :=
  response_stream Metadata headers {|
    read_message s := ret (Ok None, s);
    stream_headers s := ret (Ok s, s);
    read_trailers s := ret (Ok metadata_default, s);
    Contract.drop _ := ret tt;
  |}.

(** [resilient.rs] writes the same upstream and the same stream once more. *)
Definition resilient_raw (fail_until : N) : RawTransport (N * V) := flaky_raw fail_until.
Definition resilient_typed : Transport (N * V) := flaky_typed.
Definition ResilientUpstream (fail_until : N) : Client (N * V) :=
  client resilient_typed (resilient_raw fail_until).
Definition ResilientNoStream {T} (headers : Metadata) : ResponseStream (N * V) T Metadata :=
  NoStream headers.
End upstream.

(** ** The examples *)

(** The state machine of the breaker does not look at the upstream. *)
#[local] Existing Instance lift_transition.

Section examples.
Context `{Contract} `{Backoff} `{Display} `{MethodPaths} {V : Type} (T : BreakerTransition V).
Context (clk : Clock V).

Notation clk' := (lift_clock (F := N) clk).

(** The raw call of the [main]s: the path, then the call. *)
Definition example_call {W} (c : Client W) :
    may_panic W (Result (CallResponse (list byte) (r_metadata (raw c))) CallError) BoxError :=
  let options := options_create (Some (from_secs 3)) metadata_default in
  let* path := pure_result (map_err FromPath (method_path_create "/example.Service/Method")) in
  no_panic (let! r := call_raw (raw c) path [] options in ret (Ok r)).

(** [Instant::now()] and [started.elapsed()]. *)
Definition instant {W} (clk : Clock W) : may_panic W N BoxError :=
  no_panic (let! t := now clk in ret (Ok t)).
Definition since {W} (clk : Clock W) (started : N) : may_panic W Duration BoxError :=
  no_panic (let! e := elapsed clk started in ret (Ok e)).

(** [assert!], whose failure is a panic. *)
Definition assert_that {W} (holds : bool) : may_panic W unit BoxError :=
  if holds then pure_result (Ok tt) else ret None.

(** [calls.load(SeqCst)]. *)
Definition load_calls {W} (calls_of : W -> N) : may_panic W N BoxError := fun w => (Some (Ok (calls_of w)), w).

Definition example_policy : Result GrpcRetryConfig RetryError :=
  RetryConfig.Builder.build (fold_left RetryConfig.Builder.set
    [RetryConfig.Builder.SetMaxAttempts 3; RetryConfig.Builder.SetInitialBackoffMs 50;
     RetryConfig.Builder.SetBackoffMultiplier f64_two; RetryConfig.Builder.SetJitterFactor f64_zero;
     RetryConfig.Builder.SetMaxBackoffMs 200] RetryConfig.retry_config_builder).

(** [main] of [grpc_retry.rs], from no call made. *)
Definition grpc_retry_main : may_panic (N * V) unit BoxError :=
  let* policy := pure_result (map_err FromRetry example_policy) in
  let* started := instant clk' in
  let* result := example_call (retry_build clk' policy (FlakyUpstream 2)) in
  let* elapsed := since clk' started in
  let* _ := assert_that (is_ok result) in
  let* calls := load_calls fst in
  let* _ := assert_that (calls =? 3) in
  assert_that (from_millis 50 <=? elapsed).

Definition resilient_policy : Result ResilienceConfig BoxError :=
  let? retry := map_err FromRetry (RetryConfig.try_new {|
      RetryConfig.max_attempts := 3;
      RetryConfig.initial_backoff_ms := 20;
      RetryConfig.backoff_multiplier := f64_two;
      RetryConfig.jitter_factor := f64_zero;
      RetryConfig.max_backoff_ms := 100;
      RetryConfig.rate_limit_max_attempts := 1;
      RetryConfig.rate_limit_initial_backoff_ms := 100;
      RetryConfig.rate_limit_max_backoff_ms := 100;
    |}) in
  let? breaker := map_err FromBreaker (BreakerConfig.try_new true 5 1 1) in
  Ok (from_policies retry breaker).

(** [main] of [resilient.rs]: the node of the new client is the one [build] gives. *)
Definition resilient_main : may_panic (N * V) unit BoxError :=
  let* config := pure_result resilient_policy in
  let* (c, node) := pure_result (map_err FromResilient (resilient_build clk' config (ResilientUpstream 2))) in
  fun w =>
    let '(r, (_, w')) :=
      (let* started := instant (lift_clock clk') in
       let* result := example_call c in
       let* _ := pure_result (map_err FromCall result) in
       let* elapsed := since (lift_clock clk') started in
       let* calls := load_calls (fun w => w.2.1) in
       let* _ := assert_that (calls =? 3) in
       assert_that (from_millis 20 <=? elapsed)) (node, w) in
    (r, w').
End examples.

(** ** A run over the upstream *)

Section recovery.
Context `{Contract} `{Backoff} {V : Type} (clk : Clock V) (time : V -> N) (slack : N).
Context (Hclk : steady clk time slack).
Context (config : GrpcRetryConfig) (path : string) (fail_until : N).
Context (low high : Duration) (budget : option Duration).
Context (Hlow : forall a u, low <= next_backoff (backoff_policy config) a u)
        (Hhigh : forall a u, next_backoff (backoff_policy config) a u <= high).

(** The number of attempts there will be. *)
Definition last_attempt : N := N.min (fail_until + 1) (RetryConfig.max_attempts (fields config)).

Definition flaky_result (attempt : N) : Result (CallResponse (list byte) Metadata) CallError :=
  if attempt <=? fail_until then Err (still_down path attempt) else Ok (recovered attempt).

Context (Hbudget : forall B, budget = Some B ->
  last_attempt * turn_time slack high + slack < B /\ B < DURATION_LIMIT).

(** A whole run, from no call made. *)
Lemma flaky_run v :
  1 <= RetryConfig.max_attempts (fields config) ->
  exists v', run_with_retry (lift_clock (F := N) clk) config path budget
      (fun _ => flaky_call_raw fail_until path) (0, v)
    = (flaky_result last_attempt, (last_attempt, v')) /\
    time v + (last_attempt - 1) * low <= time v'.
Proof.
  intros Hmax.
  assert (forall k, classify (flaky_result k) = if k <=? fail_until then Retry else Success) as Hc.
  { intros k. unfold flaky_result. by destruct (k <=? fail_until). }
  destruct (steady_run (lift_clock (F := N) clk) (fun w => time w.2) slack (steady_lift clk time slack Hclk)
    fst (keeps_lift clk) config path budget low high Hlow Hhigh (fun _ => True) (preserves_true _)
    (fun k r => r = flaky_result k) (fun _ => flaky_call_raw fail_until path))
    with (base := 0) (final := last_attempt) (v := (0, v))
    as (r & [n v'] & E & -> & _ & Hn & Hv'); cbn [fst snd] in *.
  - intros t [calls v0] _ _. exists (flaky_result (calls + 1)), (calls + 1, v0).
    cbn. split_and!; [done..|lia|lia].
  - unfold last_attempt. lia.
  - intros k r Hk ->. rewrite Hc, (proj2 (N.leb_le _ _)); [done|]. unfold last_attempt in Hk. lia.
  - intros r ->. rewrite Hc. destruct (N.leb_spec (0 + last_attempt) fail_until); [|by left].
    right. right. split; [done|]. unfold last_attempt in *. lia.
  - exact Hbudget.
  - done.
  - done.
  - subst n. exists v'. split; [exact E|lia].
Qed.
End recovery.

(** ** Properties *)

(** A raw call through the retry decorator, on the standard policy or any other, reaches an
    upstream that fails its first calls as often as it takes and no oftener: the answer is that of
    the first call that succeeds, or the failure of the last attempt the policy allows, and the
    pauses between the attempts have passed.  The timeout, if there is one, only has to leave room
    for the attempts there are. *)
Theorem retry_recovers `{Contract} `{Backoff} {V} (clk : Clock V) (time : V -> N) slack config
    fail_until path body options low high v :
  steady clk time slack -> 1 <= RetryConfig.max_attempts (fields config) ->
  (forall a u, low <= next_backoff (backoff_policy config) a u) -> (forall a u, next_backoff (backoff_policy config) a u <= high) ->
  let n := N.min (fail_until + 1) (RetryConfig.max_attempts (fields config)) in
  (forall B, get_timeout options = Some B ->
     n * (high + 4 * slack) + slack < B /\ B < DURATION_LIMIT) ->
  exists v',
    call_raw (raw (retry_build (lift_clock clk) config (FlakyUpstream fail_until))) path body options (0, v)
    = (if n <=? fail_until then Err (still_down path n) else Ok (recovered n), (n, v')) /\
    time v + (n - 1) * low <= time v'.
Proof.
  intros Hclk Hmax Hlow Hhigh n Hb.
  destruct (flaky_run clk time slack Hclk config path fail_until low high (get_timeout options)
    Hlow Hhigh Hb v Hmax) as (v' & E & Hv').
  exists v'. split; [exact E|exact Hv'].
Qed.

#[local] Existing Instance list_contract.
#[local] Existing Instance RetrySpec.Example.backoff.

Lemma example_steady : steady RetrySpec.Example.clock id 0.
Proof. split; intros; cbn; lia. Qed.

Lemma retry_recovers_witness :
  exists v',
    call_raw (raw (retry_build (lift_clock RetrySpec.Example.clock) RetryConfig.default (FlakyUpstream 2)))
      "/s/M" [] (Some (from_secs 1), ([], [])) (0, 7)
    = (Ok (recovered 3), (3, v')) /\ 7 + (3 - 1) * from_millis 100 <= v'.
Proof.
  refine (retry_recovers RetrySpec.Example.clock id 0 RetryConfig.default 2 "/s/M" []
    (Some (from_secs 1), ([], [])) (from_millis 100) (from_millis 100) 7 example_steady _ _ _ _).
  - cbn. lia.
  - intros; cbn; lia.
  - intros; cbn; lia.
  - intros B [= <-]. vm_compute. done.
Defined.

Section mains.
Context `{HC : Contract} `{HB : Backoff} `{HD : Display} `{HP : MethodPaths} {V : Type}.
Context (T : BreakerTransition V) (clk : Clock V) (time : V -> N) (slack : N).
Context (Hclk : steady clk time slack) (Hslack : slack <= from_millis 100).
Context (Hpath : method_path_create "/example.Service/Method" = Ok "/example.Service/Method"%string).

Context (Htimeout : forall t m, get_timeout (options_create t m) = t).

(** Every back-off of a well-formed policy that has no jitter and does not shrink lies between its
    first and its longest. *)
Context (Hbackoff : forall (c : RetryFields) a u, RetryConfig.well_formed c ->
   RetryConfig.jitter_factor c = f64_zero -> f64_le f64_one (RetryConfig.backoff_multiplier c) = true ->
   from_millis (RetryConfig.initial_backoff_ms c) <= next_backoff (backoff_policy (retry_config c)) a u
   <= from_millis (RetryConfig.max_backoff_ms c)).

Definition no_body : list byte := [].
Definition three_seconds : CallOptions := options_create (Some (from_secs 3)) metadata_default.

(** The call of the examples: three attempts and the two pauses between them. *)
Lemma three_attempts (c : RetryFields) v :
  RetryConfig.well_formed c -> RetryConfig.jitter_factor c = f64_zero ->
  f64_le f64_one (RetryConfig.backoff_multiplier c) = true ->
  RetryConfig.max_attempts c = 3 -> RetryConfig.max_backoff_ms c <= 200 ->
  exists v',
    call_raw (raw (retry_build (lift_clock clk) (retry_config c) (FlakyUpstream 2)))
      "/example.Service/Method" no_body three_seconds (0, v) = (Ok (recovered 3), (3, v')) /\
    time v + 2 * from_millis (RetryConfig.initial_backoff_ms c) <= time v'.
Proof.
  intros Hwf Hj Hm Hmax Hlong.
  destruct (flaky_run clk time slack Hclk (retry_config c) "/example.Service/Method" 2
    (from_millis (RetryConfig.initial_backoff_ms c)) (from_millis (RetryConfig.max_backoff_ms c))
    (get_timeout three_seconds)) with (v := v) as (v' & E & Hv').
  - intros a u. by apply Hbackoff.
  - intros a u. by apply Hbackoff.
  - intros B. unfold three_seconds. rewrite Htimeout. intros [= <-].
    unfold last_attempt, turn_time. cbn [fields]. rewrite Hmax.
    change (N.min (2 + 1) 3) with 3.
    split; [|vm_compute; done]. unfold from_millis, from_secs, SECOND in *. lia.
  - cbn [fields]. lia.
  - assert (last_attempt (retry_config c) 2 = 3) as En by (unfold last_attempt; cbn [fields]; lia).
    rewrite En in *. exists v'. split; [exact E|]. lia.
Qed.

Definition grpc_policy : RetryFields := {|
  RetryConfig.max_attempts := 3;
  RetryConfig.initial_backoff_ms := 50;
  RetryConfig.backoff_multiplier := f64_two;
  RetryConfig.jitter_factor := f64_zero;
  RetryConfig.max_backoff_ms := 200;
  RetryConfig.rate_limit_max_attempts := 2;
  RetryConfig.rate_limit_initial_backoff_ms := 1000;
  RetryConfig.rate_limit_max_backoff_ms := 10000;
|}.

Lemma example_policy_ok : example_policy = Ok (retry_config grpc_policy).
Proof. by vm_compute. Qed.

Lemma grpc_policy_well_formed : RetryConfig.well_formed grpc_policy.
Proof. by apply (retry_try_new_ok grpc_policy (retry_config grpc_policy)). Qed.

Definition resilient_fields : RetryFields := {|
  RetryConfig.max_attempts := 3;
  RetryConfig.initial_backoff_ms := 20;
  RetryConfig.backoff_multiplier := f64_two;
  RetryConfig.jitter_factor := f64_zero;
  RetryConfig.max_backoff_ms := 100;
  RetryConfig.rate_limit_max_attempts := 1;
  RetryConfig.rate_limit_initial_backoff_ms := 100;
  RetryConfig.rate_limit_max_backoff_ms := 100;
|}.

Definition resilient_breaker : GrpcBreakerConfig := breaker_config true 5 1 1.

Lemma resilient_policy_ok :
  resilient_policy = Ok (from_policies (retry_config resilient_fields) resilient_breaker).
Proof. by vm_compute. Qed.

Lemma resilient_fields_well_formed : RetryConfig.well_formed resilient_fields.
Proof. by apply (retry_try_new_ok resilient_fields (retry_config resilient_fields)). Qed.

(** The example's call on a client, once the path is one. *)
Lemma example_call_run {W} (c : Client W) w :
  example_call c w
  = (Some (Ok (call_raw (raw c) "/example.Service/Method" no_body three_seconds w).1),
     (call_raw (raw c) "/example.Service/Method" no_body three_seconds w).2).
Proof.
  unfold example_call. rewrite Hpath. unfold bindp, pure_result, no_panic, ret, bind. cbn [map_err].
  unfold three_seconds, no_body. destruct (call_raw (raw c) _ _ _ w). reflexivity.
Qed.

Lemma grpc_retry_completes v :
  exists v', grpc_retry_main clk (0, v) = (Some (Ok tt), (3, v')).
Proof.
  unfold grpc_retry_main. rewrite example_policy_ok. cbn [map_err].
  unfold bindp at 1, bind, pure_result, ret. unfold bindp at 1, bind, instant, no_panic, bind, ret.
  cbn [lift_clock now]. unfold lift at 1. pose proof (steady_now _ _ _ Hclk v) as Hn.
  destruct (now clk v) as [started v1]. cbn [fst snd] in Hn.
  unfold bindp at 1, bind. rewrite example_call_run.
  destruct (three_attempts grpc_policy v1 grpc_policy_well_formed eq_refl eq_refl eq_refl ltac:(done))
    as (v2 & E & Hv2). rewrite E. cbn [fst snd is_ok].
  unfold bindp at 1, bind, since, no_panic, elapsed, bind, ret. cbn [lift_clock now]. unfold lift at 1.
  pose proof (steady_now _ _ _ Hclk v2) as Hn2. destruct (now clk v2) as [t v3]. cbn [fst snd] in Hn2.
  exists v3. unfold assert_that, load_calls, bindp, bind, pure_result, ret. cbn [fst].
  rewrite (proj2 (N.leb_le _ _)); [done|]. cbn in Hv2. unfold from_millis in *. lia.
Qed.

Context (Hadmit : forall c n v, state n = Closed -> exists v',
           transition_admit n c v = (Ok (Proceed, n), v') /\ time v <= time v').
Context (Hrecord : forall c n o v, time v <= time (transition_record n c o v).2).

(** The state machine on the state with the upstream's count. *)
Lemma lifted_admit c calls v :
  exists v', transition_admit (BreakerTransition := lift_transition (F := N) T) new_node c (calls, v)
    = (Ok (Proceed, new_node), (calls, v')) /\ time v <= time v'.
Proof.
  destruct (Hadmit c new_node v eq_refl) as (v' & E & Hv). exists v'. split; [|done].
  exact (f_equal (fun '(r, v) => (r, (calls, v))) E).
Qed.

Lemma lifted_record n c o calls v :
  exists r v', transition_record (BreakerTransition := lift_transition (F := N) T) n c o (calls, v)
    = (r, (calls, v')) /\ time v <= time v'.
Proof.
  pose proof (Hrecord c n o v) as Hr. cbn. unfold lift.
  destruct (@transition_record V T n c o v) as [r v']. by exists r, v'.
Qed.

(** The call inside the breaker, from its new node. *)
Lemma guarded_attempts v :
  exists node v',
    call_raw (raw (breaker_client (grpc_breaker_client (retry_build (lift_clock clk)
        (retry_config resilient_fields) (FlakyUpstream 2)) resilient_breaker)))
      "/example.Service/Method" no_body three_seconds (new_node, (0, v))
    = (Ok (recovered 3), (node, (3, v'))) /\ time v + from_millis 40 <= time v'.
Proof.
  cbn [raw breaker_client breaker_raw call_raw]. unfold breaker_call_raw. rewrite raw_guard, guard_run.
  cbn [config enabled resilient_breaker]. unfold guarded, policy_of. cbn [config].
  destruct (lifted_admit (to_breaker_policy resilient_breaker) 0 v) as (v1 & -> & Hv1).
  unfold lift at 1. cbn [inner].
  destruct (three_attempts resilient_fields v1 resilient_fields_well_formed eq_refl eq_refl eq_refl ltac:(done))
    as (v2 & E & Hv2). rewrite E. cbv beta iota.
  match goal with |- context [transition_record ?n ?c ?o _] =>
    destruct (lifted_record n c o 3 v2) as ([n3|e] & v3 & Er & Hr) end; rewrite Er; do 2 eexists;
    (split; [reflexivity|]); cbn in Hv2; unfold from_millis in *; lia.
Qed.

Lemma resilient_completes v :
  exists v', resilient_main T clk (0, v) = (Some (Ok tt), (3, v')).
Proof.
  unfold resilient_main. rewrite resilient_policy_ok.
  change (ResilientUpstream (V := V) 2) with (FlakyUpstream (V := V) 2).
  unfold bindp at 1, bind, pure_result, ret.
  rewrite resilient_build_ok; [|exact resilient_fields_well_formed|by split].
  unfold bindp at 1, bind, pure_result, ret. cbn [map_err].
  unfold bindp at 1, bind, instant, no_panic, bind, ret.
  cbn [lift_clock now]. unfold lift at 1 2. pose proof (steady_now _ _ _ Hclk v) as Hn.
  destruct (now clk v) as [started v1]. cbn [fst snd] in Hn.
  unfold bindp at 1, bind. rewrite example_call_run.
  destruct (guarded_attempts v1) as (node & v2 & E & Hv2). rewrite E. cbn [fst snd].
  unfold bindp at 1, bind, pure_result, ret. cbn [map_err].
  unfold bindp at 1, bind, since, no_panic, elapsed, bind, ret. cbn [lift_clock now]. unfold lift at 1 2.
  pose proof (steady_now _ _ _ Hclk v2) as Hn2. destruct (now clk v2) as [t v3]. cbn [fst snd] in Hn2.
  exists v3. unfold assert_that, load_calls, bindp, bind, pure_result, ret. cbn [fst snd].
  rewrite (proj2 (N.leb_le _ _)); [done|]. cbn in Hv2. unfold from_millis in *. lia.
Qed.

(** Both examples run to their end: none of their assertions panics and no error is returned.
    The upstream is called three times, through the retry decorator alone and through the breaker
    around it, and the pauses the assertions look for have passed. *)
Theorem retry_examples_complete v :
  (exists v', grpc_retry_main clk (0, v) = (Some (Ok tt), (3, v'))) /\
  (exists v', resilient_main T clk (0, v) = (Some (Ok tt), (3, v'))).
Proof. split; [apply grpc_retry_completes|apply resilient_completes]. Qed.
End mains.

#[local] Instance plain_display : Display := {|
  retry_error_to_string _ := "retry"%string;
  breaker_error_to_string _ := "breaker"%string;
  resilient_error_to_string _ := "resilient"%string;
  fixed4 _ := ""%string;
|}.

#[local] Instance any_path : MethodPaths := {|
  PathError := string;
  method_path_create := Ok;
|}.

Lemma retry_examples_complete_witness :
  (exists v', grpc_retry_main RetrySpec.Example.clock (0, 7) = (Some (Ok tt), (3, v'))) /\
  (exists v', resilient_main BreakerSpec.Example.transition RetrySpec.Example.clock (0, 7)
     = (Some (Ok tt), (3, v'))).
Proof.
  refine (retry_examples_complete BreakerSpec.Example.transition RetrySpec.Example.clock id 0
    example_steady _ eq_refl (fun _ _ => eq_refl) _ _ _ 7).
  - vm_compute. discriminate.
  - intros c a u [? ? ? ? ? Hle ?] _ _. cbn. unfold from_millis. lia.
  - intros c n v Hn. destruct n as [s f k]. cbn in Hn. subst s. exists v. cbn. split; [done|lia].
  - intros c n o v. cbn. lia.
Defined.
