(* ===== verification/Suite.v ===== *)
(** * The composition root: its reports, its suite and its typed method

    [examples/composition-root/src/]: [observed_effect.rs] and [scenario_report.rs] (what a scenario
    saw), [scenario_suite.rs] (running the scenarios, the lines printed, the exit code), [echo_text.rs]
    (the text method of the example) and [composition_root.rs] (loading a configuration, assembling a
    builder, a raw call through any client).  The scenarios themselves are in [Scenarios]. *)

From S2P Require Import Prelude Text Contract Interceptors Channel Endpoint EgressBuilder Fixtures.
From Stdlib Require Import NArith Lia Strings.Byte.
From stdpp Require Import base tactics strings option list.

(** ** Reports *)

Record ObservedEffect := observed_effect {
  description : string;
  observed : bool;
}.

Record ScenarioReport := scenario_report {
  name : string;
  effects : list ObservedEffect;
}.

Definition report_new (name : string) : ScenarioReport := scenario_report name [].

Definition record (report : ScenarioReport) (description : string) (observed : bool) : ScenarioReport :=
  scenario_report (name report) (effects report ++ [observed_effect description observed]).

Definition is_complete (report : ScenarioReport) : bool :=
  negb (is_nil (effects report)) && forallb observed (effects report).

(** ** The suite *)

Inductive ExitCode := SUCCESS | FAILURE.

Section suite.
Context {W E : Type} (error_to_string : E -> string).

(** [writeln!] to the output. *)
Context (write_line : string -> eff W (Result unit string)).

(** [vec![first.run().await?, ..]]: the scenarios one after the other, up to the first that cannot
    run. *)
Fixpoint run_all (scenarios : list (may_panic W ScenarioReport E)) :
    may_panic W (list ScenarioReport) E :=
  match scenarios with
  | [] => pure_result (Ok [])
  | run :: scenarios =>
      let* report := run in
      let* reports := run_all scenarios in
      pure_result (Ok (report :: reports))
  end.

Fixpoint write_lines (lines : list string) : eff W (Result unit string) :=
  match lines with
  | [] => ret (Ok tt)
  | line :: lines => let!? _ := write_line line in write_lines lines
  end.

Definition heading (report : ScenarioReport) : string :=
  name report +:+ ": " +:+ decimal (N.of_nat (length (List.filter observed (effects report)))) +:+ "/"
  +:+ decimal (N.of_nat (length (effects report))) +:+ " effects observed".

Definition missing_lines (report : ScenarioReport) : list string :=
  (fun e => "  missing: " +:+ description e) <$> List.filter (fun e => negb (observed e)) (effects report).

(** The loop over the reports; the argument is [all_complete]. *)
Fixpoint write_reports_from (all_complete : bool) (reports : list ScenarioReport) :
    eff W (Result bool string) :=
  match reports with
  | [] => ret (Ok all_complete)
  | report :: reports =>
      let!? _ := write_line (heading report) in
      let!? _ := write_lines (missing_lines report) in
      write_reports_from (all_complete && is_complete report) reports
  end.

Definition write_reports (reports : list ScenarioReport) : eff W (Result bool string) :=
  write_reports_from true reports.

(** [None] is the panic of a scenario. *)
Definition run_to (scenarios : list (may_panic W ScenarioReport E)) : eff W (option ExitCode) :=
  let! ran := run_all scenarios in
  match ran with
  | Some (Ok reports) =>
      let! written := write_reports reports in
      ret (Some (match written with Ok true => SUCCESS | _ => FAILURE end))
  | Some (Err error) =>
      write_line ("a scenario could not run: " +:+ error_to_string error) ;;;
      ret (Some FAILURE)
  | None => ret None
  end.
End suite.

(** ** The typed method *)

Module EchoText.
Definition FULL_NAME : string := "example.Text".

Section payload.
Context `{Contract}.

(** [FromUtf8Error]'s text. *)
Context (utf8_error : list byte -> string).

(** [Text], a string: its bytes are its encoding. *)
Definition encode_into (text : string) (out : list byte) : Result (list byte) EncodeError :=
  Ok (out ++ String.list_byte_of_string text).

Definition estimate_encoded_len (text : string) : N := N.of_nat (str_len text).

Definition decode (bytes : list byte) : Result string DecodeError :=
  let text := String.string_of_list_byte bytes in
  if utf8_valid text then Ok text else Err (decode_error_create FULL_NAME (utf8_error bytes)).

Definition Text : Payload string := {|
  Contract.estimate_encoded_len := estimate_encoded_len;
  Contract.encode_into := encode_into;
  Contract.decode := decode;
|}.

Definition EchoText : Method := {|
  Request := string;
  Response := string;
  PATH := "/pkg.Service/Method";
  request_payload := Text;
  response_payload := Text;
|}.
End payload.
End EchoText.

(** ** The composition root *)

Record CompositionRoot := composition_root { config_text : string }.

Section root.
Context `{Contract} `{MethodPaths} `{TransportOptions} {W : Type}.

(** [toml::from_str], before the conversion it is told to make, and its text for one that fails. *)
Context (toml_from_str : string -> Result ChannelConfig.GrpcChannelConfigData string).
Context (toml_custom : string -> string).

Definition load_config (self : CompositionRoot) : Result GrpcChannelConfig BoxError :=
  map_err FromText
    (let? data := toml_from_str (config_text self) in
     map_err toml_custom (ChannelConfig.try_from data)).

Definition assemble (self : CompositionRoot) : Result (GrpcEgressBuilderImpl (W := W)) BoxError :=
  let? config := load_config self in
  Ok (with_option (builder_from (ChannelConfig.endpoint config)) (WithChannelConfig config)).

(** [CallOptions::default()]. *)
Context (options_default : CallOptions).

Definition ping (c : Client W) (body : list byte) : eff W (Result (list byte) BoxError) :=
  let!? path := ret (map_err FromPath (method_path_create "/pkg.Service/Method")) in
  let! response := call_raw (raw c) path body options_default in
  ret (rmap message (map_err FromCall response)).
End root.

(** ** Lemmas *)

Lemma list_byte_string s : String.string_of_list_byte (String.list_byte_of_string s) = s.
Proof. apply String.string_of_list_byte_of_string. Qed.

Lemma is_complete_spec report :
  is_complete report = true <->
  effects report <> [] /\ Forall (fun e => observed e = true) (effects report).
Proof.
  unfold is_complete. rewrite andb_true_iff, forallb_forall, Forall_forall.
  setoid_rewrite <- list_elem_of_In. destruct (effects report); cbn; naive_solver.
Qed.

Lemma write_reports_from_all {W} (write_line : string -> eff W (Result unit string)) all reports w b w' :
  write_reports_from write_line all reports w = (Ok b, w') -> b = all && forallb is_complete reports.
Proof.
  revert all w. induction reports as [|r reports IH]; intros all w; cbn.
  { intros [= <- _]. by rewrite andb_true_r. }
  unfold bindr, bind. destruct (write_line _ w) as [[[]|] w1]; [|done].
  destruct (write_lines _ _ w1) as [[[]|] w2]; [|done]. intros E%IH. by rewrite E, andb_assoc.
Qed.

(** What a report is printed as. *)
Definition report_lines (report : ScenarioReport) : list string :=
  heading report :: missing_lines report.

Lemma write_lines_all {W} (write_line : string -> eff W (Result unit string)) (out : string -> W -> W) lines w :
  (forall l w, write_line l w = (Ok tt, out l w)) ->
  write_lines write_line lines w = (Ok tt, fold_left (fun w l => out l w) lines w).
Proof.
  intros Hw. revert w. induction lines as [|l lines IH]; intros w; cbn; [done|].
  unfold bindr, bind. by rewrite Hw, IH.
Qed.

Lemma write_reports_all {W} (write_line : string -> eff W (Result unit string)) (out : string -> W -> W)
    all reports w :
  (forall l w, write_line l w = (Ok tt, out l w)) ->
  write_reports_from write_line all reports w
  = (Ok (all && forallb is_complete reports),
     fold_left (fun w l => out l w) (concat (report_lines <$> reports)) w).
Proof.
  intros Hw. revert all w. induction reports as [|r reports IH]; intros all w; cbn.
  { by rewrite andb_true_r. }
  unfold bindr, bind. rewrite Hw, (write_lines_all _ out) by done. rewrite IH, fold_left_app.
  by rewrite andb_assoc.
Qed.

(** ** Properties *)

(** The suite exits with success exactly when every scenario ran, every line could be written and
    every effect of every scenario was observed, a scenario that looked for none counting as a
    failure.  Where writing does not fail, the lines are, for each report in order, its name with
    the number of effects observed and then one line for each that is missing. *)
Theorem suite_exit_code {W E} (error_to_string : E -> string) write_line
    (scenarios : list (may_panic W ScenarioReport E)) w w' :
  (run_to error_to_string write_line scenarios w = (Some SUCCESS, w') <->
   exists reports w1,
     run_all scenarios w = (Some (Ok reports), w1) /\
     Forall (fun r => effects r <> [] /\ Forall (fun e => observed e = true) (effects r)) reports /\
     write_reports write_line reports w1 = (Ok true, w')) /\
  (forall out reports, (forall l w, write_line l w = (Ok tt, out l w)) ->
     write_reports write_line reports w
     = (Ok (forallb is_complete reports),
        fold_left (fun w l => out l w) (concat (report_lines <$> reports)) w)).
Proof.
  split; [|intros out reports Hw; exact (write_reports_all write_line out true reports w Hw)].
  unfold run_to, bind, ret.
  assert (forall reports : list ScenarioReport, forallb is_complete reports = true <->
    Forall (fun r => effects r <> [] /\ Forall (fun e => observed e = true) (effects r)) reports) as Hall.
  { intros reports. rewrite forallb_forall, Forall_forall. setoid_rewrite <- list_elem_of_In.
    by setoid_rewrite is_complete_spec. }
  destruct (run_all scenarios w) as [[[reports|e]|] w1].
  - destruct (write_reports write_line reports w1) as [r w2] eqn:Ew. split.
    + intros E1. exists reports, w1. rewrite Ew. destruct r as [[]|]; simplify_eq.
      split_and!; [done| |done]. apply Hall. by apply write_reports_from_all in Ew.
    + intros (? & ? & [= <- <-] & _ & E1). rewrite Ew in E1. by simplify_eq.
  - destruct (write_line _ w1). naive_solver.
  - naive_solver.
Qed.

Definition seen_all : ScenarioReport := record (record (report_new "a") "x" true) "y" true.
Definition seen_one : ScenarioReport := record (record (report_new "b") "x" true) "y" false.

(** A writer that appends to a list. *)
Definition append_line (l : string) : eff (list string) (Result unit string) := fun w => (Ok tt, w ++ [l]).

Lemma suite_exit_code_witness :
  run_to (E := string) id append_line [pure_result (Ok seen_all)] []
  = (Some SUCCESS, ["a: 2/2 effects observed"]) /\
  write_reports append_line [seen_all; seen_one] []
  = (Ok false, ["a: 2/2 effects observed"; "b: 1/2 effects observed"; "  missing: y"]).
Proof.
  split.
  - apply (suite_exit_code id append_line). exists [seen_all], []. split_and!; [done| |done].
    repeat constructor; discriminate.
  - apply (proj2 (suite_exit_code (E := string) id append_line [] [] []) (fun l w => w ++ [l])
      [seen_all; seen_one]). done.
Defined.

(** A text is its own encoding: it takes exactly the estimated number of bytes, after what the
    buffer held, and decodes to itself; and whatever bytes decode are the encoding of the text
    they give, all others being refused under the name of the message. *)
Theorem echo_text_roundtrip `{Contract} utf8_error (text : string) (out bytes : list byte) :
  (exists encoded, EchoText.encode_into text out = Ok (out ++ encoded) /\
     N.of_nat (length encoded) = EchoText.estimate_encoded_len text /\
     (utf8_valid text = true -> EchoText.decode utf8_error encoded = Ok text)) /\
  match EchoText.decode utf8_error bytes with
  | Ok text' => EchoText.encode_into text' [] = Ok bytes /\ utf8_valid text' = true
  | Err e => e = decode_error_create "example.Text" (utf8_error bytes)
  end.
Proof.
  split.
  - exists (String.list_byte_of_string text). split_and!; [done| |].
    + unfold EchoText.estimate_encoded_len, str_len. f_equal.
      unfold String.list_byte_of_string. rewrite length_map. by induction text as [|c s IH]; cbn; [|rewrite IH].
    + unfold EchoText.decode. rewrite list_byte_string. by intros ->.
  - unfold EchoText.decode. destruct (utf8_valid _) eqn:Ev; [|done]. split; [|done].
    unfold EchoText.encode_into. cbn. f_equal. apply String.list_byte_of_string_of_list_byte.
Qed.

Lemma echo_text_roundtrip_witness :
  EchoText.decode (H := list_contract) (fun _ => "bad"%string) [x68; x69] = Ok "hi"%string.
Proof.
  destruct (echo_text_roundtrip (H := list_contract) (fun _ => "bad"%string) "hi" [] [])
    as [(encoded & E & _ & Hd) _].
  injection E as <-. exact (Hd eq_refl).
Defined.
