(* ===== verification/Host.v ===== *)
(** * What the scenarios and examples run on

    The surroundings of the programs under [examples/] and [*/examples/]: how a peer starts to listen
    and stops ([test-support/src/peer/] and [echo_server.rs]), ports that refuse
    ([test-support/src/setup/closed_port.rs]), the log interceptors share, and the steps every
    program makes: building a client, one call of the fixture.

    Sockets, spawned tasks and the process are input and output (classes [Host] and [Logs]); TLS is a
    crate's ([TlsHost]), and which configuration a peer asks of it is here ([tls_config]).  What the
    spawned accept loops do is in [Accepting]. *)

From S2P Require Import Prelude Text Contract Interceptors Channel Pki Endpoint EgressBuilder RetryConfig BreakerConfig Resilience Peer Fixtures.
From Stdlib Require Import NArith Lia Strings.Byte.
From stdpp Require Import base tactics strings option list.

Class Host (W : Type) := {
  (** [tokio::net::TcpListener]; an address is its text, and so is an [io::Error]. *)
  TcpListener : Type;
  tcp_bind : string -> eff W (Result TcpListener string);
  local_addr : TcpListener -> W -> Result string string;
  listener_drop : TcpListener -> eff W unit;
  (** The shared record of requests. *)
  RequestLog : Type;
  requests_new : eff W RequestLog;
  recorded_in : RequestLog -> W -> list RecordedRequest;
  (** [tokio::spawn] of the accept loop of a peer, and [JoinHandle::abort]. *)
  JoinHandle : Type;
  spawn_accept : TcpListener -> PeerBehaviour -> RequestLog -> eff W JoinHandle;
  abort : JoinHandle -> eff W unit;
  (** [socket2::Socket]: a TCP socket, bound to any port of [127.0.0.1]; the port of its address, if
      that is an internet address. *)
  Socket : Type;
  SockAddr : Type;
  socket_new : eff W (Result Socket string);
  bind_loopback : Socket -> eff W (Result unit string);
  socket_addr : Socket -> W -> Result SockAddr string;
  internet_port : SockAddr -> option N;
  socket_drop : Socket -> eff W unit;
}.

(** The TLS crate's stores of roots, verifiers and server configurations, and the accept loop of a
    peer with one; errors are their texts. *)
Class TlsHost (W : Type) `{RcgenSvc W} `{Host W} := {
  RootCertStore : Type;
  ClientVerifier : Type;
  ServerConfig : Type;
  roots_empty : RootCertStore;
  roots_add : RootCertStore -> list byte -> Result RootCertStore string;
  verifier_build : RootCertStore -> Result ClientVerifier string;
  (** With the verifier of client certificates, when they are asked for. *)
  with_single_cert : option ClientVerifier -> list (list byte) -> PrivateKeyDer -> Result ServerConfig string;
  set_alpn_protocols : ServerConfig -> list (list byte) -> ServerConfig;
  spawn_tls_accept : TcpListener -> PeerBehaviour -> RequestLog -> ServerConfig -> eff W JoinHandle;
}.

(** ** A peer that listens *)

(** [RunningPeer], with what its clients are told of it ([Peer.RunningPeer]). *)
Record Server `{Host W} := listening {
  running : RunningPeer;
  server_requests : RequestLog;
  accept_loop : JoinHandle;
}.
Arguments Server {_ _}.
Arguments listening {_ _}.

Section listening.
Context {W : Type} `{!Host W}.

(** A value that is dropped where the rest fails. *)
Definition or_drop {A} (drop : eff W unit) (r : Result A string) : eff W (Result A string) :=
  match r with Ok a => ret (Ok a) | Err e => drop ;;; ret (Err e) end.

(** [PeerServer::serve]; the loop it spawns is given. *)
Definition serve (spawn : TcpListener -> RequestLog -> eff W JoinHandle) : eff W (Result Server string) :=
  let!? listener := tcp_bind "127.0.0.1:0" in
  let!? addr := fun w => or_drop (listener_drop listener) (local_addr listener w) w in
  let! requests := requests_new in
  let! accept_loop := spawn listener requests in
  ret (Ok (listening (running_peer addr) requests accept_loop)).

Definition peer_start (behaviour : PeerBehaviour) : eff W (Result Server string) :=
  serve (fun listener requests => spawn_accept listener behaviour requests).

(** [get_recorded_requests], and the drop. *)
Definition recorded (s : Server) (w : W) : list RecordedRequest := recorded_in (server_requests s) w.
Definition peer_drop (s : Server) : eff W unit := abort (accept_loop s).

(** *** A port that refuses *)

Record ClosedPort := closed_port {
  get_port : N;
  held : Socket;
}.

Definition reserve : eff W (Result ClosedPort string) :=
  let!? socket := socket_new in
  let!? _ := (let! r := bind_loopback socket in or_drop (socket_drop socket) r) in
  let!? addr := fun w => or_drop (socket_drop socket) (socket_addr socket w) w in
  let!? port := or_drop (socket_drop socket)
    (ok_or (internet_port addr) "the bound address is not an internet address") in
  ret (Ok (closed_port port socket)).
End listening.

(** ** A TLS peer *)

Inductive TlsServerMode := ServerAuthOnly | ClientAuthRequired.

Section tls.
Context {W : Type} `{!RcgenSvc W} `{!Host W} `{!TlsHost W}.

Fixpoint add_roots (roots : RootCertStore) (certs : list (list byte)) : Result RootCertStore string :=
  match certs with
  | [] => Ok roots
  | cert :: certs => let? roots := roots_add roots cert in add_roots roots certs
  end.

Definition client_verifier (pki : TestPki W) (mode : TlsServerMode) : Result (option ClientVerifier) string :=
  match mode with
  | ServerAuthOnly => Ok None
  | ClientAuthRequired =>
      let? roots := add_roots roots_empty (get_client_roots pki) in
      let? verifier := verifier_build roots in
      Ok (Some verifier)
  end.

(** What the acceptor of [PeerServer::start_tls] is made with, and the peer.  That a TLS provider is
    installed is the process's. *)
Definition tls_config (pki : TestPki W) (mode : TlsServerMode) : Result ServerConfig string :=
  let? verifier := client_verifier pki mode in
  let? config := with_single_cert verifier (get_server_chain pki) (get_server_key pki) in
  Ok (set_alpn_protocols config [String.list_byte_of_string "h2"]).

Definition peer_start_tls (behaviour : PeerBehaviour) (pki : TestPki W) (mode : TlsServerMode) :
    eff W (Result Server string) :=
  let!? config := ret (tls_config pki mode) in
  serve (fun listener requests => spawn_tls_accept listener behaviour requests config).
End tls.

(** [Arc<Mutex<Vec<String>>>]. *)
Class Logs (W : Type) := {
  Log : Type;
  new_log : eff W Log;
  push_log : Log -> string -> W -> W;
  read_log : Log -> W -> list string;
}.

(** [ClosedPort::get_endpoint]. *)
Definition closed_endpoint (port : N) : string := "http://127.0.0.1:" +:+ decimal port.

Section programs.
Context `{Contract} `{MethodPaths} `{TransportOptions} {W T : Type}.
Context `{!Engine W T} `{!LoadbalancerSvc W} `{!Host W} (ct : ClientType W T).
Context (fs_read : string -> eff W (Result (list byte) string)).
Context (call_error_to_string : CallError -> string).

(** A pure reading of the state. *)
Definition look {V A} (f : V -> A) : may_panic V A BoxError := fun v => (Some (Ok (f v)), v).

(** [EchoServer::start_with] and its readers. *)
Definition server_start (behaviour : PeerBehaviour) : may_panic W Server BoxError :=
  no_panic (let! r := peer_start behaviour in ret (map_err FromText r)).
Definition server_endpoint (s : Server) : string := get_endpoint (running s).
Definition count_requests (s : Server) (w : W) : nat := EchoServer.count_requests (recorded s w).
Definition get_last_header (s : Server) (name : string) (w : W) : option string :=
  EchoServer.get_last_header (recorded s w) name.
Definition is_last_message_compressed (s : Server) (w : W) : bool :=
  EchoServer.is_last_message_compressed (recorded s w).

(** [TonicGrpcEgressBuilderSpiFactory]. *)
Record TonicGrpcEgressBuilderSpiFactory := spi_factory { factory_endpoint : string }.
Definition factory_build (self : TonicGrpcEgressBuilderSpiFactory) : GrpcEgressBuilderImpl (W := W) :=
  builder_from (factory_endpoint self).

(** The fluent calls on a new builder. *)
Definition builder_with (endpoint : string) (options : list egress_option) :
    GrpcEgressBuilderImpl (W := W) :=
  fold_left with_option options (factory_build (spi_factory endpoint)).

(** [builder.build()?]. *)
Definition try_build (builder : GrpcEgressBuilderImpl (W := W)) : may_panic W (Client W) BoxError :=
  let! built := build ct fs_read call_error_to_string builder in
  ret (map_err FromChannel <$> built).
End programs.

(** One raw call of the fixture on any client: its path, its message and its options. *)
Definition send `{Contract} `{MethodPaths} {V} (c : Client V) (method : string) (body : list byte)
    (timeout : Duration) (metadata : Metadata) :
    may_panic V (Result (CallResponse (list byte) (r_metadata (raw c))) CallError) BoxError :=
  match CallFixture.path method with
  | None => ret None
  | Some path =>
      let '(message, options) := CallFixture.request_with body timeout metadata in
      no_panic (let! r := call_raw (raw c) path message options in ret (Ok r))
  end.

(** The result of a call that has to work. *)
Definition expect `{Contract} `{MethodPaths} {V R} (r : Result R CallError) : may_panic V R BoxError :=
  pure_result (map_err FromCall r).

(** A part of a program that runs on a decorator's state too. *)
Definition with_state `{Contract} `{MethodPaths} {F V A} (f : F) (m : may_panic (F * V) A BoxError) :
    may_panic V A BoxError := fun v =>
  let '(r, (_, v')) := m (f, v) in (r, v').
