(* ===== verification/Wire.v ===== *)
(** * What happens on the wire

    What the scenarios need of the engine, the pools and the operating system ([Wire], [WireLaws]): a
    client made for an endpoint sends a call as one HTTP/2 request to the peer that listens there,
    with the call's headers and the message in one frame, and reads the peer's answer by the gRPC
    protocol, within the limits and the deadline it was made with.  That a call is answered at once is
    relied on only for a small one: its message and the answer fit in the window HTTP/2 opens with
    ([WINDOW]), its headers in what every server takes ([HEADERS]).  A pool takes its backends in turn,
    one that is blamed for a failure being passed over until a call to it succeeds.  What the peer records and answers is [Peer]'s.  From these laws: what a call through a built
    client does ([build_run], [exchange]). *)

From S2P Require Import Prelude Text Bytes Contract Metadata Interceptors Intercepted InterceptedSpec Channel Pki Endpoint EgressBuilder Frames Peer Fixtures Stack Host.
From Stdlib Require Import NArith Lia Strings.Byte.
From stdpp Require Import base tactics strings option list.

Open Scope N_scope.

(** The options of an engine client that show on the wire. *)
Record WireOptions `{TransportOptions} := wire_options {
  wire_endpoint : string;
  wire_compression : option Compression;
  wire_timeout : option Duration;
  wire_limit : option N;
  wire_send_limit : option N;
  wire_tls : option TlsSettings;
}.
Arguments wire_options {_}.

Section setters.
Context `{TransportOptions}.
Implicit Types (o : WireOptions).

Definition set_wire_compression o (c : Compression) : WireOptions :=
  wire_options (wire_endpoint o) (Some c) (wire_timeout o) (wire_limit o) (wire_send_limit o) (wire_tls o).
Definition set_wire_timeout o (d : Duration) : WireOptions :=
  wire_options (wire_endpoint o) (wire_compression o) (Some d) (wire_limit o) (wire_send_limit o)
    (wire_tls o).
Definition set_wire_limit o (n : N) : WireOptions :=
  wire_options (wire_endpoint o) (wire_compression o) (wire_timeout o) (Some n) (wire_send_limit o)
    (wire_tls o).
Definition set_wire_send_limit o (n : N) : WireOptions :=
  wire_options (wire_endpoint o) (wire_compression o) (wire_timeout o) (wire_limit o) (Some n)
    (wire_tls o).
Definition set_wire_tls o (s : TlsSettings) : WireOptions :=
  wire_options (wire_endpoint o) (wire_compression o) (wire_timeout o) (wire_limit o) (wire_send_limit o)
    (Some s).
End setters.

(** The bytes a message may have when no limit is set: 4 MiB. *)
Definition DEFAULT_LIMIT : N := 4194304.

(** How many bytes HTTP/2 lets a side send before the other has to answer, and how many of a call's own
    headers, counted as HPACK does, every server takes. *)
Definition WINDOW : N := 65535.
Definition HEADERS : N := 8192.

Definition entries_size {A} (size : A -> N) (l : list (string * A)) : N :=
  foldr (fun e n => N.of_nat (str_len e.1) + size e.2 + 32 + n) 0 l.

Definition texts_size : list (string * string) -> N := entries_size (fun v => N.of_nat (str_len v)).

(** A header the protocol leaves to the caller. *)
Definition custom (k : string) : bool :=
  negb (String.prefix "grpc-" k) && negb (bool_decide (k ∈ ["content-type"; "te"; "user-agent"])).

Section wire.
Context `{HC : Contract} `{HM : !MetadataLaws} `{HT : TransportOptions} `{HH : Http}.
Context {W T : Type} `{HE : !Engine W T} `{HLb : !LoadbalancerSvc W} `{HHost : !Host W} `{HL : !Logs W}.
Context (ct : ClientType W T).

Class Wire := {
  (** What a factory's options say, and those a client was made with. *)
  options_of : Factory -> WireOptions;
  made_with : T -> WireOptions;
  factory_new url : options_of (with_endpoint tonic_dual_builder url) = wire_options url None None None None None;
  factory_compression f c : options_of (with_send_compression f c) = set_wire_compression (options_of f) c;
  factory_timeout f d : options_of (with_timeout f d) = set_wire_timeout (options_of f) d;
  factory_limit f n : options_of (with_max_decoding_message_size f n) = set_wire_limit (options_of f) n;
  factory_tls f s : options_of (with_tls f s) = set_wire_tls (options_of f) s;
  factory_send_limit f n :
    options_of (with_max_encoding_message_size f n) = set_wire_send_limit (options_of f) n;
  factory_accept_same f c : options_of (with_accept_compression f c) = options_of f;
  factory_interval_same f d : options_of (with_http2_keep_alive_interval f d) = options_of f;
  factory_keep_alive_same f d : options_of (with_keep_alive_timeout f d) = options_of f;
  factory_idle_same f b : options_of (with_keep_alive_while_idle f b) = options_of f;
  (** A peer that listens and answers as told, and a port on which nothing listens. *)
  up : Server -> PeerBehaviour -> W -> Prop;
  closed : N -> W -> Prop;
  (** A listener nobody accepts on yet, at its address; a record nobody writes to. *)
  bound : TcpListener -> string -> W -> Prop;
  vacant : RequestLog -> W -> Prop;
  (** The URLs a pool takes next, in order. *)
  turn : BackendPoolInstance -> W -> list string;
  (** The time, and what one step adds to it at most. *)
  time : W -> N;
  slack : N;
  compress : Compression -> list byte -> list byte;
  encoding_name : Compression -> string;
}.

Context `{!Wire}.

(** Nothing but the servers of [S] and the pools of [P] has changed. *)
Record touches (S : Server -> Prop) (P : BackendPoolInstance -> Prop) (w w' : W) : Prop := {
  touched_peers s b : ~ S s -> up s b w -> up s b w' /\ recorded s w' = recorded s w;
  touched_logs l : read_log l w' = read_log l w;
  touched_pools p : ~ P p -> turn p w' = turn p w;
  touched_ports port : closed port w -> closed port w';
}.

Definition undisturbed : W -> W -> Prop := touches (fun _ => False) (fun _ => False).

(** How many bytes a message may have for [t], and whether a call has more time than a peer that does
    not wait takes. *)
Definition limit (t : T) : N := default DEFAULT_LIMIT (wire_limit (made_with t)).
Definition prompt (t : T) (options : CallOptions) : Prop :=
  (forall d, wire_timeout (made_with t) = Some d -> slack < d) /\
  (forall d, get_timeout options = Some d -> slack < d).

(** The message as it travels, and what a peer answers to it. *)
Definition payload_of (t : T) (message : list byte) : list byte :=
  match wire_compression (made_with t) with None => message | Some c => compress c message end.

(** A call that is small enough to be done in one step: what is sent and answered fits in the window and
    the client's own limit, the headers in what a server takes. *)
Definition weight (m : Metadata) : N := texts_size (text m) + entries_size blen (binary m).

Definition slight (path : string) (metadata : Metadata) : Prop :=
  N.of_nat (str_len path) + weight metadata <= HEADERS.

(** Metadata with no entries, as the default has none. *)
Definition empty_metadata (m : Metadata) : Prop := built m /\ text m = [] /\ binary m = [].

Definition brief (b : PeerBehaviour) : Prop :=
  match b with
  | Reply p => blen p <= WINDOW
  | ReplyCompressed encoding p =>
      blen p <= WINDOW /\ N.of_nat (default 0%nat (str_len <$> encoding)) <= 1024
  | ReplyStatus status message _ =>
      N.of_nat (str_len status + default 0 (str_len <$> message))%nat <= 1024
  | ReplyRaw body encoding =>
      blen body <= WINDOW /\ N.of_nat (default 0%nat (str_len <$> encoding)) <= 1024
  | Echo | Delay _ => True
  end.

Record modest (t : T) (b : PeerBehaviour) (path : string) (message : list byte) (metadata : Metadata) :
    Prop := {
  modest_message : blen (payload_of t message) <= WINDOW;
  modest_limit n : wire_send_limit (made_with t) = Some n -> blen (payload_of t message) <= n;
  modest_answer : brief b;
  modest_headers : slight path metadata;
}.

Definition answer_of (b : PeerBehaviour) (payload : list byte) : option (list byte) :=
  match b with Echo => Some payload | Reply p => Some p | _ => None end.

(** The request of a call through [t]. *)
Record sends (t : T) (path : string) (message : list byte) (metadata : Metadata)
    (request : HttpRequest) : Prop := {
  sends_path : uri_path request = path;
  sends_body : request_body request = Some
    (match wire_compression (made_with t) with
     | None => Frames.encode message
     | Some c => encode_compressed (compress c message)
     end);
  sends_headers k : valid_key k = true -> custom k = true ->
    readable (norm k) (request_headers request) = values metadata k;
  sends_encoding : readable "grpc-encoding" (request_headers request)
    = option_list (encoding_name <$> wire_compression (made_with t));
}.

(** How a client reads an answer: one uncompressed message and the status 0 after it, unless it is
    too long, or a status in the headers. *)
Definition reads (t : T) (path : string) (response : HttpResponse)
    (r : Result (CallResponse (list byte) (cr_metadata ct)) CallError) : Prop :=
  (forall m content status,
     response = http_response 200 [("content-type", content)] (Frames.encode m)
                  (Some [("grpc-status", status)]) ->
     value_to_str content = Some "application/grpc" -> value_to_str status = Some "0" ->
     blen m < U32 ->
     if blen m <=? limit t
     then exists h t, r = Ok (call_response m h t) /\
       is_ok (copy (cr_view ct) h) = true /\ is_ok (copy (cr_view ct) t) = true
     else exists text details trailers, r = Err (Status path OutOfRange text details trailers)) /\
  (readable "grpc-status" (response_headers response) = ["14"] ->
     exists text details trailers, r = Err (Status path Unavailable text details trailers)).

Class WireLaws := {
  (** A listener gets an address that nobody has, and the accept loop that is spawned on it answers. *)
  bind_up w : exists l a w', tcp_bind "127.0.0.1:0" w = (Ok l, w') /\ bound l a w' /\
    undisturbed w w' /\ time w <= time w' /\ is_ascii a = true /\
    (forall s b, up s b w -> addr (running s) <> a) /\
    (forall port, closed port w -> closed_endpoint port <> get_endpoint (running_peer a)) /\
    uri_parses (get_endpoint (running_peer a)) = true;
  local_addr_up l a w : bound l a w -> local_addr l w = Ok a;
  requests_up w : exists r w', requests_new w = (r, w') /\ vacant r w' /\
    (forall l a, bound l a w -> bound l a w') /\ undisturbed w w' /\ time w <= time w';
  accept_up l a b r w : bound l a w -> vacant r w ->
    exists h w', spawn_accept l b r w = (h, w') /\ recorded_in r w' = [] /\
      up (listening (running_peer a) r h) b w' /\ undisturbed w w' /\ time w <= time w';
  (** A port that is bound and not listened on refuses. *)
  socket_up w : exists s w', socket_new w = (Ok s, w') /\ undisturbed w w';
  loopback_up s w : exists a port w', bind_loopback s w = (Ok tt, w') /\ undisturbed w w' /\
    socket_addr s w' = Ok a /\ internet_port a = Some port /\ closed port w' /\
    uri_parses (closed_endpoint port) = true;
  build_up f w : plaintext (wire_endpoint (options_of f)) = true -> wire_tls (options_of f) = None ->
    exists t w', engine_build f w = (Ok t, w') /\ made_with t = options_of f /\
      undisturbed w w' /\ time w <= time w';
  call_up t s b path message options w :
    up s b w -> wire_endpoint (made_with t) = get_endpoint (running s) ->
    match b with Delay _ => False | _ => True end -> prompt t options ->
    modest t b path message (get_metadata options) ->
    exists request r w',
      cr_call_raw ct t path message options w = (r, w') /\
      sends t path message (get_metadata options) request /\
      reads t path (response_for b (frames_of request)) r /\
      recorded s w' = recorded s w ++ [record_of request] /\
      up s b w' /\ touches (eq s) (fun _ => False) w w' /\
      time w <= time w' <= time w + slack;
  (** A peer that takes longer than the call has. *)
  call_late t s wait path message options w d :
    up s (Delay wait) w -> wire_endpoint (made_with t) = get_endpoint (running s) ->
    wire_timeout (made_with t) = Some d \/ get_timeout options = Some d -> d + slack < wait ->
    modest t (Delay wait) path message (get_metadata options) ->
    exists text details trailers w',
      cr_call_raw ct t path message options w
      = (Err (Status path DeadlineExceeded text details trailers), w');
  call_closed t port path message options w :
    closed port w -> wire_endpoint (made_with t) = closed_endpoint port -> prompt t options ->
    exists reason w',
      cr_call_raw ct t path message options w = (Err (Transport_ path Unavailable reason), w') /\
      undisturbed w w' /\ time w <= time w' <= time w + slack;
  log_new w : exists l w', new_log w = (l, w') /\ read_log l w' = [] /\
    (forall s b, up s b w -> up s b w' /\ recorded s w' = recorded s w);
  log_push l x w : read_log l (push_log l x w) = read_log l w ++ [x] /\
    (forall s b, up s b w -> up s b (push_log l x w) /\ recorded s (push_log l x w) = recorded s w);
  encoding_names : encoding_name Gzip = "gzip" /\ encoding_name Zstd = "zstd";
}.
End wire.
Arguments Wire {HT} W T {HE HLb HHost}.

(** ** Pools and TLS *)

Section more_laws.
Context `{HC : Contract} `{HM : !MetadataLaws} `{HT : TransportOptions} `{HH : Http}.
Context {W T : Type} `{HE : !Engine W T} `{HLb : !LoadbalancerSvc W} `{HHost : !Host W} `{HL : !Logs W}.
Context (ct : ClientType W T) `{HW : !Wire W T}.

Notation one_pool := (touches (fun _ => False)).

(** A typed call sends the encoding of its message and decodes the answer. *)
Class TypedLaws := {
  typed_up t s b (M : Method) message options w body answer m :
    up s b w -> wire_endpoint (made_with t) = get_endpoint (running s) -> prompt t options ->
    encode_into (request_payload M) message [] = Ok body ->
    modest t b (PATH M) body (get_metadata options) ->
    answer_of b (payload_of t body) = Some answer -> blen answer <= limit t ->
    decode (response_payload M) answer = Ok m ->
    exists h ts w',
      ct_call ct t M message options w = (Ok (call_response m h ts), w') /\
      is_ok (copy (ct_view ct) h) = true /\ is_ok (copy (ct_view ct) ts) = true /\
      up s b w' /\ touches (eq s) (fun _ => False) w w' /\ time w <= time w' <= time w + slack;
}.

(** A round robin over the backends it was built with. The one that is blamed for a failure is left out
    until a call to it succeeds; a success of one that is in turn changes nothing. *)
Class PoolLaws := {
  pool_built backends w : backends <> [] ->
    exists p w', build_pool {| Lb.strategy := Lb.RoundRobin; Lb.backends := backends |} w = (Ok p, w') /\
      turn p w' = Lb.url <$> backends /\ one_pool (eq p) w w';
  select_turn p url rest w : turn p w = url :: rest ->
    exists b w', select p w = (Ok b, w') /\ backend_url b = url /\
      turn p w' = rest ++ [url] /\ one_pool (eq p) w w';
  report_success p b w :
    let w' := (report_outcome p (backend_id b) Lb.Success w).2 in
    (backend_url b ∈ turn p w -> turn p w' = turn p w) /\ one_pool (eq p) w w';
  report_failure p b reason w :
    let w' := (report_outcome p (backend_id b) (Lb.Failure reason) w).2 in
    turn p w' = filter (fun url => url <> backend_url b) (turn p w) /\ one_pool (eq p) w w';
}.

Context `{HR : !RcgenSvc W} `{HD : !Disk W} `{HTls : !TlsHost W}.
Context (fs_read : string -> eff W (Result (list byte) string)).

(** The TLS crate takes what the certificate crate made; a peer with the certificate of the fixture
    answers the clients that trust the authority and show a certificate the authority signed. *)
Class TlsLaws := {
  pki_up w : exists pki w', pki_create w = (Ok pki, w');
  roots_take roots c : exists roots', roots_add roots (cert_der c) = Ok roots' /\
    is_ok (verifier_build roots') = true;
  server_takes verifier server key k params issuer w w' :
    signed_by params k issuer w = (Ok server, w') -> private_key_der_try_from (serialize_der k) = Ok key ->
    is_ok (with_single_cert verifier [cert_der server] key) = true;
  up_tls : Server -> PeerBehaviour -> ServerConfig -> W -> Prop;
  bind_keeps files a w : on_disk fs_read files w -> on_disk fs_read files (tcp_bind a w).2;
  requests_keep files w : on_disk fs_read files w -> on_disk fs_read files (requests_new w).2;
  accept_tls_up l a b r config files w : bound l a w -> vacant r w -> on_disk fs_read files w ->
    exists h w', spawn_tls_accept l b r config w = (h, w') /\
      up_tls (listening (running_peer a) r h) b config w' /\ on_disk fs_read files w';
  build_tls_up f settings w :
    plaintext (wire_endpoint (options_of f)) = false -> wire_tls (options_of f) = Some settings ->
    exists t w', engine_build f w = (Ok t, w') /\ made_with t = options_of f /\
      forall s b config, up_tls s b config w -> up_tls s b config w';
  call_tls_up t s b config pki ca_key server_key client_key ca server client path message options w m :
    up_tls s b config w -> tls_config pki ClientAuthRequired = Ok config ->
    issued pki ca_key server_key client_key ca server client ->
    wire_endpoint (made_with t) = get_https_endpoint (running s) ->
    wire_tls (made_with t) = Some (client_tls ca client client_key) -> prompt t options ->
    modest t b path message (get_metadata options) -> answer_of b (payload_of t message) = Some m ->
    blen m <= limit t ->
    exists h ts w', cr_call_raw ct t path message options w = (Ok (call_response m h ts), w') /\
      is_ok (copy (cr_view ct) h) = true /\ is_ok (copy (cr_view ct) ts) = true;
}.

(** So the configuration of a peer with the fixture's certificates is made. *)
Lemma tls_config_made `{!TlsLaws} pki ca_key server_key client_key ca server client :
  issued pki ca_key server_key client_key ca server client ->
  exists config, tls_config pki ClientAuthRequired = Ok config.
Proof.
  intros Hi. destruct (issued_ca _ _ _ _ _ _ _ Hi) as (params & w & w' & _ & _ & (names & v & v' & _ & Hs) & _).
  unfold tls_config, client_verifier. rewrite (issued_roots _ _ _ _ _ _ _ Hi), (issued_chain _ _ _ _ _ _ _ Hi).
  cbn [add_roots]. destruct (roots_take roots_empty ca) as (roots & -> & Hv). cbn [rbind].
  destruct (verifier_build roots) as [verifier|]; [|done]. cbn [rbind].
  pose proof (server_takes (Some verifier) _ _ _ _ _ _ _ Hs (issued_key _ _ _ _ _ _ _ Hi)) as Hc.
  destruct (with_single_cert _ _ _); [by eexists|done].
Qed.

(** And a peer with it is started. *)
Lemma start_tls_up `{!WireLaws ct} `{!TlsLaws} b pki mode config files w :
  tls_config pki mode = Ok config -> on_disk fs_read files w ->
  exists s w', peer_start_tls b pki mode w = (Ok s, w') /\ up_tls s b config w' /\
    on_disk fs_read files w' /\ is_ascii (addr (running s)) = true.
Proof.
  intros Ec Hf. pose proof (bind_keeps files "127.0.0.1:0" w Hf) as Hf1.
  destruct (bind_up ct w) as (l & a & w1 & E1 & Hl & _ & _ & Ha & _). rewrite E1 in Hf1. cbn in Hf1.
  pose proof (requests_keep files w1 Hf1) as Hf2.
  destruct (requests_up ct w1) as (r & w2 & E2 & Hr & Hkeep & _). rewrite E2 in Hf2. cbn in Hf2.
  destruct (accept_tls_up l a b r config files w2 (Hkeep l a Hl) Hr Hf2) as (h & w3 & E3 & Hup & Hf3).
  exists (listening (running_peer a) r h), w3. split_and!; [|done..].
  unfold peer_start_tls, serve, bindr, bind, ret. rewrite Ec, E1, (local_addr_up ct l a w1 Hl). cbn.
  by rewrite E2, E3.
Qed.
End more_laws.

(** ** Running a program *)

Lemma bindp_run {V A B E} (m : may_panic V A E) (k : A -> may_panic V B E) v a v' :
  m v = (Some (Ok a), v') -> bindp m k v = k a v'.
Proof. intros Hm. unfold bindp, bind. by rewrite Hm. Qed.

Lemma bindp_pure {V A B E} (a : A) (k : A -> may_panic V B E) v :
  bindp (pure_result (Ok a)) k v = k a v.
Proof. reflexivity. Qed.

(** ** Lemmas *)

Lemma get_endpoint_plaintext p :
  is_ascii (addr p) = true ->
  plaintext (get_endpoint p) = true /\ cuts_character (get_endpoint p) = false.
Proof.
  intros Ha. unfold get_endpoint. split.
  - unfold plaintext. rewrite to_ascii_lowercase_app. apply (Text.prefix_app "http://").
  - unfold cuts_character. apply andb_false_intro2. apply negb_false_iff.
    apply ascii_boundary; [|rewrite str_len_app; cbn; lia].
    unfold is_ascii in *. cbn. done.
Qed.

Section lemmas.
Context `{HC : Contract} `{HM : !MetadataLaws} `{HO : !OptionsLaws} `{HT : TransportOptions}.
Context `{HH : Http} `{HHL : !HttpLaws} `{HP : MethodPaths}.
Context {W T : Type} `{HE : !Engine W T} `{HLb : !LoadbalancerSvc W} `{HHost : !Host W} `{HLog : !Logs W}.
Context (ct : ClientType W T) `{HW : !Wire W T} `{HWL : !WireLaws ct}.
Context (fs_read : string -> eff W (Result (list byte) string)).
Context (call_error_to_string : CallError -> string).

(** *** What a step leaves alone *)

Lemma touches_trans S P w1 w2 w3 : touches S P w1 w2 -> touches S P w2 w3 -> touches S P w1 w3.
Proof.
  intros H1 H2. split.
  - intros s b Hs Hup. destruct (touched_peers _ _ _ _ H1 s b Hs Hup) as [Hup2 E1].
    destruct (touched_peers _ _ _ _ H2 s b Hs Hup2) as [? E2]. split; [done|congruence].
  - intros l. by rewrite (touched_logs _ _ _ _ H2), (touched_logs _ _ _ _ H1).
  - intros p Hp. by rewrite (touched_pools _ _ _ _ H2), (touched_pools _ _ _ _ H1).
  - intros port Hc. by apply (touched_ports _ _ _ _ H2), (touched_ports _ _ _ _ H1).
Qed.

Lemma touches_weaken (S S' : Server -> Prop) (P P' : BackendPoolInstance -> Prop) w w' :
  (forall s, S s -> S' s) -> (forall p, P p -> P' p) -> touches S P w w' -> touches S' P' w w'.
Proof.
  intros HS HP' H. split; [|apply H| |apply H].
  - intros s b Hs. apply (touched_peers _ _ _ _ H). eauto.
  - intros p Hp. apply (touched_pools _ _ _ _ H). eauto.
Qed.

Lemma undisturbed_trans w1 w2 w3 : undisturbed w1 w2 -> undisturbed w2 w3 -> undisturbed w1 w3.
Proof. apply touches_trans. Qed.

Lemma undisturbed_refl w : undisturbed w w.
Proof. by split. Qed.

Lemma undisturbed_up s b w w' :
  undisturbed w w' -> up s b w -> up s b w' /\ recorded s w' = recorded s w.
Proof. intros H. apply (touched_peers _ _ _ _ H). tauto. Qed.

(** A peer that is started is up, at an address of its own, with nothing recorded. *)
Lemma start_up b w :
  exists s w', peer_start b w = (Ok s, w') /\ up s b w' /\ recorded s w' = [] /\
    undisturbed w w' /\ time w <= time w' /\ is_ascii (addr (running s)) = true /\
    (forall s' b', up s' b' w -> addr (running s') <> addr (running s)) /\
    (forall port, closed port w -> closed_endpoint port <> get_endpoint (running s)) /\
    uri_parses (get_endpoint (running s)) = true.
Proof.
  destruct (bind_up ct w) as (l & a & w1 & E1 & Hl & Hd1 & Ht1 & Ha & Hnew & Hport & Hu).
  destruct (requests_up ct w1) as (r & w2 & E2 & Hr & Hkeep & Hd2 & Ht2).
  destruct (accept_up ct l a b r w2 (Hkeep l a Hl) Hr) as (h & w3 & E3 & Hrec & Hup & Hd3 & Ht3).
  exists (listening (running_peer a) r h), w3. split_and!; try done; [| |lia].
  - unfold peer_start, serve, bindr, bind, ret. rewrite E1, (local_addr_up ct l a w1 Hl). cbn.
    by rewrite E2, E3.
  - by do 2 (eapply undisturbed_trans; [eassumption|]).
Qed.

(** A port that is reserved refuses. *)
Lemma reserve_up w :
  exists p w', reserve w = (Ok p, w') /\ closed (get_port p) w' /\
    undisturbed w w' /\ uri_parses (closed_endpoint (get_port p)) = true.
Proof.
  destruct (socket_up ct w) as (s & w1 & E1 & Hd1).
  destruct (loopback_up ct s w1) as (a & port & w2 & E2 & Hd2 & Ea & Ep & Hc & Hu).
  exists (closed_port port s), w2. split_and!; [|done| |done].
  - unfold reserve, bindr, bind, ret. rewrite E1, E2. cbn. rewrite Ea. cbn. by rewrite Ep.
  - by eapply undisturbed_trans.
Qed.

Lemma server_run b w :
  exists s w', server_start b w = (Some (Ok s), w') /\ up s b w' /\ recorded s w' = [] /\
    undisturbed w w' /\ time w <= time w' /\ is_ascii (addr (running s)) = true /\
    (forall s' b', up s' b' w -> addr (running s') <> addr (running s)) /\
    (forall port, closed port w -> closed_endpoint port <> get_endpoint (running s)) /\
    uri_parses (get_endpoint (running s)) = true.
Proof.
  destruct (start_up b w) as (s & w' & E & H). exists s, w'.
  unfold server_start, no_panic, bind, ret. by rewrite E.
Qed.

(** *** Building *)

(** A builder whose clients have plaintext endpoints, which are allowed, enough time for a call and
    room for the answers of the scenarios. *)
Record plain_builder_ok (self : GrpcEgressBuilderImpl (W := W)) : Prop := {
  ok_values : check_values self = Ok tt;
  ok_tls : tls self = None;
  ok_plaintext : plaintext_allowed self = true;
  ok_timeout : from_millis 100 < request_timeout self;
  ok_limit : 1024 <= default DEFAULT_LIMIT (max_decoding_message_size self);
  ok_send : 1024 <= default DEFAULT_LIMIT (max_encoding_message_size self);
}.

(** The options of the builder, as the factory carries them. *)
Definition options_for (self : GrpcEgressBuilderImpl (W := W)) (url : string)
    (tls : option TlsSettings) : WireOptions :=
  wire_options url (send_compression self) (Some (request_timeout self))
    (max_decoding_message_size self) (max_encoding_message_size self) tls.

(** What a client of the builder is made with, without TLS. *)
Definition made_by (self : GrpcEgressBuilderImpl (W := W)) (url : string) (t : T) : Prop :=
  made_with t = options_for self url None.

Lemma options_of_factory self url tls plaintext :
  options_of (factory_for (W := W) (T := T) self url tls plaintext)
  = options_for self url (if plaintext : bool then None else Some tls).
Proof.
  unfold factory_for.
  set (f0 := with_timeout (with_endpoint tonic_dual_builder url) (request_timeout self)).
  assert (options_of f0 = wire_options url None (Some (request_timeout self)) None None None) as E0.
  { unfold f0. by rewrite (factory_timeout (Wire := HW)), factory_new. }
  set (f1 := when (max_decoding_message_size self) with_max_decoding_message_size f0).
  assert (options_of f1 = wire_options url None (Some (request_timeout self))
            (max_decoding_message_size self) None None) as E1.
  { unfold f1, when. destruct (max_decoding_message_size self); [by rewrite factory_limit, E0|done]. }
  set (f2 := when (max_encoding_message_size self) with_max_encoding_message_size f1).
  assert (options_of f2 = wire_options url None (Some (request_timeout self))
            (max_decoding_message_size self) (max_encoding_message_size self) None) as E2.
  { unfold f2, when. destruct (max_encoding_message_size self); [by rewrite factory_send_limit, E1|done]. }
  set (f3 := if plaintext then f2 else with_tls f2 tls).
  assert (options_of f3 = wire_options url None (Some (request_timeout self))
            (max_decoding_message_size self) (max_encoding_message_size self)
            (if plaintext then None else Some tls)) as E3.
  { unfold f3. destruct plaintext; [by rewrite E2|by rewrite factory_tls, E2]. }
  set (f4 := when (send_compression self) with_send_compression f3).
  assert (options_of f4 = options_for self url (if plaintext then None else Some tls)) as E4.
  { unfold f4, when, options_for.
    destruct (send_compression self); [by rewrite factory_compression, E3|done]. }
  set (f5 := fold_left with_accept_compression (accept_compression self) f4).
  assert (options_of f5 = options_of f4) as E5.
  { subst f5. generalize f4. induction (accept_compression self) as [|c l IH]; intros f; [done|].
    cbn [fold_left]. by rewrite IH, factory_accept_same. }
  destruct (keep_alive self);
    rewrite ?factory_idle_same, ?factory_keep_alive_same, ?factory_interval_same; by rewrite E5.
Qed.

(** The client of one plaintext URL. *)
Lemma create_run self url w :
  plain_builder_ok self -> plaintext url = true -> cuts_character url = false ->
  exists t w',
    engine_build (factory_for self url (tls_create None [] None) true) w = (Ok t, w') /\
    made_by self url t /\ undisturbed w w' /\ time w <= time w'.
Proof.
  intros Hok Hp Hcut.
  destruct (build_up ct (factory_for self url (tls_create None [] None) true) w)
    as (t & w' & Eb & Em & Hd & Htime).
  { by rewrite options_of_factory. }
  { by rewrite options_of_factory. }
  exists t, w'. split_and!; [done| |done|done]. unfold made_by. by rewrite Em, options_of_factory.
Qed.

(** *** Calls *)

(** A client of a peer: its compression, and that it has the time and the room. *)
Record talks (t : T) (s : Server) (c : option Compression) : Prop := {
  talks_to : wire_endpoint (made_with t) = get_endpoint (running s);
  talks_compression : wire_compression (made_with t) = c;
  talks_limit : 1024 <= limit t;
  talks_send n : wire_send_limit (made_with t) = Some n -> 1024 <= n;
  talks_prompt options : (forall d, get_timeout options = Some d -> slack < d) -> prompt t options;
}.

Lemma made_prompt self url t options :
  slack <= from_millis 100 -> plain_builder_ok self -> made_by self url t ->
  (forall d, get_timeout options = Some d -> slack < d) -> prompt t options.
Proof.
  intros Hs Hok Hm Ho. split; [|done]. rewrite Hm. intros d [= <-]. pose proof (ok_timeout _ Hok). lia.
Qed.

Lemma made_talks self s t :
  slack <= from_millis 100 -> plain_builder_ok self -> made_by self (get_endpoint (running s)) t ->
  talks t s (send_compression self).
Proof.
  intros Hs Hok Hm. split; [by rewrite Hm|by rewrite Hm| | |].
  - unfold limit. rewrite Hm. apply Hok.
  - rewrite Hm. intros n En. pose proof (ok_send _ Hok) as H. cbn in En. by rewrite En in H.
  - intros options. by eapply made_prompt.
Qed.

Lemma talks_payload t s c body :
  talks t s c -> payload_of t body = match c with None => body | Some c => compress c body end.
Proof. intros Ht. unfold payload_of. by rewrite (talks_compression _ _ _ Ht). Qed.

(** What a scenario sends is small enough. *)
Lemma talks_modest t s c b path message metadata :
  talks t s c -> blen (payload_of t message) <= 1024 -> brief b -> slight path metadata ->
  modest t b path message metadata.
Proof.
  intros Ht Hm Hb Hh. split; [unfold WINDOW; lia| |done|done].
  intros n Hn. pose proof (talks_send _ _ _ Ht n Hn). lia.
Qed.

Lemma modest_fits t b path message metadata :
  modest t b path message metadata -> blen (payload_of t message) < U32.
Proof. intros Hm. pose proof (modest_message _ _ _ _ _ Hm). unfold WINDOW, U32 in *. lia. Qed.

Lemma modest_answered t b path message metadata m :
  modest t b path message metadata -> answer_of b (payload_of t message) = Some m -> blen m < U32.
Proof.
  intros Hm Ha. pose proof (modest_message _ _ _ _ _ Hm) as H1. pose proof (modest_answer _ _ _ _ _ Hm) as H2.
  unfold brief, answer_of, WINDOW, U32 in *. destruct b; simplify_eq; lia.
Qed.

(** The size of headers. *)
Lemma entries_size_app {A} (size : A -> N) l l' :
  entries_size size (l ++ l') = entries_size size l + entries_size size l'.
Proof. unfold entries_size. induction l as [|e l IH]; cbn; [done|]. rewrite IH. lia. Qed.

Lemma entries_size_filter {A} (size : A -> N) (P : string * A -> Prop) `{forall e, Decision (P e)} l :
  entries_size size (filter P l) <= entries_size size l.
Proof.
  induction l as [|e l IH]; [done|]. rewrite filter_cons. case_decide; unfold entries_size in *; cbn; lia.
Qed.

Lemma empty_slight path m : empty_metadata m -> N.of_nat (str_len path) <= HEADERS -> slight path m.
Proof. intros (_ & Ht & Hb) Hp. unfold slight, weight. rewrite Ht, Hb. cbn. unfold HEADERS in *. lia. Qed.

(** Building such a client for a peer that is up. *)
Lemma build_run self s w :
  slack <= from_millis 100 -> plain_builder_ok self -> loadbalancer self = None -> endpoint self = server_endpoint s ->
  is_ascii (addr (running s)) = true ->
  exists t w',
    try_build ct fs_read call_error_to_string self w
    = (Some (Ok (single ct call_error_to_string (endpoint self) t (interceptors self))), w') /\
    talks t s (send_compression self) /\
    undisturbed w w' /\ time w <= time w' /\ made_by self (get_endpoint (running s)) t.
Proof.
  intros Hs Hok Hl He Hascii.
  destruct (get_endpoint_plaintext _ Hascii) as [Hp Hcut].
  destruct (create_run self (endpoint self) w Hok) as (t & w' & Eb & Em & Hd & Htime); [by rewrite He..|].
  rewrite He in Em at 1. exists t, w'. split_and!; [|by apply made_talks|done..].
  unfold try_build, bind, ret.
  erewrite build_single; [reflexivity|apply Hok|done|apply Hok|apply Hok| | |exact Eb]; by rewrite He.
Qed.

(** What a peer records of a call. *)
Record arrives (t : T) (path : string) (message : list byte) (metadata : Metadata)
    (request : RecordedRequest) : Prop := {
  arrives_path : recorded_path request = path;
  arrives_frames : recorded_frames request
    = [decoded_frame (bool_decide (is_Some (wire_compression (made_with t)))) (payload_of t message)];
  arrives_header k : valid_key k = true -> custom k = true -> norm k = k ->
    get_header request k = last (values metadata k);
  arrives_encoding : get_header request "grpc-encoding"
    = encoding_name <$> wire_compression (made_with t);
}.

Lemma decode_one flag body :
  blen body < U32 -> decode_all (frame flag body) = [decoded_frame (Byte.eqb flag x01) body].
Proof. intros Hfit. rewrite <- (app_nil_r (frame flag body)). by rewrite decode_frame. Qed.

Lemma frames_sent t path message metadata request :
  sends t path message metadata request -> blen (payload_of t message) < U32 ->
  frames_of request
  = [decoded_frame (bool_decide (is_Some (wire_compression (made_with t)))) (payload_of t message)].
Proof.
  intros Hs Hfit. unfold frames_of. rewrite (sends_body _ _ _ _ _ Hs). unfold payload_of in *.
  destruct (wire_compression (made_with t)) as [c|];
    [exact (decode_one x01 _ Hfit)|exact (decode_one x00 _ Hfit)].
Qed.

Lemma sends_arrives t path message metadata request :
  sends t path message metadata request -> blen (payload_of t message) < U32 ->
  arrives t path message metadata (record_of request).
Proof.
  intros Hs Hfit. split; cbn.
  - apply (sends_path _ _ _ _ _ Hs).
  - by apply (frames_sent _ _ _ _ _ Hs).
  - intros k Hk Hc Hn. unfold get_header. cbn. rewrite collect_headers_last.
    pose proof (sends_headers _ _ _ _ _ Hs k Hk Hc) as E. rewrite Hn in E. by rewrite E.
  - unfold get_header. cbn. rewrite collect_headers_last, (sends_encoding _ _ _ _ _ Hs).
    by destruct (wire_compression (made_with t)).
Qed.

(** A call to a peer that has a message for it. *)
Lemma exchange t s b path message options w m :
  up s b w -> wire_endpoint (made_with t) = get_endpoint (running s) -> prompt t options ->
  modest t b path message (get_metadata options) -> answer_of b (payload_of t message) = Some m ->
  exists request r w',
    cr_call_raw ct t path message options w = (r, w') /\
    (if blen m <=? limit t
     then exists h ts, r = Ok (call_response m h ts) /\
       is_ok (copy (cr_view ct) h) = true /\ is_ok (copy (cr_view ct) ts) = true
     else exists text details trailers, r = Err (Status path OutOfRange text details trailers)) /\
    recorded s w' = recorded s w ++ [request] /\
    arrives t path message (get_metadata options) request /\
    up s b w' /\ touches (eq s) (fun _ => False) w w' /\ time w <= time w' <= time w + slack.
Proof.
  intros Hup He Hpr Hmod Ha.
  pose proof (modest_fits _ _ _ _ _ Hmod) as Hfit. pose proof (modest_answered _ _ _ _ _ _ Hmod Ha) as Hm.
  destruct (call_up ct t s b path message options w Hup He) as
    (request & r & w' & E & Hs & [Hok _] & Hr & Hup' & Htouch & Ht).
  { by destruct b. }
  { exact Hpr. }
  { exact Hmod. }
  pose proof (frames_sent _ _ _ _ _ Hs Hfit) as Hf.
  destruct (message_response b (frames_of request)) as (content & status & Eresp & Hc & Hst).
  { by destruct b. }
  assert (reply_of b (frames_of request) = Frames.encode m) as Ereply.
  { rewrite Hf. destruct b; cbn in *; simplify_eq; by rewrite ?app_nil_r. }
  rewrite Eresp, Ereply in Hok. specialize (Hok m content status eq_refl Hc Hst Hm).
  exists (record_of request), r, w'. split_and!; try done; [by apply sends_arrives|lia..].
Qed.

(** One whose answer is short enough. *)
Lemma exchange_ok t s c b path message options w m :
  up s b w -> talks t s c -> (forall d, get_timeout options = Some d -> slack < d) ->
  blen (payload_of t message) <= 1024 -> slight path (get_metadata options) ->
  answer_of b (payload_of t message) = Some m -> blen m <= 1024 ->
  exists request h ts w',
    cr_call_raw ct t path message options w = (Ok (call_response m h ts), w') /\
    is_ok (copy (cr_view ct) h) = true /\ is_ok (copy (cr_view ct) ts) = true /\
    recorded s w' = recorded s w ++ [request] /\
    arrives t path message (get_metadata options) request /\
    up s b w' /\ touches (eq s) (fun _ => False) w w' /\ time w <= time w' <= time w + slack.
Proof.
  intros Hup Ht Hd Hfit Hhead Ha Hm. pose proof (talks_limit _ _ _ Ht) as Hl.
  assert (modest t b path message (get_metadata options)) as Hmod.
  { apply (talks_modest t s c); [done..| |done]. unfold brief, answer_of, WINDOW in *. destruct b; simplify_eq; done || lia. }
  destruct (exchange t s b path message options w m Hup (talks_to _ _ _ Ht)
    (talks_prompt _ _ _ Ht options Hd) Hmod Ha) as (request & r & w' & E & Hr & H).
  destruct (N.leb_spec (blen m) (limit t)); [|lia]. destruct Hr as (h & ts & -> & Hh & Hts).
  by exists request, h, ts, w'.
Qed.

(** A call to a peer that says it is unavailable. *)
Lemma exchange_refused t s c text path message options w :
  up s (ReplyStatus "14" (Some text) None) w -> printable text = true ->
  talks t s c -> (forall d, get_timeout options = Some d -> slack < d) ->
  blen (payload_of t message) <= 1024 -> slight path (get_metadata options) ->
  N.of_nat (str_len text) <= 1000 ->
  exists request e details trailers w',
    cr_call_raw ct t path message options w = (Err (Status path Unavailable e details trailers), w') /\
    recorded s w' = recorded s w ++ [request] /\
    arrives t path message (get_metadata options) request /\
    up s (ReplyStatus "14" (Some text) None) w' /\ time w <= time w' <= time w + slack.
Proof.
  intros Hup Hp Ht Hd Hfit Hh Htext.
  assert (modest t (ReplyStatus "14" (Some text) None) path message (get_metadata options)) as Hmod.
  { apply (talks_modest t s c); [done..| |done]. cbn. lia. }
  pose proof (modest_fits _ _ _ _ _ Hmod) as Hfit32.
  destruct (call_up ct t s _ path message options w Hup (talks_to _ _ _ Ht) I
    (talks_prompt _ _ _ Ht options Hd) Hmod) as
    (request & r & w' & E & Hs & [_ Herr] & Hr & Hup' & _ & Htime).
  destruct (proj2 (peer_status_answer "14" (Some text) None (frames_of request))) as
    (_ & _ & _ & _ & Hst & _). { by intros m [= <-]. }
  destruct (Herr (Hst eq_refl)) as (e & details & ts & ->).
  exists (record_of request), e, details, ts, w'. split_and!; try done; [by apply sends_arrives|lia..].
Qed.
End lemmas.
