(* ===== verification/Runtime.v ===== *)
(** * What runs a program's futures

    A program of [tokio] as the scenarios use it: the futures a task awaits are polled until they are
    ready, the rest of the world moves between two polls ([tick]), timers expire and cancellation
    tokens fire (class [Runtime]).  The peer of the crate [proto_test_peer], which can be told to
    answer late, and what is relied on of it and of the engine's futures ([RuntimeLaws],
    [EchoLaws]). *)

From S2P Require Import Prelude Text Bytes Contract Metadata Interceptors Intercepted InterceptedSpec Channel Endpoint EgressBuilder Retry RetrySteady Polling Cancellation AsyncClient Peer Fixtures Stack Host Wire.
From Stdlib Require Import NArith Lia Strings.Byte.
From stdpp Require Import base tactics strings option list.

Open Scope N_scope.

Class Runtime (W : Type) := {
  (** What happens between two polls of a task. *)
  tick : W -> W;
  (** Whether a timer set to an instant is ready. *)
  expired : N -> W -> bool;
  (** [CancellationToken]. *)
  Token : Type;
  token_new : eff W Token;
  token_cancel : Token -> eff W unit;
  token_cancelled : Token -> W -> bool;
}.

(** [RunningPeer] and [Say] of [proto_test_peer]. *)
Class EchoPeers (W : Type) := {
  EchoPeer : Type;
  echo_start : eff W EchoPeer;
  echo_endpoint : EchoPeer -> string;
  get_in_flight : EchoPeer -> W -> N;
  (** The encoding of a [Say]: its text, the status to fail with and the milliseconds to sleep. *)
  say : string -> N -> N -> list byte;
}.

(** ** Awaiting *)

(** [f.await] in a task, where [env] is what else happens; [None] also when the fuel runs out. *)
Definition block_on {V A E} (env : V -> V) (fuel : nat) (f : Future V A) : may_panic V A E := fun v =>
  match drive (f_poll f) env fuel (f_start f) v with
  | (Some a, (s, v)) => let '(_, v) := f_drop f s v in (Some (Ok a), v)
  | (None, (_, v)) => (None, v)
  end.

(** [tokio::time::timeout] that ends at an instant: [None] is [Elapsed]. *)
Definition timeout `{Runtime W} {A} (deadline : N) (f : Future W A) : Future W (option A) := {|
  f_state := f_state f;
  f_start := f_start f;
  f_poll s :=
    let! (r, s) := f_poll f s in
    match r with
    | Some a => ret (Some (Some a), s)
    | None => fun w => ((if expired deadline w then Some None else None, s), w)
    end;
  f_drop := f_drop f;
|}.

(** ** What is relied on *)

Section laws.
Context `{HC : Contract} `{HM : !MetadataLaws} `{HT : TransportOptions} `{HH : Http}.
Context {W T : Type} `{HE : !Engine W T} `{HLb : !LoadbalancerSvc W} `{HHost : !Host W} `{HL : !Logs W}.
Context (ct : ClientType W T) `{HW : !Wire W T} `{HF : !EngineFutures W T ct}.
Context `{HB : Backoff} (clk : Clock W) `{HR : !Runtime W} `{HP : !EchoPeers W}.

(** The time moves between two polls; timers are neither early nor more than [slack] late. *)
Class RuntimeLaws := {
  (** Time passes, and nothing but the tokens of [P] changes. *)
  passes : (Token -> Prop) -> W -> W -> Prop;
  passes_token P t w w' : passes P w w' -> ~ P t -> token_cancelled t w' = token_cancelled t w;
  grain : Duration;
  grain_positive : 0 < grain;
  tick_time w : time w + grain <= time (tick w) <= time w + slack;
  tick_passes w : passes (fun _ => False) w (tick w);
  now_passes w : passes (fun _ => False) w (now clk w).2;
  sleep_passes d w : passes (fun _ => False) w (sleep clk d w).2;
  expired_late d w : d + slack <= time w -> expired d w = true;
  expired_early d w : time w < d -> expired d w = false;
  token_fresh w : let '(t, w') := token_new w in
    token_cancelled t w' = false /\ passes (fun _ => False) w w' /\ time w <= time w' <= time w + slack;
  token_fires t w : let w' := (token_cancel t w).2 in
    token_cancelled t w' = true /\ passes (eq t) w w' /\ time w <= time w' <= time w + slack;
}.

Context `{!RuntimeLaws}.

Section progress.
Context {A : Type} (serving : EchoPeer -> W -> Prop) (idle_by : EchoPeer -> N -> W -> Prop).
Context (notice : Duration) (f : Future W (Result A CallError)) (p : EchoPeer) (d : N).
Context (J : f_state f -> W -> Prop).

(** What a poll of a call of [p] that is answered at [d] does: it stays in progress, or is ready,
    and then it is dropped. *)
Definition polled (s : f_state f) (w : W) : Prop :=
  let '((r, s'), w') := f_poll f s w in
  let w'' := match r with Some _ => (f_drop f s' w').2 | None => w' end in
  time w <= time w'' <= time w + slack /\
  (forall t, token_cancelled t w'' = token_cancelled t w) /\
  match r with
  | None => time w < d + slack /\ J s' w'
  | Some r => d <= time w /\ is_ok r = true /\ serving p w''
  end.

(** Such a call in progress; if it is dropped the peer has noticed [notice] later. *)
Record in_progress : Prop := {
  progress_poll s w : J s w -> polled s w;
  progress_passes P s w w' : J s w -> passes P w w' -> J s w';
  progress_drop s w : J s w ->
    let w' := (f_drop f s w).2 in
    serving p w' /\ idle_by p (time w + notice) w' /\ time w <= time w' <= time w + slack;
}.
End progress.

Class EchoLaws := {
  (** The peer answers; it has no call in flight from an instant on. *)
  serving : EchoPeer -> W -> Prop;
  idle_by : EchoPeer -> N -> W -> Prop;
  notice : Duration;
  echo_up w : exists p w', echo_start w = (p, w') /\ serving p w' /\
    plaintext (echo_endpoint p) = true /\ cuts_character (echo_endpoint p) = false;
  serving_passes P p w w' : serving p w -> passes P w w' -> serving p w';
  serving_build p f w : serving p w -> serving p (engine_build f w).2;
  idle_passes P p u w w' : idle_by p u w -> passes P w w' -> idle_by p u w';
  idle_done p u w : idle_by p u w -> u <= time w -> get_in_flight p w = 0;
  (** A call that has the time is answered when the peer was told to. *)
  call_answered t p n options w :
    serving p w -> wire_endpoint (made_with t) = echo_endpoint p ->
    (forall d, wire_timeout (made_with t) = Some d -> from_millis n + slack < d) ->
    1024 <= limit t -> (forall n, wire_send_limit (made_with t) = Some n -> 1024 <= n) ->
    get_timeout options = None -> slight "/test.Peer/Echo" (get_metadata options) ->
    let f := call_raw_future ct t "/test.Peer/Echo" (say "slow" 0 n) options in
    let d := time w + from_millis n in
    exists J, polled serving f p d J (f_start f) w /\ in_progress serving idle_by notice f p d J;
}.
End laws.

(** ** A call of a built client *)

Section client.
Context `{HC : Contract} `{HM : !MetadataLaws} `{HT : TransportOptions} `{HH : Http}.
Context {W T : Type} `{HE : !Engine W T} `{HLb : !LoadbalancerSvc W} `{HHost : !Host W} `{HL : !Logs W}.
Context (ct : ClientType W T) `{HW : !Wire W T} `{HF : !EngineFutures W T ct}.
Context `{HB : Backoff} (clk : Clock W) `{HR : !Runtime W} `{HP : !EchoPeers W}.
Context `{HRL : !RuntimeLaws clk}.
Context (serving : EchoPeer -> W -> Prop) (idle_by : EchoPeer -> N -> W -> Prop) (notice : Duration).

Notation in_progress := (in_progress clk serving idle_by notice).

(** The future awaits a call in progress. *)
Inductive midway {L R} {call : L -> Future W R} (l : L) (J : f_state (call l) -> W -> Prop) :
    Await call -> W -> Prop :=
| midway_awaiting s w : J s w -> midway l J (Awaiting l s) w.

Section await.
Context {L A B : Type} (before : eff W (Result L CallError)) (call : L -> Future W (Result A CallError)).
Context (after : L -> Result A CallError -> eff W (Result B CallError)) (l : L).
Context (Hbefore : forall w, before w = (Ok l, w)).
Context (Hafter : forall r w, is_ok r = true -> exists r', after l r w = (r', w) /\ is_ok r' = true).
Context (p : EchoPeer) (d : N) (J : f_state (call l) -> W -> Prop).

Lemma resume_polled s w :
  polled serving (call l) p d J s w ->
  let '((r, s'), w') := resume call after l s w in
  time w <= time w' <= time w + slack /\ (forall t, token_cancelled t w' = token_cancelled t w) /\
  match r with
  | None => time w < d + slack /\ midway l J s' w'
  | Some r => d <= time w /\ is_ok r = true /\ serving p w' /\ s' = Finished
  end.
Proof.
  unfold polled, resume, bind, ret. destruct (f_poll (call l) s w) as [[[r|] s1] w1].
  - destruct (f_drop (call l) s1 w1) as [[] w2]. cbn [snd]. intros (Ht & Hc & Hd & Hr & Hs).
    destruct (Hafter r w2 Hr) as (r' & -> & Hr'). cbn. by destruct Ht; split_and!.
  - cbn. intros (Ht & Hc & Hd & HJ). split_and!; first [done|lia|by constructor].
Qed.

(** A future that awaits one call and does nothing else is polled as that call is. *)
Lemma polled_await s w q :
  polled serving (call l) p d J s w -> q = Awaiting l s \/ q = Unpolled /\ s = f_start (call l) ->
  polled serving (await before call after) p d (midway l J) q w.
Proof.
  intros Hp Hq. apply resume_polled in Hp. unfold polled.
  assert (f_poll (await before call after) q w = resume call after l s w) as ->.
  { destruct Hq as [-> | [-> ->]]; [done|]. cbn. unfold bind. by rewrite Hbefore. }
  destruct (resume call after l s w) as [[[r|] s'] w'].
  - destruct Hp as (Ht & Hc & Hd & Hr & Hs & ->). by destruct Ht; split_and!.
  - exact Hp.
Qed.

Lemma in_progress_await :
  in_progress (call l) p d J -> in_progress (await before call after) p d (midway l J).
Proof.
  intros Hp. split.
  - intros q w [s w' HJ]. eapply polled_await; [|by left]. by apply (progress_poll _ _ _ _ _ _ _ _ Hp).
  - intros P q w w' [s w1 HJ] Hpass. constructor. by eapply (progress_passes _ _ _ _ _ _ _ _ Hp).
  - intros q w [s w' HJ]. exact (progress_drop _ _ _ _ _ _ _ _ Hp s w' HJ).
Qed.
End await.

(** The unary call of a client of one endpoint without interceptors. *)
Lemma client_progress call_error_to_string url t path message options p d J w :
  let f := call_raw_future ct t path message options in
  let g := ar_call_raw (a_raw (built_client ct call_error_to_string (endpoint_transport [(url, t)] None, [])))
             path message options in
  polled serving f p d J (f_start f) w -> in_progress f p d J ->
  exists J', polled serving g p d J' (f_start g) w /\ in_progress g p d J'.
Proof.
  intros f g Hs Hp.
  set (pk := make_pick t None : Pick (W := W) (T := T)).
  set (send := fun pk : Pick (W := W) (T := T) => call_raw_future ct (pick_client pk) path message options).
  set (outer := fun options => through_future call_error_to_string (endpoint_transport [(url, t)] None) path
                  (fun t => call_raw_future ct t path message options)).
  set (around := intercepted (Ch := StdGrpcEgressInterceptorChain (W := W)) (endpoint_client ct call_error_to_string (endpoint_transport [(url, t)] None)) []).
  assert (forall w, pick (endpoint_transport [(url, t)] None) path w = (Ok pk, w)) as Hpick by done.
  assert (forall (r : Result (CallResponse (list byte) (cr_metadata ct)) CallError) w, is_ok r = true ->
    exists r', (report call_error_to_string (endpoint_transport [(url, t)] None) pk r ;;; ret r) w = (r', w) /\
      is_ok r' = true) as Hreport by eauto.
  assert (forall (r : Result (CallResponse (list byte) (cr_metadata ct)) CallError) w, is_ok r = true ->
    exists r',
      (fun _ : CallOptions => answered ct call_error_to_string (endpoint_transport [(url, t)] None, [])
         (cr_view ct) path Unary) options r w = (r', w) /\ is_ok r' = true) as Hafter.
  { intros [response|e] w0; [|done]. intros _. exists (Ok response). split; [|done].
    unfold answered, intercepted_after, run_after_egress, adapter_on_event, bindr, bind, ret. cbn.
    destruct (copy (cr_view ct) (trailers response)); [|done]. by destruct (copy (cr_view ct) (headers response)). }
  assert (forall w, intercepted_before around path Unary options w = (Ok options, w)) as Hchain.
  { intros w0. cbv. reflexivity. }
  exists (midway (call := outer) options (midway (call := send) pk J)). split.
  - apply (polled_await (intercepted_before around path Unary options) outer _ options Hchain Hafter)
      with (s := Unpolled); [|by right].
    apply (polled_await _ send _ pk Hpick Hreport) with (s := f_start f); [exact Hs|by right].
  - apply (in_progress_await _ outer _ options Hchain Hafter).
    exact (in_progress_await _ send _ pk Hpick Hreport p d J Hp).
Qed.
End client.

(** ** Driving a call in progress *)

Lemma drive_step {W A S} (poll : S -> eff W (option A * S)) env n s w :
  drive poll env (Datatypes.S n) s w
  = match poll s w with
    | ((Some a, s'), w') => (Some a, (s', w'))
    | ((None, s'), w') => drive poll env n s' (env w')
    end.
Proof. reflexivity. Qed.

Lemma block_on_run {V A E} (env : V -> V) n (f : Future V A) v a s v' :
  drive (f_poll f) env n (f_start f) v = (Some a, (s, v')) ->
  block_on (E := E) env n f v = (Some (Ok a), (f_drop f s v').2).
Proof. unfold block_on. intros ->. by destruct (f_drop f s v'). Qed.

Lemma timeout_poll `{Runtime W} {A} deadline (f : Future W A) s w :
  f_poll (timeout deadline f) s w
  = let '((r, s'), w') := f_poll f s w in
    ((match r with
      | Some a => Some (Some a)
      | None => if expired deadline w' then Some None else None
      end, s'), w').
Proof. cbn. unfold bind, ret. by destruct (f_poll f s w) as [[[] ?] ?]. Qed.

Lemma race_poll `{Contract} {W R} fired path (f : Future W (Result R CallError)) s w :
  f_poll (race fired path f) s w
  = if fired w then ((Some (Err (cancelled path)), s), w) else f_poll f s w.
Proof. reflexivity. Qed.

Section driving.
Context `{HC : Contract} `{HM : !MetadataLaws} `{HT : TransportOptions} `{HH : Http}.
Context {W T : Type} `{HE : !Engine W T} `{HLb : !LoadbalancerSvc W} `{HHost : !Host W} `{HL : !Logs W}.
Context `{HW : !Wire W T}.
Context `{HB : Backoff} (clk : Clock W) `{HR : !Runtime W} `{HP : !EchoPeers W}.
Context `{HRL : !RuntimeLaws clk}.
Context (serving : EchoPeer -> W -> Prop) (idle_by : EchoPeer -> N -> W -> Prop) (notice : Duration).
Context {A : Type} (f : Future W (Result A CallError)) (p : EchoPeer) (d : N) (J : f_state f -> W -> Prop).
Context (Hprogress : in_progress clk serving idle_by notice f p d J).

Notation fine := (polled serving f p d J).
Notation grain := (grain clk).

(** A timeout that ends before the answer comes ends, and drops a call in progress. *)
Lemma timeout_elapses deadline n s w :
  deadline + 2 * slack < d -> time w <= deadline + 2 * slack ->
  deadline + slack <= time w + N.of_nat n * grain -> fine s w ->
  exists s' w', drive (f_poll (timeout deadline f)) tick (S n) s w = (Some None, (s', w')) /\
    J s' w' /\ time w <= time w' <= deadline + 3 * slack.
Proof.
  intros Hd. revert s w. induction n as [|n IH]; intros s w Hw Hn Hs; rewrite drive_step, timeout_poll; unfold polled in Hs;
    destruct (f_poll f s w) as [[[r|] s1] w1]; destruct Hs as (Ht & _ & Hs);
    [destruct Hs; lia|destruct Hs as [_ HJ]|destruct Hs; lia|destruct Hs as [_ HJ]].
  - rewrite (expired_late clk) by lia. exists s1, w1. split_and!; [done|done|lia..].
  - destruct (expired deadline w1) eqn:Ex; [exists s1, w1; split_and!; [done|done|lia..]|].
    assert (time w1 < deadline + slack) as Hlate.
    { destruct (N.ltb_spec (time w1) (deadline + slack)); [done|]. by rewrite (expired_late clk) in Ex. }
    pose proof (tick_time clk w1) as Htick.
    destruct (IH s1 (tick w1)) as (s' & w' & E & HJ' & Ht'); [lia|lia| |exists s', w'; split_and!; [done|done|lia..]].
    eapply progress_poll, progress_passes, (tick_passes clk); done.
Qed.

(** A race with a token that nobody cancels ends with the answer. *)
Lemma race_answered token path n s w :
  d + slack <= time w + N.of_nat n * grain -> token_cancelled token w = false -> fine s w ->
  exists r s' w', drive (f_poll (race (token_cancelled token) path f)) tick (S n) s w = (Some r, (s', w')) /\
    is_ok r = true.
Proof.
  revert s w. induction n as [|n IH]; intros s w Hn Hc Hs; rewrite drive_step, race_poll, Hc;
    unfold polled in Hs;
    destruct (f_poll f s w) as [[[r|] s1] w1]; destruct Hs as (Ht & Hsame & Hs).
  - destruct Hs as (_ & Hr & _). by exists r, s1, w1.
  - destruct Hs; lia.
  - destruct Hs as (_ & Hr & _). by exists r, s1, w1.
  - destruct Hs as [_ HJ]. pose proof (tick_time clk w1) as Htick.
    apply IH; [lia| |].
    + rewrite (passes_token clk _ _ _ _ (tick_passes clk w1)); [by rewrite Hsame|tauto].
    + eapply progress_poll, progress_passes, (tick_passes clk); done.
Qed.
End driving.
