(* ===== verification/Network.v ===== *)
(** * A network in memory

    An engine, peers, logs and a clock that do what [Wire] documents of the real ones: a server is
    its number and listens under a name of that many letters, a client is the options it was made
    with, and every call takes a nanosecond.  A retry clock and a circuit breaker run by the same time.
    The examples of the scenarios run on it. *)

From S2P Require Import Prelude Text Bytes Contract Metadata Interceptors Intercepted InterceptedSpec Identity Channel Pki Endpoint EgressBuilder F64 RetryConfig RetryClassifier Retry RetrySpec RetrySteady BreakerConfig Breaker BreakerSpec Frames Peer Fixtures Stack Suite Host Wire.
From Stdlib Require Import NArith Lia Strings.Byte.
From stdpp Require Import base tactics strings option list gmap.

Open Scope N_scope.

#[export] Existing Instance list_contract.
#[export] Existing Instance no_tls_files.
#[export] Existing Instance text_http.
#[export] Existing Instance text_http_laws.
#[export] Existing Instance Stack.Example.options_laws.
#[export] Existing Instance RetrySpec.Example.backoff.

#[export] Instance any_path : MethodPaths := {|
  PathError := unit;
  method_path_create := Ok;
|}.

(** A server: whether it asks for certificates, what it answers, and what it was asked. *)
Record net_server := make_server {
  secure : bool;
  behaviour : PeerBehaviour;
  requests_of : list RecordedRequest;
}.

Record Net := network {
  servers : list net_server;
  logs : gmap nat (list string);
  next_log : nat;
  pools : list (list string);
  files : Pki.Files;
  tokens : gmap nat bool;
  flying : N;
  net_time : N;
}.

Definition empty_net : Net := network [] ∅ 0 [] Pki.no_files ∅ 0 0.

Definition set_servers (l : list net_server) (w : Net) : Net :=
  network l (logs w) (next_log w) (pools w) (files w) (tokens w) (flying w) (net_time w).
Definition set_pools (l : list (list string)) (w : Net) : Net :=
  network (servers w) (logs w) (next_log w) l (files w) (tokens w) (flying w) (net_time w).
Definition set_files (f : Pki.Files) (w : Net) : Net :=
  network (servers w) (logs w) (next_log w) (pools w) f (tokens w) (flying w) (net_time w).
Definition set_tokens (l : gmap nat bool) (w : Net) : Net :=
  network (servers w) (logs w) (next_log w) (pools w) (files w) l (flying w) (net_time w).
Definition set_flying (n : N) (w : Net) : Net :=
  network (servers w) (logs w) (next_log w) (pools w) (files w) (tokens w) n (net_time w).
Definition pass (d : Duration) (w : Net) : Net :=
  network (servers w) (logs w) (next_log w) (pools w) (files w) (tokens w) (flying w) (net_time w + d).

(** The name a server listens under. *)
Fixpoint name_of (s : nat) : string :=
  match s with O => ""%string | S s => String (Ascii.ascii_of_N 104) (name_of s) end.

(** The server that listens at a URL. *)
Definition server_at (url : string) (w : Net) : option (nat * net_server) :=
  let s := (String.length url - if String.prefix "https://" url then 8 else 7)%nat in
  srv ← servers w !! s;
  if decide (url = (if secure srv then "https://" else "http://") +:+ name_of s)
  then Some (s, srv) else None.

Definition new_server (secure : bool) (b : PeerBehaviour) : eff Net unit := fun w =>
  (tt, set_servers (servers w ++ [make_server secure b []]) w).

#[export] Instance net_host : Host Net := {|
  TcpListener := nat;
  tcp_bind _ w := (Ok (length (servers w)), w);
  local_addr l _ := Ok (name_of l);
  listener_drop _ := ret tt;
  RequestLog := nat;
  requests_new w := (length (servers w), w);
  recorded_in r w := default [] (requests_of <$> servers w !! r);
  JoinHandle := unit;
  spawn_accept _ b _ := new_server false b;
  abort _ := ret tt;
  Socket := unit;
  SockAddr := N;
  socket_new := ret (Ok tt);
  bind_loopback _ := ret (Ok tt);
  socket_addr _ _ := Ok 1;
  internet_port := Some;
  socket_drop _ := ret tt;
|}.

(** The number of a server, which it listens under. *)
Definition stands (s : Server) (srv : net_server) (w : Net) : Prop :=
  servers w !! server_requests s = Some srv /\ running s = running_peer (name_of (server_requests s)).

#[export] Instance net_rcgen : RcgenSvc Net := memory_rcgen files set_files.
#[export] Instance net_disk : Disk Net := memory_disk files set_files.
Definition net_read : string -> eff Net (Result (list byte) string) := memory_read files.
#[export] Instance net_pki : PkiLaws Net net_read := memory_laws files set_files (fun _ _ => eq_refl).

#[export] Instance net_tls_host : TlsHost Net := {|
  RootCertStore := list (list byte);
  ClientVerifier := list (list byte);
  ServerConfig := option (list (list byte)) * list (list byte);
  roots_empty := [];
  roots_add roots c := Ok (roots ++ [c]);
  verifier_build roots := match roots with [] => Err "no root"%string | _ => Ok roots end;
  with_single_cert verifier chain _ := Ok (verifier, chain);
  set_alpn_protocols config _ := config;
  spawn_tls_accept _ b _ _ := new_server true b;
|}.

#[export] Instance net_logs : Logs Net := {|
  Log := nat;
  new_log w := (next_log w, network (servers w) (<[next_log w := []]> (logs w)) (S (next_log w))
    (pools w) (files w) (tokens w) (flying w) (net_time w));
  push_log l x w := network (servers w) (<[l := default [] (logs w !! l) ++ [x]]> (logs w)) (next_log w)
    (pools w) (files w) (tokens w) (flying w) (net_time w);
  read_log l w := default [] (logs w !! l);
|}.

(** Pools that take their backends in turn, without those that failed. *)
#[export] Instance net_pools : LoadbalancerSvc Net := {|
  BackendPoolInstance := nat;
  BackendId := string;
  Backend := string;
  backend_id := id;
  backend_url := id;
  LoadbalancerError := string;
  loadbalancer_error_to_string := id;
  build_pool config w :=
    (Ok (length (pools w)), set_pools (pools w ++ [Lb.url <$> Lb.backends config]) w);
  select p w :=
    match pools w !! p with
    | Some (url :: rest) => (Ok url, set_pools (<[p := rest ++ [url]]> (pools w)) w)
    | _ => (Err "no backend"%string, w)
    end;
  report_outcome p url outcome w :=
    (tt, match outcome with
         | Lb.Success => set_pools (alter (fun l => if decide (url ∈ l) then l else l ++ [url]) p (pools w)) w
         | Lb.Failure _ => set_pools (alter (filter (fun u => u <> url)) p (pools w)) w
         end);
|}.

#[export] Instance net_engine : Engine Net WireOptions := {|
  Factory := WireOptions;
  EngineError := string;
  engine_error_to_string := id;
  tonic_dual_builder := wire_options "" None None None None None;
  with_endpoint f url :=
    wire_options url (wire_compression f) (wire_timeout f) (wire_limit f) (wire_send_limit f) (wire_tls f);
  with_timeout := set_wire_timeout;
  with_max_decoding_message_size := set_wire_limit;
  with_max_encoding_message_size := set_wire_send_limit;
  with_tls := set_wire_tls;
  with_send_compression := set_wire_compression;
  with_accept_compression f _ := f;
  with_http2_keep_alive_interval f _ := f;
  with_keep_alive_timeout f _ := f;
  with_keep_alive_while_idle f _ := f;
  engine_build f := ret (Ok f);
  uri_parses _ := true;
|}.

#[export] Instance net_wire : Wire Net WireOptions.
Proof.
  refine {|
    options_of := id : @Factory _ Net WireOptions _ -> _;
    made_with := id;
    up s b w := exists rs, stands s (make_server false b rs) w;
    closed _ _ := True;
    bound l a w := l = length (servers w) /\ a = name_of l;
    vacant r w := r = length (servers w);
    turn p w := default [] (pools w !! p);
    time := net_time;
    slack := 1;
    compress _ m := rev m;
    encoding_name (c : @Compression no_tls_files) := if c then "gzip"%string else "zstd"%string;
  |}; done.
Defined.

(** ** A call *)

(** The request of a call: the headers the protocol leaves to the caller, the encoding and the
    message in one frame. *)
Definition request_of (t : WireOptions) (path : string) (message : list byte) (metadata : Metadata) :
    HttpRequest :=
  http_request path
    (filter (fun e => custom e.1 = true) (text metadata) ++
     match wire_compression t with Some c => [("grpc-encoding"%string, encoding_name c)] | None => [] end)
    (Some (match wire_compression t with
           | None => Frames.encode message
           | Some c => encode_compressed (compress c message)
           end)).

(** What a client makes of an answer: a status in the headers, or else one message, unless it is too
    long. *)
Definition read_answer (t : WireOptions) (path : string) (response : HttpResponse) :
    Result (CallResponse (list byte) ListContract.md) CallError :=
  match readable "grpc-status" (response_headers response), decode_all (response_body response) with
  | [], [f] =>
      if blen (payload f) <=? limit t then Ok (call_response (payload f) ([], []) ([], []))
      else Err (Status path OutOfRange "too long" [] ([], []))
  | ["14"], _ => Err (Status path Unavailable "unavailable" [] ([], []))
  | _, _ => Err (Status path Internal "not an answer" [] ([], []))
  end.

(** Whether a peer takes longer than a call has. *)
Definition late (b : PeerBehaviour) (t : WireOptions) (options : CallOptions) : bool :=
  match b with
  | Delay wait =>
      existsb (fun d => d <? wait) (option_list (wire_timeout t) ++ option_list (get_timeout options))
  | _ => false
  end.

Definition net_call (t : WireOptions) (path : string) (message : list byte) (options : CallOptions) :
    eff Net (Result (CallResponse (list byte) ListContract.md) CallError) := fun w =>
  match server_at (wire_endpoint t) w with
  | None => (Err (Transport_ path Unavailable "refused"), pass 1 w)
  | Some (s, srv) =>
      let request := request_of t path message (get_metadata options) in
      let b := behaviour srv in
      let srv' := make_server (secure srv) b (requests_of srv ++ [record_of request]) in
      (if late b t options then Err (Status path DeadlineExceeded "late" [] ([], []))
       else read_answer t path (response_for b (frames_of request)),
       pass (match b with Delay wait => wait | _ => 1 end) (set_servers (<[s := srv']> (servers w)) w))
  end.

(** A typed call is a raw one between the two payloads. *)
Definition net_typed_call (t : WireOptions) (M : Method) (message : Request M) (options : CallOptions) :
    eff Net (Result (CallResponse (Response M) ListContract.md) CallError) :=
  let!? body := ret (map_err Encode (Contract.encode_into (request_payload M) message [])) in
  let!? answer := net_call t (PATH M) body options in
  ret (let? response := map_err Decode (Contract.decode (response_payload M) (Contract.message answer)) in
       Ok (call_response response (headers answer) (trailers answer))).

Definition unsupported {A} (path : string) : eff Net (Result A CallError) :=
  ret (Err (Transport_ path Unimplemented "one request, one answer")).

Definition net_clients : ClientType Net WireOptions := {|
  ct_metadata := ListContract.md;
  ct_view := list_view;
  ct_call := net_typed_call;
  ct_call_server_stream _ M _ _ := unsupported (PATH M);
  ct_call_client_stream _ M _ _ := unsupported (PATH M);
  ct_call_bidi_stream _ M _ _ := unsupported (PATH M);
  cr_metadata := ListContract.md;
  cr_view := list_view;
  cr_call_raw := net_call;
  cr_call_raw_server_stream _ path _ _ := unsupported path;
  cr_call_raw_client_stream _ path _ _ := unsupported path;
  cr_call_raw_bidi_stream _ path _ _ := unsupported path;
|}.

(** ** It does what is documented *)

Lemma name_length s : String.length (name_of s) = s.
Proof. induction s as [|s IH]; [done|]. cbn. by rewrite IH. Qed.

Lemma name_ascii s : is_ascii (name_of s) = true.
Proof. induction s as [|s IH]; [done|]. unfold is_ascii in *. cbn. exact IH. Qed.

Lemma server_found s srv w :
  servers w !! s = Some srv ->
  server_at ((if secure srv then "https://" else "http://") +:+ name_of s) w = Some (s, srv).
Proof.
  intros Hs. unfold server_at.
  assert (forall url, url = (if secure srv then "https://" else "http://") +:+ name_of s ->
    (String.length url - (if String.prefix "https://" url then 8 else 7))%nat = s) as E.
  { intros url ->. destruct (secure srv).
    - rewrite (Text.prefix_app "https://" (name_of s)).
      change (8 + String.length (name_of s) - 8 = s)%nat. rewrite name_length. lia.
    - change (7 + String.length (name_of s) - 7 = s)%nat. rewrite name_length. lia. }
  rewrite (E _ eq_refl), Hs. cbn. by rewrite decide_True.
Qed.

Lemma no_server_closed port w : server_at (closed_endpoint port) w = None.
Proof.
  unfold server_at. destruct (servers w !! _) as [srv|]; [|done]. cbn.
  rewrite decide_False; [done|]. unfold closed_endpoint. destruct (secure srv); [done|].
  intros E. apply (inj (String.append "http://")) in E.
  destruct (String.length _ - _)%nat; [done|]. cbn in E. done.
Qed.

Lemma readable_texts name (l : list (string * string)) :
  readable (H := text_http) name l = snd <$> filter (fun e => e.1 = name) l.
Proof.
  induction l as [|[k v] l IH]; [done|]. rewrite filter_cons. cbn [fst].
  change (readable (H := text_http) name ((k, v) :: l)) with
    (match (if decide (k = name) then Some v else None) with
     | Some x => x :: readable (H := text_http) name l | None => readable (H := text_http) name l end).
  rewrite IH. by case_decide.
Qed.

Lemma request_headers_sent t path message metadata k :
  custom k = true ->
  readable (H := text_http) k (request_headers (request_of t path message metadata))
  = snd <$> filter (fun e => e.1 = k) (text metadata).
Proof.
  intros Hc. cbn [request_of request_headers]. rewrite readable_texts, filter_app, fmap_app.
  assert (filter (fun e : string * string => e.1 = k)
    match wire_compression t with Some c => [("grpc-encoding"%string, encoding_name c)] | None => [] end = [])
    as ->.
  { destruct (wire_compression t); [|done]. rewrite filter_cons_False; [done|]. cbn. intros E. by rewrite <- E in Hc. }
  rewrite app_nil_r. f_equal. generalize (text metadata). intros l.
  rewrite list_filter_filter_l; [done|]. intros [k' v'] E. cbn in *. by subst.
Qed.

Lemma request_sent t path message metadata : sends t path message metadata (request_of t path message metadata).
Proof.
  split; [done|done| |].
  - intros k _ Hc. exact (request_headers_sent t path message _ k Hc).
  - cbn [request_of request_headers]. rewrite readable_texts, filter_app, fmap_app.
    assert (filter (fun e : string * string => e.1 = "grpc-encoding"%string)
      (filter (fun e => custom e.1 = true) (text metadata)) = []) as ->.
    { apply elem_of_nil_inv. intros e [He1 [He2 _]%list_elem_of_filter]%list_elem_of_filter.
      by rewrite He1 in He2. }
    change (made_with t) with t. destruct (wire_compression t); [|done]. by rewrite filter_cons_True.
Qed.

(** The answer to a message is read, and so is the status 14. *)
Lemma answer_read t path response : reads net_clients t path response (read_answer t path response).
Proof.
  split.
  - intros m content status -> _ _ Hm.
    unfold read_answer. cbn [response_headers response_body].
    pose proof (decode_one x00 m Hm) as E. unfold Frames.encode. rewrite E. cbn [readable omap payload].
    destruct (blen m <=? limit t); [|by eauto]. by exists ([], []), ([], []).
  - intros E. unfold read_answer. rewrite E. eauto.
Qed.

(** A call to a server that does not keep it waiting. *)
Lemma net_call_run t s srv path message options w :
  servers w !! s = Some srv ->
  wire_endpoint t = ((if secure srv then "https://" else "http://") +:+ name_of s)%string ->
  match behaviour srv with Delay _ => False | _ => True end ->
  let request := request_of t path message (get_metadata options) in
  net_call t path message options w
  = (read_answer t path (response_for (behaviour srv) (frames_of request)),
     pass 1 (set_servers (<[s := make_server (secure srv) (behaviour srv)
                                  (requests_of srv ++ [record_of request])]> (servers w)) w)).
Proof.
  intros Hs He Hb. unfold net_call. rewrite He, (server_found s srv w Hs).
  by destruct (behaviour srv).
Qed.

(** Only the server that is called changes. *)
Lemma stands_same (s s' : Server) srv srv' w :
  stands s srv w -> stands s' srv' w -> (server_requests s : nat) = server_requests s' -> s = s'.
Proof. destruct s as [r n []], s' as [r' n' []]. intros [_ E] [_ E'] En. cbn in *. by subst. Qed.

Lemma call_touches s b rs d srv w :
  stands s srv w ->
  touches (Logic.eq s) (fun _ => False) w
    (pass d (set_servers (<[server_requests s := make_server false b rs]> (servers w)) w)).
Proof.
  intros Hst. split; [|done..]. intros s' b' Hs [rs' Hup].
  assert ((server_requests s : nat) <> server_requests s') as Hne.
  { intros E. by apply Hs, (stands_same s s' _ _ w Hst Hup). }
  destruct Hup as [Hup Ha]. unfold stands, recorded. cbn in *.
  rewrite list_lookup_insert_ne by done. split; [exists rs'; split; [|exact Ha]|done]. cbn. by rewrite list_lookup_insert_ne.
Qed.

(** A new server leaves the others alone. *)
Lemma new_server_touches secure b w : undisturbed w (new_server secure b w).2.
Proof.
  split; [|done..]. intros s b' _ [rs [Hs Ha]]. unfold recorded. cbn in *.
  split; [exists rs; split; [|done]|]; cbn; by rewrite lookup_app_l by (by eapply lookup_lt_Some).
Qed.

#[export] Instance net_laws : WireLaws net_clients.
Proof.
  split.
  - intros w. exists (length (servers w)), (name_of (length (servers w))), w.
    split_and!; [done|done|apply undisturbed_refl|lia|apply name_ascii| | |done].
    + intros s b' [rs [Hs Ha]] E. cbn in *. rewrite Ha in E. apply lookup_lt_Some in Hs.
      apply (f_equal String.length) in E. cbn in E. rewrite !name_length in E. cbn in *. lia.
    + intros port _ E. unfold closed_endpoint, get_endpoint in E.
      apply (inj (String.append "http://")) in E. cbn in E. by destruct (length (servers w)).
  - by intros l a w [-> ->].
  - intros w. exists (length (servers w)), w. split_and!; [done|done|done|apply undisturbed_refl|lia].
  - intros l a b r w [-> ->] ->. do 2 eexists. split; [reflexivity|]. cbn -[new_server].
    split_and!; [| |apply new_server_touches|cbn; lia].
    + cbn. by rewrite lookup_app_r, Nat.sub_diag by done.
    + exists []. split; [|done]. cbn. by rewrite lookup_app_r, Nat.sub_diag by done.
  - intros w. exists tt, w. split; [done|apply undisturbed_refl].
  - intros s w. exists 1, 1, w. split_and!; [done|apply undisturbed_refl|done..].
  - intros f w _ _. exists f, w. split_and!; [done|done|apply undisturbed_refl|lia].
  - intros t s b path message options w [rs Hst] He Hb _ _. pose proof Hst as [Hs Ha].
    change (wire_endpoint t = get_endpoint (running s)) in He. rewrite Ha in He. cbn in Hs.
    exists (request_of t path message (get_metadata options)). do 2 eexists.
    split; [exact (net_call_run t _ _ path message options w Hs He Hb)|].
    split_and!; [apply request_sent|apply answer_read| | |by eapply call_touches|cbn; lia|cbn; lia].
    + unfold recorded. cbn. rewrite Hs. by rewrite list_lookup_insert_eq by (by eapply lookup_lt_Some).
    + eexists. split; [|exact Ha]. cbn. by rewrite list_lookup_insert_eq by (by eapply lookup_lt_Some).
  - intros t s wait path message options w d [rs [Hs Ha]] He Hd Hlate _.
    change (wire_endpoint t = get_endpoint (running s)) in He. rewrite Ha in He.
    change (wire_timeout t = Some d \/ get_timeout options = Some d) in Hd. cbn in Hs.
    assert (late (Delay wait) t options = true) as E.
    { unfold late. apply existsb_exists. exists d. split; [|apply N.ltb_lt; cbn in Hlate; lia].
      apply in_app_iff. destruct Hd as [->| ->]; [left|right]; by left. }
    do 4 eexists. cbn [cr_call_raw net_clients]. unfold net_call. rewrite He.
    pose proof (server_found _ _ w Hs) as Ef. cbn [secure] in Ef. unfold get_endpoint. cbn [addr].
    rewrite Ef. cbn [behaviour]. rewrite E. reflexivity.
  - intros t port path message options w _ He _.
    change (wire_endpoint t = closed_endpoint port) in He. do 2 eexists.
    cbn [cr_call_raw net_clients]. unfold net_call. rewrite He, no_server_closed. split; [reflexivity|].
    split; [|cbn; lia]. by split.
  - intros w. eexists _, _. split; [reflexivity|]. cbn. by rewrite lookup_insert_eq.
  - intros l x w. cbn. by rewrite lookup_insert_eq.
  - done.
Defined.

(** Its pools, its typed calls and its TLS. *)
Lemma set_pool_touches (p : nat) l w :
  (forall q : nat, q <> p -> l !! q = pools w !! q) ->
  touches (fun _ => False) (Logic.eq (p : BackendPoolInstance)) w (set_pools l w).
Proof.
  intros Hl. split; [done|done| |done]. intros q Hq. cbn. rewrite Hl; [done|]. intros ->. by apply Hq.
Qed.

#[export] Instance net_pool_laws : PoolLaws (W := Net) (T := WireOptions).
Proof.
  split.
  - intros backends w _. exists (length (pools w)). eexists. split; [reflexivity|]. split; cbn.
    + by rewrite lookup_app_r, Nat.sub_diag by done.
    + split; [done|done| |done]. intros p Hp. cbn. destruct (decide (p < length (pools w))%nat).
      * by rewrite lookup_app_l.
      * rewrite lookup_ge_None_2; [rewrite lookup_ge_None_2; [done|lia]|]. rewrite length_app. cbn in *.
        assert (p <> length (pools w)) by (intros ->; by apply Hp). lia.
  - intros p url rest w Ht. cbn in p, Ht. exists url. eexists. cbn.
    destruct (pools w !! p) as [l|] eqn:E; [|done]. cbn in Ht. subst l. split; [reflexivity|]. cbn.
    split_and!; [done| |].
    + by rewrite list_lookup_insert_eq by (by eapply lookup_lt_Some).
    + apply set_pool_touches. intros q Hq. by rewrite list_lookup_insert_ne.
  - intros p b w. cbn. split.
    + rewrite list_lookup_alter, decide_True by done. cbn in p. destruct (pools w !! p); [|done].
      cbn. intros Hin. by rewrite decide_True.
    + apply set_pool_touches. intros q Hq. by rewrite list_lookup_alter_ne.
  - intros p b reason w. cbn. split.
    + rewrite list_lookup_alter, decide_True by done. cbn in p. by destruct (pools w !! p).
    + apply set_pool_touches. intros q Hq. by rewrite list_lookup_alter_ne.
Defined.

Lemma answer_uncompressed b (payload m : list byte) :
  answer_of b payload = Some m -> match b with Delay _ => False | _ => True end.
Proof. by destruct b. Qed.

#[export] Instance net_typed_laws : TypedLaws net_clients.
Proof.
  split. intros t s b M msg options w body answer m Hup He Hp Hbody Hfit Ha Hl Hm.
  destruct (exchange net_clients t s b (PATH M) body options w answer Hup He Hp Hfit Ha)
    as (request & r & w' & E & Hr & _ & _ & Hup' & Ht & Htime).
  destruct (N.leb_spec (blen answer) (limit t)); [|lia]. destruct Hr as (h & ts & -> & Hh & Hts).
  exists h, ts, w'. split_and!; try done; [|lia..].
  cbn [ct_call net_clients]. unfold net_typed_call, bindr, bind, ret. rewrite Hbody. cbn [map_err].
  change (net_call t (PATH M) body options w) with (cr_call_raw net_clients t (PATH M) body options w).
  rewrite E. cbn. by rewrite Hm.
Defined.

#[export] Instance net_tls_laws : TlsLaws net_clients net_read.
Proof.
  refine {| up_tls s b _ w := exists rs, stands s (make_server true b rs) w |}.
  - intros w. assert (is_ok (pki_create w).1 = true) as Hok by reflexivity.
    destruct (pki_create w) as [[pki|e] w']; [by eexists _, _|done].
  - intros roots c. exists (roots ++ [cert_der c]). split; [done|]. by destruct roots.
  - done.
  - done.
  - done.
  - intros l a b r config files w [-> ->] -> Hf. do 2 eexists. split; [reflexivity|]. cbn.
    split.
    + exists []. split; [|done]. cbn. by rewrite lookup_app_r, Nat.sub_diag by done.
    + unfold on_disk in *. rewrite Forall_forall in Hf |- *. intros f Hin. specialize (Hf f Hin).
      unfold net_read, memory_read in *. cbn in *. by injection Hf as ->.
  - intros f settings w _ _. exists f, w. by split_and!.
  - intros t s b config pki ak sk ck ca server client path msg options w m [rs [Hs Hrun]] _ _ He _ _ Hmod Ha Hl.
    pose proof (modest_fits _ _ _ _ _ Hmod) as Hfit. pose proof (modest_answered _ _ _ _ _ _ Hmod Ha) as Hm.
    change (wire_endpoint t = get_https_endpoint (running s)) in He. rewrite Hrun in He. cbn in Hs.
    pose proof (answer_uncompressed _ _ _ Ha) as Hb.
    pose proof (net_call_run t _ _ path msg options w Hs He Hb) as E. cbn [behaviour] in E.
    set (request := request_of t path msg (get_metadata options)) in *.
    pose proof (frames_sent t path msg _ request (request_sent _ _ _ _) Hfit) as Hfr.
    destruct (message_response b (frames_of request)) as (content & status & Eresp & Hc & Hst).
    { by destruct b. }
    assert (reply_of b (frames_of request) = Frames.encode m) as Ereply.
    { rewrite Hfr. destruct b; cbn in *; simplify_eq; by rewrite ?app_nil_r. }
    destruct (answer_read t path (response_for b (frames_of request))) as [Hok _].
    rewrite Eresp, Ereply in Hok. specialize (Hok m content status eq_refl Hc Hst Hm).
    destruct (N.leb_spec (blen m) (limit t)); [|lia]. destruct Hok as (h & ts & Hr & Hh & Hts).
    exists h, ts. eexists. split_and!; [|done|done]. cbn [cr_call_raw net_clients]. rewrite E, Eresp, Ereply, Hr. reflexivity.
Defined.

(** ** Its clock, and a circuit breaker by it *)

Definition net_clock : Clock Net := {|
  Retry.now w := (net_time w, w);
  sleep d w := (tt, pass d w);
  from_clock w := (tt, w);
|}.

#[export] Instance net_transition : BreakerTransition Net := {|
  BreakerState := BreakerSpec.Example.machine;
  Closed := BreakerSpec.Example.IsClosed;
  TransitionError := unit;
  transition_error_to_string _ := "unreachable"%string;
  transition_admit n c w :=
    ((transition_admit (BreakerTransition := BreakerSpec.Example.transition) n c (net_time w)).1, w);
  transition_record n c o w :=
    ((transition_record (BreakerTransition := BreakerSpec.Example.transition) n c o (net_time w)).1, w);
|}.

(** The machine of the example does not change the time. *)
#[export] Instance net_transition_laws : TransitionLaws net_transition.
Proof.
  pose (L := BreakerSpec.Example.laws).
  refine {|
    cooling c (n : BreakerNode (@BreakerState Net net_transition)) w :=
      cooling (TransitionLaws := L) c n (net_time w);
    cooled c n w := cooled (TransitionLaws := L) c n (net_time w);
    half_open := half_open (TransitionLaws := L) |}; intros c n w; cbn [transition_admit transition_record net_transition].
  - intros Hn. destruct (admit_closed (TransitionLaws := L) c n (net_time w) Hn) as [t ->]. by exists w.
  - intros Hn Hf. destruct (record_counts (TransitionLaws := L) c n (net_time w) Hn Hf)
      as (n' & t & -> & H). by exists n', w.
  - intros Hn Hc Hf. destruct (record_trips (TransitionLaws := L) c n (net_time w) Hn Hc Hf)
      as (n' & t & E & H). exists n', w. rewrite E. split; [done|].
    enough (t = net_time w) as <- by done. by injection E.
  - intros Hn. destruct (admit_cooling (TransitionLaws := L) c n (net_time w) Hn) as (n' & t & ->).
    by exists n', w.
  - intros Hn. destruct (admit_cooled (TransitionLaws := L) c n (net_time w) Hn) as (n' & t & -> & H).
    by exists n', w.
  - intros Hn. destruct (admit_half_open (TransitionLaws := L) c n (net_time w) Hn) as [t ->]. by exists w.
  - intros Hn Hk. destruct (record_probe (TransitionLaws := L) c n (net_time w) Hn Hk)
      as (n' & t & -> & H). by exists n', w.
  - intros Hn Hk. destruct (record_closes (TransitionLaws := L) c n (net_time w) Hn Hk)
      as (n' & t & -> & H). by exists n', w.
  - intros Hn Hc. destruct (record_reopens (TransitionLaws := L) c n (net_time w) Hn Hc)
      as (n' & t & E & H). exists n', w. rewrite E. split; [done|].
    enough (t = net_time w) as <- by done. by injection E.
Defined.

Definition machine_is_open (m : BreakerSpec.Example.machine) : bool :=
  match m with BreakerSpec.Example.IsOpen _ => true | _ => false end.

Lemma net_steady : steady net_clock time slack.
Proof. split; intros; cbn; lia. Qed.
