(* ===== verification/NetRuntime.v ===== *)
(** * Tasks on the network in memory

    Timers, tokens and a peer that takes its time, for the network of [Network]: between two polls a
    nanosecond passes, a token is a key, and the peer answers a call when the time comes that its
    message says.  The examples of [CancelScenario] run on it. *)

From S2P Require Import Prelude Text Bytes Contract Metadata Interceptors Intercepted InterceptedSpec Channel Endpoint EgressBuilder Retry RetrySteady Cancellation AsyncClient Peer Fixtures Stack Host Wire Runtime Network.
From Stdlib Require Import NArith Lia Strings.Byte.
From stdpp Require Import base tactics strings option list gmap.

Open Scope N_scope.

Definition is_fired (t : nat) (w : Net) : bool := default false (tokens w !! t).

#[export] Instance net_runtime : Runtime Net := {|
  tick := pass 1;
  expired d w := d <=? net_time w;
  Token := nat;
  token_new w := let t := fresh (dom (tokens w)) in (t, set_tokens (<[t := false]> (tokens w)) w);
  token_cancel t w := (tt, set_tokens (<[t := true]> (tokens w)) w);
  token_cancelled := is_fired;
|}.

(** One peer, and how many calls it has; its messages are as long as it is to sleep. *)
#[export] Instance net_echo : EchoPeers Net := {|
  EchoPeer := unit;
  echo_start w := (tt, set_flying 0 w);
  echo_endpoint _ := "http://echo"%string;
  get_in_flight _ w := flying w;
  say _ _ n := repeat x00 (N.to_nat n);
|}.

(** ** Futures *)

(** What is ready at the first poll. *)
Definition at_once {A} (m : eff Net A) : Future Net A := {|
  f_state := unit;
  f_start := tt;
  f_poll s := let! a := m in ret (Some a, s);
  f_drop _ := ret tt;
|}.

Inductive flight := Grounded | Aloft (due : N) | Landed.

(** A call of the peer. *)
Definition flight_poll (delay : Duration) (s : flight) : eff Net (option (Result (CallResponse (list byte) ListContract.md) CallError) * flight) :=
  fun w =>
  match s with
  | Grounded => ((None, Aloft (net_time w + delay)), set_flying (flying w + 1) w)
  | Aloft due =>
      if due <=? net_time w
      then ((Some (Ok (call_response [] ([], []) ([], []))), Landed), set_flying (flying w - 1) w)
      else ((None, Aloft due), w)
  | Landed => ((None, Landed), w)
  end.

Definition flight_drop (s : flight) : eff Net unit := fun w =>
  (tt, match s with Aloft _ => set_flying (flying w - 1) w | _ => w end).

Definition fly (delay : Duration) : Future Net (Result (CallResponse (list byte) ListContract.md) CallError) := {|
  f_state := flight;
  f_start := Grounded;
  f_poll := flight_poll delay;
  f_drop := flight_drop;
|}.

Definition net_call_future (t : WireOptions) (path : string) (message : list byte) (options : CallOptions) :
    Future Net (Result (CallResponse (list byte) ListContract.md) CallError) :=
  if decide (wire_endpoint t = "http://echo"%string) then fly (from_millis (blen message))
  else at_once (net_call t path message options).

#[export] Instance net_futures : EngineFutures Net WireOptions net_clients := {|
  call_future := (fun t M message options => at_once (net_typed_call t M message options))
    : WireOptions -> forall M : Method, Request M -> CallOptions ->
      Future Net (Result (CallResponse (Response M) (ct_metadata net_clients)) CallError);
  server_stream_future t M message options :=
    f_map (rmap slowly) (at_once (ct_call_server_stream net_clients t M message options));
  client_stream_future t M requests options := at_once (ct_call_client_stream net_clients t M requests options);
  bidi_stream_future t M requests options :=
    f_map (rmap slowly) (at_once (ct_call_bidi_stream net_clients t M requests options));
  call_raw_future := net_call_future
    : WireOptions -> string -> list byte -> CallOptions ->
      Future Net (Result (CallResponse (list byte) (cr_metadata net_clients)) CallError);
  raw_server_stream_future t path message options :=
    f_map (rmap slowly) (at_once (cr_call_raw_server_stream net_clients t path message options));
  raw_client_stream_future t path requests options :=
    at_once (cr_call_raw_client_stream net_clients t path requests options);
  raw_bidi_stream_future t path requests options :=
    f_map (rmap slowly) (at_once (cr_call_raw_bidi_stream net_clients t path requests options));
|}.

(** ** They do what is relied on *)

#[export] Instance net_runtime_laws : RuntimeLaws net_clock (HW := net_wire).
Proof.
  refine {|
    passes P w w' := flying w' = flying w /\ forall t, ~ P t -> is_fired t w' = is_fired t w;
    grain := 1;
  |}.
  - intros P t w w' [_ H]. apply H.
  - done.
  - intros w. cbn. lia.
  - done.
  - done.
  - done.
  - intros d w Hd. apply N.leb_le. cbn in *. lia.
  - intros d w Hd. apply N.leb_gt. cbn in *. lia.
  - intros w. cbn. unfold is_fired at 1. cbn. rewrite lookup_insert_eq. split_and!; [done|done| |lia|lia].
    intros t _. unfold is_fired. cbn. destruct (decide (t = fresh (dom (tokens w)))) as [->|Ht].
    + rewrite lookup_insert_eq. cbn.
      assert (tokens w !! fresh (dom (tokens w)) = None) as -> by apply not_elem_of_dom, is_fresh. done.
    + by rewrite lookup_insert_ne.
  - intros t w. cbn. unfold is_fired at 1. cbn. rewrite lookup_insert_eq. split_and!; [done|done| |lia|lia].
    intros t' Ht'. unfold is_fired. cbn. by rewrite lookup_insert_ne.
Defined.

#[export] Instance net_echo_laws : EchoLaws net_clients net_clock.
Proof.
  refine {|
    serving _ w := flying w = 0;
    idle_by _ _ w := flying w = 0;
    notice := 0;
  |}.
  - intros w. by exists tt, (set_flying 0 w).
  - intros P p w w' H [E _]. by rewrite E.
  - intros p f w H. exact H.
  - intros P p u w w' H [E _]. by rewrite E.
  - done.
  - intros t p n options w Hs He _ _ _ _ _. cbn [call_raw_future net_futures say net_echo].
    change (wire_endpoint t = "http://echo"%string) in He. unfold net_call_future. rewrite decide_True by done.
    unfold blen. rewrite repeat_length, N2Nat.id.
    exists (fun s w' => s = Aloft (net_time w + from_millis n) /\ flying w' = 1). split.
    + unfold polled. cbn. rewrite Hs. split_and!; first [done|lia].
    + split.
      * intros s w' [-> Hf]. unfold polled. cbn. destruct (N.leb_spec (net_time w + from_millis n) (net_time w')); cbn.
        -- rewrite Hf. split_and!; first [done|lia].
        -- split_and!; first [done|lia].
      * intros P s w' w'' [-> Hf] [E _]. by rewrite E.
      * intros s w' [-> Hf]. cbn. rewrite Hf. split_and!; first [done|lia].
Defined.
