(* ===== verification/Scenarios.v ===== *)
(** * The scenarios of the composition root

    [examples/composition-root/src/*_scenario.rs]: each runs clients against peers and records
    what it saw; the examples of the breaker and of the bearer crate run the same way.  What they
    see is proved in [ScenarioSpec]. *)

From S2P Require Import Prelude Text Bytes Contract Metadata Interceptors Identity Channel Pki Endpoint EgressBuilder F64 RetryConfig RetryClassifier Retry BreakerConfig Breaker Resilience Peer Fixtures Suite Host.
From Stdlib Require Import NArith Lia Strings.Byte.
From stdpp Require Import base tactics strings option list.

Definition bytes_of (s : string) : list byte := String.list_byte_of_string s.

Definition METHOD : string := "pkg.Service/Method".

Section scenarios.
Context `{Contract} `{MethodPaths} `{TransportOptions} {W T : Type}.
Context `{!Engine W T} `{!LoadbalancerSvc W} `{!Host W} `{!Logs W} (ct : ClientType W T).
Context (fs_read : string -> eff W (Result (list byte) string)).
Context (call_error_to_string : CallError -> string).

Notation program := (may_panic W ScenarioReport BoxError).
Notation try_build := (try_build ct fs_read call_error_to_string).

(** [CallFixture::request(b"ping", Duration::from_secs(5))] on the scenarios' method. *)
Definition ping_call {V} (c : Client V) (metadata : Metadata) :=
  send c METHOD (bytes_of "ping") (from_secs 5) metadata.

(** ** Interceptors *)

Definition SCENARIO_TRACEPARENT : string := "00-0af7651916cd43dd8448eb211c80319c-b7ad6b7169203331-01".

Definition interceptor_scenario : program :=
  let report := report_new "interceptor and trace context" in
  let* server := server_start Echo in
  let* log := no_panic (let! l := new_log in ret (Ok l)) in
  let* c := try_build (builder_with (server_endpoint server)
    [WithPlaintextAllowed;
     WithInterceptor (OrderInterceptor "a" (push_log log));
     WithInterceptor (OrderInterceptor "b" (push_log log));
     WithTraceContext (Static SCENARIO_TRACEPARENT (Some "vendor=1"%string))]) in
  let* r := ping_call c metadata_default in
  let* _ := expect r in
  let* order := look (read_log log) in
  let report := Suite.record report
    "legacy hooks keep registration order and Pattern lifecycle reaches every interceptor"
    (bool_decide (order =
       ["before:a"; "before:b"; "event:started:a"; "event:started:b";
        "after:a"; "after:b"; "event:completed:a"; "event:completed:b"])) in
  let* traceparent := look (get_last_header server "traceparent") in
  let* tracestate := look (get_last_header server "tracestate") in
  let report := Suite.record report "the trace context reaches the peer"
    (bool_decide (traceparent = Some SCENARIO_TRACEPARENT) &&
     bool_decide (tracestate = Some "vendor=1"%string)) in
  let* before := look (count_requests server) in
  let* refusing := try_build (builder_with (server_endpoint server)
    [WithPlaintextAllowed; WithInterceptor RefusingInterceptor]) in
  let* refused := ping_call refusing metadata_default in
  let* after := look (count_requests server) in
  let report := Suite.record report "an interceptor that refuses stops the call before it is sent"
    (negb (is_ok refused) && Nat.eqb after before) in
  pure_result (Ok report).

(** ** The identity of the caller *)

(** [SecurityContext], a record of the crate that authenticates; the entries of its map in the order
    it is walked. *)
Record SecurityContext := security_context {
  ctx_trace_id : option string;
  ctx_tenant_id : option string;
  ctx_authenticated : bool;
  ctx_token : option string;
  ctx_metadata : list (string * string);
}.

(** The order of [(&str, &str)]. *)
Definition entry_leb (a b : string * string) : bool :=
  match String.compare a.1 b.1 with
  | Lt => true
  | Gt => false
  | Eq => String.leb a.2 b.2
  end.

Fixpoint insert_entry (e : string * string) (l : list (string * string)) : list (string * string) :=
  match l with
  | [] => [e]
  | x :: l' => if entry_leb e x then e :: l else x :: insert_entry e l'
  end.

(** [sort_unstable]: equal entries are the same, so every sort gives this list. *)
Definition sort_entries (l : list (string * string)) : list (string * string) :=
  fold_right insert_entry [] l.

(** [CallerIdentity for ScenarioIdentity]. *)
Definition ScenarioIdentity (ctx : SecurityContext) : CallerIdentity := {|
  trace_id := ctx_trace_id ctx;
  tenant_id := ctx_tenant_id ctx;
  bearer_token := if ctx_authenticated ctx then ctx_token ctx else None;
  identity_headers := sort_entries (ctx_metadata ctx);
|}.

(** [SecurityContext::unauthenticated().with_trace_id("trace-1")] and [Metadata::create]. *)
Context (traced_context : SecurityContext).
Context (metadata_create : list (string * string) -> Metadata).
Context (entry_create : string -> string -> Result (string * string) MetadataError).

(** [StdGrpcCallerIdentityFactory::build]. *)
Definition identity_build (inner : Client W) (identity : CallerIdentity) : Client W :=
  context_client (context_from inner identity).

Definition security_context_scenario : program :=
  let report := report_new "security context" in
  let* server := server_start Echo in
  let* c := try_build (builder_with (server_endpoint server) [WithPlaintextAllowed]) in
  let ctx := security_context (ctx_trace_id traced_context) (Some "tenant-7"%string) true
               (Some "jwt-abc"%string) (ctx_metadata traced_context) in
  let bound := identity_build c (ScenarioIdentity ctx) in
  let* r := ping_call bound metadata_default in
  let* _ := expect r in
  let* trace := look (get_last_header server "x-trace-id") in
  let* tenant := look (get_last_header server "x-tenant-id") in
  let report := Suite.record report "the trace id and the tenant reach the peer"
    (bool_decide (trace = Some "trace-1"%string) && bool_decide (tenant = Some "tenant-7"%string)) in
  let* authorization := look (get_last_header server "authorization") in
  let report := Suite.record report "an authenticated context sends its token as a bearer"
    (bool_decide (authorization = Some "Bearer jwt-abc"%string)) in
  let* entry := pure_result (map_err (fun e => FromText (metadata_error_to_string e))
                  (entry_create "x-trace-id" "caller")) in
  let own := metadata_create [entry] in
  let* r := ping_call bound own in
  let* _ := expect r in
  let* trace := look (get_last_header server "x-trace-id") in
  let report := Suite.record report "a header the call carries is kept"
    (bool_decide (trace = Some "caller"%string)) in
  let ctx := security_context (ctx_trace_id ctx) (ctx_tenant_id ctx) false (ctx_token ctx)
               (ctx_metadata ctx) in
  let unauthenticated := identity_build c (ScenarioIdentity ctx) in
  let* r := ping_call unauthenticated metadata_default in
  let* _ := expect r in
  let* authorization := look (get_last_header server "authorization") in
  let report := Suite.record report "an unauthenticated context sends no authorization"
    (bool_decide (authorization = None)) in
  pure_result (Ok report).
End scenarios.

(** ** Retry and breaker, applied by the root *)

Section decorated.
Context `{Contract} `{MethodPaths} `{TransportOptions} `{Backoff} {W T : Type}.
Context `{!Engine W T} `{!LoadbalancerSvc W} `{!Host W} (ct : ClientType W T).
Context (fs_read : string -> eff W (Result (list byte) string)).
Context (call_error_to_string : CallError -> string).
Context (clk : Clock W) `{!BreakerTransition W}.

(** [matches!(state, BreakerState::Open { .. })]. *)
Context (is_open : BreakerState -> bool).

Notation program := (may_panic W ScenarioReport BoxError).
Notation try_build := (try_build ct fs_read call_error_to_string).

Definition ATTEMPTS : N := 3.

(** A failure with [StatusCode::Unavailable] that no peer sent. *)
Definition is_unavailable_transport {R} (r : Result R CallError) : bool :=
  match r with Err (Transport_ _ Unavailable _) => true | _ => false end.

Definition decorator_policy : Result GrpcRetryConfig RetryError :=
  RetryConfig.Builder.build (fold_left RetryConfig.Builder.set
    [RetryConfig.Builder.SetMaxAttempts ATTEMPTS; RetryConfig.Builder.SetInitialBackoffMs 1;
     RetryConfig.Builder.SetBackoffMultiplier f64_one; RetryConfig.Builder.SetJitterFactor f64_zero;
     RetryConfig.Builder.SetMaxBackoffMs 1] RetryConfig.retry_config_builder).

(** What the scenario does with the decorated client, whose node is in the state. *)
Definition decorator_calls (server : Server) (c : Client (BreakerNode BreakerState * W)) :
    may_panic (BreakerNode BreakerState * W) ScenarioReport BoxError :=
  let count := fun s => count_requests server (snd s) in
  let report := report_new "decorators applied by the root" in
  let* _ := ping_call c metadata_default in
  let* requests := look count in
  let report := Suite.record report "a failing call is retried up to the attempt limit"
    (N.eqb (N.of_nat requests) ATTEMPTS) in
  let* _ := ping_call c metadata_default in
  let* state := no_panic (let! s := observe_state in ret (Ok s)) in
  let report := Suite.record report "the breaker opens after the threshold of failed calls"
    (is_open state) in
  let* hits := look count in
  let* refused := ping_call c metadata_default in
  let* requests := look count in
  let report := Suite.record report "an open breaker answers Unavailable without reaching the peer"
    (is_unavailable_transport refused && Nat.eqb requests hits) in
  pure_result (Ok report).

Definition decorator_scenario : program :=
  let* server := server_start (ReplyStatus "14" (Some "down"%string) None) in
  let* bare := try_build (builder_with (server_endpoint server) [WithPlaintextAllowed]) in
  let* policy := pure_result (map_err FromRetry decorator_policy) in
  let retrying := retry_build clk policy bare in
  let* config := pure_result (map_err FromBreaker (BreakerConfig.try_new true 2 60 1)) in
  let* (c, node) := pure_result (map_err FromBreaker (breaker_build config retrying)) in
  with_state node (decorator_calls server c).

(** ** One function for every client *)

(** [CallOptions::default()], and the text of a failed UTF-8 check. *)
Context (options_default : CallOptions) (utf8_error : list byte -> string).

Definition pings {V} (c : Client V) (body : string) : may_panic V bool BoxError :=
  let* answer := no_panic (ping options_default c (bytes_of body)) in
  pure_result (Ok (bool_decide (answer = bytes_of body))).

(** What the scenario does with the guarded client. *)
Definition generic_calls (report : ScenarioReport) (c : Client (BreakerNode BreakerState * W)) :
    may_panic (BreakerNode BreakerState * W) ScenarioReport BoxError :=
  let* echoed := pings c "breaker" in
  let report := Suite.record report "and the one wrapped in the breaker on top of it" echoed in
  let* typed := no_panic (let! r := call (typed c) (EchoText.EchoText utf8_error) "typed"%string options_default in
                          ret (map_err FromCall r)) in
  let report := Suite.record report "a typed call goes through the same wrapped client"
    (bool_decide (message typed = "typed"%string)) in
  pure_result (Ok report).

Definition generic_client_scenario : program :=
  let report := report_new "generic client" in
  let* server := server_start Echo in
  let build := try_build (builder_with (server_endpoint server) [WithPlaintextAllowed]) in
  let* bare := build in
  let* echoed := pings bare "bare" in
  let report := Suite.record report "the bare client is passed to a generic function" echoed in
  let* inner := build in
  let retrying := retry_build clk RetryConfig.default inner in
  let* echoed := pings retrying "retry" in
  let report := Suite.record report "the same function takes the client wrapped in retry" echoed in
  let* (c, node) := pure_result (map_err FromBreaker (breaker_build BreakerConfig.default retrying)) in
  with_state node (generic_calls report c).
End decorated.

(** ** Options that cannot be combined *)

(** [GrpcChannelConfigError]'s text. *)
Definition channel_error_to_string (e : GrpcChannelConfigError) : string :=
  match e with
  | PlaintextRejected endpoint =>
      "plaintext endpoint '" +:+ endpoint +:+
      "' rejected — tls_required is set; use .allow_plaintext() to opt out"
  | UnusableTlsFile path reason => "TLS file '" +:+ path +:+ "' is unusable: " +:+ reason
  | ConflictingOptions first second reason =>
      "options '" +:+ first +:+ "' and '" +:+ second +:+ "' cannot be combined: " +:+ reason
  | InvalidOptionValue option reason =>
      "option '" +:+ option +:+ "' has an unusable value: " +:+ reason
  | TlsOptionOnPlaintextEndpoint option endpoint =>
      "option '" +:+ option +:+ "' is set but endpoint '" +:+ endpoint +:+
      "' is plaintext; use an https:// endpoint or remove the option"
  end.

Section options.
Context `{Contract} `{MethodPaths} `{TransportOptions} {W T : Type}.
Context `{!Engine W T} `{!LoadbalancerSvc W} `{!Host W} (ct : ClientType W T).
Context (fs_read : string -> eff W (Result (list byte) string)).
Context (call_error_to_string : CallError -> string).

Notation program := (may_panic W ScenarioReport BoxError).
Notation try_build := (try_build ct fs_read call_error_to_string).

(** [builder.build().err().map(|e| e.to_string()).unwrap_or_default()]. *)
Definition refusal_text (builder : GrpcEgressBuilderImpl (W := W)) : may_panic W string BoxError :=
  let! built := build ct fs_read call_error_to_string builder in
  ret ((fun r => Ok (match r with Err e => channel_error_to_string e | Ok _ => "" end)) <$> built).

Definition one_backend : Result LoadbalancerSettings BoxError :=
  let? target := map_err FromText (Loadbalancer.target_try_new "http://127.0.0.1:2" 1) in
  map_err FromText (Loadbalancer.settings_try_new RoundRobin [target]).

Definition invalid_combination_scenario : program :=
  let report := report_new "invalid combinations" in
  let identity := identity_create (bytes_of "certificate") (bytes_of "key") in
  let* mtls_and_plaintext := refusal_text (builder_with "http://127.0.0.1:1"
    [WithPlaintextAllowed; WithTls (tls_create None [] (Some identity))]) in
  let report := Suite.record report "mtls with plaintext_allowed names both options"
    (contains mtls_and_plaintext "'mtls'" && contains mtls_and_plaintext "'plaintext_allowed'") in
  let* settings := pure_result one_backend in
  let* endpoint_and_balancer := refusal_text (builder_with ""
    [WithEndpoint "http://127.0.0.1:1"; WithPlaintextAllowed; WithLoadbalancer settings]) in
  let report := Suite.record report "an endpoint with a load balancer names both options"
    (contains endpoint_and_balancer "'endpoint'" && contains endpoint_and_balancer "'loadbalancer'") in
  let* zero_limit := refusal_text (builder_with "http://127.0.0.1:1"
    [WithPlaintextAllowed; WithMaxDecodingMessageSize 0]) in
  let report := Suite.record report "a zero message limit names the option"
    (contains zero_limit "max_decoding_message_size") in
  let no_backends :=
    match Loadbalancer.settings_try_new RoundRobin [] with Err e => e | Ok _ => ""%string end in
  let report := Suite.record report "a balancer without backends names the missing backends"
    (contains no_backends "backends") in
  let* plaintext := refusal_text (builder_with "http://127.0.0.1:1" []) in
  let report := Suite.record report "a plaintext endpoint without the opt-in is rejected"
    (contains plaintext "http://127.0.0.1:1") in
  pure_result (Ok report).

(** ** A client from a file *)

Context (toml_from_str : string -> Result ChannelConfig.GrpcChannelConfigData string).
Context (toml_custom : string -> string).

(** A quote and a line end. *)
Definition QUOTE : string := String (Ascii.ascii_of_N 34) EmptyString.
Definition NEWLINE : string := String (Ascii.ascii_of_N 10) EmptyString.

(** The text of the [format!]. *)
Definition config_for (endpoint : string) : string :=
  "endpoint = " +:+ QUOTE +:+ endpoint +:+ QUOTE +:+ NEWLINE +:+
  "tls_required = false" +:+ NEWLINE +:+
  "max_message_bytes = 65536" +:+ NEWLINE +:+
  "compression = " +:+ QUOTE +:+ "Gzip" +:+ QUOTE +:+ NEWLINE.

Definition loaded_config_scenario : program :=
  let report := report_new "loaded config" in
  let* server := server_start Echo in
  let root := composition_root (config_for (server_endpoint server)) in
  let* builder := pure_result (assemble toml_from_str toml_custom root) in
  let* from_config := try_build builder in
  let* r := ping_call from_config metadata_default in
  let* _ := expect r in
  let* encoding := look (get_last_header server "grpc-encoding") in
  let report := Suite.record report "the compression of the file applies"
    (bool_decide (encoding = Some "gzip"%string)) in
  let* builder := pure_result (assemble toml_from_str toml_custom root) in
  let* overridden := try_build (with_option builder (WithSendCompression Zstd)) in
  let* r := ping_call overridden metadata_default in
  let* _ := expect r in
  let* encoding := look (get_last_header server "grpc-encoding") in
  let report := Suite.record report "an option set after the file wins over it"
    (bool_decide (encoding = Some "zstd"%string)) in
  pure_result (Ok report).

(** ** Several backends *)

(** The backends of equal weight for the URLs, in order. *)
Fixpoint targets_for (urls : list string) : Result (list BackendTarget) string :=
  match urls with
  | [] => Ok []
  | url :: urls =>
      let? target := Loadbalancer.target_try_new url 1 in
      let? targets := targets_for urls in
      Ok (target :: targets)
  end.

Definition balanced (urls : list string) : may_panic W (Client W) BoxError :=
  let* settings := pure_result (map_err FromText
    (let? backends := targets_for urls in Loadbalancer.settings_try_new RoundRobin backends)) in
  try_build (builder_with "" [WithPlaintextAllowed; WithLoadbalancer settings]).

(** [for _ in 0..n]: the calls one after the other, and how many were answered. *)
Fixpoint count_answered (n : nat) (c : Client W) (answered : nat) : may_panic W nat BoxError :=
  match n with
  | O => pure_result (Ok answered)
  | Datatypes.S n =>
      let* r := ping_call c metadata_default in
      count_answered n c (if is_ok r then Datatypes.S answered else answered)
  end.

Definition loadbalancer_scenario : program :=
  let report := report_new "load balancer" in
  let* one := server_start (Reply (bytes_of "one")) in
  let* two := server_start (Reply (bytes_of "two")) in
  let* c := balanced [server_endpoint one; server_endpoint two] in
  let* _ := count_answered 6 c 0 in
  let* first := look (count_requests one) in
  let* second := look (count_requests two) in
  let report := Suite.record report "calls reach both backends" (Nat.ltb 0 first && Nat.ltb 0 second) in
  let* dead := no_panic (let! r := reserve in ret (map_err FromText r)) in
  let* live := server_start (Reply (bytes_of "live")) in
  let* c := balanced [closed_endpoint (get_port dead); server_endpoint live] in
  let* answered := count_answered 8 c 0 in
  let report := Suite.record report "a backend that is down is avoided" (Nat.leb 7 answered) in
  pure_result (Ok report).

(** ** Every option *)

Context `{!Logs W} `{!RcgenSvc W} `{!Disk W} `{!TlsHost W}.

Definition MESSAGE_CAP_BYTES : N := 1024.

Definition limit_refuses : may_panic W bool BoxError :=
  let* big := server_start (Reply (repeat x07 (N.to_nat (MESSAGE_CAP_BYTES * 2)))) in
  let* c := try_build (builder_with (server_endpoint big)
    [WithPlaintextAllowed; WithMaxDecodingMessageSize MESSAGE_CAP_BYTES]) in
  let* result := ping_call c metadata_default in
  pure_result (Ok (match result with Err (Status _ OutOfRange _ _ _) => true | _ => false end)).

Definition times_out : may_panic W bool BoxError :=
  let* slow := server_start (Delay (from_millis 800)) in
  let* c := try_build (builder_with (server_endpoint slow)
    [WithPlaintextAllowed; WithRequestTimeout (from_millis 150)]) in
  let* result := ping_call c metadata_default in
  pure_result (Ok (match result with Err (Status _ DeadlineExceeded _ _ _) => true | _ => false end)).

Definition mtls_works : may_panic W bool BoxError :=
  let* pki := no_panic (let! r := pki_create in ret (map_err FromText r)) in
  let* peer := no_panic (let! r := peer_start_tls (Reply (bytes_of "secure")) pki ClientAuthRequired in
                         ret (map_err FromText r)) in
  let* mtls := pure_result (map_err FromChannel
    (mtls_build (get_client_cert_pem_path pki) (get_client_key_pem_path pki)
       (Some (get_ca_pem_path pki)))) in
  let* tls := no_panic (let! r := Tls.resolve fs_read (Some mtls) (Mtls.ca_pem_path mtls) in
                        ret (map_err FromChannel r)) in
  let* c := try_build (builder_with (get_https_endpoint (running peer)) [WithTls tls]) in
  let* answered := ping_call c metadata_default in
  let* answered := expect answered in
  pure_result (Ok (bool_decide (message answered = bytes_of "secure"))).

Definition all_options_scenario : program :=
  let report := report_new "every transport option" in
  let* server := server_start (Reply (bytes_of "pong")) in
  let* log := no_panic (let! l := new_log in ret (Ok l)) in
  let* keep_alive := pure_result (map_err FromText
    (KeepAlive.try_new (from_secs 30) (from_secs 10) false)) in
  let* c := try_build (builder_with ""
    [WithEndpoint (server_endpoint server); WithPlaintextAllowed; WithRequestTimeout (from_secs 5);
     WithMaxDecodingMessageSize MESSAGE_CAP_BYTES; WithSendCompression Gzip;
     WithAcceptCompression Gzip; WithKeepAlive keep_alive;
     WithInterceptor (OrderInterceptor "only" (push_log log));
     WithTraceContext (Static SCENARIO_TRACEPARENT None)]) in
  let* echoed := ping_call c metadata_default in
  let* echoed := expect echoed in
  let report := Suite.record report "the peer's answer arrives"
    (bool_decide (message echoed = bytes_of "pong")) in
  let* compressed := look (is_last_message_compressed server) in
  let report := Suite.record report "the message travelled compressed" compressed in
  let* encoding := look (get_last_header server "grpc-encoding") in
  let report := Suite.record report "grpc-encoding announces gzip"
    (bool_decide (encoding = Some "gzip"%string)) in
  let* traceparent := look (get_last_header server "traceparent") in
  let report := Suite.record report "the trace context reaches the peer"
    (bool_decide (traceparent = Some SCENARIO_TRACEPARENT)) in
  let* entries := look (read_log log) in
  let report := Suite.record report "the interceptor ran around the call"
    (Nat.eqb (length entries) 4) in
  let* refused := limit_refuses in
  let report := Suite.record report "a reply over the message limit is refused" refused in
  let* ended := times_out in
  let report := Suite.record report "a slow peer hits the request timeout" ended in
  let* answered := mtls_works in
  let report := Suite.record report "a peer demanding a client certificate is answered" answered in
  pure_result (Ok report).
End options.
