(* ===== verification/Examples.v ===== *)
(** * The examples of the breaker and of the bearer crate

    [breaker-spi/examples/grpc_breaker.rs]: a client from a configuration, inside a breaker that
    opens on a peer that is down.  [auth-bearer-spi/examples/auth_bearer.rs]: a chain with the bearer
    interceptor run over a call that is not sent.  (The two retry examples are in [Flaky].) *)

From S2P Require Import Prelude Text Bytes Contract Metadata Interceptors Bearer Channel Endpoint EgressBuilder F64 RetryConfig BreakerConfig Breaker Resilience Peer Fixtures Flaky Host Scenarios.
From Stdlib Require Import NArith Lia Strings.Byte.
From stdpp Require Import base tactics strings option list.

(** ** A breaker around a peer that is down *)

Section grpc_breaker.
Context `{Contract} `{MethodPaths} `{TransportOptions} {W T : Type}.
Context `{!Engine W T} `{!LoadbalancerSvc W} `{!Host W} `{!BreakerTransition W} (ct : ClientType W T).
Context (fs_read : string -> eff W (Result (list byte) string)).
Context (call_error_to_string : CallError -> string) (is_open : BreakerState -> bool).

(** [StatusCode::Unavailable.get_code()]. *)
Definition UNAVAILABLE_CODE : N := 14.

(** [config_builder(endpoint).allow_plaintext().build()]. *)
Definition breaker_channel (endpoint : string) : Result GrpcChannelConfig string :=
  ChannelBuilder.build (fold_left ChannelBuilder.set
    [ChannelBuilder.WithEndpoint endpoint; ChannelBuilder.AllowPlaintext] channel_config_builder).

(** The closure [call]. *)
Definition breaker_call {V} (c : Client V) :=
  send c "example.Service/Method" (bytes_of "hi") (from_secs 1) metadata_default.

Definition is_unavailable_status {R} (r : Result R CallError) : bool :=
  match r with Err (Status _ Unavailable _ _ _) => true | _ => false end.

(** [for attempt in 1..=n]. *)
Fixpoint failing_attempts {V} (n : nat) (c : Client V) : may_panic V unit BoxError :=
  match n with
  | O => pure_result (Ok tt)
  | Datatypes.S n =>
      let* result := breaker_call c in
      let* _ := assert_that (is_unavailable_status result) in
      failing_attempts n c
  end.

(** What [main] does with the guarded client. *)
Definition breaker_calls (upstream : Server) (c : Client (BreakerNode BreakerState * W)) :
    may_panic (BreakerNode BreakerState * W) unit BoxError :=
  let count := fun s => count_requests upstream (snd s) in
  let* _ := failing_attempts 2 c in
  let* state := no_panic (let! s := observe_state in ret (Ok s)) in
  let* _ := assert_that (is_open state) in
  let* before := look count in
  let* result := breaker_call c in
  let* after := look count in
  let* _ := assert_that (is_unavailable_transport result) in
  assert_that (Nat.eqb before after).

(** [main] of [grpc_breaker.rs]. *)
Definition grpc_breaker_main : may_panic W unit BoxError :=
  let* upstream := server_start (ReplyStatus (decimal UNAVAILABLE_CODE) (Some "upstream is down"%string) None) in
  let* config := pure_result (map_err FromText (breaker_channel (server_endpoint upstream))) in
  let* c := (let! built := from_config ct fs_read call_error_to_string config in
             ret (map_err FromChannel <$> built)) in
  let* policy := pure_result (map_err FromBreaker (BreakerConfig.try_new true 2 30 1)) in
  let* (c, node) := pure_result (map_err FromBreaker (breaker_build policy c)) in
  with_state node (breaker_calls upstream c).
End grpc_breaker.

(** ** A bearer token on a call *)

(** [str::strip_prefix]. *)
Definition strip_prefix (s p : string) : option string :=
  if String.prefix p s then Some (drop_bytes (str_len p) s) else None.

(** [s.split(c).count()]. *)
Fixpoint split_count (c : Ascii.ascii) (s : string) : nat :=
  match s with
  | EmptyString => 1
  | String a s => if decide (a = c) then Datatypes.S (split_count c s) else split_count c s
  end.

Section auth_bearer.
Context `{Contract} `{MethodPaths} `{Jwt} {W : Type} (system_time : eff W (option N)).

Definition bearer_policy : Result BearerEgressConfig BoxError :=
  let? secret := map_err (fun e => FromText (bearer_error_to_string e))
                   (hs256 (bytes_of "an-example-secret-of-32-bytes!!!")) in
  map_err FromText (ConfigBuilder.build (fold_left ConfigBuilder.set
    [ConfigBuilder.Secret secret; ConfigBuilder.Issuer "svc-a"; ConfigBuilder.Audience "svc-b";
     ConfigBuilder.Subject "svc-a-client"; ConfigBuilder.LifetimeSeconds 60] bearer_config_builder)).

Definition bearer_fixture : OutboundCallFixture :=
  fixture_with_metadata
    (fixture_with_timeout (fixture_create "/example.Service/Method") (Some (from_secs 3)))
    metadata_default.

(** [chain.run_before(&mut call)?], and the call as it is left. *)
Definition run_chain (chain : StdGrpcEgressInterceptorChain) (call : OutboundCallFixture) :
    may_panic W OutboundCallFixture BoxError := fun w =>
  let '(r, (call, w)) := run_before chain OutboundCallFixture (call, w) in
  (Some (map_err FromCall (rmap (fun _ => call) r)), w).

(** [main] of [auth_bearer.rs]. *)
Definition auth_bearer_main : may_panic W unit BoxError :=
  let* config := pure_result bearer_policy in
  let chain := push chain_build (bearer_build system_time (bearer_factory config)) in
  let* call := run_chain chain bearer_fixture in
  let* header := pure_result (match header_values call AUTHORIZATION_HEADER with
    | [header] => Ok header
    | _ => Err (FromText "the interceptor did not add exactly one authorization header")
    end) in
  let* token := pure_result (ok_or (strip_prefix header "Bearer ")
    (FromText "the authorization header is not a bearer token")) in
  assert_that (Nat.eqb (split_count (Ascii.ascii_of_N 46) token) 3).
End auth_bearer.

(** ** The bearer example runs to its end *)

Lemma strip_prefix_app p s : strip_prefix (p +:+ s) p = Some s.
Proof. unfold strip_prefix. by rewrite Text.prefix_app, drop_bytes_app. Qed.

(** Whatever the clock says, as long as it says a time, and whatever the signer makes, as long as its
    tokens have three parts and can be a header: one header is added, and it holds the token. *)
Theorem auth_bearer_completes `{HC : Contract} `{HM : !MetadataLaws} `{HP : MethodPaths} `{HJ : Jwt} {W}
    (system_time : eff W (option N)) (now : N) (w w' : W) :
  built metadata_default -> values metadata_default AUTHORIZATION_HEADER = [] ->
  system_time w = (Some now, w') ->
  (forall claims key, exists token, jwt_encode HS256 claims key = Ok token /\
     split_count (Ascii.ascii_of_N 46) token = 3%nat /\
     valid AUTHORIZATION_HEADER ("Bearer " +:+ token) = true) ->
  auth_bearer_main system_time w = (Some (Ok tt), w').
Proof.
  intros Hb Hv Hnow Hjwt. unfold auth_bearer_main.
  set (config := bearer_config (bearer_secret (Hs256 (bytes_of "an-example-secret-of-32-bytes!!!")))
    "svc-a" "svc-b" "svc-a-client" 60).
  assert (bearer_policy = Ok config) as -> by reflexivity.
  destruct (Hjwt (claims_at config now) (from_secret (bytes_of "an-example-secret-of-32-bytes!!!")))
    as (token & Et & Hparts & Hvalid).
  assert (sound bearer_fixture) as Hsound by exact Hb.
  assert (header_values bearer_fixture AUTHORIZATION_HEADER = []) as Hnone.
  { cbn. unfold fixture_header_values. cbn. rewrite built_values by eauto using valid_valid_key.
    exact Hv. }
  destruct (add_header_ok bearer_fixture AUTHORIZATION_HEADER _ Hsound Hvalid)
    as (c & Ec & _ & _ & _ & Hc).
  assert (has_header bearer_fixture AUTHORIZATION_HEADER = false) as Hh.
  { destruct (has_header bearer_fixture AUTHORIZATION_HEADER) eqn:E; [|done].
    apply has_header_values in E. by rewrite Hnone in E. }
  specialize (Hc AUTHORIZATION_HEADER (valid_valid_key _ _ Hvalid)).
  rewrite Hnone, decide_True in Hc by done.
  assert (run_chain (push chain_build (bearer_build system_time (bearer_factory config)))
      bearer_fixture w = (Some (Ok c), w')) as Er.
  { unfold run_chain. cbn [run_before std_chain push chain_build app std_run_before before_call
      bearer_build factory_config BearerEgressInterceptor]. unfold bindr, bind, ret, bearer_before_call. rewrite Hh.
    unfold sign_token, bind, ret. rewrite Hnow. cbn [ok_or rbind].
    change (signing_key config) with
      (Ok (HS256, from_secret (bytes_of "an-example-secret-of-32-bytes!!!")) : Result _ BearerAuthError).
    cbn [rbind]. rewrite Et. cbn [map_err]. unfold add_header_to. by rewrite Ec. }
  unfold bindp at 1, bind, pure_result, ret. unfold bindp at 1, bind. rewrite Er.
  unfold bindp at 1, bind. rewrite Hc. cbn [app].
  unfold bindp, bind. rewrite strip_prefix_app. cbn [ok_or]. by rewrite Hparts.
Qed.

#[local] Existing Instance list_contract.

(** A signer for the example. *)
#[local] Instance dotted_jwt : Jwt := {|
  EncodingKey := list byte;
  from_secret k := k;
  from_rsa_pem k := Ok k;
  jwt_encode _ claims _ := Ok ("e30." +:+ decimal (exp claims) +:+ ".c2ln")%string;
|}.

#[local] Instance every_path : MethodPaths := {|
  PathError := unit;
  method_path_create := Ok;
|}.

Lemma decimal_no_dots n rest :
  split_count (Ascii.ascii_of_N 46) (decimal n +:+ rest) = split_count (Ascii.ascii_of_N 46) rest.
Proof.
  assert (Forall (fun c => c <> Ascii.ascii_of_N 46) (String.list_ascii_of_string (decimal n))) as HF.
  { rewrite decimal_chars. eapply Forall_impl; [apply (decimal_fuel_digits 20 n)|].
    intros c [Hc _] ->. by apply Hc. }
  induction (decimal n) as [|c s IH]; [done|]. apply Forall_cons in HF as [Hc HF].
  change (split_count (Ascii.ascii_of_N 46) (String c s +:+ rest)) with
    (if decide (c = Ascii.ascii_of_N 46) then Datatypes.S (split_count (Ascii.ascii_of_N 46) (s +:+ rest))
     else split_count (Ascii.ascii_of_N 46) (s +:+ rest)).
  rewrite decide_False by done. by apply IH.
Qed.

Lemma auth_bearer_completes_witness :
  auth_bearer_main (fun t : nat => (Some 1000%N, Datatypes.S t)) 0%nat = (Some (Ok tt), 1%nat).
Proof.
  refine (auth_bearer_completes _ 1000%N 0%nat 1%nat _ _ _ _).
  - by repeat split.
  - reflexivity.
  - reflexivity.
  - intros claims key. eexists. split; [reflexivity|]. split; [|reflexivity].
    change (split_count (Ascii.ascii_of_N 46) ("e30." +:+ decimal (exp claims) +:+ ".c2ln"))
      with (Datatypes.S (split_count (Ascii.ascii_of_N 46) (decimal (exp claims) +:+ ".c2ln"))).
    by rewrite decimal_no_dots.
Defined.
