(* ===== verification/ScenarioSpec.v ===== *)
(** * What the scenarios see

    The scenarios of [Scenarios] that need no clock run to their end and every effect they look for
    is there, whatever the engine, the peers' host and the contract crate are, as long as they do
    what is documented of them ([Wire], [MetadataLaws]).  The ones with a peer that is down are in
    [Outage]. *)

From S2P Require Import Prelude Text Bytes Contract Metadata Interceptors Intercepted InterceptedSpec Identity Channel Endpoint EgressBuilder Frames Peer Fixtures Stack Suite Host Wire Network Scenarios.
From Stdlib Require Import NArith Lia Strings.Byte.
From stdpp Require Import base tactics strings option list.

Open Scope N_scope.

(** ** The reports *)

(** The report in which every effect of the list was seen. *)
Definition all_seen (title : string) (descriptions : list string) : ScenarioReport :=
  fold_left (fun report description => Suite.record report description true) descriptions
    (report_new title).

Definition security_report : ScenarioReport := all_seen "security context"
  ["the trace id and the tenant reach the peer";
   "an authenticated context sends its token as a bearer";
   "a header the call carries is kept";
   "an unauthenticated context sends no authorization"]%string.

Definition interceptor_report : ScenarioReport := all_seen "interceptor and trace context"
  ["legacy hooks keep registration order and Pattern lifecycle reaches every interceptor";
   "the trace context reaches the peer";
   "an interceptor that refuses stops the call before it is sent"]%string.

Definition loaded_report : ScenarioReport := all_seen "loaded config"
  ["the compression of the file applies";
   "an option set after the file wins over it"]%string.

Definition combination_report : ScenarioReport := all_seen "invalid combinations"
  ["mtls with plaintext_allowed names both options";
   "an endpoint with a load balancer names both options";
   "a zero message limit names the option";
   "a balancer without backends names the missing backends";
   "a plaintext endpoint without the opt-in is rejected"]%string.

Example reports_complete :
  forallb is_complete [security_report; interceptor_report; loaded_report; combination_report] = true.
Proof. reflexivity. Qed.

(** ** Steps of a program *)

Lemma bindp_look `{Contract} `{MethodPaths} {V A B} (f : V -> A) (k : A -> may_panic V B BoxError) v :
  bindp (look f) k v = k (f v) v.
Proof. reflexivity. Qed.

Lemma mapped_run {V A E F} (f : E -> F) (m : eff V (Result A E)) v a v' :
  m v = (Ok a, v') -> no_panic (let! r := m in ret (map_err f r)) v = (Some (Ok a), v').
Proof. intros Hm. unfold no_panic, bind, ret. by rewrite Hm. Qed.

(** Run the next step of the program of the goal, whose equation is given. *)
Ltac run_step H := rewrite (bindp_run _ _ _ _ _ H).
Ltac run_pure := repeat (rewrite bindp_pure || rewrite bindp_look).

Lemma last_header {W} `{Host W} s k (w w' : W) r :
  recorded s w' = recorded s w ++ [r] -> get_last_header s k w' = get_header r k.
Proof. intros E. unfold get_last_header, EchoServer.get_last_header. by rewrite E, last_snoc. Qed.

(** ** The calls of the scenarios *)

Section calls.
Context `{HC : Contract} `{HM : !MetadataLaws} `{HO : !OptionsLaws} `{HT : TransportOptions}.
Context `{HH : Http} `{HHL : !HttpLaws} `{HP : MethodPaths}.
Context {W T : Type} `{HE : !Engine W T} `{HLb : !LoadbalancerSvc W} `{HHost : !Host W} `{HLog : !Logs W}.
Context (ct : ClientType W T) `{HW : !Wire W T} `{HWL : !WireLaws ct}.
Context (fs_read : string -> eff W (Result (list byte) string)).
Context (call_error_to_string : CallError -> string).

Definition PATH_TEXT : string := "/pkg.Service/Method".

Context (Hpath : method_path_create PATH_TEXT = Ok PATH_TEXT).
Context (Hslack : slack <= from_millis 100).

Definition ping_body : list byte := bytes_of "ping".
Definition ping_options (metadata : Metadata) : CallOptions := options_create (Some (from_secs 5)) metadata.

Lemma send_run {V} (c : Client V) method path body timeout metadata v r v' :
  CallFixture.path method = Some path ->
  call_raw (raw c) path body (options_create (Some timeout) metadata) v = (r, v') ->
  send c method body timeout metadata v = (Some (Ok r), v').
Proof.
  intros Ep E. unfold send. rewrite Ep.
  unfold CallFixture.request_with, no_panic, bind, ret. by rewrite E.
Qed.

Lemma ping_run {V} (c : Client V) metadata v r v' :
  call_raw (raw c) PATH_TEXT ping_body (ping_options metadata) v = (r, v') ->
  ping_call c metadata v = (Some (Ok r), v').
Proof.
  apply send_run. unfold CallFixture.path.
  change ("/" +:+ trim_slashes METHOD) with PATH_TEXT. by rewrite Hpath.
Qed.

(** A call of the fixture has time for the wire. *)
Lemma ping_time metadata d : get_timeout (ping_options metadata) = Some d -> slack < d.
Proof.
  unfold ping_options. rewrite options_timeout. intros [= <-].
  unfold from_millis, from_secs, SECOND in *. lia.
Qed.

Lemma ping_slight metadata : weight metadata <= 4096 -> slight PATH_TEXT (get_metadata (ping_options metadata)).
Proof.
  intros Hw. unfold ping_options. rewrite options_metadata. unfold slight, HEADERS.
  assert (N.of_nat (str_len PATH_TEXT) = 19) as -> by by vm_compute. lia.
Qed.

Lemma ping_empty : empty_metadata metadata_default -> slight PATH_TEXT (get_metadata (ping_options metadata_default)).
Proof. intros He. unfold ping_options. rewrite options_metadata. by apply empty_slight; [|vm_compute]. Qed.

Lemma ping_fits : blen ping_body <= 1024.
Proof. by vm_compute. Qed.

(** The builder of most scenarios: the server's endpoint, plaintext allowed. *)
Lemma allowed_builder_ok url : plain_builder_ok (builder_with (W := W) url [WithPlaintextAllowed]).
Proof. by split. Qed.

(** ** The identity of the caller *)

Notation bare t url := (single ct call_error_to_string url t []).

(** A call through the identity view of a bare client, to a peer that echoes. *)
Lemma identity_ping t url s identity metadata w :
  up s Echo w -> talks t s None ->
  built metadata -> Forall (fun e => valid e.1 e.2 = true) (context_headers identity) ->
  weight metadata + texts_size (missing metadata (context_headers identity)) <= 4096 ->
  exists request response w',
    ping_call (identity_build (bare t url) identity) metadata w = (Some (Ok (Ok response)), w') /\
    recorded s w' = recorded s w ++ [request] /\ up s Echo w' /\
    forall k, valid_key k = true -> custom k = true -> norm k = k ->
      get_header request k
      = last (values metadata k ++
              (snd <$> filter (fun e => e.1 = k) (missing metadata (context_headers identity)))).
Proof.
  intros Hup Htalks Hm Hv Hw.
  destruct (view_options (bare t url) identity PATH_TEXT (ping_options metadata)) as (o & Eo & Eto & _ & Ht & Hb).
  { unfold ping_options. by rewrite options_metadata. }
  { done. }
  destruct (exchange_ok ct t s None Echo PATH_TEXT ping_body o w ping_body Hup Htalks) as
    (request & h & ts & w' & E & _ & _ & Hr & Harr & Hup' & _).
  { intros d. rewrite Eto. apply ping_time. }
  { rewrite (talks_payload _ _ _ _ Htalks). by vm_compute. }
  { unfold ping_options in Ht, Hb. rewrite options_metadata in Ht, Hb.
    unfold slight, weight, HEADERS in *. rewrite Ht, Hb. unfold texts_size in *. rewrite entries_size_app.
    assert (N.of_nat (str_len PATH_TEXT) = 19) as -> by by vm_compute. lia. }
  { by rewrite (talks_payload _ _ _ _ Htalks). }
  { apply ping_fits. }
  exists request, (call_response ping_body h ts), w'. split_and!; [|done|done|].
  - apply ping_run. unfold identity_build. rewrite (view_call_raw _ _ _ _ _ _ _ Eo).
    rewrite bare_call_raw. exact E.
  - intros k Hk Hc Hn. rewrite (arrives_header _ _ _ _ _ Harr k Hk Hc Hn).
    unfold ping_options in Ht. rewrite options_metadata in Ht.
    rewrite (values_app metadata (get_metadata o) _ k Ht), Hn. done.
Qed.
End calls.

(** ** The security context *)

Section security.
Context `{HC : Contract} `{HM : !MetadataLaws} `{HO : !OptionsLaws} `{HT : TransportOptions}.
Context `{HH : Http} `{HHL : !HttpLaws} `{HP : MethodPaths}.
Context {W T : Type} `{HE : !Engine W T} `{HLb : !LoadbalancerSvc W} `{HHost : !Host W} `{HLog : !Logs W}.
Context (ct : ClientType W T) `{HW : !Wire W T} `{HWL : !WireLaws ct}.
Context (fs_read : string -> eff W (Result (list byte) string)).
Context (call_error_to_string : CallError -> string).
Context (Hpath : method_path_create PATH_TEXT = Ok PATH_TEXT) (Hslack : slack <= from_millis 100).
Context (Hdefault : empty_metadata metadata_default).

(** The keys and values of the scenario are valid, and stored as they are. *)
Definition stored (k v : string) : Prop := valid k v = true /\ norm k = k.

Context (Htrace : stored "x-trace-id" "trace-1") (Htenant : stored "x-tenant-id" "tenant-7").
Context (Hbearer : stored "authorization" "Bearer jwt-abc").

(** What the security crate and the contract crate make of the scenario's values. *)
Context (traced_context : SecurityContext).
Context (metadata_create : list (string * string) -> Metadata).
Context (entry_create : string -> string -> Result (string * string) MetadataError).
Context (Hcontext : ctx_trace_id traced_context = Some "trace-1"%string /\ ctx_metadata traced_context = []).
Context (entry : string * string) (Hentry : entry_create "x-trace-id" "caller" = Ok entry).
Context (Hcreate : built (metadata_create [entry]) /\
   text (metadata_create [entry]) = [("x-trace-id", "caller")] /\
   binary (metadata_create [entry]) = []).

Definition scenario_headers (token : option string) : list (string * string) :=
  [("x-trace-id", "trace-1"); ("x-tenant-id", "tenant-7")] ++
  match token with Some token => [("authorization", token)] | None => [] end.

Lemma scenario_identity authenticated token :
  context_headers (ScenarioIdentity (security_context (ctx_trace_id traced_context)
      (Some "tenant-7"%string) authenticated (Some token) (ctx_metadata traced_context)))
  = scenario_headers (if authenticated then Some ("Bearer " +:+ token)%string else None).
Proof. destruct Hcontext as [E1 E2]. unfold context_headers. cbn. rewrite E1, E2. by destruct authenticated. Qed.

Lemma values_of m k : norm k = k -> values m k = snd <$> filter (fun e => e.1 = k) (text m).
Proof. intros Hn. unfold values. by rewrite Hn. Qed.

(** The headers of the context that [metadata] does not set, as they are stored. *)
Lemma missing_headers metadata token :
  missing metadata (scenario_headers token)
  = filter (fun e => snd <$> filter (fun e' => e'.1 = e.1) (text metadata) = []) (scenario_headers token).
Proof.
  unfold missing. destruct Htrace as [_ E1], Htenant as [_ E2], Hbearer as [_ E3].
  assert (Forall (fun e => norm e.1 = e.1) (scenario_headers token)) as HF.
  { unfold scenario_headers. destruct token; repeat constructor; done. }
  induction HF as [|[k v] l Hk _ IH]; [done|]. rewrite !filter_cons. cbn [fst] in *.
  rewrite values_of by done. case_decide; [|done]. cbn. by rewrite Hk, IH.
Qed.

Lemma headers_valid authenticated :
  Forall (fun e => valid e.1 e.2 = true)
    (scenario_headers (if authenticated : bool then Some ("Bearer " +:+ "jwt-abc")%string else None)).
Proof. destruct Htrace, Htenant, Hbearer, authenticated; repeat constructor; done. Qed.

(** What a call of the scenario shows the peer of a header of the context's. *)
Lemma scenario_header t url s metadata authenticated w :
  up s Echo w -> talks t s None -> built metadata -> weight metadata <= 1024 ->
  exists request response w',
    ping_call (identity_build (single ct call_error_to_string url t [])
        (ScenarioIdentity (security_context (ctx_trace_id traced_context) (Some "tenant-7"%string)
           authenticated (Some "jwt-abc"%string) (ctx_metadata traced_context))))
      metadata w = (Some (Ok (Ok response)), w') /\
    recorded s w' = recorded s w ++ [request] /\ up s Echo w' /\
    forall k, k ∈ ["x-trace-id"; "x-tenant-id"; "authorization"]%string ->
      get_header request k
      = last ((snd <$> filter (fun e => e.1 = k) (text metadata)) ++
              (snd <$> filter (fun e => e.1 = k)
                 (filter (fun e => snd <$> filter (fun e' => e'.1 = e.1) (text metadata) = [])
                    (scenario_headers (if authenticated then Some ("Bearer " +:+ "jwt-abc")%string else None))))).
Proof.
  intros Hup Hmade Hm Hw.
  destruct (identity_ping ct call_error_to_string Hpath Hslack t url s (ScenarioIdentity (security_context
      (ctx_trace_id traced_context) (Some "tenant-7"%string) authenticated (Some "jwt-abc"%string)
      (ctx_metadata traced_context))) metadata w Hup Hmade Hm)
    as (request & response & w' & E & Hr & Hup' & Hk).
  { rewrite scenario_identity. apply headers_valid. }
  { rewrite scenario_identity, missing_headers.
    etransitivity; [apply N.add_le_mono; [exact Hw|apply entries_size_filter]|]. by destruct authenticated. }
  exists request, response, w'. split_and!; [exact E|done|done|]. intros k Hin.
  rewrite scenario_identity, missing_headers in Hk.
  assert (valid_key k = true /\ custom k = true /\ norm k = k) as (H1 & H2 & H3).
  { destruct Htrace as [V1 N1], Htenant as [V2 N2], Hbearer as [V3 N3].
    rewrite !elem_of_cons in Hin. destruct Hin as [->|[->|[->|[]%elem_of_nil]]];
      (split_and!; [by eapply valid_valid_key|reflexivity|done]). }
  rewrite (Hk k H1 H2 H3), values_of by done. done.
Qed.

(** The scenario of the security context runs to its end on any host, and each of its four effects is
    there: the peer gets the trace id, the tenant and the token of an authenticated context, the
    header a call carries itself is not replaced, and the token of a context that is not
    authenticated is not sent. *)
Theorem security_context_complete w :
  exists w',
    security_context_scenario ct fs_read call_error_to_string traced_context metadata_create entry_create w
    = (Some (Ok security_report), w').
Proof.
  unfold security_context_scenario.
  destruct (server_run ct Echo w) as (s & w1 & E1 & Hup1 & _ & _ & _ & Ha & _). run_step E1.
  destruct (build_run ct fs_read call_error_to_string
    (builder_with (server_endpoint s) [WithPlaintextAllowed]) s w1) as (t & w2 & E2 & Hmade & Hd & _);
    [done|apply allowed_builder_ok|done|done|done|]. run_step E2.
  destruct (undisturbed_up s Echo _ _ Hd Hup1) as [Hup2 _]. clear Hd. destruct Hdefault as (Hdm & Hdt & Hdb), Hcreate as (Hcm & Hct & Hcb).
  assert (weight metadata_default <= 1024) as Hdw by by (unfold weight; rewrite Hdt, Hdb).
  assert (weight (metadata_create [entry]) <= 1024) as Hcw by by (unfold weight; rewrite Hct, Hcb).
  destruct (scenario_header t (endpoint (builder_with (W := W) (server_endpoint s) [WithPlaintextAllowed])) s
    metadata_default true w2 Hup2 Hmade Hdm Hdw) as (r1 & a1 & w3 & E3 & Hr1 & Hup3 & Hk1).
  run_step E3. unfold expect at 1. cbn [map_err]. run_pure.
  rewrite !(last_header s _ _ _ _ Hr1). rewrite !Hk1, Hdt by (by repeat constructor).
  rewrite Hentry. cbn [map_err]. run_pure.
  destruct (scenario_header t (endpoint (builder_with (W := W) (server_endpoint s) [WithPlaintextAllowed])) s
    (metadata_create [entry]) true w3 Hup3 Hmade Hcm Hcw) as (r2 & a2 & w4 & E4 & Hr2 & Hup4 & Hk2).
  run_step E4. unfold expect at 1. cbn [map_err]. run_pure.
  rewrite !(last_header s _ _ _ _ Hr2). rewrite !Hk2, Hct by (by repeat constructor).
  destruct (scenario_header t (endpoint (builder_with (W := W) (server_endpoint s) [WithPlaintextAllowed])) s
    metadata_default false w4 Hup4 Hmade Hdm Hdw) as (r3 & a3 & w5 & E5 & Hr3 & _ & Hk3).
  cbn [ctx_trace_id ctx_tenant_id ctx_token ctx_metadata]. run_step E5. unfold expect. cbn [map_err]. run_pure.
  rewrite !(last_header s _ _ _ _ Hr3). rewrite !Hk3, Hdt by (by repeat constructor).
  eexists. reflexivity.
Qed.
End security.

(** ** Interceptors *)

Section interceptors.
Context `{HC : Contract} `{HM : !MetadataLaws} `{HO : !OptionsLaws} `{HT : TransportOptions}.
Context `{HH : Http} `{HHL : !HttpLaws} `{HP : MethodPaths}.
Context {W T : Type} `{HE : !Engine W T} `{HLb : !LoadbalancerSvc W} `{HHost : !Host W} `{HLog : !Logs W}.
Context (ct : ClientType W T) `{HW : !Wire W T} `{HWL : !WireLaws ct}.
Context (fs_read : string -> eff W (Result (list byte) string)).
Context (call_error_to_string : CallError -> string).
Context (Hpath : method_path_create PATH_TEXT = Ok PATH_TEXT) (Hslack : slack <= from_millis 100).
Context (Hdefault : empty_metadata metadata_default).

(** Entries pushed one after the other. *)
Definition push_all (l : Log) (entries : list string) (w : W) : W :=
  fold_left (fun w x => push_log l x w) entries w.

Lemma push_all_log l entries w : read_log l (push_all l entries w) = read_log l w ++ entries.
Proof.
  revert w. induction entries as [|x entries IH]; intros w; [by rewrite app_nil_r|].
  change (push_all l (x :: entries) w) with (push_all l entries (push_log l x w)).
  rewrite IH. destruct (log_push ct l x w) as [-> _]. by rewrite <- app_assoc.
Qed.

Lemma push_all_up l entries s b w :
  up s b w -> up s b (push_all l entries w) /\ recorded s (push_all l entries w) = recorded s w.
Proof.
  revert w. induction entries as [|x entries IH]; intros w Hup; [done|].
  change (push_all l (x :: entries) w) with (push_all l entries (push_log l x w)).
  destruct (log_push ct l x w) as [_ Hp]. destruct (Hp s b Hup) as [Hup' <-]. by apply IH.
Qed.

(** The chain of the scenarios: interceptors that write to one log, then the trace context. *)
Definition observers (l : Log) (names : list string) : list (GrpcEgressInterceptor W) :=
  (fun name => OrderInterceptor name (push_log l)) <$> names.

Definition scenario_chain (l : Log) (names : list string) (state : option string) :
    list (GrpcEgressInterceptor W) :=
  observers l names ++ [TraceContextGrpcEgressInterceptor (Static SCENARIO_TRACEPARENT state)].

(** What the interceptors write around a call that works. *)
Definition written (prefix : string) (names : list string) : list string :=
  (fun name => prefix +:+ name)%string <$> names.

Definition around (names : list string) : list string :=
  written "before:" names ++ written "event:started:" names ++
  written "after:" names ++ written "event:completed:" names.

Lemma observers_before l names rest (c : PendingCall) w :
  std_run_before (observers l names ++ rest) PendingCall (c, w)
  = std_run_before rest PendingCall (c, push_all l (written "before:" names) w).
Proof. revert w. induction names as [|name names IH]; intros w; [done|]. exact (IH _). Qed.

Lemma chain_event l names state event w :
  std_run_event (scenario_chain l names state) event w
  = (tt, push_all l (written ("event:" +:+ event_phase event +:+ ":") names) w).
Proof.
  revert w. induction names as [|name names IH]; intros w; [done|].
  etransitivity; [exact (IH _)|]. f_equal.
  set (p := ("event:" +:+ event_phase event +:+ ":")%string).
  change (push_all l (written p (name :: names)) w) with
    (push_all l (written p names) (push_log l (p +:+ name)%string w)). subst p. f_equal.
  cbn [on_event OrderInterceptor act snd]. by rewrite !string_app_assoc.
Qed.

Lemma chain_after l names state reply w :
  std_run_after (scenario_chain l names state) reply w = (Ok tt, push_all l (written "after:" names) w).
Proof. revert w. induction names as [|name names IH]; intros w; [done|]. exact (IH _). Qed.

Lemma push_all_app l a b w : push_all l (a ++ b) w = push_all l b (push_all l a w).
Proof. apply fold_left_app. Qed.

(** What a peer is sent by a call through such a chain. *)
Record sent_traced (t : T) (c : option Compression) (state : option string) (request : RecordedRequest) :
    Prop := {
  traced_parent : get_header request TRACEPARENT = Some SCENARIO_TRACEPARENT;
  traced_state v : state = Some v -> get_header request TRACESTATE = Some v;
  traced_encoding : get_header request "grpc-encoding" = encoding_name <$> c;
  traced_frames : recorded_frames request
    = [decoded_frame (bool_decide (is_Some c)) (payload_of t ping_body)];
}.

Context (Hparent : stored TRACEPARENT SCENARIO_TRACEPARENT).

Definition trace_texts (state : option string) : list (string * string) :=
  (TRACEPARENT, SCENARIO_TRACEPARENT) ::
  match state with Some v => [(TRACESTATE, v)] | None => [] end.

Lemma traced_text (c : PendingCall) state :
  (forall v, state = Some v -> stored TRACESTATE v) ->
  text (pending_metadata c) = trace_entries (Static SCENARIO_TRACEPARENT state) [] ->
  text (get_metadata (options_from c)) = trace_texts state.
Proof.
  intros Hstate Ht. unfold options_from. rewrite options_metadata, Ht. cbn.
  destruct Hparent as [_ ->]. unfold trace_texts. destruct state as [v|]; [|done].
  by destruct (Hstate v eq_refl) as [_ ->].
Qed.

Lemma arrived_traced t s comp state metadata request :
  (forall v, state = Some v -> stored TRACESTATE v) -> talks t s comp ->
  arrives t PATH_TEXT ping_body metadata request -> text metadata = trace_texts state ->
  sent_traced t comp state request.
Proof.
  intros Hstate Htalks Harr Ht.
  assert (forall k v, stored k v -> custom k = true ->
    get_header request k = last (snd <$> filter (fun e => e.1 = k) (trace_texts state))) as Hk.
  { intros k v [Hv Hn] Hc. rewrite (arrives_header _ _ _ _ _ Harr) by eauto using valid_valid_key.
    by rewrite values_of, Ht. }
  split.
  - rewrite (Hk _ _ Hparent eq_refl). by destruct state.
  - intros v ->. by rewrite (Hk _ _ (Hstate v eq_refl) eq_refl).
  - by rewrite (arrives_encoding _ _ _ _ _ Harr), (talks_compression _ _ _ Htalks).
  - by rewrite (arrives_frames _ _ _ _ _ Harr), (talks_compression _ _ _ Htalks).
Qed.

(** A call through the chain, to a peer that answers. *)
Lemma intercepted_ping t url s l name names state comp b m w :
  (forall v, state = Some v -> stored TRACESTATE v) ->
  texts_size (trace_texts state) <= 4096 ->
  up s b w -> talks t s comp -> blen (payload_of t ping_body) <= 1024 ->
  answer_of b (payload_of t ping_body) = Some m -> blen m <= 1024 ->
  exists request h ts w',
    ping_call (single ct call_error_to_string url t (scenario_chain l (name :: names) state)) metadata_default w
    = (Some (Ok (Ok (call_response m h ts))), w') /\
    recorded s w' = recorded s w ++ [request] /\ up s b w' /\
    read_log l w' = read_log l w ++ around (name :: names) /\
    sent_traced t comp state request.
Proof.
  intros Hstate Hsize Hup Htalks Hfit Hans Hm. destruct Hdefault as (Hdm & Hdt & Hdb).
  set (w1 := push_all l (written "before:" (name :: names)) w).
  set (options := ping_options metadata_default).
  assert (get_metadata options = metadata_default) as Emd by apply options_metadata.
  destruct (trace_before_text (Static SCENARIO_TRACEPARENT state)
    (pending_from PATH_TEXT options) w1) as (c & Eb & Eto & Ht & Hb).
  { cbn. by rewrite Emd. }
  { split; [apply Hparent|]. intros v Hv. by apply Hstate. }
  set (w2 := push_all l (written "event:started:" (name :: names)) w1).
  destruct (push_all_up l (written "before:" (name :: names)) s b w Hup) as [Hup1 Hr1].
  destruct (push_all_up l (written "event:started:" (name :: names)) s b w1 Hup1) as [Hup2 Hr2].
  destruct (exchange_ok ct t s comp b PATH_TEXT ping_body (options_from c) w2 m Hup2 Htalks) as
    (request & h & ts & w3 & E & Hh & Hts & Hr & Harr & Hup3 & Htouch & _); [|done| |done..|].
  { intros d. unfold options_from. rewrite options_timeout, Eto. apply ping_time. exact Hslack. }
  { cbn [pending_from pending_metadata] in Ht, Hb. rewrite Emd, Hdt in Ht. rewrite Emd, Hdb in Hb.
    unfold slight, weight. rewrite (traced_text c state Hstate Ht). unfold options_from.
    rewrite options_metadata, Hb. unfold HEADERS.
    assert (N.of_nat (str_len PATH_TEXT) = 19) as -> by by vm_compute. cbn [entries_size foldr]. lia. }
  pose proof (touched_logs _ _ _ _ Htouch l) as Hlog.
  destruct (copy (cr_view ct) h) as [h'|] eqn:Eh; [|done].
  destruct (copy (cr_view ct) ts) as [ts'|] eqn:Ets; [|done].
  set (after := written "after:" (name :: names) ++ written "event:completed:" (name :: names)).
  destruct (push_all_up l after s b w3 Hup3) as [Hup4 Hr4].
  exists request, h, ts, (push_all l after w3). split_and!; [| |done| |].
  - apply ping_run; [exact Hpath|]. fold options.
    etransitivity.
    { refine (single_call_raw ct call_error_to_string url t _ _ PATH_TEXT ping_body options w c w1
        (call_response m h ts) w3 h' ts' (push_all l (written "after:" (name :: names)) w3) _ _ Eh Ets _).
      - pose proof (observers_before l (name :: names)
          [TraceContextGrpcEgressInterceptor (Static SCENARIO_TRACEPARENT state)]
          (pending_from PATH_TEXT options) w) as Eo. fold w1 in Eo.
        etransitivity; [exact Eo|]. cbn [std_run_before]. unfold bindr, bind.
        cbn [before_call TraceContextGrpcEgressInterceptor]. by rewrite Eb.
      - pose proof (chain_event l (name :: names) state (Started (PATH_TEXT, Unary)) w1) as Ev.
        etransitivity; [|exact E].
        exact (f_equal (fun r => cr_call_raw ct t PATH_TEXT ping_body (options_from c) r.2) Ev).
      - exact (chain_after l (name :: names) state _ w3). }
    f_equal. unfold after. rewrite push_all_app.
    exact (f_equal snd (chain_event l (name :: names) state (Completed (PATH_TEXT, Unary) (Some h') ts') _)).
  - etrans; [exact Hr4|]. rewrite Hr. f_equal. etrans; [exact Hr2|exact Hr1].
  - rewrite push_all_log, Hlog. unfold w2, w1. rewrite !push_all_log. unfold after, around.
    by rewrite <- !app_assoc.
  - apply (arrived_traced t s comp state _ request Hstate Htalks Harr), traced_text; [done|].
    rewrite Ht. cbn [pending_from pending_metadata]. by rewrite Emd, Hdt.
Qed.

(** A call through an interceptor that refuses leaves everything as it is. *)
Lemma refused_ping t url w :
  ping_call (single ct call_error_to_string url t [RefusingInterceptor]) metadata_default w
  = (Some (Ok (Err (Transport_ PATH_TEXT PermissionDenied "refused by the example"))), w).
Proof.
  apply ping_run; [exact Hpath|].
  apply (raw_call_refused (intercepted (endpoint_client ct call_error_to_string
    (endpoint_transport [(url, t)] None)) ([RefusingInterceptor] : StdGrpcEgressInterceptorChain))).
  by eapply before_refused.
Qed.

Context (Hstate : stored TRACESTATE "vendor=1").

(** The scenario of the interceptors runs to its end on any host, and each of its three effects is
    there: the hooks and the events of two interceptors come in the order they were registered, the
    trace context reaches the peer, and a call an interceptor refuses does not reach it. *)
Theorem interceptor_scenario_complete w :
  exists w',
    interceptor_scenario ct fs_read call_error_to_string w
    = (Some (Ok interceptor_report), w').
Proof.
  unfold interceptor_scenario.
  destruct (server_run ct Echo w) as (s & w1 & E1 & Hup1 & _ & _ & _ & Ha & _). run_step E1.
  destruct (log_new ct w1) as (l & w2 & El & Hl0 & Hlog). destruct (Hlog s Echo Hup1) as [Hup2 _].
  assert ((no_panic (let! l := new_log in ret (Ok l)) : may_panic W Log BoxError) w1 = (Some (Ok l), w2)) as E2.
  { unfold no_panic, bind, ret. by rewrite El. }
  run_step E2.
  destruct (build_run ct fs_read call_error_to_string (builder_with (server_endpoint s)
      (WithPlaintextAllowed :: [WithInterceptor (OrderInterceptor "a" (push_log l));
        WithInterceptor (OrderInterceptor "b" (push_log l));
        WithTraceContext (Static SCENARIO_TRACEPARENT (Some "vendor=1"%string))])) s w2)
    as (t & w3 & E3 & Hmade & Hd & _); [done|by split|done|done|done|]. run_step E3.
  destruct (undisturbed_up s Echo _ _ Hd Hup2) as [Hup3 _].
  pose proof (touched_logs _ _ _ _ Hd l) as Hdl. clear Hd.
  destruct (intercepted_ping t (server_endpoint s) s l "a" ["b"]%string (Some "vendor=1"%string) None Echo
      ping_body w3) as (request & h & ts & w4 & E4 & Hr4 & Hup4 & Hl4 & [Hp Hs _ _]).
  { by intros v [= <-]. }
  { by vm_compute. }
  { done. }
  { exact Hmade. }
  { rewrite (talks_payload _ _ _ _ Hmade). by vm_compute. }
  { by rewrite (talks_payload _ _ _ _ Hmade). }
  { apply ping_fits. }
  specialize (Hs _ eq_refl). run_step E4. unfold expect. cbn [map_err]. run_pure.
  rewrite !(last_header s _ _ _ _ Hr4).
  unfold TRACEPARENT in Hp. unfold TRACESTATE in Hs. rewrite Hl4, Hdl, Hl0, Hp, Hs.
  destruct (build_run ct fs_read call_error_to_string (builder_with (server_endpoint s)
      (WithPlaintextAllowed :: [WithInterceptor RefusingInterceptor])) s w4)
    as (t' & w5 & E5 & _ & Hd5 & _); [done|by split|done|done|done|]. run_step E5.
  destruct (undisturbed_up s Echo _ _ Hd5 Hup4) as [_ Hr5].
  run_step (refused_ping t' (endpoint (builder_with (W := W) (server_endpoint s)
    [WithPlaintextAllowed; WithInterceptor RefusingInterceptor])) w5). run_pure.
  unfold count_requests. rewrite Hr5.
  eexists. by rewrite Nat.eqb_refl.
Qed.
End interceptors.

(** ** A client from a file *)

Lemma http_not_blank a : blank ("http://" ++ a) = false.
Proof. eapply trim_not_empty; reflexivity. Qed.

(** What the file of the scenario says. *)
Definition gzip_data (url : string) : ChannelConfig.GrpcChannelConfigData := {|
  ChannelConfig.data_endpoint := Some url;
  ChannelConfig.data_tls_required := Some false;
  ChannelConfig.data_mtls := None;
  ChannelConfig.data_keep_alive := None;
  ChannelConfig.data_max_message_bytes := Some 65536;
  ChannelConfig.data_compression := Some GzipMode;
  ChannelConfig.data_request_timeout_secs := None;
|}.

Section loaded.
Context `{HC : Contract} `{HM : !MetadataLaws} `{HO : !OptionsLaws} `{HT : TransportOptions}.
Context `{HH : Http} `{HHL : !HttpLaws} `{HP : MethodPaths}.
Context {W T : Type} `{HE : !Engine W T} `{HLb : !LoadbalancerSvc W} `{HHost : !Host W} `{HLog : !Logs W}.
Context (ct : ClientType W T) `{HW : !Wire W T} `{HWL : !WireLaws ct}.
Context (fs_read : string -> eff W (Result (list byte) string)).
Context (call_error_to_string : CallError -> string).
Context (Hpath : method_path_create PATH_TEXT = Ok PATH_TEXT) (Hslack : slack <= from_millis 100).

(** A text that a quoted TOML string can hold as it is: the addresses of servers are. *)
Definition quotable (s : string) : bool :=
  forallb (fun c => (32 <=? code c) && (code c <? 127) && negb (code c =? 34) && negb (code c =? 92))
    (String.list_ascii_of_string s).

Context (Haddress : forall s b w, up s b w -> quotable (addr (running s)) = true).

(** What [toml] makes of the file, and what compression makes of the message. *)
Context (toml_from_str : string -> Result ChannelConfig.GrpcChannelConfigData string).
Context (toml_custom : string -> string).
Context (Htoml : forall url, quotable url = true -> toml_from_str (config_for url) = Ok (gzip_data url)).
Context (Hcompress : forall c, blen (compress c ping_body) <= 1024).
Context (Hdefault : empty_metadata metadata_default).

Definition file_builder (url : string) : GrpcEgressBuilderImpl (W := W) :=
  with_option (builder_from url) (WithChannelConfig
    (ChannelConfig.channel_config url false None None 65536 GzipMode None)).

Lemma file_assembles a :
  quotable a = true ->
  assemble toml_from_str toml_custom (composition_root (config_for ("http://" ++ a)))
  = Ok (file_builder ("http://" ++ a)).
Proof.
  intros Ha. unfold assemble, load_config. cbn [config_text]. rewrite Htoml by exact Ha.
  transitivity (let? config := map_err FromText (map_err toml_custom
    (ChannelConfig.try_new ("http://" ++ a) false None None 65536 GzipMode None)) in
    Ok (with_option (builder_from (W := W) (ChannelConfig.endpoint config)) (WithChannelConfig config))
    : Result _ BoxError); [reflexivity|].
  unfold ChannelConfig.try_new. by rewrite http_not_blank.
Qed.

(** A call of a client that compresses names the encoding to the peer. *)
Lemma compressed_ping t url s c w :
  up s Echo w -> talks t s (Some c) ->
  exists response w',
    ping_call (single ct call_error_to_string url t []) metadata_default w
    = (Some (Ok (Ok response)), w') /\ up s Echo w' /\
    get_last_header s "grpc-encoding" w' = Some (encoding_name c).
Proof.
  intros Hup Hmade. pose proof (Hcompress c) as Hc.
  destruct (exchange_ok ct t s (Some c) Echo PATH_TEXT ping_body (ping_options metadata_default) w
      (payload_of t ping_body) Hup Hmade) as (request & h & ts & w' & E & _ & _ & Hr & Harr & Hup' & _).
  { apply ping_time. exact Hslack. }
  { by rewrite (talks_payload _ _ _ _ Hmade). }
  { by apply ping_empty. }
  { done. }
  { by rewrite (talks_payload _ _ _ _ Hmade). }
  exists (call_response (payload_of t ping_body) h ts), w'. split_and!; [|done|].
  - apply ping_run; [exact Hpath|]. rewrite bare_call_raw. exact E.
  - rewrite (last_header s _ _ _ _ Hr), (arrives_encoding _ _ _ _ _ Harr). by rewrite (talks_compression _ _ _ Hmade).
Qed.

(** The scenario of the loaded configuration runs to its end on any host and both effects are there:
    the client built from the file names gzip to the peer, and the one whose option was set after
    the file names that option's encoding. *)
Theorem loaded_config_complete w :
  exists w',
    loaded_config_scenario ct fs_read call_error_to_string toml_from_str toml_custom w
    = (Some (Ok loaded_report), w').
Proof.
  unfold loaded_config_scenario. destruct (encoding_names ct) as [Hgzip Hzstd].
  destruct (server_run ct Echo w) as (s & w1 & E1 & Hup1 & _ & _ & _ & Ha & _). run_step E1.
  unfold server_endpoint, get_endpoint. rewrite file_assembles by exact (Haddress s _ _ Hup1). run_pure.
  destruct (build_run ct fs_read call_error_to_string (file_builder (server_endpoint s)) s w1)
    as (t & w2 & E2 & Hmade & Hd & _); [done|by split|done|done|done|].
  destruct (undisturbed_up s _ _ _ Hd Hup1) as [Hup2 _]. clear Hd. run_step E2.
  destruct (compressed_ping t (endpoint (file_builder (server_endpoint s))) s Gzip w2 Hup2 Hmade)
    as (a1 & w3 & E3 & Hup3 & Hg).
  run_step E3. unfold expect at 1. cbn [map_err]. run_pure. rewrite Hg, Hgzip.
  destruct (build_run ct fs_read call_error_to_string
    (with_option (file_builder (server_endpoint s)) (WithSendCompression Zstd)) s w3)
    as (t' & w4 & E4 & Hmade' & Hd & _); [done|by split|done|done|done|].
  destruct (undisturbed_up s _ _ _ Hd Hup3) as [Hup4 _]. run_step E4.
  destruct (compressed_ping t' (endpoint (with_option (file_builder (server_endpoint s))
    (WithSendCompression Zstd))) s Zstd w4 Hup4 Hmade') as (a2 & w5 & E5 & Hup5 & Hz).
  run_step E5. unfold expect. cbn [map_err]. run_pure. rewrite Hz, Hzstd.
  eexists. reflexivity.
Qed.
End loaded.

(** ** Options that cannot be combined *)

Section combinations.
Context `{HC : Contract} `{HP : MethodPaths} `{HT : TransportOptions} {W T : Type}.
Context `{HE : !Engine W T} `{HLb : !LoadbalancerSvc W} `{HHost : !Host W} (ct : ClientType W T).
Context (fs_read : string -> eff W (Result (list byte) string)).
Context (call_error_to_string : CallError -> string).
Context (Hidentity : forall i, get_identity (tls_create None [] (Some i)) = Some i).

(** A builder that is refused for its values, and one for its plaintext endpoint. *)
Lemma refusal_values self e w :
  check_values self = Err e ->
  refusal_text ct fs_read call_error_to_string self w = (Some (Ok (channel_error_to_string e)), w).
Proof. intros E. unfold refusal_text, build, build_parts, bindp, bind, pure_result, ret. by rewrite E. Qed.

Lemma refusal_plaintext self w :
  check_values self = Ok tt -> loadbalancer self = None -> plaintext_allowed self = false ->
  is_plaintext_endpoint (endpoint self) = Some true ->
  refusal_text ct fs_read call_error_to_string self w
  = (Some (Ok (channel_error_to_string (PlaintextRejected (endpoint self)))), w).
Proof.
  intros E Hl Hp He. unfold refusal_text, build, build_parts, bindp, bind, pure_result, ret. rewrite E.
  unfold list_targets. rewrite Hl. unfold reject_plaintext, pure_result, ret. rewrite Hp.
  cbn [negb find_plaintext]. by rewrite He.
Qed.

(** The scenario of the options that cannot be combined runs to its end, changes nothing, and each of
    the five refusals names what its user has to change. *)
Theorem invalid_combination_complete w :
  invalid_combination_scenario ct fs_read call_error_to_string w
  = (Some (Ok combination_report), w).
Proof.
  unfold invalid_combination_scenario.
  set (identity := identity_create (bytes_of "certificate") (bytes_of "key")).
  run_step (refusal_values (builder_with "http://127.0.0.1:1"
      [WithPlaintextAllowed; WithTls (tls_create None [] (Some identity))])
    (ConflictingOptions "mtls" "plaintext_allowed"
      "mutual TLS needs TLS, and plaintext_allowed lets the client fall back to plaintext") w
    ltac:(unfold check_values; cbn; by rewrite Hidentity)).
  change one_backend with (Ok (Loadbalancer.loadbalancer_settings RoundRobin
    [Loadbalancer.backend_target "http://127.0.0.1:2" 1]) : Result LoadbalancerSettings BoxError).
  run_pure.
  run_step (refusal_values _ _ w (eq_refl : check_values (builder_with (W := W) "" [WithEndpoint "http://127.0.0.1:1";
     WithPlaintextAllowed; WithLoadbalancer (Loadbalancer.loadbalancer_settings RoundRobin
       [Loadbalancer.backend_target "http://127.0.0.1:2" 1])]) = Err _)).
  run_step (refusal_values _ _ w (eq_refl : check_values (builder_with (W := W) "http://127.0.0.1:1"
    [WithPlaintextAllowed; WithMaxDecodingMessageSize 0]) = Err _)).
  run_step (refusal_plaintext (builder_with "http://127.0.0.1:1" []) w eq_refl eq_refl eq_refl eq_refl).
  by vm_compute.
Qed.
End combinations.

(** ** On the network in memory *)

Definition no_file (path : string) : eff Net (Result (list byte) string) := ret (Err "missing"%string).

Lemma stored_here k v : Text.is_empty k = false -> stored k v.
Proof. intros Hk. split; [|done]. cbn. by rewrite Hk. Qed.

Lemma security_context_complete_witness :
  exists w',
    security_context_scenario net_clients no_file (fun _ => "text"%string)
      (security_context (Some "trace-1"%string) None false None [])
      (fun entries => (entries, [])) (fun k v => Ok (k, v)) empty_net
    = (Some (Ok security_report), w').
Proof.
  refine (security_context_complete net_clients no_file (fun _ => "text"%string) _ _ _ _ _ _
    (security_context (Some "trace-1"%string) None false None []) (fun entries => (entries, []))
    (fun k v => Ok (k, v)) _ ("x-trace-id", "caller")%string _ _ empty_net).
  - reflexivity.
  - vm_compute. discriminate.
  - by repeat split.
  - by apply stored_here.
  - by apply stored_here.
  - by apply stored_here.
  - by split.
  - reflexivity.
  - split; [|by split]. split; by repeat constructor.
Defined.

Lemma interceptor_scenario_complete_witness :
  exists w',
    interceptor_scenario net_clients no_file (fun _ => "text"%string) empty_net
    = (Some (Ok interceptor_report), w').
Proof.
  refine (interceptor_scenario_complete net_clients no_file (fun _ => "text"%string) _ _ _ _ _ empty_net).
  - reflexivity.
  - vm_compute. discriminate.
  - by repeat split.
  - by apply stored_here.
  - by apply stored_here.
Defined.

(** A reader of the one file of the scenario: the URL is the text between its first quotes. *)
Fixpoint until_quote (s : string) : string :=
  match s with
  | String c s => if code c =? 34 then EmptyString else String c (until_quote s)
  | EmptyString => EmptyString
  end.

Fixpoint skip_chars (n : nat) (s : string) : string :=
  match n, s with
  | S n, String _ s => skip_chars n s
  | _, _ => s
  end.

Definition gzip_file (text : string) : Result ChannelConfig.GrpcChannelConfigData string :=
  Ok (gzip_data (until_quote (skip_chars 12 text))).

Lemma until_quote_app url rest :
  quotable url = true -> until_quote (url ++ QUOTE ++ rest) = url.
Proof.
  unfold quotable. induction url as [|c url IH]; [done|].
  cbn [String.list_ascii_of_string forallb]. rewrite !andb_true_iff. intros [[[_ Hq] _] Hs].
  change (until_quote (String c url ++ QUOTE ++ rest))
    with (if code c =? 34 then EmptyString else String c (until_quote (url ++ QUOTE ++ rest))). apply negb_true_iff in Hq. rewrite Hq. by rewrite IH.
Qed.

Lemma quotable_name n : quotable (name_of n) = true.
Proof. induction n as [|n IH]; [reflexivity|exact IH]. Qed.

Lemma loaded_config_complete_witness :
  exists w',
    loaded_config_scenario net_clients no_file (fun _ => "text"%string) gzip_file id empty_net
    = (Some (Ok loaded_report), w').
Proof.
  refine (loaded_config_complete net_clients no_file (fun _ => "text"%string) _ _ _ gzip_file id
    _ _ _ empty_net).
  - reflexivity.
  - vm_compute. discriminate.
  - intros s b w (rs & _ & ->). apply quotable_name.
  - intros url Hurl. unfold gzip_file.
    assert (exists rest, skip_chars 12 (config_for url) = url +:+ QUOTE +:+ rest) as [rest ->]
      by (eexists; reflexivity).
    by rewrite until_quote_app.
  - intros c. by vm_compute.
  - by repeat split.
Defined.

Lemma invalid_combination_complete_witness :
    invalid_combination_scenario net_clients no_file (fun _ => "text"%string) empty_net
  = (Some (Ok combination_report), empty_net).
Proof.
  apply (invalid_combination_complete net_clients no_file (fun _ => "text"%string)). reflexivity.
Defined.
