(* ===== verification/CancelScenario.v ===== *)
(** * The scenario of cancellation

    [examples/composition-root/src/cancellation_scenario.rs], against a peer that takes its time: a
    call whose future is dropped, one bound to a token that a spawned task fires, and one bound to a
    token that nobody fires. *)

From S2P Require Import Prelude Text Bytes Contract Metadata Interceptors Intercepted InterceptedSpec Channel Endpoint EgressBuilder F64 RetryConfig RetryClassifier Retry RetrySteady Polling Cancellation AsyncClient Peer Fixtures Stack Suite Host Wire Runtime Network Scenarios ScenarioSpec.
From Stdlib Require Import NArith Lia Strings.Byte.
From stdpp Require Import base tactics strings option list.

Open Scope N_scope.

Definition PEER_DELAY_MS : N := 5000.
Definition CANCELLED_WITHIN : Duration := from_secs 2.
Definition NOTICE_LIMIT : Duration := from_secs 3.
Definition ECHO_PATH : string := "/test.Peer/Echo".

(** The task that is spawned: [async move { sleep(100ms).await; token.cancel() }]. *)
Inductive Canceller := Spawned | Sleeping (until : N) | Done.

Section scenario.
Context `{Contract} `{MethodPaths} `{TransportOptions} {W T : Type}.
Context `{!Engine W T} `{!LoadbalancerSvc W} `{!Host W} (ct : ClientType W T) `{!EngineFutures W T ct}.
Context (fs_read : string -> eff W (Result (list byte) string)).
Context (call_error_to_string : CallError -> string).
Context `{Backoff} (clk : Clock W) `{!Runtime W} `{!EchoPeers W} (options_default : CallOptions).

(** How many times a future is polled at most. *)
Context (fuel : nat).

Notation program := (may_panic W ScenarioReport BoxError).

(** [CancellationSignal for ScenarioCancellation]: whether a poll of the token's future is ready. *)
Definition wait_cancelled (token : Token) : W -> bool := token_cancelled token.

(** *** The spawned task *)

Definition sleeping_poll (token : Token) (until : N) : eff W Canceller := fun w =>
  if expired until w then (token_cancel token ;;; ret Done) w else (Sleeping until, w).

Definition canceller_poll (token : Token) (task : Canceller) : eff W Canceller :=
  match task with
  | Spawned => let! t := now clk in sleeping_poll token (t + from_millis 100)
  | Sleeping until => sleeping_poll token until
  | Done => ret Done
  end.

(** The rest of the world and the task, between two polls of the scenario. *)
Definition beside (token : Token) (v : Canceller * W) : Canceller * W :=
  let '(task, w) := v in canceller_poll token task (tick w).

(** [canceller.await]. *)
Definition join : Future (Canceller * W) unit := {|
  f_state := unit;
  f_start := tt;
  f_poll s v := ((match v.1 with Done => Some tt | _ => None end, s), v);
  f_drop _ := ret tt;
|}.

(** *** The scenario *)

Definition request (sleep_ms : N) : list byte * CallOptions := (say "slow" 0 sleep_ms, options_default).

Definition echo_path : may_panic W string BoxError :=
  pure_result (map_err FromPath (method_path_create ECHO_PATH)).

#[local] Instance clock_timer : Timer W := {| instant_now := now clk; pause := sleep clk |}.

Definition wait_until_idle (peer : EchoPeer) : may_panic W bool BoxError :=
  let! started := now clk in
  let! idle := poll (turns NOTICE_LIMIT (from_millis 10))
    (let! e := elapsed clk started in ret (e <? NOTICE_LIMIT))
    (fun w => (get_in_flight peer w =? 0, w)) (ret false) (from_millis 10) in
  ret (Ok <$> idle).

(** A raw call of the client, and of a view of it bound to a token. *)
Notation Parts := (EndpointTransport W T * StdGrpcEgressInterceptorChain (W := W))%type.

Definition echo (parts : Parts) (path : string) (sleep_ms : N) :
    Future W (Result (CallResponse (list byte) (cr_metadata ct)) CallError) :=
  let '(message, options) := request sleep_ms in
  ar_call_raw (a_raw (built_client ct call_error_to_string parts)) path message options.

Definition bound_echo (token : Token) (parts : Parts) (path : string) (sleep_ms : N) :
    Future W (Result (CallResponse (list byte) (cr_metadata ct)) CallError) :=
  let '(message, options) := request sleep_ms in
  ar_call_raw (a_raw (cancellation_build (built_client ct call_error_to_string parts) (wait_cancelled token)))
    path message options.

Definition is_cancelled {R} (result : Result R CallError) : bool :=
  match result with Err (Transport_ _ StatusCancelled _) => true | _ => false end.

(** The call whose future is dropped when the timeout ends. *)
Definition abandoned_call (peer : EchoPeer) parts : may_panic W bool BoxError :=
  let* path := echo_path in
  let* deadline := no_panic (let! t := now clk in ret (Ok (t + from_millis 100))) in
  let* abandoned := block_on tick fuel (timeout deadline (echo parts path PEER_DELAY_MS)) in
  match abandoned with
  | None => wait_until_idle peer
  | Some _ => pure_result (Ok false)
  end.

(** The call bound to the token that the task cancels: whether it failed with [Cancelled] in time. *)
Definition bound_call parts : may_panic W bool BoxError :=
  let* token := no_panic (let! t := token_new in ret (Ok t)) in
  with_state Spawned
    (let* started := no_panic (lift (let! t := now clk in ret (Ok t))) in
     let* path := fun v => (Some (map_err FromPath (method_path_create ECHO_PATH)), v) in
     let* result := block_on (beside token) fuel
       (f_lift (bound_echo token parts path PEER_DELAY_MS)) in
     let* _ := block_on (beside token) fuel join in
     if is_cancelled result
     then no_panic (lift (let! e := elapsed clk started in ret (Ok (e <? CANCELLED_WITHIN))))
     else pure_result (Ok false)).

(** The call bound to a token of its own: whether it was answered. *)
Definition quiet_call parts : may_panic W bool BoxError :=
  let* token := no_panic (let! t := token_new in ret (Ok t)) in
  let* path := echo_path in
  let* answered := block_on tick fuel (bound_echo token parts path 0) in
  pure_result (Ok (is_ok answered)).

Definition cancellation_scenario : program :=
  let report := report_new "cancellation" in
  let* peer := no_panic (let! p := echo_start in ret (Ok p)) in
  let* parts := (let! built := build_parts fs_read
                   (builder_with (echo_endpoint peer) [WithPlaintextAllowed]) in
                 ret (map_err FromChannel <$> built)) in
  let* ended := abandoned_call peer parts in
  let report := Suite.record report "dropping the future of a call ends the call on the peer" ended in
  let* soon := bound_call parts in
  let report := Suite.record report
    "a fired token fails the call with Cancelled long before the peer answers" soon in
  let* answered := quiet_call parts in
  let report := Suite.record report "a token that never fires leaves the call alone" answered in
  pure_result (Ok report).
End scenario.

(** ** What it sees *)

Section runs.
Context `{HC : Contract} `{HM : !MetadataLaws} `{HO : !OptionsLaws} `{HT : TransportOptions} `{HH : Http}.
Context `{HMP : MethodPaths} {W T : Type}.
Context `{HE : !Engine W T} `{HLb : !LoadbalancerSvc W} `{HHost : !Host W} `{HL : !Logs W}.
Context (ct : ClientType W T) `{HW : !Wire W T} `{HWL : !WireLaws ct} `{HF : !EngineFutures W T ct}.
Context (fs_read : string -> eff W (Result (list byte) string)).
Context (call_error_to_string : CallError -> string).
Context `{HB : Backoff} (clk : Clock W) `{HR : !Runtime W} `{HP : !EchoPeers W}.
Context `{HRL : !RuntimeLaws clk} `{HEL : !EchoLaws ct clk}.
Context (Hclk : steady clk time slack) (Hslack : slack <= from_millis 100).

Notation serving := (serving ct clk).
Notation idle_by := (idle_by ct clk).
Notation in_progress := (in_progress clk serving idle_by (notice ct clk)).
Notation grain := (grain clk).

(** *** Waiting for the peer *)

#[local] Instance timer : Timer W := clock_timer clk.

Lemma poll_step `{Timer V} n (within check last : eff V bool) step :
  Polling.poll (Datatypes.S n) within check last step
  = (let! more := within in
     if more then
       let! holds := check in
       if holds then ret (Some true) else pause step ;;; Polling.poll n within check last step
     else let! holds := last in ret (Some holds)).
Proof. reflexivity. Qed.

(** The loop sees the peer idle where its limit ends well after it is. *)
Lemma idle_loop (p : EchoPeer) u t0 n w :
  idle_by p u w -> time w <= u + from_millis 10 + 2 * slack ->
  u + from_millis 10 + 3 * slack < t0 + NOTICE_LIMIT ->
  u <= time w + N.of_nat n * from_millis 10 -> serving p w ->
  exists w', poll (Datatypes.S n)
    (let! e := elapsed clk t0 in ret (e <? NOTICE_LIMIT))
    (fun w => (get_in_flight p w =? 0, w)) (ret false) (from_millis 10) w = (Some true, w') /\
    serving p w' /\ time w' <= u + from_millis 10 + 3 * slack.
Proof.
  assert (0 < NOTICE_LIMIT) as Hpos by done.
  revert w. induction n as [|n IH]; intros w Hidle Hw Hlimit Hn Hs;
    pose proof (steady_now _ _ _ Hclk w) as Hnow; pose proof (now_passes clk w) as Hpass;
    rewrite poll_step; unfold elapsed, bind, ret; destruct (now clk w) as [t w1]; cbn [fst snd] in *;
    apply (idle_passes ct clk _ _ _ _ _ Hidle) in Hpass as Hidle1;
    apply (serving_passes ct clk _ _ _ _ Hs) in Hpass as Hs1;
    (assert ((t - t0 <? NOTICE_LIMIT) = true) as -> by (apply N.ltb_lt; lia)).
  - rewrite (idle_done ct clk p u w1 Hidle1) by lia. exists w1. split_and!; [done|done|lia].
  - destruct (N.eqb_spec (get_in_flight p w1) 0) as [E|E]; [exists w1; split_and!; [done|done|lia]|].
    assert (time w1 < u) as Hearly.
    { destruct (N.ltb_spec (time w1) u); [done|]. by rewrite (idle_done ct clk p u w1 Hidle1) in E. }
    cbn [pause timer clock_timer]. pose proof (steady_sleep _ _ _ Hclk (from_millis 10) w1) as Hsleep.
    pose proof (sleep_passes clk (from_millis 10) w1) as Hp2.
    destruct (sleep clk (from_millis 10) w1) as [[] w2]. cbn [snd] in *.
    apply (idle_passes ct clk _ _ _ _ _ Hidle1) in Hp2 as Hidle2.
    apply (serving_passes ct clk _ _ _ _ Hs1) in Hp2 as Hs2.
    apply IH; [done|lia|lia|lia|done].
Qed.

Lemma wait_run p u w :
  idle_by p u w -> serving p w -> time w <= u + slack ->
  u + from_millis 10 + 3 * slack < time w + NOTICE_LIMIT ->
  exists w', wait_until_idle clk p w = (Some (Ok true), w') /\ serving p w'.
Proof.
  intros Hi Hs Hw Hl. unfold wait_until_idle, bind, ret.
  pose proof (steady_now _ _ _ Hclk w) as Hnow. pose proof (now_passes clk w) as Hpass.
  destruct (now clk w) as [t0 w1]. cbn [fst snd] in *.
  apply (idle_passes ct clk _ _ _ _ _ Hi) in Hpass as Hi1.
  apply (serving_passes ct clk _ _ _ _ Hs) in Hpass as Hs1.
  destruct (idle_loop p u t0 (N.to_nat (NOTICE_LIMIT / from_millis 10 + 1)) w1 Hi1) as (w2 & E & Hs2 & _);
    [lia|lia| |done|].
  - rewrite N2Nat.id. change (NOTICE_LIMIT / from_millis 10 + 1) with 301.
    change NOTICE_LIMIT with (from_secs 3) in *. unfold from_secs, from_millis, SECOND in *. lia.
  - unfold timer, elapsed, bind, ret in E. unfold turns, elapsed, bind, ret. rewrite E. by exists w2.
Qed.

(** *** The task that cancels *)

(** Where the task is: it set its timer before [u], and has cancelled the token where it is done. *)
Definition due (token : Token) (b u : N) (task : Canceller) (w : W) : Prop :=
  token_cancelled token w = (match task with Done => true | _ => false end) /\
  match task with
  | Spawned => time w <= b
  | Sleeping d => d <= u /\ time w < d + slack
  | Done => time w <= u + 4 * slack
  end.

Lemma sleeping_due token b u d w :
  token_cancelled token w = false -> d <= u -> time w < u + 3 * slack ->
  let '(task, w') := sleeping_poll token d w in
  due token b u task w' /\ time w <= time w' /\ (w' = w \/ passes clk (Logic.eq token) w w').
Proof.
  intros Hc Hd Hw. unfold sleeping_poll. destruct (expired d w) eqn:Ex.
  - unfold bind, ret. pose proof (token_fires clk token w) as (Hf & Hp & Ht).
    destruct (token_cancel token w) as [[] w']. cbn [snd] in *. split_and!; [|lia|by right].
    split; [done|lia].
  - assert (time w < d + slack).
    { destruct (N.ltb_spec (time w) (d + slack)); [done|]. by rewrite (expired_late clk) in Ex. }
    split_and!; [|lia|by left]. split; [done|lia].
Qed.

(** The rest of the world, and the task that is not done. *)
Lemma beside_due token b u task w :
  token_cancelled token w = false ->
  match task with
  | Spawned => time w <= b + slack
  | Sleeping d => d <= u /\ time w < d + 2 * slack
  | Done => False
  end ->
  b + 3 * slack + from_millis 100 <= u ->
  let '(task', w') := beside clk token (task, w) in
  due token b u task' w' /\ time w + grain <= time w' /\
  (forall J : W -> Prop, (forall P v v', J v -> passes clk P v v' -> J v') -> J w -> J w').
Proof.
  intros Hc Ht Hu. assert (0 < from_millis 100) as Hpos by done. unfold beside. pose proof (tick_time clk w) as Htick.
  pose proof (tick_passes clk w) as Hpass.
  assert (token_cancelled token (tick w) = false) as Hc1
    by (rewrite (passes_token clk _ _ _ _ Hpass); [done|tauto]).
  destruct task as [|d|]; [| |done]; cbn [canceller_poll].
  - unfold bind. pose proof (steady_now _ _ _ Hclk (tick w)) as Hnow.
    pose proof (now_passes clk (tick w)) as Hpass1. destruct (now clk (tick w)) as [t w1]. cbn [fst snd] in *.
    assert (token_cancelled token w1 = false) as Hc2
      by (rewrite (passes_token clk _ _ _ _ Hpass1); [done|tauto]).
    pose proof (sleeping_due token b u (t + from_millis 100) w1 Hc2 ltac:(lia) ltac:(lia)) as Hs.
    destruct (sleeping_poll token (t + from_millis 100) w1) as [task' w2].
    destruct Hs as (Hdue & Hle & Hlast). split_and!; [done|lia|].
    intros J HJ H0. pose proof (HJ _ _ _ H0 Hpass) as H1. pose proof (HJ _ _ _ H1 Hpass1) as H2.
    destruct Hlast as [->|Hlast]; [exact H2|exact (HJ _ _ _ H2 Hlast)].
  - pose proof (sleeping_due token b u d (tick w) Hc1 ltac:(lia) ltac:(lia)) as Hs.
    destruct (sleeping_poll token d (tick w)) as [task' w2].
    destruct Hs as (Hdue & Hle & Hlast). split_and!; [done|lia|].
    intros J HJ H0. pose proof (HJ _ _ _ H0 Hpass) as H1.
    destruct Hlast as [->|Hlast]; [exact H1|exact (HJ _ _ _ H1 Hlast)].
Qed.

Lemma lift_race_poll {A} (f : Future W (Result A CallError)) fired path s (task : Canceller) w :
  f_poll (f_lift (race fired path f)) s (task, w)
  = if fired w then ((Some (Err (cancelled path)), s), (task, w))
    else let '(r, w') := f_poll f s w in (r, (task, w')).
Proof. cbn. unfold select_poll. by destruct (fired w). Qed.

Lemma due_done token b u task w :
  due token b u task w -> token_cancelled token w = true -> task = Done /\ time w <= u + 4 * slack.
Proof. intros [Hc Ht] E. rewrite E in Hc. by destruct task. Qed.

Lemma due_waits token b u task w :
  due token b u task w -> token_cancelled token w = false ->
  task <> Done /\ match task with Spawned => time w <= b | Sleeping d => d <= u /\ time w < d + slack | Done => False end.
Proof. intros [Hc Ht] E. rewrite E in Hc. by destruct task. Qed.

(** A race with the token, beside the task: the token wins, and the call is left in progress. *)
Lemma race_cancelled {A} (f : Future W (Result A CallError)) p d J token path b u n s task w :
  in_progress f p d J -> u + 4 * slack < d -> b + 3 * slack + from_millis 100 <= u ->
  due token b u task w -> (task = Done -> J s w) ->
  (task <> Done -> polled serving f p d J s w /\ u + slack <= time w + N.of_nat n * grain) ->
  exists s' w', drive (f_poll (f_lift (race (token_cancelled token) path f))) (beside clk token)
      (Datatypes.S n) s (task, w) = (Some (Err (cancelled path)), (s', (Done, w'))) /\
    J s' w' /\ time w' <= u + 4 * slack.
Proof.
  intros Hp Hd Hu. assert (0 < from_millis 100) as Hpos by done.
  revert s task w. induction n as [|n IH]; intros s task w Hdue HJ Hs;
    rewrite drive_step, lift_race_poll; destruct (token_cancelled token w) eqn:Ec;
    [apply due_done in Hdue as [-> Hw]; [|done]; exists s, w; split_and!; [done|auto|done]| |
     apply due_done in Hdue as [-> Hw]; [|done]; exists s, w; split_and!; [done|auto|done]|];
    destruct (due_waits _ _ _ _ _ Hdue Ec) as [Hnd Hwait]; destruct (Hs Hnd) as [Hpoll Hn].
  - destruct task; [lia|lia|done].
  - unfold polled in Hpoll. destruct (f_poll f s w) as [[[r|] s1] w1]; destruct Hpoll as (Hw & Hsame & Hpoll).
    { destruct Hpoll, task; [lia|lia|done]. }
    destruct Hpoll as [_ HJ1].
    pose proof (beside_due token b u task w1 ltac:(by rewrite Hsame) ltac:(destruct task; [lia|lia|done]) Hu) as Hb.
    destruct (beside clk token (task, w1)) as [task' w2]. destruct Hb as (Hdue' & Htime & Hkeep).
    assert (J s1 w2) as HJ2.
    { apply Hkeep; [|done]. intros P v v' Hv. by eapply (progress_passes _ _ _ _ _ _ _ _ Hp). }
    apply IH; [done|done|]. intros _. split; [by eapply progress_poll|lia].
Qed.

(** *** The three calls *)

Context (options_default : CallOptions) (Hdefault : get_timeout options_default = None).
Context (Hempty : empty_metadata (get_metadata options_default)).
Context (Hpath : method_path_create ECHO_PATH = Ok ECHO_PATH).

Notation echo_call := (echo ct call_error_to_string options_default).

(** The client the scenario builds for a peer. *)
Definition client_for (p : EchoPeer) (t : T) : Prop :=
  made_by (builder_with (W := W) (echo_endpoint p) [WithPlaintextAllowed]) (echo_endpoint p) t.

Definition parts_of (p : EchoPeer) (t : T) :
    EndpointTransport W T * StdGrpcEgressInterceptorChain (W := W) :=
  (endpoint_transport [(echo_endpoint p, t)] None, []).

Lemma echo_progress p t n w :
  client_for p t -> serving p w -> n <= PEER_DELAY_MS ->
  let f := echo_call (parts_of p t) ECHO_PATH n in
  let d := time w + from_millis n in
  exists J, polled serving f p d J (f_start f) w /\ in_progress f p d J.
Proof.
  intros Ht Hs Hn.
  destruct (call_answered ct clk t p n options_default w Hs) as (J & H1 & H2).
  - by rewrite Ht.
  - rewrite Ht. intros d [= <-]. change DEFAULT_REQUEST_TIMEOUT_SECS with 30.
    unfold PEER_DELAY_MS, from_secs, from_millis, SECOND in *. lia.
  - unfold limit. rewrite Ht. by vm_compute.
  - by rewrite Ht.
  - done.
  - apply empty_slight; [done|by vm_compute].
  - by apply (client_progress ct clk _ _ _ call_error_to_string (echo_endpoint p) t _ _ _ _ _ J).
Qed.

Context (fuel : nat) (Hfuel : from_secs 2 <= N.of_nat fuel * grain).
Context (Hnotice : notice ct clk <= from_secs 2).

Lemma fuel_split (w : W) : exists n, fuel = Datatypes.S n /\ from_secs 2 <= slack + N.of_nat n * grain.
Proof.
  pose proof (tick_time clk w) as Ht. destruct fuel as [|n]; [by cbn in Hfuel|]. exists n. split; [done|lia].
Qed.

Lemma abandoned_run p t w :
  client_for p t -> serving p w ->
  exists w', abandoned_call ct call_error_to_string clk options_default fuel p (parts_of p t) w
    = (Some (Ok true), w') /\ serving p w'.
Proof.
  intros Ht Hs. destruct (fuel_split w) as (n & Ef & Hn).
  unfold abandoned_call, echo_path. rewrite Hpath, Ef. cbn [map_err]. rewrite bindp_pure.
  pose proof (steady_now _ _ _ Hclk w) as Hnow. pose proof (now_passes clk w) as Hpass.
  apply (serving_passes ct clk _ _ _ _ Hs) in Hpass. destruct (now clk w) as [t0 w1] eqn:En. cbn [fst snd] in *.
  erewrite bindp_run by (unfold no_panic, bind, ret; rewrite En; reflexivity).
  destruct (echo_progress p t PEER_DELAY_MS w1 Ht Hpass) as (J & Hpoll & Hp); [done|].
  destruct (timeout_elapses clk serving idle_by (notice ct clk) _ p _ J Hp (t0 + from_millis 100) n
    (f_start (echo_call (parts_of p t) ECHO_PATH PEER_DELAY_MS)) w1) as (s' & w2 & E & HJ & Hw2).
  1-3: unfold PEER_DELAY_MS, from_secs, from_millis, SECOND in *; lia.
  { exact Hpoll. }
  destruct (progress_drop _ _ _ _ _ _ _ _ Hp s' w2 HJ) as (Hs2 & Hidle & Ht2).
  erewrite bindp_run by exact (block_on_run _ _ _ _ _ _ _ E). cbn beta iota.
  apply (wait_run p (time w2 + notice ct clk)); [exact Hidle|exact Hs2| |];
    change (f_drop (timeout _ ?f)) with (f_drop f).
  - lia.
  - unfold NOTICE_LIMIT, from_secs, from_millis, SECOND in *. lia.
Qed.

Lemma quiet_run p t w :
  client_for p t -> serving p w ->
  exists w', quiet_call ct call_error_to_string options_default fuel (parts_of p t) w = (Some (Ok true), w').
Proof.
  intros Ht Hs. destruct (fuel_split w) as (n & Ef & Hn).
  unfold quiet_call, echo_path. rewrite Hpath, Ef. cbn [map_err].
  pose proof (token_fresh clk w) as Hfresh. destruct (token_new w) as [token w1] eqn:En.
  destruct Hfresh as (Hc & Hpass & Hw). apply (serving_passes ct clk _ _ _ _ Hs) in Hpass.
  erewrite bindp_run by (unfold no_panic, bind, ret; rewrite En; reflexivity). rewrite bindp_pure.
  destruct (echo_progress p t 0 w1 Ht Hpass) as (J & Hpoll & Hp); [done|].
  destruct (race_answered clk serving idle_by (notice ct clk) _ p _ J Hp token ECHO_PATH n
    (f_start (echo_call (parts_of p t) ECHO_PATH 0)) w1) as (r & s' & w2 & E & Hr); [|done..|].
  { unfold from_secs, from_millis, SECOND in *. lia. }
  erewrite bindp_run by exact (block_on_run _ _ _ _ _ _ _ E). rewrite Hr. by eexists.
Qed.

Lemma bound_run p t w :
  client_for p t -> serving p w ->
  exists w', bound_call ct call_error_to_string clk options_default fuel (parts_of p t) w
    = (Some (Ok true), w') /\ serving p w'.
Proof.
  intros Ht Hs. destruct (fuel_split w) as (n & Ef & Hn).
  unfold bound_call. rewrite Hpath, Ef.
  pose proof (token_fresh clk w) as Hfresh. destruct (token_new w) as [token w1] eqn:En.
  destruct Hfresh as (Hc & Hpass & Hw). apply (serving_passes ct clk _ _ _ _ Hs) in Hpass as Hs1.
  erewrite bindp_run by (unfold no_panic, bind, ret; rewrite En; reflexivity).
  pose proof (steady_now _ _ _ Hclk w1) as Hnow. pose proof (now_passes clk w1) as Hpass2.
  apply (serving_passes ct clk _ _ _ _ Hs1) in Hpass2 as Hs2.
  destruct (now clk w1) as [started w2] eqn:En2. cbn [fst snd] in *.
  unfold with_state.
  erewrite bindp_run by (unfold no_panic, lift, bind, ret; rewrite En2; reflexivity).
  erewrite bindp_run by (cbn [map_err]; reflexivity).
  destruct (echo_progress p t PEER_DELAY_MS w2 Ht Hs2) as (J & Hpoll & Hp); [done|].
  set (u := time w2 + 3 * slack + from_millis 100).
  destruct (race_cancelled _ p _ J token ECHO_PATH (time w2) u n
    (f_start (echo_call (parts_of p t) ECHO_PATH PEER_DELAY_MS)) Spawned w2 Hp) as (s' & w3 & E & HJ & Hw3).
  - subst u. unfold PEER_DELAY_MS, from_secs, from_millis, SECOND in *. lia.
  - subst u. lia.
  - split; [|done]. rewrite (passes_token clk _ _ _ _ Hpass2); [done|tauto].
  - done.
  - intros _. split; [done|]. subst u. unfold from_secs, from_millis, SECOND in *. lia.
  - destruct (progress_drop _ _ _ _ _ _ _ _ Hp s' w3 HJ) as (Hs3 & _ & Hw4).
    pose proof (block_on_run (E := BoxError) (beside clk token) (Datatypes.S n) (f_lift (race (token_cancelled token)
      ECHO_PATH (echo_call (parts_of p t) ECHO_PATH PEER_DELAY_MS))) _ _ _ _ E) as Er.
    cbn [f_drop f_lift race] in Er. unfold lift in Er.
    destruct (f_drop (echo_call (parts_of p t) ECHO_PATH PEER_DELAY_MS) s' w3) as [[] w4].
    cbn [snd] in *. erewrite bindp_run by exact Er.
    erewrite bindp_run by reflexivity. cbn [is_cancelled cancelled].
    pose proof (steady_now _ _ _ Hclk w4) as Hnow4. pose proof (now_passes clk w4) as Hpass4.
    apply (serving_passes ct clk _ _ _ _ Hs3) in Hpass4.
    unfold no_panic, lift, elapsed, bind, ret. destruct (now clk w4) as [t4 w5]. cbn [fst snd] in *.
    exists w5. split; [|done]. do 3 f_equal. apply N.ltb_lt.
    subst u. unfold CANCELLED_WITHIN, from_secs, from_millis, SECOND in *. lia.
Qed.

(** *** The whole *)

Definition cancellation_report : ScenarioReport := all_seen "cancellation"
  ["dropping the future of a call ends the call on the peer";
   "a fired token fails the call with Cancelled long before the peer answers";
   "a token that never fires leaves the call alone"].

Lemma cancellation_run w :
  exists w', cancellation_scenario ct fs_read call_error_to_string clk options_default fuel w
    = (Some (Ok cancellation_report), w').
Proof.
  destruct (echo_up ct clk w) as (p & w1 & Ep & Hs & Hplain & Hcut).
  set (self := builder_with (W := W) (echo_endpoint p) [WithPlaintextAllowed]).
  assert (plain_builder_ok self) as Hok by exact (allowed_builder_ok (echo_endpoint p)).
  destruct (create_run ct self (echo_endpoint p) w1 Hok Hplain Hcut) as (t & w2 & Eb & Hm & _ & _).
  pose proof (serving_build ct clk p (factory_for self (echo_endpoint p) (tls_create None [] None) true) w1 Hs) as Hs2.
  rewrite Eb in Hs2. cbn [snd] in Hs2.
  destruct (abandoned_run p t w2 Hm Hs2) as (w3 & E3 & Hs3).
  destruct (bound_run p t w3 Hm Hs3) as (w4 & E4 & Hs4).
  destruct (quiet_run p t w4 Hm Hs4) as (w5 & E5). exists w5.
  unfold cancellation_scenario.
  erewrite bindp_run by (unfold no_panic, bind, ret; rewrite Ep; reflexivity).
  erewrite bindp_run by (unfold bind, ret; fold self;
    rewrite (build_parts_single fs_read self t w1 w2); [reflexivity|done..]).
  by rewrite (bindp_run _ _ _ _ _ E3), (bindp_run _ _ _ _ _ E4), (bindp_run _ _ _ _ _ E5).
Qed.
End runs.
