(* ===== verification/Outage.v ===== *)
(** * A peer that is down

    The scenario of the decorators and the example of the breaker: the retry decorator and the
    circuit breaker in front of a peer that answers every call with [Unavailable] run to their end
    and see what they look for, on any engine, host, clock and state machine that do what is
    documented of them. *)

From S2P Require Import Prelude Text Bytes Contract Metadata Interceptors Intercepted InterceptedSpec Channel Endpoint EgressBuilder F64 RetryConfig RetryClassifier Retry RetrySpec RetrySteady BreakerConfig Breaker BreakerSpec Frames Peer Fixtures Flaky Stack Suite Host Wire Network Scenarios Examples ScenarioSpec.
From Stdlib Require Import NArith Lia Strings.Byte.
From stdpp Require Import base tactics strings option list.

Open Scope N_scope.

(** The report of the scenario. *)
Definition decorator_report : ScenarioReport := all_seen "decorators applied by the root"
  ["a failing call is retried up to the attempt limit";
   "the breaker opens after the threshold of failed calls";
   "an open breaker answers Unavailable without reaching the peer"]%string.

Example decorator_report_complete : is_complete decorator_report = true.
Proof. reflexivity. Qed.

(** ** A peer that is down, behind retry and breaker *)

Section down.
Context `{HC : Contract} `{HM : !MetadataLaws} `{HO : !OptionsLaws} `{HT : TransportOptions}.
Context `{HH : Http} `{HHL : !HttpLaws} `{HP : MethodPaths}.
Context {W T : Type} `{HE : !Engine W T} `{HLb : !LoadbalancerSvc W} `{HHost : !Host W} `{HLog : !Logs W}.
Context (ct : ClientType W T) `{HW : !Wire W T} `{HWL : !WireLaws ct}.
Context (fs_read : string -> eff W (Result (list byte) string)).
Context (call_error_to_string : CallError -> string).

(** The state machine's steps leave the peers alone, and an open circuit says so. *)
Context {BT : BreakerTransition W} {BL : TransitionLaws BT}.
Context (Hadmit : forall n c w, undisturbed w (transition_admit n c w).2).
Context (Hrecord : forall n c o w, undisturbed w (transition_record n c o w).2).
Context (is_open : BreakerState -> bool).
Context (Hopen : forall c (n : Node) w, cooling c n w -> is_open (state n) = true).

Lemma unavailable_fails {R} (r : Result R CallError) :
  is_unavailable_status r = true -> classify_result r = OutcomeFailure.
Proof. by destruct r as [|[? []| | |]]. Qed.

Lemma unavailable_retries {R} (r : Result R CallError) :
  is_unavailable_status r = true -> std_classify r = Retry.
Proof. by destruct r as [|[? []| | |]]. Qed.

Section calls.
Context (s : Server) (text : string) (Htext : printable text = true).
Context (path : string) (body : list byte) (options : CallOptions).

Definition down : PeerBehaviour := ReplyStatus "14" (Some text) None.
Definition requests (w : W) : N := N.of_nat (count_requests s w).

(** A raw call that the peer refuses, after [k] requests. *)
Definition refused_after (k : N) (inner : Client W) : Prop := forall w,
  up s down w -> exists r w',
    call_raw (raw inner) path body options w = (r, w') /\
    is_unavailable_status r = true /\ up s down w' /\ requests w' = requests w + k.

Lemma refused_once t url :
  talks t s None -> blen body <= 1024 -> slight path (get_metadata options) ->
  N.of_nat (str_len text) <= 1000 -> (forall d, get_timeout options = Some d -> slack < d) ->
  refused_after 1 (single ct call_error_to_string url t []).
Proof.
  intros Hmade Hfit Hhead Hshort Htime w Hup.
  destruct (exchange_refused ct t s None text path body options w Hup Htext Hmade Htime) as
    (request & e & details & trailers & w' & E & Hr & _ & Hup' & _); [|done..|].
  { by rewrite (talks_payload _ _ _ _ Hmade). }
  exists (Err (Status path Unavailable e details trailers)), w'. rewrite bare_call_raw.
  split_and!; [exact E|done|done|]. unfold requests, count_requests, EchoServer.count_requests.
  rewrite Hr, length_app. cbn. lia.
Qed.

Lemma undisturbed_requests w w' :
  undisturbed w w' -> up s down w -> up s down w' /\ requests w' = requests w.
Proof.
  intros Hd Hup. destruct (undisturbed_up s _ _ _ Hd Hup) as [? E]. split; [done|].
  unfold requests, count_requests. by rewrite E.
Qed.

(** A closed circuit lets the call through and counts its failure; at the threshold it opens. *)
Lemma guarded_refusal k inner config n w :
  refused_after k inner -> enabled config = true -> 0 < cool_down_seconds config ->
  state n = Closed -> up s down w ->
  exists r n' w',
    call_raw (raw (breaker_client (grpc_breaker_client inner config))) path body options (n, w)
    = (r, (n', w')) /\
    is_unavailable_status r = true /\ up s down w' /\ requests w' = requests w + k /\
    (if consecutive_failures n + 1 <? failure_threshold config
     then state n' = Closed /\ consecutive_failures n' = consecutive_failures n + 1
     else cooling (to_breaker_policy config) n' w').
Proof.
  intros Hinner He Hc Hn Hup. cbn [raw breaker_client breaker_raw call_raw].
  unfold breaker_call_raw. rewrite raw_guard, guard_run. cbn [Breaker.config Breaker.inner].
  rewrite He. unfold guarded, policy_of. cbn [Breaker.config].
  pose proof (Hadmit n (to_breaker_policy config) w) as Ha.
  destruct (admit_closed (to_breaker_policy config) n w Hn) as [w1 E1]. rewrite E1 in *.
  destruct (undisturbed_requests _ _ Ha Hup) as [Hup1 Hr1]. cbn [snd] in Hup1, Hr1.
  destruct (Hinner w1 Hup1) as (r & w2 & E2 & Hr & Hup2 & Hr2).
  unfold lift at 1. rewrite E2. rewrite (unavailable_fails r Hr).
  pose proof (Hrecord n (to_breaker_policy config) OutcomeFailure w2) as Hd.
  exists r. destruct (consecutive_failures n + 1 <? failure_threshold config) eqn:Ht.
  - destruct (record_counts (to_breaker_policy config) n w2 Hn) as (n' & w3 & E3 & Hs & Hf).
    { by apply N.ltb_lt. }
    rewrite E3 in *. destruct (undisturbed_requests _ _ Hd Hup2) as [Hup3 Hr3].
    exists n', w3. split_and!; [done..| |done|done]. cbn in *. lia.
  - destruct (record_trips (to_breaker_policy config) n w2 Hn) as (n' & w3 & E3 & Hcool).
    { exact Hc. }
    { by apply N.ltb_ge. }
    rewrite E3 in *. destruct (undisturbed_requests _ _ Hd Hup2) as [Hup3 Hr3].
    exists n', w3. split_and!; [done..| |done]. cbn in *. lia.
Qed.

(** An open one answers by itself. *)
Lemma guarded_open inner config n w :
  enabled config = true -> cooling (to_breaker_policy config) n w -> up s down w ->
  exists n' w',
    call_raw (raw (breaker_client (grpc_breaker_client inner config))) path body options (n, w)
    = (Err (circuit_open path), (n', w')) /\ up s down w' /\ requests w' = requests w.
Proof.
  intros He Hcool Hup. cbn [raw breaker_client breaker_raw call_raw].
  unfold breaker_call_raw. rewrite raw_guard, guard_run. cbn [Breaker.config Breaker.inner].
  rewrite He. unfold guarded, policy_of. cbn [Breaker.config].
  pose proof (Hadmit n (to_breaker_policy config) w) as Ha.
  destruct (admit_cooling (to_breaker_policy config) n w Hcool) as (n' & w' & E1). rewrite E1 in *.
  exists n', w'. split; [done|]. by apply undisturbed_requests.
Qed.

(** The retry decorator around such a client sends the request as often as the policy allows. *)
Section retried.
Context `{HB : Backoff} (clk : Clock W).
Context (Hclk : steady clk time slack).
Context (Hkeeps : keeps clk requests) (Hpreserves : preserves clk (up s down)).
Context (policy : GrpcRetryConfig) (high : Duration).
Context (Hhigh : forall a u, next_backoff (backoff_policy policy) a u <= high).

Notation attempts := (RetryConfig.max_attempts (fields policy)).

Context (Hattempts : 1 <= attempts).
Context (Hbudget : forall B, get_timeout options = Some B ->
  attempts * turn_time slack high + slack < B /\ B < DURATION_LIMIT).

Lemma refused_retried t url :
  talks t s None -> blen body <= 1024 -> slight path (get_metadata options) ->
  N.of_nat (str_len text) <= 1000 ->
  refused_after attempts (retry_build clk policy (single ct call_error_to_string url t [])).
Proof.
  intros Hmade Hfit Hhead Hshort w Hup.
  destruct (steady_run clk time slack Hclk requests Hkeeps policy path (get_timeout options) 0 high
    (fun _ _ => N.le_0_l _) Hhigh (up s down) Hpreserves (fun _ r => is_unavailable_status r = true)
    (raw_attempt (grpc_retry_client (single ct call_error_to_string url t []) policy) path body options))
    with (base := requests w) (final := attempts) (v := w) as (r & w' & E & Hr & Hup' & Hn & _).
  - intros d v Hv Hlong. unfold raw_attempt. cbn [Retry.inner].
    destruct (exchange_refused ct t s None text path body (options_create d (get_metadata options)) v Hv
      Htext Hmade) as (request & e & details & trailers & v' & E & Hr & _ & Hup' & Ht).
    { by rewrite options_timeout. }
    { by rewrite (talks_payload _ _ _ _ Hmade). }
    { by rewrite options_metadata. }
    { done. }
    exists (Err (Status path Unavailable e details trailers)), v'. rewrite bare_call_raw.
    split_and!; [exact E|done|done| |lia|lia]. unfold requests, count_requests, EchoServer.count_requests.
    rewrite Hr, length_app. cbn. lia.
  - lia.
  - intros k r _ Hr. exact (unavailable_retries r Hr).
  - intros r Hr. right. right. split; [exact (unavailable_retries r Hr)|done].
  - exact Hbudget.
  - done.
  - done.
  - exists r, w'. split_and!; [exact E|done..].
Qed.
End retried.
End calls.

(** The clock leaves the peers alone, and pauses lie within what the policy says. *)
Section scenario.
Context `{HB : Backoff} (clk : Clock W).
Context (Hclk : steady clk time slack) (Hslack : slack <= from_millis 100).
Context (Hkeeps : forall s, keeps clk (requests s)) (Hpreserves : forall s b, preserves clk (up s b)).
Context (Hbackoff : forall (c : RetryFields) a u, RetryConfig.well_formed c ->
   RetryConfig.jitter_factor c = f64_zero -> f64_le f64_one (RetryConfig.backoff_multiplier c) = true ->
   next_backoff (backoff_policy (retry_config c)) a u <= from_millis (RetryConfig.max_backoff_ms c)).
Context (Hpath : method_path_create PATH_TEXT = Ok PATH_TEXT).
Context (Hdefault : empty_metadata metadata_default).

Definition decorator_fields : RetryFields := {|
  RetryConfig.max_attempts := 3;
  RetryConfig.initial_backoff_ms := 1;
  RetryConfig.backoff_multiplier := f64_one;
  RetryConfig.jitter_factor := f64_zero;
  RetryConfig.max_backoff_ms := 1;
  RetryConfig.rate_limit_max_attempts := 2;
  RetryConfig.rate_limit_initial_backoff_ms := 1000;
  RetryConfig.rate_limit_max_backoff_ms := 10000;
|}.

Lemma decorator_policy_ok : decorator_policy = Ok (retry_config decorator_fields).
Proof. by vm_compute. Qed.

Lemma decorator_fields_well_formed : RetryConfig.well_formed decorator_fields.
Proof. by apply (retry_try_new_ok decorator_fields (retry_config decorator_fields)). Qed.

Lemma decorator_retries t url s :
  talks t s None ->
  refused_after s "down" PATH_TEXT ping_body (ping_options metadata_default) 3
    (retry_build clk (retry_config decorator_fields) (single ct call_error_to_string url t [])).
Proof.
  intros Hmade. apply (refused_retried s "down" eq_refl PATH_TEXT ping_body
    (ping_options metadata_default) clk Hclk) with (high := from_millis 1).
  - apply Hkeeps.
  - apply Hpreserves.
  - intros a u. by apply (Hbackoff decorator_fields a u decorator_fields_well_formed).
  - by vm_compute.
  - intros B. unfold ping_options. rewrite options_timeout. intros [= <-].
    split; [|by vm_compute]. cbn [fields RetryConfig.max_attempts decorator_fields].
    unfold turn_time, from_millis, from_secs, SECOND in *. lia.
  - done.
  - by vm_compute.
  - by apply ping_empty.
  - by vm_compute.
Qed.

Definition decorator_breaker : GrpcBreakerConfig := breaker_config true 2 60 1.

(** The three calls of the scenario: the second opens the circuit, the third does not reach the
    peer. *)
Lemma decorator_calls_run inner s w :
  refused_after s "down" PATH_TEXT ping_body (ping_options metadata_default) 3 inner ->
  up s (down "down") w -> requests s w = 0 ->
  exists n' w',
    decorator_calls is_open s (breaker_client (grpc_breaker_client inner decorator_breaker)) (new_node, w)
    = (Some (Ok decorator_report), (n', w')).
Proof.
  intros Hinner Hup Hn. unfold decorator_calls.
  destruct (guarded_refusal s "down" PATH_TEXT ping_body (ping_options metadata_default) 3 inner
    decorator_breaker new_node w Hinner eq_refl eq_refl eq_refl Hup)
    as (r1 & n1 & w1 & E1 & _ & Hup1 & Hn1 & Hs1 & Hf1).
  cbn in Hf1. run_step (ping_run Hpath _ _ _ _ _ E1). run_pure.
  destruct (guarded_refusal s "down" PATH_TEXT ping_body (ping_options metadata_default) 3 inner
    decorator_breaker n1 w1 Hinner eq_refl eq_refl Hs1 Hup1)
    as (r2 & n2 & w2 & E2 & _ & Hup2 & Hn2 & Hcool).
  rewrite Hf1 in Hcool. cbn in Hcool. run_step (ping_run Hpath _ _ _ _ _ E2).
  assert ((no_panic (let! st := observe_state in ret (Ok st)) : may_panic _ _ BoxError) (n2, w2)
          = (Some (Ok (state n2)), (n2, w2))) as Es by reflexivity.
  run_step Es. run_pure.
  destruct (guarded_open s "down" PATH_TEXT ping_body (ping_options metadata_default) inner
    decorator_breaker n2 w2 eq_refl Hcool Hup2) as (n3 & w3 & E3 & _ & Hn3).
  run_step (ping_run Hpath _ _ _ _ _ E3). run_pure.
  exists n3, w3. cbn [snd].
  assert (count_requests s w1 = 3%nat) as -> by (unfold requests in *; lia).
  assert (count_requests s w3 = count_requests s w2) as -> by (unfold requests in *; lia).
  by rewrite (Hopen _ _ _ Hcool), Nat.eqb_refl.
Qed.

Lemma decorator_run w :
  exists w',
    decorator_scenario ct fs_read call_error_to_string clk is_open w
    = (Some (Ok decorator_report), w').
Proof.
  unfold decorator_scenario.
  destruct (server_run ct (down "down") w) as (s & w1 & E1 & Hup1 & Hr1 & _ & _ & Ha & _). run_step E1.
  destruct (build_run ct fs_read call_error_to_string
    (builder_with (server_endpoint s) [WithPlaintextAllowed]) s w1) as (t & w2 & E2 & Hmade & Hd & _);
    [done|apply allowed_builder_ok|done|done|done|]. run_step E2.
  destruct (undisturbed_up s _ _ _ Hd Hup1) as [Hup2 Hr2]. rewrite Hr1 in Hr2.
  rewrite decorator_policy_ok. cbn [map_err]. run_pure.
  change (BreakerConfig.try_new true 2 60 1) with (Ok decorator_breaker : Result _ BreakerError).
  cbn [map_err]. run_pure.
  destruct (decorator_calls_run (retry_build clk (retry_config decorator_fields)
      (single ct call_error_to_string (endpoint (builder_with (W := W) (server_endpoint s)
         [WithPlaintextAllowed])) t [])) s w2 (decorator_retries t _ s Hmade) Hup2)
    as (n' & w' & E).
  { unfold requests, count_requests. by rewrite Hr2. }
  exists w'.
  etransitivity; [|exact (f_equal (fun '(r, (_, w)) => (r, w)) E)]. reflexivity.
Qed.

(** The scenario of the decorators runs to its end on any host, clock and state machine, and each of
    its three effects is there: the call is made as often as the retry policy allows, the second call
    that fails opens the circuit, and the third is answered without reaching the peer. *)
Theorem decorator_scenario_complete w :
  exists w',
    decorator_scenario ct fs_read call_error_to_string clk is_open w
    = (Some (Ok decorator_report), w').
Proof. exact (decorator_run w). Qed.
End scenario.

(** ** The breaker example *)

Section example.
Context (Hslack : slack <= from_millis 100).
Context (Hexample : method_path_create "/example.Service/Method" = Ok "/example.Service/Method"%string).
Context (Hdefault : empty_metadata metadata_default).

Definition EXAMPLE_PATH : string := "/example.Service/Method".
Definition hi_options : CallOptions := options_create (Some (from_secs 1)) metadata_default.
Definition example_breaker : GrpcBreakerConfig := breaker_config true 2 30 1.

Lemma breaker_call_run {V} (c : Client V) v r v' :
  call_raw (raw c) EXAMPLE_PATH (bytes_of "hi") hi_options v = (r, v') ->
  breaker_call c v = (Some (Ok r), v').
Proof.
  apply send_run. unfold CallFixture.path.
  change ("/" +:+ trim_slashes "example.Service/Method") with EXAMPLE_PATH. unfold EXAMPLE_PATH.
  by rewrite Hexample.
Qed.

Lemma assert_run {V} b (v : V) : b = true -> assert_that b v = (Some (Ok tt), v).
Proof. by intros ->. Qed.

Definition EXAMPLE_TEXT : string := "upstream is down".

(** The calls of the example; none of its assertions panics. *)
Lemma breaker_calls_run inner s w :
  refused_after s EXAMPLE_TEXT EXAMPLE_PATH (bytes_of "hi") hi_options 1 inner ->
  up s (down EXAMPLE_TEXT) w ->
  exists n' w',
    breaker_calls is_open s (breaker_client (grpc_breaker_client inner example_breaker)) (new_node, w)
    = (Some (Ok tt), (n', w')) /\ requests s w' = requests s w + 2.
Proof.
  intros Hinner Hup. unfold breaker_calls.
  destruct (guarded_refusal s EXAMPLE_TEXT EXAMPLE_PATH (bytes_of "hi") hi_options 1 inner
    example_breaker new_node w Hinner eq_refl eq_refl eq_refl Hup)
    as (r1 & n1 & w1 & E1 & Hr1 & Hup1 & Hn1 & Hs1 & Hf1). cbn in Hf1.
  destruct (guarded_refusal s EXAMPLE_TEXT EXAMPLE_PATH (bytes_of "hi") hi_options 1 inner
    example_breaker n1 w1 Hinner eq_refl eq_refl Hs1 Hup1)
    as (r2 & n2 & w2 & E2 & Hr2 & Hup2 & Hn2 & Hcool). rewrite Hf1 in Hcool. cbn in Hcool.
  assert (failing_attempts 2 (breaker_client (grpc_breaker_client inner example_breaker)) (new_node, w)
          = (Some (Ok tt), (n2, w2))) as Eattempts.
  { cbn [failing_attempts]. run_step (breaker_call_run _ _ _ _ E1). run_step (assert_run _ (n1, w1) Hr1).
    run_step (breaker_call_run _ _ _ _ E2). by run_step (assert_run _ (n2, w2) Hr2). }
  run_step Eattempts.
  assert ((no_panic (let! st := observe_state in ret (Ok st)) : may_panic _ _ BoxError) (n2, w2)
          = (Some (Ok (state n2)), (n2, w2))) as Es by reflexivity.
  run_step Es. run_step (assert_run _ (n2, w2) (Hopen _ _ _ Hcool)). run_pure.
  destruct (guarded_open s EXAMPLE_TEXT EXAMPLE_PATH (bytes_of "hi") hi_options inner
    example_breaker n2 w2 eq_refl Hcool Hup2) as (n3 & w3 & E3 & _ & Hn3).
  run_step (breaker_call_run _ _ _ _ E3). run_pure. run_step (assert_run _ (n3, w3) eq_refl).
  exists n3, w3. split; [|lia]. apply assert_run, Nat.eqb_eq. unfold requests in Hn3. cbn [snd]. lia.
Qed.

(** The configuration of the example, and its client. *)
Definition example_builder (url : string) : GrpcEgressBuilderImpl (W := W) :=
  with_option (builder_from url) (WithChannelConfig
    (ChannelConfig.channel_config url false None None DEFAULT_MAX_MESSAGE_BYTES NoCompression None)).

Lemma breaker_channel_ok a :
  breaker_channel ("http://" ++ a)
  = Ok (ChannelConfig.channel_config ("http://" ++ a) false None None DEFAULT_MAX_MESSAGE_BYTES
          NoCompression None).
Proof.
  transitivity (ChannelConfig.try_new ("http://" ++ a) false None None DEFAULT_MAX_MESSAGE_BYTES
    NoCompression None); [reflexivity|]. unfold ChannelConfig.try_new. by rewrite http_not_blank.
Qed.

(** The breaker example runs to its end: no assertion panics and no error is returned. *)
Theorem grpc_breaker_completes w :
  exists w', grpc_breaker_main ct fs_read call_error_to_string is_open w = (Some (Ok tt), w').
Proof.
  unfold grpc_breaker_main. change (decimal UNAVAILABLE_CODE) with "14"%string.
  destruct (server_run ct (down EXAMPLE_TEXT) w) as (s & w1 & E1 & Hup1 & Hr1 & _ & _ & Ha & _). run_step E1.
  unfold server_endpoint, get_endpoint. rewrite breaker_channel_ok. cbn [map_err]. run_pure.
  destruct (build_run ct fs_read call_error_to_string (example_builder (server_endpoint s)) s w1)
    as (t & w2 & E2 & Hmade & Hd & _); [done|by split|done|done|done|].
  destruct (undisturbed_up s _ _ _ Hd Hup1) as [Hup2 _]. run_step E2.
  change (BreakerConfig.try_new true 2 30 1) with (Ok example_breaker : Result _ BreakerError).
  cbn [map_err]. run_pure.
  destruct (breaker_calls_run (single ct call_error_to_string (endpoint (example_builder
      (server_endpoint s))) t []) s w2) as (n' & w' & E & _).
  { apply (refused_once s EXAMPLE_TEXT eq_refl); [done|by vm_compute| |by vm_compute|].
    { unfold hi_options. rewrite options_metadata. by apply empty_slight; [|vm_compute]. }
    unfold hi_options. intros d. rewrite options_timeout. intros [= <-].
    unfold from_millis, from_secs, SECOND in *. lia. }
  { exact Hup2. }
  exists w'. etransitivity; [|exact (f_equal (fun '(r, (_, w)) => (r, w)) E)]. reflexivity.
Qed.
End example.
End down.

(** ** On the network in memory *)

Lemma decorator_scenario_complete_witness :
  exists w',
    decorator_scenario net_clients no_file (fun _ => "text"%string) net_clock machine_is_open empty_net
    = (Some (Ok decorator_report), w').
Proof.
  refine (decorator_scenario_complete net_clients no_file (fun _ => "text"%string) _ _ machine_is_open _
    net_clock net_steady _ _ _ _ _ _ empty_net).
  - intros. apply undisturbed_refl.
  - intros. apply undisturbed_refl.
  - intros c [[] f k] w Hc; by cbn in *.
  - vm_compute. discriminate.
  - by split.
  - by split.
  - intros c a u [? ? ? ? ? Hle ?] _ _. cbn. unfold from_millis. lia.
  - reflexivity.
  - by repeat split.
Defined.

Lemma grpc_breaker_completes_witness :
  exists w', grpc_breaker_main net_clients no_file (fun _ => "text"%string) machine_is_open empty_net
    = (Some (Ok tt), w').
Proof.
  refine (grpc_breaker_completes net_clients no_file (fun _ => "text"%string) _ _ machine_is_open _ _ _ _ empty_net).
  - intros. apply undisturbed_refl.
  - intros. apply undisturbed_refl.
  - intros c [[] f k] w Hc; by cbn in *.
  - vm_compute. discriminate.
  - reflexivity.
  - by repeat split.
Defined.
