(* ===== verification/Balanced.v ===== *)
(** * Several peers behind one client

    The scenario of the load balancer: calls through a client with two backends reach both, and a
    backend nothing listens on is avoided once a call to it has failed, for any engine, host and pool
    that do what is documented of them ([WireLaws], [PoolLaws]). *)

From S2P Require Import Prelude Text Bytes Contract Metadata Interceptors Intercepted InterceptedSpec Channel Endpoint EgressBuilder Frames Peer Fixtures Stack Suite Host Wire Network Scenarios ScenarioSpec.
From Stdlib Require Import NArith Lia Strings.Byte.
From stdpp Require Import base tactics strings option list sets.

Open Scope N_scope.

Definition balanced_report : ScenarioReport := all_seen "load balancer"
  ["calls reach both backends"; "a backend that is down is avoided"]%string.

Example balanced_report_complete : is_complete balanced_report = true.
Proof. reflexivity. Qed.

(** The URL of a backend that is accepted, and whose client is plaintext. *)
Record backend_ok `{Engine W T} (url : string) : Prop := {
  backend_plaintext : plaintext url = true;
  backend_whole : cuts_character url = false;
  backend_parses : uri_parses url = true;
  backend_named : blank url = false;
}.

Section pooled.
Context `{HC : Contract} `{HM : !MetadataLaws} `{HO : !OptionsLaws} `{HT : TransportOptions}.
Context `{HH : Http} `{HHL : !HttpLaws} `{HP : MethodPaths}.
Context {W T : Type} `{HE : !Engine W T} `{HLb : !LoadbalancerSvc W} `{HHost : !Host W} `{HLog : !Logs W}.
Context (ct : ClientType W T) `{HW : !Wire W T} `{HWL : !WireLaws ct} `{HPL : !PoolLaws (W := W) (T := T)}.
Context (fs_read : string -> eff W (Result (list byte) string)).
Context (call_error_to_string : CallError -> string).
Context (Hpath : method_path_create PATH_TEXT = Ok PATH_TEXT) (Hslack : slack <= from_millis 100).
Context (Hdefault : empty_metadata metadata_default).

(** ** Building *)

Lemma create_clients_run self urls w :
  plain_builder_ok self -> Forall backend_ok urls ->
  exists cs w',
    create_clients (W := W) (T := T) self urls (tls_create None [] None) w = (Some (Ok cs), w') /\
    cs.*1 = urls /\ Forall (fun c => made_by self c.1 c.2) cs /\ undisturbed w w'.
Proof.
  intros Hok HF. revert w. induction HF as [|url urls Hurl _ IH]; intros w.
  - exists [], w. split_and!; [done|done|done|apply undisturbed_refl].
  - destruct (create_run ct self url w Hok) as (t & w1 & E & Hm & Hd & _); [apply Hurl..|].
    destruct (IH w1) as (cs & w2 & Ecs & Hurls & Hcs & Hd2).
    exists ((url, t) :: cs), w2. split_and!; [|by cbn; rewrite Hurls|by constructor|by eapply undisturbed_trans].
    cbn [create_clients]. unfold bindp, bind, pure_result, ret, create_client.
    rewrite plaintext_endpoint_spec, (backend_whole _ Hurl), (backend_plaintext _ Hurl).
    unfold no_panic, bind, ret. rewrite E. cbn [map_err]. by rewrite Ecs.
Qed.

Definition target_of (url : string) : BackendTarget := Loadbalancer.backend_target url 1.

Lemma targets_run urls : Forall backend_ok urls -> targets_for urls = Ok (target_of <$> urls).
Proof.
  induction 1 as [|url urls Hurl _ IH]; [done|]. cbn [targets_for].
  unfold Loadbalancer.target_try_new. rewrite (backend_named _ Hurl). cbn [rbind]. by rewrite IH.
Qed.

Lemma backend_urls_run urls : Forall backend_ok urls -> backend_urls (target_of <$> urls) = Ok urls.
Proof.
  induction 1 as [|url urls Hurl _ IH]; [done|]. cbn. rewrite (backend_parses _ Hurl). cbn. by rewrite IH.
Qed.

Definition pooled (cs : list (string * T)) (p : BackendPoolInstance) : Client W :=
  client_of ct call_error_to_string (endpoint_transport cs (Some p), []).

(** [build] for the backends of a load balancer. *)
Lemma build_pooled self settings urls cs p w w1 w2 :
  plain_builder_ok self -> loadbalancer self = Some settings -> interceptors self = [] ->
  Loadbalancer.backends settings <> [] -> backend_urls (Loadbalancer.backends settings) = Ok urls ->
  create_clients self urls (tls_create None [] None) w = (Some (Ok cs), w1) ->
  build_pool (pool_config settings) w1 = (Ok p, w2) ->
  build ct fs_read call_error_to_string self w = (Some (Ok (pooled cs p)), w2).
Proof.
  intros Hok Hl Hi Hne Hu Hcs Hp. unfold build, build_parts.
  unfold bindp, bind, pure_result, no_panic, ret. rewrite (ok_values _ Hok).
  unfold list_targets. rewrite Hl. destruct (Loadbalancer.backends settings) as [|b bs]; [done|].
  cbn [is_nil]. rewrite Hu. unfold reject_plaintext. rewrite (ok_plaintext _ Hok). cbn [negb].
  unfold pure_result, ret, reject_tls_option, name_tls_option. rewrite (ok_tls _ Hok).
  unfold pure_result, ret, resolve_tls. rewrite (ok_tls _ Hok). unfold bind, ret. rewrite Hcs.
  unfold endpoint_try_from, create_pool, bindr, bind, ret. rewrite Hp. cbn [map_err]. by rewrite Hi.
Qed.

(** The client of the backends takes them in the order they were given. *)
Lemma balanced_run urls w :
  urls <> [] -> Forall backend_ok urls ->
  exists cs p w',
    balanced ct fs_read call_error_to_string urls w = (Some (Ok (pooled cs p)), w') /\
    cs.*1 = urls /\ turn p w' = urls /\ touches (fun _ => False) (eq p) w w' /\
    exists self, plain_builder_ok self /\ send_compression self = None /\
      Forall (fun c => made_by self c.1 c.2) cs.
Proof.
  intros Hne HF.
  set (settings := Loadbalancer.loadbalancer_settings RoundRobin (target_of <$> urls)).
  set (self := builder_with (W := W) "" [WithPlaintextAllowed; WithLoadbalancer settings]).
  assert (plain_builder_ok self) as Hok by by split.
  destruct (create_clients_run self urls w Hok HF) as (cs & w1 & Ecs & Hcs & Hmade & Hd).
  destruct (pool_built (Lb.backends (pool_config settings)) w1) as (p & w2 & Ep & Ht & Hp).
  { by destruct urls. }
  exists cs, p, w2. split_and!; [|done| | |by exists self].
  - unfold balanced. rewrite targets_run by done. cbn [rbind].
    assert (map_err FromText (Loadbalancer.settings_try_new RoundRobin (target_of <$> urls))
            = (Ok settings : Result _ BoxError)) as -> by by destruct urls.
    run_pure. unfold try_build, bind, ret.
    assert (Loadbalancer.backends settings <> []) as Hne' by by destruct urls.
    pose proof (build_pooled self settings urls cs p w w1 w2 Hok eq_refl eq_refl Hne'
      (backend_urls_run urls HF) Ecs Ep) as E. unfold self in E. by rewrite E.
  - rewrite Ht, pool_config_urls. cbn. rewrite <- list_fmap_compose. apply list_fmap_id.
  - eapply touches_trans; [|exact Hp]. by eapply touches_weaken; [| |exact Hd].
Qed.

(** ** Calls *)

(** Without interceptors the client does what its endpoint does. *)
Lemma pooled_call_raw cs p path message options w :
  call_raw (raw (pooled cs p)) path message options w
  = through call_error_to_string (endpoint_transport cs (Some p)) path
      (fun t => cr_call_raw ct t path message options) w.
Proof.
  cbn [pooled client_of intercepted_client raw intercepted_raw call_raw].
  unfold intercepted_call_raw, intercepted_before, intercepted_after, run_after_egress,
    intercepted_error, plain_event, adapter_on_event, bindr, bind, ret. cbn. unfold bind, ret.
  destruct (through _ _ _ _ _) as [[[m h ts]|e] w']; [|done].
  cbn. destruct (copy _ ts); [|done]. by destruct (copy _ h).
Qed.

(** A peer that has a short message for every call, and the client the pool has for it. *)
Definition answers (s : Server) (w : W) : Prop := exists m, up s (Reply m) w /\ blen m <= 1024.
Definition served (cs : list (string * T)) (s : Server) : Prop :=
  exists t, find_client (get_endpoint (running s)) cs = Some t /\ talks t s None.

(** The next backend is up: it answers, and the pool goes on. *)
Lemma pooled_answered cs p s rest w :
  turn p w = get_endpoint (running s) :: rest -> served cs s -> answers s w ->
  exists response request w',
    ping_call (pooled cs p) metadata_default w = (Some (Ok (Ok response)), w') /\
    turn p w' = rest ++ [get_endpoint (running s)] /\ answers s w' /\
    recorded s w' = recorded s w ++ [request] /\ touches (eq s) (eq p) w w'.
Proof.
  intros Ht (t & Hf & Htalk) (m & Hup & Hm).
  destruct (select_turn p _ rest w Ht) as (b & w1 & Es & Hb & Ht1 & Hd1).
  destruct (touched_peers _ _ _ _ Hd1 s (Reply m) (fun H => H) Hup) as [Hup1 Hr1].
  destruct (exchange_ok ct t s None (Reply m) PATH_TEXT ping_body (ping_options metadata_default) w1 m
    Hup1 Htalk) as (request & h & ts & w2 & E & _ & _ & Hr2 & _ & Hup2 & Hd2 & _).
  { apply ping_time. exact Hslack. }
  { rewrite (talks_payload _ _ _ _ Htalk). by vm_compute. }
  { by apply ping_empty. }
  { done. }
  { done. }
  destruct (report_success p b w2) as [Ht3 Hd3].
  assert (turn p w2 = rest ++ [backend_url b]) as Ht2.
  { rewrite (touched_pools _ _ _ _ Hd2) by tauto. by rewrite Ht1, Hb. }
  set (w3 := (report_outcome p (backend_id b) Lb.Success w2).2) in *.
  destruct (touched_peers _ _ _ _ Hd3 s (Reply m) (fun H => H) Hup2) as [Hup3 Hr3].
  exists (call_response m h ts), request, w3. split_and!.
  - apply ping_run; [exact Hpath|]. rewrite pooled_call_raw, (through_pool _ _ p) by done.
    rewrite Es, Hb. cbn [clients]. unfold ping_options in *. by rewrite Hf, E.
  - rewrite Ht3, Ht2, Hb; [done|]. rewrite Ht2. apply elem_of_app. right. by left.
  - by exists m.
  - by rewrite Hr3, Hr2, Hr1.
  - eapply touches_trans; [|eapply touches_trans].
    + by eapply touches_weaken; [| |exact Hd1].
    + by eapply touches_weaken; [| |exact Hd2].
    + by eapply touches_weaken; [| |exact Hd3].
Qed.

(** The next backend is a port nothing listens on: the call fails, and the pool leaves it out. *)
Lemma pooled_dead cs p self port t rest w :
  turn p w = closed_endpoint port :: rest -> closed port w ->
  find_client (closed_endpoint port) cs = Some t ->
  plain_builder_ok self -> made_by self (closed_endpoint port) t ->
  exists reason w',
    ping_call (pooled cs p) metadata_default w
    = (Some (Ok (Err (Transport_ PATH_TEXT Unavailable reason))), w') /\
    turn p w' = filter (fun url => url <> closed_endpoint port) rest /\
    touches (fun _ => False) (eq p) w w'.
Proof.
  intros Ht Hc Hf Hok Hm.
  destruct (select_turn p _ rest w Ht) as (b & w1 & Es & Hb & Ht1 & Hd1).
  destruct (call_closed ct t port PATH_TEXT ping_body (ping_options metadata_default) w1) as
    (reason & w2 & E & Hd2 & _).
  { by apply (touched_ports _ _ _ _ Hd1). }
  { by rewrite Hm. }
  { apply (made_prompt self (closed_endpoint port)); [exact Hslack|done|done|]. apply ping_time. exact Hslack. }
  set (e := Transport_ PATH_TEXT Unavailable reason : CallError) in *.
  destruct (report_failure p b (call_error_to_string e) w2) as [Ht3 Hd3].
  exists reason, (report_outcome p (backend_id b) (Lb.Failure (call_error_to_string e)) w2).2. split_and!.
  - apply ping_run; [exact Hpath|]. rewrite pooled_call_raw, (through_pool _ _ p) by done.
    rewrite Es, Hb. cbn [clients]. unfold ping_options in *. by rewrite Hf, E.
  - rewrite Ht3, (touched_pools _ _ _ _ Hd2), Ht1, Hb, filter_app by tauto.
    rewrite filter_cons_False by tauto. apply app_nil_r.
  - eapply touches_trans; [exact Hd1|]. eapply touches_trans; [|exact Hd3].
    by eapply touches_weaken; [| |exact Hd2].
Qed.

(** Calls to backends that are all up are all answered, and each of the backends that come next is
    called. *)
Lemma calls_answered cs p n ss acc w :
  NoDup (get_endpoint ∘ running <$> ss) -> ss <> [] ->
  turn p w = get_endpoint ∘ running <$> ss ->
  Forall (served cs) ss -> Forall (fun s => answers s w) ss ->
  exists w',
    count_answered n (pooled cs p) acc w = (Some (Ok (acc + n)%nat), w') /\
    (forall s, s ∈ ss -> (count_requests s w <= count_requests s w')%nat) /\
    (forall s, s ∈ take n ss -> (count_requests s w < count_requests s w')%nat).
Proof.
  revert ss acc w. induction n as [|n IH]; intros ss acc w Hnd Hne Ht Hs Ha.
  { exists w. rewrite Nat.add_0_r. split_and!; [done|done|]. intros s H. by apply elem_of_nil in H. }
  destruct ss as [|s ss]; [done|]. apply Forall_cons in Hs as [Hs Hss], Ha as [Ha Has].
  cbn in Ht, Hnd. apply NoDup_cons in Hnd as [Hnew Hnd].
  destruct (pooled_answered cs p s _ w Ht Hs Ha) as (response & request & w1 & E & Ht1 & Ha1 & Hr1 & Hd1).
  assert (forall s', s' ∈ ss -> s <> s') as Hother.
  { intros s' Hin <-. apply Hnew, list_elem_of_fmap. by exists s. }
  assert (forall s', s' ∈ ss -> count_requests s' w1 = count_requests s' w /\ answers s' w1) as Hkept.
  { intros s' Hin. rewrite Forall_forall in Has. destruct (Has s' Hin) as (m & Hup & Hm).
    destruct (touched_peers _ _ _ _ Hd1 s' _ (Hother s' Hin) Hup) as [Hup1 E1].
    split; [unfold count_requests; by rewrite E1|by exists m]. }
  destruct (IH (ss ++ [s]) (Datatypes.S acc) w1) as (w' & E' & Hmono & Hcalled).
  - rewrite fmap_app. apply NoDup_app. split_and!; [done| |by apply NoDup_singleton].
    cbn. intros url Hin ->%list_elem_of_singleton. done.
  - by destruct ss.
  - by rewrite Ht1, fmap_app.
  - apply Forall_app. by split; [|constructor].
  - apply Forall_app. split; [|by constructor]. rewrite Forall_forall. intros s' Hin. by apply Hkept.
  - exists w'. assert (count_requests s w1 = Datatypes.S (count_requests s w)) as Es.
    { unfold count_requests, EchoServer.count_requests. rewrite Hr1, length_app. cbn. lia. }
    split_and!.
    + cbn [count_answered]. run_step E. cbn [is_ok]. rewrite E'. do 3 f_equal. lia.
    + intros s' [->|Hin]%elem_of_cons.
      * etrans; [|apply Hmono; apply elem_of_app; right; by left]. lia.
      * destruct (Hkept s' Hin) as [<- _]. apply Hmono, elem_of_app. by left.
    + intros s'. cbn [take]. intros [->|Hin]%elem_of_cons.
      * eapply Nat.lt_le_trans; [|apply Hmono; apply elem_of_app; right; by left]. lia.
      * pose proof (subseteq_take n ss _ Hin) as Hin'. destruct (Hkept s' Hin') as [<- _].
        apply Hcalled. rewrite take_app. apply elem_of_app. by left.
Qed.

(** The client of a URL, by what the builder made. *)
Lemma find_made cs self url :
  url ∈ cs.*1 -> Forall (fun c => made_by self c.1 c.2) cs ->
  exists t, find_client url cs = Some t /\ made_by self url t.
Proof.
  intros Hin HF. destruct (find_client_in url cs) as (t & E & Ht); [by apply list_elem_of_In|].
  exists t. split; [done|]. rewrite Forall_forall in HF. apply list_elem_of_In in Ht. exact (HF _ Ht).
Qed.

Lemma served_made cs self s :
  get_endpoint (running s) ∈ cs.*1 -> Forall (fun c => made_by self c.1 c.2) cs ->
  plain_builder_ok self -> send_compression self = None -> served cs s.
Proof.
  intros Hin HF Hok Hn. destruct (find_made cs self _ Hin HF) as (t & E & Ht). exists t.
  split; [done|]. rewrite <- Hn. by apply made_talks.
Qed.

Lemma peer_backend_ok s :
  is_ascii (addr (running s)) = true -> uri_parses (get_endpoint (running s)) = true ->
  backend_ok (get_endpoint (running s)).
Proof.
  intros Ha Hu. destruct (get_endpoint_plaintext _ Ha). split; [done..|]. apply http_not_blank.
Qed.

Lemma closed_backend_ok port :
  uri_parses (closed_endpoint port) = true -> backend_ok (closed_endpoint port).
Proof.
  intros Hu. change (closed_endpoint port) with (get_endpoint (running_peer ("127.0.0.1:" +:+ decimal port))) in *.
  destruct (get_endpoint_plaintext (running_peer ("127.0.0.1:" +:+ decimal port))).
  { apply decimal_ascii. }
  split; [done..|]. apply http_not_blank.
Qed.

(** The two peers of the first half get calls. *)
Lemma both_reached w :
  exists one two w1 w2 c w3 answered w4,
    server_start (Reply (bytes_of "one")) w = (Some (Ok one), w1) /\
    server_start (Reply (bytes_of "two")) w1 = (Some (Ok two), w2) /\
    balanced ct fs_read call_error_to_string [server_endpoint one; server_endpoint two] w2
    = (Some (Ok c), w3) /\
    count_answered 6 c 0 w3 = (Some (Ok answered), w4) /\
    (0 < count_requests one w4)%nat /\ (0 < count_requests two w4)%nat.
Proof.
  destruct (server_run ct (Reply (bytes_of "one")) w) as (one & w1 & E1 & Hup1 & _ & _ & _ & Ha1 & _ & _ & Hu1).
  destruct (server_run ct (Reply (bytes_of "two")) w1) as (two & w2 & E2 & Hup2 & _ & Hd2 & _ & Ha2 & Hnew & _ & Hu2).
  destruct (undisturbed_up _ _ _ _ Hd2 Hup1) as [Hup1' _].
  destruct (balanced_run [server_endpoint one; server_endpoint two] w2) as
    (cs & p & w3 & E3 & Hcs & Ht & Hd3 & self & Hok & Hn & Hmade).
  { done. }
  { apply Forall_cons; split; [|apply Forall_singleton]; by apply peer_backend_ok. }
  destruct (calls_answered cs p 6 [one; two] 0 w3) as (w4 & E4 & _ & Hcalled).
  - constructor; [|apply NoDup_singleton]. cbn. intros E%list_elem_of_singleton.
    apply (inj (String.append "http://")) in E. exact (Hnew _ _ Hup1 E).
  - done.
  - exact Ht.
  - repeat constructor; apply (served_made cs self); try done; rewrite Hcs; set_solver.
  - repeat constructor; [exists (bytes_of "one")|exists (bytes_of "two")];
      (split; [|by vm_compute]); apply (touched_peers _ _ _ _ Hd3); tauto.
  - exists one, two, w1, w2, (pooled cs p), w3, 6%nat, w4. split_and!; [done..| |].
    + eapply Nat.le_lt_trans; [apply Nat.le_0_l|]. apply Hcalled. set_solver.
    + eapply Nat.le_lt_trans; [apply Nat.le_0_l|]. apply Hcalled. set_solver.
Qed.

(** One call of the second half is lost. *)
Lemma dead_avoided w :
  exists port w1 live w2 c w3 w4,
    reserve w = (Ok port, w1) /\
    server_start (Reply (bytes_of "live")) w1 = (Some (Ok live), w2) /\
    balanced ct fs_read call_error_to_string [closed_endpoint (get_port port); server_endpoint live] w2
    = (Some (Ok c), w3) /\
    count_answered 8 c 0 w3 = (Some (Ok 7%nat), w4).
Proof.
  destruct (reserve_up ct w) as (port & w1 & E1 & Hc & _ & Hu1).
  destruct (server_run ct (Reply (bytes_of "live")) w1) as
    (live & w2 & E2 & Hup & _ & Hd2 & _ & Ha & _ & Hport & Hu2).
  destruct (balanced_run [closed_endpoint (get_port port); server_endpoint live] w2) as
    (cs & p & w3 & E3 & Hcs & Ht & Hd3 & self & Hok & Hn & Hmade).
  { done. }
  { apply Forall_cons; split; [by apply closed_backend_ok|]. apply Forall_singleton. by apply peer_backend_ok. }
  destruct (find_made cs self (closed_endpoint (get_port port))) as (t & Hf & Ht3); [rewrite Hcs; set_solver|done|].
  destruct (pooled_dead cs p self (get_port port) t _ w3 Ht) as (reason & w4 & E4 & Ht4 & Hd4); [|done..|].
  { by apply (touched_ports _ _ _ _ Hd3), (touched_ports _ _ _ _ Hd2). }
  destruct (calls_answered cs p 7 [live] 0 w4) as (w5 & E5 & _).
  { apply NoDup_singleton. }
  { done. }
  { rewrite Ht4, filter_cons_True; [done|]. intros E. exact (Hport (get_port port) Hc (eq_sym E)). }
  { repeat constructor. apply (served_made cs self); try done. rewrite Hcs. set_solver. }
  { repeat constructor. exists (bytes_of "live"). split; [|by vm_compute].
    apply (touched_peers _ _ _ _ Hd4); [tauto|]. apply (touched_peers _ _ _ _ Hd3); tauto. }
  exists port, w1, live, w2, (pooled cs p), w3, w5. split_and!; [done..|].
  change (count_answered 8 (pooled cs p) 0) with
    (let* r := ping_call (pooled cs p) metadata_default in
     count_answered 7 (pooled cs p) (if is_ok r then 1%nat else 0%nat)).
  run_step E4. exact E5.
Qed.

(** The scenario of the load balancer runs to its end on any host and with any pool, and both effects
    are there: six calls reach both backends, and of eight calls through a client one of whose
    backends nothing listens on, only the first fails. *)
Theorem loadbalancer_scenario_complete w :
  exists w',
    loadbalancer_scenario ct fs_read call_error_to_string w = (Some (Ok balanced_report), w').
Proof.
  unfold loadbalancer_scenario.
  destruct (both_reached w) as (one & two & w1 & w2 & c & w3 & answered & w4 & E1 & E2 & E3 & E4 & H1 & H2).
  run_step E1. run_step E2. run_step E3. run_step E4. run_pure.
  destruct (Nat.ltb_spec 0 (count_requests one w4)); [|lia].
  destruct (Nat.ltb_spec 0 (count_requests two w4)); [|lia].
  destruct (dead_avoided w4) as (port & w5 & live & w6 & c' & w7 & w8 & E5 & E6 & E7 & E8).
  run_step (mapped_run FromText _ _ _ _ E5). run_step E6. run_step E7. run_step E8. run_pure. eexists. reflexivity.
Qed.
End pooled.

Lemma loadbalancer_scenario_complete_witness :
  exists w',
    loadbalancer_scenario net_clients no_file (fun _ => "text"%string) empty_net
    = (Some (Ok balanced_report), w').
Proof.
  refine (loadbalancer_scenario_complete net_clients no_file (fun _ => "text"%string) _ _ _ empty_net).
  - reflexivity.
  - vm_compute. discriminate.
  - by repeat split.
Defined.
