(* ===== verification/AllOptions.v ===== *)
(** * Every option of the builder

    The scenario that sets each option and looks for its effect: compression, the interceptor and the
    trace context on one call, then the message limit, the deadline, and mutual TLS with the
    certificates of [Pki].  Each effect is there for any engine and host that do what is documented
    of them ([WireLaws], [TlsLaws]). *)

From S2P Require Import Prelude Text Bytes Contract Metadata Interceptors Intercepted InterceptedSpec Channel Pki Endpoint EgressBuilder Frames Peer Fixtures Stack Suite Host Wire Network Scenarios ScenarioSpec.
From Stdlib Require Import NArith Lia Strings.Byte.
From stdpp Require Import base tactics strings option list.

Open Scope N_scope.

Definition options_report : ScenarioReport := all_seen "every transport option"
  ["the peer's answer arrives"; "the message travelled compressed"; "grpc-encoding announces gzip";
   "the trace context reaches the peer"; "the interceptor ran around the call";
   "a reply over the message limit is refused"; "a slow peer hits the request timeout";
   "a peer demanding a client certificate is answered"]%string.

Example options_report_complete : is_complete options_report = true.
Proof. reflexivity. Qed.

Section options.
Context `{HC : Contract} `{HM : !MetadataLaws} `{HO : !OptionsLaws} `{HT : TransportOptions}.
Context `{HH : Http} `{HHL : !HttpLaws} `{HP : MethodPaths}.
Context {W T : Type} `{HE : !Engine W T} `{HLb : !LoadbalancerSvc W} `{HHost : !Host W} `{HLog : !Logs W}.
Context `{HR : !RcgenSvc W} `{HD : !Disk W} `{HTls : !TlsHost W}.
Context (ct : ClientType W T) `{HW : !Wire W T} `{HWL : !WireLaws ct}.
Context (fs_read : string -> eff W (Result (list byte) string)).
Context `{HPki : !PkiLaws W fs_read} `{HTL : !TlsLaws ct fs_read}.
Context (call_error_to_string : CallError -> string).
Context (Hpath : method_path_create PATH_TEXT = Ok PATH_TEXT) (Hslack : slack <= from_millis 100).
Context (Hdefault : empty_metadata metadata_default).
Context (Hparent : stored TRACEPARENT SCENARIO_TRACEPARENT).
Context (Hcompress : forall c, blen (compress c ping_body) <= 1024).

(** ** The message limit and the deadline *)

Lemma limit_refuses_run w :
  exists w', limit_refuses ct fs_read call_error_to_string w = (Some (Ok true), w').
Proof.
  unfold limit_refuses. set (reply := repeat x07 _).
  assert (blen reply = 2048) as Hreply by by vm_compute.
  destruct (server_run ct (Reply reply) w) as (s & w1 & E1 & Hup1 & _ & _ & _ & Ha & _). run_step E1.
  set (self := builder_with (W := W) (server_endpoint s)
    [WithPlaintextAllowed; WithMaxDecodingMessageSize MESSAGE_CAP_BYTES]).
  destruct (build_run ct fs_read call_error_to_string self s w1) as (t & w2 & E2 & Htalks & Hd & _ & Hmade);
    [done|by split|done|done|done|].
  run_step E2. destruct (undisturbed_up s _ _ _ Hd Hup1) as [Hup2 _].
  destruct (exchange ct t s (Reply reply) PATH_TEXT ping_body (ping_options metadata_default) w2 reply Hup2)
    as (request & r & w3 & E3 & Hr & _).
  { apply (talks_to _ _ _ Htalks). }
  { apply (talks_prompt _ _ _ Htalks), ping_time. exact Hslack. }
  { apply (talks_modest t s None); [done| |by cbn; rewrite Hreply|by apply ping_empty].
    rewrite (talks_payload _ _ _ _ Htalks). by vm_compute. }
  { done. }
  assert (limit t = 1024) as Hl by (unfold limit; by rewrite Hmade).
  rewrite Hreply, Hl in Hr. destruct Hr as (text & details & trailers & ->).
  assert (ping_call (single ct call_error_to_string (endpoint self) t []) metadata_default w2
          = (Some (Ok (Err (Status PATH_TEXT OutOfRange text details trailers))), w3)) as E.
  { apply ping_run; [exact Hpath|]. rewrite bare_call_raw. exact E3. }
  run_step E. by exists w3.
Qed.

Lemma times_out_run w :
  exists w', times_out ct fs_read call_error_to_string w = (Some (Ok true), w').
Proof.
  unfold times_out.
  destruct (server_run ct (Delay (from_millis 800)) w) as (s & w1 & E1 & Hup1 & _ & _ & _ & Ha & _). run_step E1.
  set (self := builder_with (W := W) (server_endpoint s)
    [WithPlaintextAllowed; WithRequestTimeout (from_millis 150)]).
  destruct (build_run ct fs_read call_error_to_string self s w1) as (t & w2 & E2 & Htalks & Hd & _ & Hmade);
    [done|by split|done|done|done|].
  run_step E2. destruct (undisturbed_up s _ _ _ Hd Hup1) as [Hup2 _].
  destruct (call_late ct t s (from_millis 800) PATH_TEXT ping_body (ping_options metadata_default) w2
    (from_millis 150) Hup2) as (text & details & trailers & w3 & E3).
  { apply (talks_to _ _ _ Htalks). }
  { left. by rewrite Hmade. }
  { unfold from_millis in *. lia. }
  { apply (talks_modest t s None); [done| |done|by apply ping_empty].
    rewrite (talks_payload _ _ _ _ Htalks). by vm_compute. }
  assert (ping_call (single ct call_error_to_string (endpoint self) t []) metadata_default w2
          = (Some (Ok (Err (Status PATH_TEXT DeadlineExceeded text details trailers))), w3)) as E.
  { apply ping_run; [exact Hpath|]. rewrite bare_call_raw. exact E3. }
  run_step E. by exists w3.
Qed.

(** ** Mutual TLS *)

Lemma https_secure p :
  is_ascii (addr p) = true ->
  plaintext (get_https_endpoint p) = false /\ cuts_character (get_https_endpoint p) = false.
Proof.
  intros Ha. unfold get_https_endpoint. split; [done|].
  unfold cuts_character. apply andb_false_intro2. apply negb_false_iff.
  apply ascii_boundary; [|rewrite str_len_app; cbn; lia]. unfold is_ascii in *. cbn. done.
Qed.

(** [build] for one endpoint with TLS settings. *)
Lemma build_secure self settings t w w' :
  check_values self = Ok tt -> loadbalancer self = None -> tls self = Some (Settings settings) ->
  interceptors self = [] ->
  cuts_character (endpoint self) = false -> plaintext (endpoint self) = false ->
  engine_build (factory_for self (endpoint self) settings false) w = (Ok t, w') ->
  try_build ct fs_read call_error_to_string self w
  = (Some (Ok (single ct call_error_to_string (endpoint self) t [])), w').
Proof.
  intros Hc Hl Ht Hi Hcut Hp Hb. unfold try_build, build, build_parts.
  unfold bindp, bind, pure_result, no_panic, ret. rewrite Hc. unfold list_targets. rewrite Hl.
  assert (is_plaintext_endpoint (endpoint self) = Some false) as Hplain.
  { by rewrite plaintext_endpoint_spec, Hcut, Hp. }
  assert (reject_plaintext self [endpoint self] w = (Some (Ok tt), w)) as ->.
  { unfold reject_plaintext, pure_result, ret. cbn [find_plaintext]. rewrite Hplain.
    by destruct (negb (plaintext_allowed self)). }
  unfold reject_tls_option, name_tls_option. rewrite Ht. cbn [all_plaintext]. rewrite Hplain.
  unfold pure_result, ret, resolve_tls. rewrite Ht. unfold bind, ret. cbn [create_clients].
  unfold bindp, bind, pure_result, ret, create_client. rewrite Hplain. unfold no_panic, bind, ret.
  rewrite Hb. cbn [map_err]. unfold endpoint_try_from, bindr, bind, ret. by rewrite Hi.
Qed.

(** The client with the settings of the fixture. *)
Lemma secure_client_run s settings w :
  is_ascii (addr (running s)) = true ->
  exists t w',
    try_build ct fs_read call_error_to_string
      (builder_with (get_https_endpoint (running s)) [WithTls settings]) w
    = (Some (Ok (single ct call_error_to_string (get_https_endpoint (running s)) t [])), w') /\
    made_with t = options_for (W := W) (builder_with (get_https_endpoint (running s)) [WithTls settings])
                    (get_https_endpoint (running s)) (Some settings) /\
    forall b config, up_tls ct fs_read s b config w -> up_tls ct fs_read s b config w'.
Proof.
  intros Ha. destruct (https_secure _ Ha) as [Hp Hcut].
  set (self := builder_with (W := W) (get_https_endpoint (running s)) [WithTls settings]).
  destruct (build_tls_up ct fs_read (factory_for self (endpoint self) settings false) settings w)
    as (t & w' & E & Hmade & Hup).
  { by rewrite options_of_factory. }
  { by rewrite options_of_factory. }
  exists t, w'. rewrite options_of_factory in Hmade. split_and!; [|done|intros b config; apply Hup].
  apply (build_secure self settings); try done. unfold check_values. cbn. by rewrite andb_false_r.
Qed.

Lemma mtls_works_run w :
  exists w', mtls_works ct fs_read call_error_to_string w = (Some (Ok true), w').
Proof.
  unfold mtls_works. destruct (pki_up ct fs_read w) as (pki & w1 & E1).
  destruct (pki_create_run fs_read w pki w1 E1) as (ak & sk & ck & ca & server & client & Hi & Hf & Hd).
  destruct (tls_config_made ct fs_read pki ak sk ck ca server client Hi) as [config Ec].
  destruct (start_tls_up ct fs_read (Reply (bytes_of "secure")) pki ClientAuthRequired config _ w1 Ec Hf)
    as (s & w2 & Et & Hup & Hf2 & Ha).
  destruct (client_resolves fs_read pki sk ck ca server client w2 Hf2 Hd) as (mtls & Em & Er).
  destruct (secure_client_run s (client_tls ca client ck) w2 Ha) as (t & w3 & E3 & Hmade & Hup3).
  destruct (call_tls_up ct fs_read t s (Reply (bytes_of "secure")) config pki ak sk ck ca server client PATH_TEXT
    ping_body (ping_options metadata_default) w3 (bytes_of "secure")) as (h & ts & w4 & E4 & _ & _).
  { by apply Hup3. }
  { exact Ec. }
  { exact Hi. }
  { by rewrite Hmade. }
  { by rewrite Hmade. }
  { split; [rewrite Hmade; intros d [= <-]|apply ping_time; exact Hslack].
    unfold from_millis, from_secs, SECOND, DEFAULT_REQUEST_TIMEOUT_SECS in *. lia. }
  { split; [unfold payload_of; rewrite Hmade; by vm_compute|rewrite Hmade; done|by vm_compute|by apply ping_empty]. }
  { done. }
  { unfold limit. rewrite Hmade. by vm_compute. }
  assert (ping_call (single ct call_error_to_string (get_https_endpoint (running s)) t []) metadata_default w3
          = (Some (Ok (Ok (call_response (bytes_of "secure") h ts))), w4)) as E.
  { apply ping_run; [exact Hpath|]. rewrite bare_call_raw. exact E4. }
  exists w4. run_step (mapped_run FromText _ _ _ _ E1). run_step (mapped_run FromText _ _ _ _ Et).
  unfold mtls_build. rewrite Em. cbn [map_err]. run_pure. run_step (mapped_run FromChannel _ _ _ _ Er). run_step E3. run_step E.
  unfold expect. cbn [map_err message]. run_pure. by rewrite bool_decide_true.
Qed.

(** ** The scenario *)

Lemma last_compressed (l l' : list RecordedRequest) request (frames : list byte) :
  l' = l ++ [request] -> recorded_frames request = [decoded_frame true frames] ->
  EchoServer.is_last_message_compressed l' = true.
Proof. intros -> Hf. unfold EchoServer.is_last_message_compressed. rewrite last_snoc. cbn. by rewrite Hf. Qed.

Lemma all_options_run w :
  exists w',
    all_options_scenario ct fs_read call_error_to_string w = (Some (Ok options_report), w').
Proof.
  unfold all_options_scenario.
  destruct (server_run ct (Reply (bytes_of "pong")) w) as (s & w1 & E1 & Hup1 & _ & _ & _ & Ha & _). run_step E1.
  destruct (log_new ct w1) as (l & w2 & El & Hl0 & Hlog). destruct (Hlog s _ Hup1) as [Hup2 _].
  assert ((no_panic (let! l := new_log in ret (Ok l)) : may_panic W Log BoxError) w1 = (Some (Ok l), w2)) as E2.
  { unfold no_panic, bind, ret. by rewrite El. }
  run_step E2.
  change (KeepAlive.try_new (from_secs 30) (from_secs 10) false) with
    (Ok (KeepAlive.keep_alive_config (from_secs 30) (from_secs 10) false) : Result KeepAliveConfig string).
  cbn [map_err]. run_pure.
  match goal with |- context [try_build ct fs_read call_error_to_string ?b] => set (self := b) end.
  destruct (build_run ct fs_read call_error_to_string self s w2) as (t & w3 & E3 & Htalks & Hd & _);
    [done|by split|done|done|done|].
  run_step E3. destruct (undisturbed_up s _ _ _ Hd Hup2) as [Hup3 _].
  destruct (intercepted_ping ct call_error_to_string Hpath Hslack Hdefault Hparent t (endpoint self) s l "only" []
      None (Some Gzip) (Reply (bytes_of "pong")) (bytes_of "pong") w3)
    as (request & h & ts & w4 & E4 & Hr4 & Hup4 & Hl4 & Hobs).
  { done. }
  { by vm_compute. }
  { exact Hup3. }
  { exact Htalks. }
  { rewrite (talks_payload _ _ _ _ Htalks). apply Hcompress. }
  { done. }
  { by vm_compute. }
  run_step E4. unfold expect at 1. cbn [map_err message]. run_pure.
  rewrite !(last_header s _ _ _ _ Hr4), (traced_encoding _ _ _ _ Hobs).
  change "traceparent"%string with TRACEPARENT. rewrite (traced_parent _ _ _ _ Hobs).
  destruct (limit_refuses_run w4) as (w5 & E5). run_step E5.
  destruct (times_out_run w5) as (w6 & E6). run_step E6.
  destruct (mtls_works_run w6) as (w7 & E7). run_step E7.
  exists w7. unfold is_last_message_compressed. rewrite (last_compressed _ _ _ _ Hr4 (traced_frames _ _ _ _ Hobs)).
  rewrite Hl4, (touched_logs _ _ _ _ Hd), Hl0. destruct (encoding_names ct) as [Hgzip _].
  cbn [fmap option_fmap option_map]. rewrite Hgzip. cbn [message]. by rewrite !bool_decide_true.
Qed.

(** The scenario of the options runs to its end on any host, and each of its eight effects is there: a
    message compressed with gzip and announced, the trace context, the hooks of the interceptor, the
    answer over the limit and the one that is late refused, and the peer that asks for the client's
    certificate answering. *)
Theorem all_options_complete w :
  exists w',
    all_options_scenario ct fs_read call_error_to_string w = (Some (Ok options_report), w').
Proof. exact (all_options_run w). Qed.
End options.

Lemma all_options_complete_witness :
  exists w',
    all_options_scenario net_clients net_read (fun _ => "text"%string) empty_net
    = (Some (Ok options_report), w').
Proof.
  refine (all_options_complete net_clients net_read (fun _ => "text"%string) _ _ _ _ _ empty_net).
  - reflexivity.
  - vm_compute. discriminate.
  - by repeat split.
  - by apply stored_here.
  - intros c. by vm_compute.
Defined.
