(* ===== verification/Generic.v ===== *)
(** * One function for every client

    The scenario of the generic client: the bare client, the one wrapped in the retry decorator and
    the one with the circuit breaker on top of it are given to one function, and each answers with
    what was sent, raw and typed, on any engine, clock and state machine that do what is documented
    of them. *)

From S2P Require Import Prelude Text Bytes Contract Metadata Interceptors Intercepted InterceptedSpec Channel Endpoint EgressBuilder F64 RetryConfig RetryClassifier Retry RetrySpec RetrySteady BreakerConfig Breaker BreakerSpec Frames Peer Fixtures Stack Suite Host Wire Network Scenarios ScenarioSpec.
From Stdlib Require Import NArith Lia Strings.Byte.
From stdpp Require Import base tactics strings option list.

Open Scope N_scope.

Definition generic_report : ScenarioReport := all_seen "generic client"
  ["the bare client is passed to a generic function";
   "the same function takes the client wrapped in retry";
   "and the one wrapped in the breaker on top of it";
   "a typed call goes through the same wrapped client"]%string.

Example generic_report_complete : is_complete generic_report = true.
Proof. reflexivity. Qed.

(** ** What a client that echoes does *)

Section echoing.
Context `{HC : Contract} `{HM : !MetadataLaws} (utf8_error : list byte -> string).

Notation Echoed := (EchoText.EchoText utf8_error).

(** Raw and typed calls without a timeout are answered with what was sent, as long as [ok] holds, and
    it keeps holding. *)
Record echoing {V} (c : Client V) (ok : V -> Prop) : Prop := {
  echoes_raw body options v :
    blen body <= 1024 -> empty_metadata (get_metadata options) -> get_timeout options = None -> ok v ->
    exists h ts v', call_raw (raw c) PATH_TEXT body options v = (Ok (call_response body h ts), v') /\ ok v';
  echoes_typed text options v : (N.of_nat (str_len text) <= 1024) -> utf8_valid text = true ->
    empty_metadata (get_metadata options) -> get_timeout options = None -> ok v ->
    exists h ts v', call (typed c) Echoed text options v = (Ok (call_response text h ts), v') /\ ok v';
}.

(** The retry decorator makes one attempt. *)
Context `{HB : Backoff} `{HO : !OptionsLaws}.

Lemma first_attempt_run {V R} (clk : Clock V) config path (attempt : option Duration -> eff V (Result R CallError))
    (ok : V -> Prop) (P : R -> V -> Prop) v :
  0 < max_attempts (fields config) -> preserves clk ok -> ok v ->
  (forall v, ok v -> exists r v', attempt None v = (Ok r, v') /\ P r v') ->
  exists r v', run_with_retry clk config path None attempt v = (Ok r, v') /\ P r v'.
Proof.
  intros Hm Hp Hv Ha. unfold run_with_retry, bind.
  pose proof (preserves_now _ _ Hp v Hv) as H1. destruct (now clk v) as [started v1]. cbn in H1.
  pose proof (preserves_rng _ _ Hp v1 H1) as H2. destruct (from_clock clk v1) as [rng v2]. cbn in H2.
  destruct (N.to_nat (max_attempts (fields config))) as [|turns] eqn:E; [lia|].
  cbn [retry_loop]. unfold remaining, bind, ret.
  destruct (Ha v2 H2) as (r & v' & -> & Hr). exists r, v'. by rewrite classify_ok.
Qed.

Lemma preserves_first {F V} (clk : Clock V) (ok : V -> Prop) (f : F) :
  preserves clk ok -> preserves (lift_clock (F := F) clk) (fun s => s.1 = f /\ ok s.2).
Proof.
  intros Hp. split.
  - intros [g v] [Hf Hv]. pose proof (preserves_now _ _ Hp v Hv). cbn. by destruct (now clk v).
  - intros d [g v] [Hf Hv]. pose proof (preserves_sleep _ _ Hp d v Hv). cbn. by destruct (sleep clk d v).
  - intros [g v] [Hf Hv]. pose proof (preserves_rng _ _ Hp v Hv). cbn. by destruct (from_clock clk v).
Qed.

Lemma retry_echoing {W} (clk : Clock W) policy (c : Client W) (ok : W -> Prop) :
  1 < max_attempts (fields policy) -> preserves clk ok -> echoing c ok ->
  echoing (retry_build clk policy c) ok.
Proof.
  intros Hm Hp [Hraw Htyped]. split.
  - intros body options w Hb Hmd Ho Hw. cbn [raw retry_build retry_client retry_raw call_raw].
    unfold retry_call_raw. rewrite Ho. cbn [Retry.config].
    destruct (first_attempt_run clk policy PATH_TEXT
      (raw_attempt (grpc_retry_client c policy) PATH_TEXT body options) ok
      (fun r w' => (exists h ts, r = call_response body h ts) /\ ok w') w ltac:(lia) Hp Hw)
      as (r & w' & E & (h & ts & ->) & Hw'); [|by exists h, ts, w'].
    intros v Hv. destruct (Hraw body (options_create None (get_metadata options)) v Hb)
      as (h & ts & v' & E & Hv'); [by rewrite options_metadata|apply options_timeout|done|].
    exists (call_response body h ts), v'. split_and!; [exact E|by exists h, ts|done].
  - intros text options w Hb Hu Hmd Ho Hw. cbn [typed retry_build retry_client retry_typed call].
    unfold retry_call. cbn [Retry.config]. rewrite (proj2 (N.leb_gt _ _)) by exact Hm.
    cbn [encode_message request_payload EchoText.EchoText EchoText.Text encode_into EchoText.encode_into map_err].
    rewrite Ho.
    match goal with |- context [run_with_retry _ _ _ _ ?a _] => set (attempt := a) end.
    destruct (first_attempt_run (lift_clock clk) policy PATH_TEXT attempt
      (fun s => s.1 = Some text /\ ok s.2)
      (fun r s => (exists h ts, r = call_response text h ts) /\ ok s.2) (Some text, w) ltac:(lia)
      (preserves_first clk ok (Some text) Hp) (conj eq_refl Hw))
      as (r & [f w'] & E & (h & ts & ->) & Hw').
    + intros [f v] [Hf Hv]. cbn in Hf, Hv. subst f.
      destruct (Htyped text (options_create None (get_metadata options)) v Hb Hu)
        as (h & ts & v' & E & Hv'); [by rewrite options_metadata|apply options_timeout|done|].
      exists (call_response text h ts), (None, v'). split_and!; [|by exists h, ts|done].
      unfold attempt, typed_attempt. cbn [Retry.inner]. by rewrite E.
    + exists h, ts, w'. split; [|done].
      etransitivity; [exact (f_equal (fun '(r, (_, w)) => (r, w)) E)|done].
Qed.

(** ** A closed circuit lets a call through that works *)

Context {W : Type} {BT : BreakerTransition W} {BL : TransitionLaws BT}.
Context (ok : W -> Prop).
Context (Hadmit : forall n c w, ok w -> ok (transition_admit n c w).2).
Context (Hrecord : forall n c o w, ok w -> ok (transition_record n c o w).2).

(** A success leaves a closed circuit closed. *)
Context (Hsuccess : forall n c w n' w', transition_record n c OutcomeSuccess w = (Ok n', w') ->
  state n = Closed -> state n' = Closed).

Definition guarded_ok (s : BreakerNode BreakerState * W) : Prop := state s.1 = Closed /\ ok s.2.

Lemma guard_answers {R} (self : GrpcBreakerClient (W := W)) path (m : eff W (Result R CallError)) (P : R -> Prop) n w :
  guarded_ok (n, w) -> (forall w, ok w -> exists r w', m w = (Ok r, w') /\ P r /\ ok w') ->
  exists r s, Breaker.guard self path (lift m) (n, w) = (Ok r, s) /\ P r /\ guarded_ok s.
Proof.
  intros [Hn Hw] Hm. cbn in Hn, Hw. rewrite guard_run. unfold lift at 2.
  destruct (enabled (Breaker.config self)).
  - unfold guarded. pose proof (Hadmit n (policy_of self) w Hw) as Ha.
    destruct (admit_closed (policy_of self) n w Hn) as [w1 E1]. rewrite E1 in *. cbn in Ha.
    destruct (Hm w1 Ha) as (r & w2 & E2 & Hr & Hw2). unfold lift. rewrite E2.
    pose proof (Hrecord n (policy_of self) OutcomeSuccess w2 Hw2) as Hd. cbn [classify_result].
    destruct (transition_record n (policy_of self) OutcomeSuccess w2) as [[n3|e] w3] eqn:E3; cbn in Hd.
    + exists r, (n3, w3). split_and!; [done|done|]. split; [|done]. cbn. by eapply Hsuccess.
    + exists r, (n, w3). split_and!; [done|done|]. by split.
  - destruct (Hm w Hw) as (r & w' & E & Hr & Hw'). exists r, (n, w'). rewrite E. by split_and!.
Qed.

Lemma breaker_echoing (c : Client W) config :
  echoing c ok -> echoing (breaker_client (grpc_breaker_client c config)) guarded_ok.
Proof.
  intros [Hraw Htyped]. split.
  - intros body options [n w] Hb Hmd Ho Hs. cbn [raw breaker_client breaker_raw call_raw].
    unfold breaker_call_raw. rewrite raw_guard. cbn [Breaker.inner].
    destruct (guard_answers (grpc_breaker_client c config) PATH_TEXT
      (call_raw (raw c) PATH_TEXT body options) (fun r => exists h ts, r = call_response body h ts) n w Hs)
      as (r & s & E & (h & ts & ->) & Hs').
    + intros w1 Hw1. destruct (Hraw body options w1 Hb Hmd Ho Hw1) as (h & ts & w2 & E & Hw2).
      exists (call_response body h ts), w2. split_and!; [done|by exists h, ts|done].
    + by exists h, ts, s.
  - intros text options [n w] Hb Hu Hmd Ho Hs. cbn [typed breaker_client breaker_typed call]. cbn [Breaker.inner].
    destruct (guard_answers (grpc_breaker_client c config) PATH_TEXT
      (call (typed c) Echoed text options) (fun r => exists h ts, r = call_response text h ts) n w Hs)
      as (r & s & E & (h & ts & ->) & Hs').
    + intros w1 Hw1. destruct (Htyped text options w1 Hb Hu Hmd Ho Hw1) as (h & ts & w2 & E & Hw2).
      exists (call_response text h ts), w2. split_and!; [done|by exists h, ts|done].
    + by exists h, ts, s.
Qed.
End echoing.

(** ** The scenario *)

Section scenario.
Context `{HC : Contract} `{HM : !MetadataLaws} `{HO : !OptionsLaws} `{HT : TransportOptions}.
Context `{HH : Http} `{HHL : !HttpLaws} `{HP : MethodPaths} `{HB : Backoff}.
Context {W T : Type} `{HE : !Engine W T} `{HLb : !LoadbalancerSvc W} `{HHost : !Host W} `{HLog : !Logs W}.
Context (ct : ClientType W T) `{HW : !Wire W T} `{HWL : !WireLaws ct} `{HTy : !TypedLaws ct}.
Context (fs_read : string -> eff W (Result (list byte) string)).
Context (call_error_to_string : CallError -> string).
Context (clk : Clock W) {BT : BreakerTransition W} {BL : TransitionLaws BT}.
Context (Hpreserves : forall s b, preserves clk (up s b)).
Context (Hadmit : forall n c w, undisturbed w (transition_admit n c w).2).
Context (Hrecord : forall n c o w, undisturbed w (transition_record n c o w).2).
Context (Hsuccess : forall n c w n' w', transition_record n c OutcomeSuccess w = (Ok n', w') ->
  state n = Closed -> state n' = Closed).
Context (Hpath : method_path_create PATH_TEXT = Ok PATH_TEXT) (Hslack : slack <= from_millis 100).
Context (options_default : CallOptions) (Hdefault : get_timeout options_default = None).
Context (Hempty : empty_metadata (get_metadata options_default)).
Context (utf8_error : list byte -> string).

Lemma blen_bytes_of text : blen (bytes_of text) = N.of_nat (str_len text).
Proof.
  unfold blen, bytes_of, str_len. f_equal. unfold String.list_byte_of_string. rewrite length_map.
  by induction text as [|c text IH]; [|cbn; rewrite <- IH].
Qed.

Lemma bare_echoing t url s :
  talks t s None -> echoing utf8_error (single ct call_error_to_string url t []) (up s Echo).
Proof.
  intros Ht. split.
  - intros body options w Hb He Ho Hup.
    destruct (exchange_ok ct t s None Echo PATH_TEXT body options w body Hup Ht) as
      (request & h & ts & w' & E & _ & _ & _ & _ & Hup' & _).
    + by rewrite Ho.
    + by rewrite (talks_payload _ _ _ _ Ht).
    + by apply empty_slight; [|vm_compute].
    + by rewrite (talks_payload _ _ _ _ Ht).
    + done.
    + exists h, ts, w'. by rewrite bare_call_raw.
  - intros text options w Hb Hu He Ho Hup.
    assert (blen (bytes_of text) = N.of_nat (str_len text)) as Hlen.
    { apply blen_bytes_of. }
    destruct (typed_up ct t s Echo (EchoText.EchoText utf8_error) text options w (bytes_of text)
      (bytes_of text) text Hup (talks_to _ _ _ Ht)) as (h & ts & w' & E & _ & _ & Hup' & _).
    + apply (talks_prompt _ _ _ Ht). by rewrite Ho.
    + done.
    + apply (talks_modest t s None); [done| |done|by apply empty_slight; [|vm_compute]].
      by rewrite (talks_payload _ _ _ _ Ht), Hlen.
    + by rewrite (talks_payload _ _ _ _ Ht).
    + pose proof (talks_limit _ _ _ Ht). rewrite Hlen. lia.
    + cbn. unfold EchoText.decode. unfold bytes_of. by rewrite list_byte_string, Hu.
    + exists h, ts, w'. by rewrite bare_call.
Qed.

Lemma pings_run {V} (c : Client V) ok text v :
  echoing utf8_error c ok -> blen (bytes_of text) <= 1024 -> ok v ->
  exists v', pings options_default c text v = (Some (Ok true), v') /\ ok v'.
Proof.
  intros Hc Hb Hv. destruct (echoes_raw _ _ _ Hc (bytes_of text) options_default v Hb Hempty Hdefault Hv)
    as (h & ts & v' & E & Hv').
  exists v'. split; [|done]. unfold pings, bindp, bind, no_panic, ping, bindr, bind, ret.
  unfold PATH_TEXT in *. rewrite Hpath. cbn [map_err]. rewrite E. cbn. unfold bind, ret, pure_result.
  by rewrite bool_decide_true.
Qed.

(** The calls on the guarded client. *)
Lemma generic_calls_run (c : Client (BreakerNode BreakerState * W)) ok report s :
  echoing utf8_error c ok -> ok s ->
  exists s', generic_calls options_default utf8_error report c s
    = (Some (Ok (Suite.record (Suite.record report "and the one wrapped in the breaker on top of it" true)
         "a typed call goes through the same wrapped client" true)), s').
Proof.
  intros Hc Hs. unfold generic_calls.
  destruct (pings_run c ok "breaker" s Hc) as (s1 & E1 & Hs1); [by vm_compute|done|]. run_step E1.
  destruct (echoes_typed _ _ _ Hc "typed" options_default s1) as (h & ts & s2 & E2 & _);
    [by vm_compute|done..|].
  run_step (mapped_run FromCall _ _ _ _ E2). cbn [message]. exists s2. by rewrite bool_decide_true.
Qed.

(** The scenario of the generic client runs to its end on any host, clock and state machine, and each
    of its four effects is there: the one function gets back what it sent through the bare client,
    through the one wrapped in retry and through the one with the breaker on top, and a typed call
    through that one gets back the text it sent. *)
Theorem generic_client_complete w :
  exists w',
    generic_client_scenario ct fs_read call_error_to_string clk options_default utf8_error w
    = (Some (Ok generic_report), w').
Proof.
  unfold generic_client_scenario.
  destruct (server_run ct Echo w) as (s & w1 & E1 & Hup1 & _ & _ & _ & Ha & _). run_step E1.
  destruct (build_run ct fs_read call_error_to_string (builder_with (server_endpoint s)
    [WithPlaintextAllowed]) s w1) as (t & w2 & E2 & Ht & Hd & _);
    [done|apply allowed_builder_ok|done|done|done|].
  run_step E2. destruct (undisturbed_up s _ _ _ Hd Hup1) as [Hup2 _].
  destruct (pings_run _ _ "bare" w2 (bare_echoing t (server_endpoint s) s Ht)) as (w3 & E3 & Hup3);
    [by vm_compute|done|]. run_step E3.
  destruct (build_run ct fs_read call_error_to_string (builder_with (server_endpoint s)
    [WithPlaintextAllowed]) s w3) as (t' & w4 & E4 & Ht' & Hd4 & _);
    [done|apply allowed_builder_ok|done|done|done|].
  run_step E4. destruct (undisturbed_up s _ _ _ Hd4 Hup3) as [Hup4 _].
  pose proof (retry_echoing utf8_error clk RetryConfig.default _ _ eq_refl (Hpreserves s Echo)
    (bare_echoing t' (server_endpoint s) s Ht')) as Hr.
  destruct (pings_run _ _ "retry" w4 Hr) as (w5 & E5 & Hup5); [by vm_compute|done|]. run_step E5.
  change (breaker_build BreakerConfig.default ?c) with
    (Ok (breaker_client (grpc_breaker_client c BreakerConfig.default), new_node) : Result _ BreakerError).
  cbn [map_err]. run_pure.
  pose proof (breaker_echoing utf8_error (up s Echo)
    (fun n c w H => proj1 (undisturbed_up s Echo _ _ (Hadmit n c w) H))
    (fun n c o w H => proj1 (undisturbed_up s Echo _ _ (Hrecord n c o w) H)) Hsuccess _ BreakerConfig.default Hr) as Hg.
  match goal with |- context [generic_calls _ _ ?r ?c] =>
    destruct (generic_calls_run c _ r (new_node, w5) Hg (conj eq_refl Hup5)) as ([n' w'] & E) end.
  exists w'. etransitivity; [|exact (f_equal (fun '(r, (_, w)) => (r, w)) E)]. reflexivity.
Qed.
End scenario.

Lemma generic_client_complete_witness :
  exists w',
    generic_client_scenario net_clients no_file (fun _ => "text"%string) net_clock
      (options_create None metadata_default) (fun _ => "text"%string) empty_net
    = (Some (Ok generic_report), w').
Proof.
  refine (generic_client_complete net_clients no_file (fun _ => "text"%string) net_clock _ _ _ _ _ _
    (options_create None metadata_default) _ _ (fun _ => "text"%string) empty_net).
  - by split.
  - intros. apply undisturbed_refl.
  - intros. apply undisturbed_refl.
  - intros [[] f k] c w n' w'; cbn; intros [= <- <-]; done.
  - reflexivity.
  - vm_compute. discriminate.
  - reflexivity.
  - by repeat split.
Defined.
