(* ===== verification/Root.v ===== *)
(** * The whole suite

    The program of [examples/composition-root/src/main.rs]: the nine scenarios in order and the exit
    code.  They are complete on every engine, host, pool, clock, runtime and state machine that do
    what is documented of them. *)

From S2P Require Import Prelude Text Bytes Contract Metadata Interceptors Intercepted InterceptedSpec Identity Cancellation Channel Pki Endpoint EgressBuilder AsyncClient F64 RetryConfig RetryClassifier Retry RetrySpec RetrySteady BreakerConfig Breaker BreakerSpec Frames Peer Fixtures Stack Suite Host Wire Runtime Network NetRuntime Scenarios ScenarioSpec CancelScenario Outage Balanced AllOptions Generic.
From Stdlib Require Import NArith Lia Strings.Byte.
From stdpp Require Import base tactics strings option list.

Open Scope N_scope.

(** ** The program *)

Section program.
Context `{Contract} `{MethodPaths} `{TransportOptions} `{Backoff} {W T : Type}.
Context `{!Engine W T} `{!LoadbalancerSvc W} `{!Host W} `{!Logs W}.
Context `{!RcgenSvc W} `{!Disk W} `{!TlsHost W}.
Context (ct : ClientType W T) (fs_read : string -> eff W (Result (list byte) string)).
Context (call_error_to_string : CallError -> string) (clk : Clock W) `{!BreakerTransition W}.
Context (is_open : BreakerState -> bool) (options_default : CallOptions) (utf8_error : list byte -> string).
Context (toml_from_str : string -> Result ChannelConfig.GrpcChannelConfigData string).
Context (toml_custom : string -> string).
Context (traced_context : SecurityContext) (metadata_create : list (string * string) -> Metadata).
Context (entry_create : string -> string -> Result (string * string) MetadataError).

(** What runs the futures of the cancellation scenario, and how often they are polled at most. *)
Context `{!EngineFutures W T ct} `{!Runtime W} `{!EchoPeers W} (fuel : nat).

(** The vector of [ScenarioSuite::run_all]. *)
Definition suite : list (may_panic W ScenarioReport BoxError) :=
  [all_options_scenario ct fs_read call_error_to_string;
   loaded_config_scenario ct fs_read call_error_to_string toml_from_str toml_custom;
   interceptor_scenario ct fs_read call_error_to_string;
   loadbalancer_scenario ct fs_read call_error_to_string;
   decorator_scenario ct fs_read call_error_to_string clk is_open;
   invalid_combination_scenario ct fs_read call_error_to_string;
   generic_client_scenario ct fs_read call_error_to_string clk options_default utf8_error;
   cancellation_scenario ct fs_read call_error_to_string clk options_default fuel;
   security_context_scenario ct fs_read call_error_to_string traced_context metadata_create entry_create].

(** [ScenarioSuite::run], and [main], which is it. *)
Definition suite_run (error_to_string : BoxError -> string)
    (write_line : string -> eff W (Result unit string)) : eff W (option ExitCode) :=
  run_to error_to_string write_line suite.
End program.

(** ** Running a list of scenarios *)

Lemma run_all_each {W E} (scenarios : list (may_panic W ScenarioReport E)) (reports : list ScenarioReport) :
  Forall2 (fun run report => forall w, exists w', run w = (Some (Ok report), w')) scenarios reports ->
  forall w, exists w', run_all scenarios w = (Some (Ok reports), w').
Proof.
  induction 1 as [|run report scenarios reports Hrun _ IH]; intros w; [by exists w|].
  destruct (Hrun w) as (w1 & E1). destruct (IH w1) as (w2 & E2). exists w2.
  cbn [run_all]. run_step E1. by run_step E2.
Qed.

Lemma all_complete reports :
  Forall (fun report => is_complete report = true) reports -> forallb is_complete reports = true.
Proof. induction 1 as [|report reports Hr _ IH]; [done|]. cbn. by rewrite Hr, IH. Qed.

(** The report of a complete scenario is one line. *)
Lemma complete_lines reports :
  Forall (fun report => is_complete report = true) reports ->
  concat (report_lines <$> reports) = heading <$> reports.
Proof.
  induction 1 as [|report reports Hr _ IH]; [done|]. cbn. rewrite IH.
  apply is_complete_spec in Hr as [_ Hr]. f_equal. unfold missing_lines.
  assert (List.filter (fun e => negb (observed e)) (effects report) = []) as ->; [|done].
  induction Hr as [|e l He _ IHe]; [done|]. cbn. by rewrite He.
Qed.

Section whole.
Context `{HC : Contract} `{HM : !MetadataLaws} `{HO : !OptionsLaws} `{HT : TransportOptions}.
Context `{HH : Http} `{HHL : !HttpLaws} `{HP : MethodPaths} `{HB : Backoff}.
Context {W T : Type} `{HE : !Engine W T} `{HLb : !LoadbalancerSvc W} `{HHost : !Host W} `{HLog : !Logs W}.
Context `{HR : !RcgenSvc W} `{HD : !Disk W} `{HTls : !TlsHost W} {BT : BreakerTransition W}.
Context (ct : ClientType W T) (fs_read : string -> eff W (Result (list byte) string)).
Context (call_error_to_string : CallError -> string) (clk : Clock W).
Context (is_open : BreakerState -> bool) (options_default : CallOptions) (utf8_error : list byte -> string).
Context (toml_from_str : string -> Result ChannelConfig.GrpcChannelConfigData string).
Context (toml_custom : string -> string).
Context (traced_context : SecurityContext) (metadata_create : list (string * string) -> Metadata).
Context (entry_create : string -> string -> Result (string * string) MetadataError).
Context `{HF : !EngineFutures W T ct} `{HRt : !Runtime W} `{HEcho : !EchoPeers W} (fuel : nat).
Context (error_to_string : BoxError -> string) (write_line : string -> eff W (Result unit string)).

(** What is documented of everything outside the repository. *)
Context `{HW : !Wire W T} `{HWL : !WireLaws ct} `{HPL : !PoolLaws (W := W) (T := T)} `{HTy : !TypedLaws ct}.
Context `{HPki : !PkiLaws W fs_read} `{HTL : !TlsLaws ct fs_read}.
Context `{HRL : !RuntimeLaws clk} `{HEL : !EchoLaws ct clk} {BL : TransitionLaws BT}.
Context (Hslack : slack <= from_millis 100).
Context (Hadmit : forall n c w, undisturbed w (transition_admit n c w).2).
Context (Hrecord : forall n c o w, undisturbed w (transition_record n c o w).2).
Context (Hsuccess : forall n c w n' w', transition_record n c OutcomeSuccess w = (Ok n', w') ->
  state n = Closed -> state n' = Closed).
Context (Hopen : forall c (n : Node) w, cooling c n w -> is_open (state n) = true).
Context (Hclk : steady clk time slack).
Context (Hkeeps : forall s, keeps clk (requests s)) (Hpreserves : forall s b, preserves clk (up s b)).
Context (Hbackoff : forall (c : RetryFields) a u, RetryConfig.well_formed c ->
   RetryConfig.jitter_factor c = f64_zero -> f64_le f64_one (RetryConfig.backoff_multiplier c) = true ->
   next_backoff (backoff_policy (retry_config c)) a u <= from_millis (RetryConfig.max_backoff_ms c)).
Context (Hpath : method_path_create PATH_TEXT = Ok PATH_TEXT).
Context (Hmetadata : empty_metadata metadata_default).
Context (Hoptions : get_timeout options_default = None).
Context (Hempty : empty_metadata (get_metadata options_default)).
Context (Hidentity : forall i, get_identity (tls_create None [] (Some i)) = Some i).
Context (Hparent : stored TRACEPARENT SCENARIO_TRACEPARENT) (Hstate : stored TRACESTATE "vendor=1").
Context (Htrace : stored "x-trace-id" "trace-1") (Htenant : stored "x-tenant-id" "tenant-7").
Context (Hbearer : stored "authorization" "Bearer jwt-abc").
Context (Hcontext : ctx_trace_id traced_context = Some "trace-1"%string /\ ctx_metadata traced_context = []).
Context (entry : string * string) (Hentry : entry_create "x-trace-id" "caller" = Ok entry).
Context (Hcreate : built (metadata_create [entry]) /\
   text (metadata_create [entry]) = [("x-trace-id", "caller")]%string /\
   binary (metadata_create [entry]) = []).
Context (Haddress : forall s b w, up s b w -> quotable (addr (running s)) = true).
Context (Htoml : forall url, quotable url = true -> toml_from_str (config_for url) = Ok (gzip_data url)).
Context (Hcompress : forall c, blen (compress c ping_body) <= 1024).
Context (out : string -> W -> W) (Hwrite : forall l w, write_line l w = (Ok tt, out l w)).
Context (Hecho : method_path_create ECHO_PATH = Ok ECHO_PATH).
Context (Hfuel : from_secs 2 <= N.of_nat fuel * grain clk) (Hnotice : notice ct clk <= from_secs 2).

Notation the_suite := (suite ct fs_read call_error_to_string clk is_open options_default utf8_error
  toml_from_str toml_custom traced_context metadata_create entry_create fuel).

Definition suite_reports : list ScenarioReport :=
  [options_report; loaded_report; interceptor_report; balanced_report; decorator_report;
   combination_report; generic_report; cancellation_report; security_report].

Lemma suite_ran w : exists w', run_all the_suite w = (Some (Ok suite_reports), w').
Proof.
  destruct (run_all_each the_suite suite_reports) with (w := w) as [w' E]; [|by exists w'].
  unfold suite, suite_reports. repeat (apply Forall2_cons; split; [intros v|]); [..|by constructor].
  - exact (all_options_run ct fs_read call_error_to_string Hpath Hslack Hmetadata Hparent Hcompress v).
  - exact (loaded_config_complete ct fs_read call_error_to_string Hpath Hslack Haddress toml_from_str
      toml_custom Htoml Hcompress Hmetadata v).
  - exact (interceptor_scenario_complete ct fs_read call_error_to_string Hpath Hslack Hmetadata Hparent
      Hstate v).
  - exact (loadbalancer_scenario_complete ct fs_read call_error_to_string Hpath Hslack Hmetadata v).
  - exact (decorator_run ct fs_read call_error_to_string Hadmit Hrecord is_open Hopen clk Hclk Hslack
      Hkeeps Hpreserves Hbackoff Hpath Hmetadata v).
  - exists v. by apply (invalid_combination_complete ct fs_read call_error_to_string).
  - exact (generic_client_complete ct fs_read call_error_to_string clk Hpreserves Hadmit Hrecord Hsuccess
      Hpath Hslack options_default Hoptions Hempty utf8_error v).
  - exact (cancellation_run ct fs_read call_error_to_string clk Hclk Hslack options_default Hoptions Hempty Hecho
      fuel Hfuel Hnotice v).
  - exact (security_context_complete ct fs_read call_error_to_string Hpath Hslack Hmetadata Htrace Htenant
      Hbearer traced_context metadata_create entry_create Hcontext entry Hentry Hcreate v).
Qed.

End whole.

